(* ===== verification/_CoqProject ===== *)
-Q . S2P
Prelude.v
CLib.v
RingBuffer.v
MergeSort.v
KHash.v
KHashFlags.v
KHashProof.v
KHashProbe.v
KHashSpec.v
KHashSet.v
KHashIter.v
Rocks.v
RocksProof.v
RocksSpec.v
RocksSession.v
Bytes.v
Checksum.v
Sys.v
Net.v
LevelServer.v
LevelLoad.v
HowTo.v
CondWait.v
Small.v
Sniffer.v
SnifferSpec.v
Dpdk.v
Clients.v
UtHashFn.v
UtMurmur.v
UtHash.v
UtHashProof.v
UtHashSpec.v
UtHashSort.v
UtHashSelect.v
UtHashEmit.v
IntTable.v
Echo.v
LatencyPair.v
Datagram.v
DatagramPair.v
Message.v
CppSort.v
CppStack.v
CppGraph.v
CppTree.v
CppSmall.v
Asio.v
Paxos.v
