(* ===== verification/Prelude.v ===== *)
(** * Verification of the C and C++ programs of the repository

    The repository collects independent programs: data structures, network
    clients and servers, a key-value shell, packet tools, exercises and small
    examples.  Each is modelled by executable definitions in the order of its
    source, and the theorems say what makes it correct, or under which conditions
    it is not.

    ** Conventions

    This file defines what the models share: the outcomes of C code ([outcome]:
    normal result, exit, undefined behaviour, fuel used up), machine integers
    ([int] overflow is undefined: [cint]; unsigned types wrap: [u8] ... [u64]),
    blocks of memory ([rd], [wr] with bounds), byte order, the development's
    tactics, and lemmas on lists, folds and finite maps.  [CLib] holds strings,
    [atoi] and printing; [Bytes] integer fields inside byte buffers; [Sys] programs
    that talk to the system: a program is run on a list of answers (results of
    calls) and yields the trace of its calls and output with its outcome.
    Libraries that are not part of the repository (RocksDB, LevelDB, libevent,
    libpcap, DPDK, Asio, the resolver) are parameters or type classes with the laws the
    programs rely on; instances show that the laws can hold, and every theorem
    about them has a witness on an instance.

    ** Programs, files and theorems

    - [RingBuffer] ([ring_buffer/]): [ringbuf_t], PushToQueue, RetrieveFromQueue,
      PrintBuffer and the drivers.  Every sequence of operations on a ring with
      [size] cells refines a bounded FIFO queue; NewRingBuffer allocates one cell,
      so the second push is out of bounds.
    - [MergeSort] ([sorts/mergeSort.c]): the merge loops, mergeSort and main.  The
      sort terminates, stays in bounds, sorts its segment and keeps the rest.
    - [KHash], [KHashFlags], [KHashProof], [KHashProbe], [KHashSpec], [KHashSet],
      [KHashIter] ([hash_table/khash.h], [example.c]): the table with its two-bit flags,
      probing, kick-out rehashing and failing allocations.  Invariant and lemmas in the
      second and third; [KHashProbe] treats the probe loops on tables without empty
      buckets, and the table whose keys or values a failed shrinking reallocation has
      lost; [KHashSpec] gives the refinement to finite maps (up to such a reallocation,
      which the code does not check), the completeness of the probing and the output of
      the example, [KHashSet] the variant without values, simulated by the map, and its
      refinement to finite sets, [KHashIter] the iteration over all bindings.  Fuel
      [2 * n_buckets] for probing is enough because the probe sequence visits every
      bucket once in [n_buckets] steps.
    - [Rocks], [RocksProof], [RocksSpec], [RocksSession]
      ([rocksdb_playground/src/main.c], [datastore.c]): the shell with its line
      parsing, commands, batches and checkpoints against the class of RocksDB
      operations.  Line handling equals the reference string functions; sessions
      refine an abstract key-value shell, in which a command fails only where the library
      reports an error, or follow it up to one of the named undefined uses.
    - [Checksum] ([checksum/main.c], [raw_socket/main.c]): the internet checksum
      against the sum of the words, and its verification; the packet that is built;
      overflow of long messages.
    - [Net] ([fast_leveldb/src/net.c], the same file in
      [how-to-receive-a-million-packets/]): addresses and sockets; parsing and
      printing round trip, errors.
    - [LevelServer] ([fast_leveldb/src/udpreceiver.c], [udpsender.c]): the request
      format, [deliver] refining map operations, the batch receive loop with its
      counters, start-up, the load generator.  [LevelLoad]: the server with clients that
      send complete requests is a sequential map, whatever the batches and the older
      contents of its buffers; the load generator leaves the map alone.  [HowTo]
      ([how-to-receive-a-million-packets/udpreceiver1.c], [udpsender.c]): the
      packet counters.
    - [CondWait] ([pthread_wait/main.c]): the three threads as a step relation, with
      spurious wake-ups; mutual exclusion and the counter as an invariant of every
      interleaving, no deadlock, at most 111 steps, final values 20 or 145.
    - [Small] ([cmake-tutorial/], [profiling/], [multithread/]).
    - [Sniffer], [SnifferSpec] ([libpcap/sniffex.c]): the hex dump equals a reference
      dump; which captures can be dissected and which are read past their end; packets
      put together from headers and a payload are dissected into them.
    - [Dpdk] ([client_server/dpdk/src/basicfwd.c], [dpdk/gen_packet/main.c]): ARP
      and ICMP replies, the forwarding loop that transmits or frees every received packet,
      crafted packets,
      the sending loop, the timer loop over a counter that wraps around.
    - [Clients] ([client_server/tcp], [uthash], [udp], [msg_hdr], each
      [src/client.c]): the difference of times, sessions of the TCP client, the
      statistics of the batched client.
    - [UtHashFn], [UtMurmur], [UtHash], [UtHashProof], [UtHashSpec], [UtHashSort],
      [UtHashSelect], [UtHashEmit] ([client_server/uthash/src/uthash.h]): the hash functions; Murmur
      hashing with aligned reads only, in both byte orders, where the index of a block is
      lost for unaligned keys; the macros on a heap of handles with failing allocations; the invariant (doubly linked lists, chains,
      counts) and the lemmas of insertion, expansion and removal; sessions of the
      macros refine an ordered dictionary, up to an addition for which an allocation is
      refused or which doubles 2^31 buckets; the library's own integrity check passes; HASH_SRT is
      a stable sort; HASH_SELECT and its stale tail pointer; the Bloom filter; the keys
      that HASH_EMIT_KEY writes can be read back.
    - [IntTable]: what a program that uses integer keys needs of the macros, as a class
      with laws, and uthash as its instance.
    - [Echo] ([client_server/tcp/src/server.c], [client_server/uthash/src/server.c]):
      the class [BufferEvents] (libevent's buffers); the TCP server refines an echo
      per connection, the proxy refines the TCP server for every [IntTable].
    - [LatencyPair]: the TCP client of [Clients] with a server of the class [EchoServer],
      which both servers of [Echo] implement, over one connection with any segmentation and
      interleaving: one request is under way and the latencies are exact.
    - [Datagram] ([client_server/udp/src/server.c],
      [client_server/msg_hdr/src/server.c]): echo of datagrams, and what the batched
      server sends beyond them.
    - [DatagramPair]: the two datagram clients of [Clients] (class [DatagramClient]) with
      the two servers of [Datagram] (class [DatagramServer]) over a network that loses,
      copies and reorders datagrams: every run is defined, every latency is that of a
      request sent before, requests and replies are conserved up to losses and
      copies, and after the last one is lost the client is silent.
    - [Message] ([struct_serialization/]): the message layout round trip and one
      exchange of client and server.
    - [CppSort] ([c++/src/sorting.cpp], [searching.cpp]): the quadratic sorts equal a
      reference sort; merge_sort leaves its buffer from four elements on and quick_sort
      does not return; linear and binary search are right on sorted arrays, the
      interpolation search up to its last element.
    - [CppStack] ([c++/include/stack.h], [stack.cpp], [hanoi_tower.cpp]): the stack
      refines a bounded list; the tower of Hanoi moves legally.
    - [CppGraph] ([c++/src/graph.cpp]): queue, graph and both searches, which are one
      loop over the class [Frontier]; they visit what can be reached, the breadth-first
      search in the order of the distance, the depth-first search in the order of the
      recursive search.
    - [CppTree] ([c++/src/tree.cpp], [binaryTree/TreeNode.cpp], [traversal.cpp],
      [pathSum.cpp]): trees on a heap; the search tree is a set; orders, levels, zigzag
      and path sums against functions on trees; freeTree frees every node once.
    - [CppSmall] ([binaryTree/Duplication.cpp], [SearchMatrix.cpp],
      [c++/src/inheritance.cpp], [overload.cpp], [poly.cpp], [hashmap/src/main.cc]).
    - [Asio] ([client_server/asio/]): constructors, handlers and mains of the timer server
      and client with their exceptions, how the client ends, and the latencies of the
      two together.
    - [Paxos] ([static_library/]): the packed messages and their union in memory, what the
      drivers print of them, and the three drivers for every Paxos library.

    ** Fuel

    Loops that are structural on a list (received batches, events, callbacks)
    need no fuel.  The others take a [nat] that the caller sets to a bound of the
    number of iterations; every theorem on them shows a result other than
    [NoFuel].  Endless loops (servers, generators) are run on the list of what
    happens to them, and [NoFuel] marks the point where they wait for more.

    ** Not modelled

    The Paxos library of [static_library/] is present as headers and a binary archive
    only, so it is a parameter; the [khash.h] there is another copy of
    [hash_table/khash.h].  Of [uthash.h] the definitions for compilers without [typeof]
    are left out.  Python, R and gnuplot scripts are not programs of this
    kind.  In the modelled programs, text formatted by libraries, the floating point
    average of the batched client and the source locations in fatal messages are left
    out; [new] of a size that is not negative is granted.  After a signal or a listener
    error has told libevent's loop to exit, the callbacks that are already active still
    run: the event lists of [Echo] cover them, and [LatencyPair] speaks of the time
    before.  Threads that do not share data ([fast_leveldb], [multithread]) are modelled
    one at a time. *)
From stdpp Require Export base numbers strings gmap list.
#[global] Open Scope Z_scope.

(** ** Outcomes of C code

    [Ok a] is a normal result; [Exit c] is a call of [exit(c)]; [Ub] is the
    behaviour the C standard leaves undefined (an access outside an object, a
    read of an indeterminate value, an overflow of a signed integer, a division
    by zero, a dereference of a null pointer); [NoFuel] is the model's own
    value for a loop that was given too little fuel, and every theorem about a
    loop excludes it. *)
Inductive outcome (A : Type) : Type :=
| Ok (a : A)
| Exit (code : Z)
| Ub
| NoFuel.
Arguments Ok {A} a.
Arguments Exit {A} code.
Arguments Ub {A}.
Arguments NoFuel {A}.

(** Sequencing: [k] runs only after a normal result. *)
Definition obind {A B} (o : outcome A) (k : A -> outcome B) : outcome B :=
  match o with
  | Ok a => k a
  | Exit c => Exit c
  | Ub => Ub
  | NoFuel => NoFuel
  end.
Arguments obind : simpl never.

Declare Scope c_scope.
Delimit Scope c_scope with C.
#[global] Open Scope c_scope.

(** Sequencing of C statements whose outcome may end the run. *)
Notation "'let!' x ':=' e 'in' k" := (obind e (fun x => k))
  (at level 10, x binder, e at level 100, k at level 200,
   format "'[v' 'let!'  x  ':='  e  'in'  '/' k ']'") : c_scope.

(** ** Machine integers (LP64, two's complement, little endian) *)
Definition INT_MAX : Z := 2147483647.
Definition INT_MIN : Z := -2147483648.

(** A result of [int] arithmetic: overflow is undefined. *)
Definition in_int (z : Z) : bool := (INT_MIN <=? z) && (z <=? INT_MAX).
Definition cint (z : Z) : outcome Z := if in_int z then Ok z else Ub.

(** Conversions to an unsigned type of [w] bits wrap around; conversions to a
    signed type of [w] bits keep the low bits (gcc). *)
Definition uwrap (w z : Z) : Z := z mod 2 ^ w.
Definition swrap (w z : Z) : Z := (z + 2 ^ (w - 1)) mod 2 ^ w - 2 ^ (w - 1).
Definition u8 : Z -> Z := uwrap 8.
Definition u16 : Z -> Z := uwrap 16.
Definition u32 : Z -> Z := uwrap 32.
Definition u64 : Z -> Z := uwrap 64.
Definition i8 : Z -> Z := swrap 8.
Definition i16 : Z -> Z := swrap 16.
Definition i32 : Z -> Z := swrap 32.

(** C division and remainder truncate towards zero. *)
Definition cdiv (a b : Z) : outcome Z := if b =? 0 then Ub else cint (Z.quot a b).
Definition crem (a b : Z) : outcome Z :=
  if b =? 0 then Ub else if in_int (Z.quot a b) then Ok (Z.rem a b) else Ub.

(** ** Objects in memory: a block of cells, indexed from 0 *)
Definition rd {A} (l : list A) (i : Z) : outcome A :=
  if i <? 0 then Ub else match l !! Z.to_nat i with Some a => Ok a | None => Ub end.
Definition wr {A} (l : list A) (i : Z) (a : A) : outcome (list A) :=
  if (0 <=? i) && (i <? Z.of_nat (length l)) then Ok (<[Z.to_nat i := a]> l) else Ub.

(** The length of a block as an integer. *)
Abbreviation len l := (Z.of_nat (length l)).

(** ** Bytes *)
Abbreviation bytes := (list Z) (only parsing).
Definition is_byte (b : Z) : Prop := 0 <= b < 256.

(** Byte order conversions of a little-endian host. *)
Definition htons (x : Z) : Z :=
  Z.lor (Z.shiftl (Z.land x 255) 8) (Z.land (Z.shiftr x 8) 255).
Definition ntohs : Z -> Z := htons.
Definition htonl (x : Z) : Z :=
  Z.lor (Z.lor (Z.shiftl (Z.land x 255) 24)
               (Z.shiftl (Z.land (Z.shiftr x 8) 255) 16))
        (Z.lor (Z.shiftl (Z.land (Z.shiftr x 16) 255) 8)
               (Z.land (Z.shiftr x 24) 255)).
Definition ntohl : Z -> Z := htonl.

(** ** The development's automation *)
Create HintDb cdb.
Arguments cint : simpl never.
Arguments crem : simpl never.
Arguments cdiv : simpl never.
Arguments rd : simpl never.
Arguments wr : simpl never.
Arguments uwrap : simpl never.
Arguments swrap : simpl never.

Ltac int_bounds := unfold INT_MIN, INT_MAX in *; cbn [length] in *; lia.

(** Boolean comparisons on [Z] become arithmetic facts. *)
Ltac zbool :=
  repeat match goal with
  | H : andb _ _ = true |- _ => apply andb_true_iff in H; destruct H
  | H : orb _ _ = false |- _ => apply orb_false_iff in H; destruct H
  | H : negb _ = true |- _ => apply negb_true_iff in H
  | H : negb _ = false |- _ => apply negb_false_iff in H
  | H : (_ <? _) = true |- _ => apply Z.ltb_lt in H
  | H : (_ <? _) = false |- _ => apply Z.ltb_ge in H
  | H : (_ <=? _) = true |- _ => apply Z.leb_le in H
  | H : (_ <=? _) = false |- _ => apply Z.leb_gt in H
  | H : (_ >? _) = _ |- _ => rewrite Z.gtb_ltb in H
  | H : (_ >=? _) = _ |- _ => rewrite Z.geb_leb in H
  | H : (_ =? _) = true |- _ => apply Z.eqb_eq in H
  | H : (_ =? _) = false |- _ => apply Z.eqb_neq in H
  end.

(** Split a conditional of the goal and read off its test. *)
Ltac case_if :=
  match goal with
  | |- context [if ?b then _ else _] =>
      match type of b with bool => destruct b eqn:?; zbool end
  end.

(** ** Shared lemmas *)
Lemma cint_ok z : INT_MIN <= z <= INT_MAX -> cint z = Ok z.
Proof.
  intros H. unfold cint, in_int.
  rewrite (proj2 (Z.leb_le _ _) (proj1 H)), (proj2 (Z.leb_le _ _) (proj2 H)). done.
Qed.

Lemma cint_inv z r : cint z = Ok r -> r = z /\ INT_MIN <= z <= INT_MAX.
Proof. unfold cint, in_int. case_if; [intros [= <-]; lia | done]. Qed.

Lemma crem_ok a b :
  0 <= a <= INT_MAX -> 0 < b -> crem a b = Ok (a mod b).
Proof.
  intros Ha Hb. unfold crem, in_int.
  rewrite (proj2 (Z.eqb_neq b 0)) by lia.
  rewrite Z.quot_div_nonneg, Z.rem_mod_nonneg by lia.
  assert (0 <= a / b <= INT_MAX) as Hq.
  { split; [apply Z.div_pos; lia | ].
    transitivity a; [apply Z.div_le_upper_bound; nia | lia]. }
  unfold INT_MIN. rewrite !(proj2 (Z.leb_le _ _)) by lia. done.
Qed.

Lemma cdiv_ok a b :
  0 <= a <= INT_MAX -> 0 < b -> cdiv a b = Ok (a / b).
Proof.
  intros Ha Hb. unfold cdiv. rewrite (proj2 (Z.eqb_neq b 0)) by lia.
  rewrite Z.quot_div_nonneg by lia. apply cint_ok.
  split; [transitivity 0; [done | apply Z.div_pos; lia] | ].
  transitivity a; [apply Z.div_le_upper_bound; nia | lia].
Qed.

Lemma u32_small z : 0 <= z < 4294967296 -> u32 z = z.
Proof. apply Z.mod_small. Qed.
Lemma i32_add_l a b : i32 (i32 a + b) = i32 (a + b).
Proof.
  unfold i32, swrap. f_equal. replace (_ - _ + b + _) with ((a + 2 ^ (32 - 1)) mod 2 ^ 32 + b) by lia.
  rewrite Zplus_mod_idemp_l. f_equal. lia.
Qed.
Lemma u16_small z : 0 <= z < 65536 -> u16 z = z.
Proof. apply Z.mod_small. Qed.
Lemma u8_small z : 0 <= z < 256 -> u8 z = z.
Proof. apply Z.mod_small. Qed.

Lemma rd_ok {A} (l : list A) i a : 0 <= i -> l !! Z.to_nat i = Some a -> rd l i = Ok a.
Proof. intros Hi Hl. unfold rd. rewrite (proj2 (Z.ltb_ge i 0)) by lia. by rewrite Hl. Qed.

Lemma rd_inv {A} (l : list A) i a :
  rd l i = Ok a -> 0 <= i /\ l !! Z.to_nat i = Some a.
Proof. unfold rd. case_if; [done | ]. destruct (l !! _) eqn:E; [intros [= <-]; auto | done]. Qed.

Lemma wr_ok {A} (l : list A) i a :
  0 <= i < Z.of_nat (length l) -> wr l i a = Ok (<[Z.to_nat i := a]> l).
Proof.
  intros Hi. unfold wr.
  rewrite (proj2 (Z.leb_le 0 i)), (proj2 (Z.ltb_lt i _)) by lia. done.
Qed.

Lemma wr_oob {A} (l : list A) i a : i < 0 \/ Z.of_nat (length l) <= i -> wr l i a = Ub.
Proof. intros Hi. unfold wr. case_if; [lia | done]. Qed.

(** Offsets smaller than the modulus stay distinct after a common shift. *)
Lemma mod_add_inj n s i j :
  0 < n -> 0 <= i < n -> 0 <= j < n -> (s + i) mod n = (s + j) mod n -> i = j.
Proof.
  intros Hn Hi Hj H.
  pose proof (Z.div_mod (s + i) n ltac:(lia)). pose proof (Z.div_mod (s + j) n ltac:(lia)).
  rewrite H in *. destruct (Z.lt_trichotomy ((s + i) / n) ((s + j) / n)) as [? | [E | ?]]; [nia | | nia].
  rewrite E in *. lia.
Qed.

Lemma mod_add_assoc n s i j : (((s + i) mod n) + j) mod n = (s + (i + j)) mod n.
Proof. rewrite Zplus_mod_idemp_l. f_equal. lia. Qed.

(** Accesses at the seam of two segments. *)
Lemma rd_app {A} (P Q : list A) x i :
  i = Z.of_nat (length P) -> rd (P ++ x :: Q) i = Ok x.
Proof.
  intros ->. apply rd_ok; [lia | ]. rewrite Nat2Z.id.
  rewrite lookup_app_r by done. rewrite Nat.sub_diag. done.
Qed.

Lemma wr_app {A} (P Q : list A) x v i :
  i = Z.of_nat (length P) -> wr (P ++ x :: Q) i v = Ok (P ++ v :: Q).
Proof.
  intros ->. rewrite wr_ok by (rewrite length_app; simpl; lia). f_equal.
  rewrite Nat2Z.id. rewrite insert_app_r_alt by done. rewrite Nat.sub_diag. done.
Qed.

Lemma obind_ok {A B} (a : A) (k : A -> outcome B) : obind (Ok a) k = k a.
Proof. done. Qed.

Lemma obind_assoc {A B C} (o : outcome A) (f : A -> outcome B) (g : B -> outcome C) :
  obind (obind o f) g = obind o (fun a => obind (f a) g).
Proof. by destruct o. Qed.

Lemma obind_inv {A B} (o : outcome A) (k : A -> outcome B) r :
  obind o k = Ok r -> exists a, o = Ok a /\ k a = Ok r.
Proof. destruct o; simpl; try done. eauto. Qed.

(** Run the next statement of a C function: discharge the bounds of the
    arithmetic or of the access at its head. *)
Ltac cstep :=
  lazymatch goal with
  | |- obind (cint ?z) _ = _ => rewrite (cint_ok z) by int_bounds
  | |- obind (crem ?a ?b) _ = _ => rewrite (crem_ok a b) by int_bounds
  | |- obind (cdiv ?a ?b) _ = _ => rewrite (cdiv_ok a b) by int_bounds
  | |- obind (wr ?l ?i ?a) _ = _ => rewrite (wr_ok l i a) by int_bounds
  | |- obind (rd ?l ?i) _ = _ => erewrite (rd_ok l i) by (eassumption || lia)
  | |- obind (Ok _) _ = _ => idtac
  end; rewrite ?obind_ok; cbv beta iota.

(** Invert a run that ended normally. *)
Ltac run_inv H :=
  match type of H with
  | obind _ _ = Ok _ =>
      let a := fresh "r" in let E := fresh "E" in
      apply obind_inv in H; destruct H as (a & E & H); cbv beta in H
  end.

(** The least index at which a decidable predicate holds. *)
Lemma least_Z (P : Z -> bool) s0 :
  0 <= s0 -> P s0 = true ->
  exists s, 0 <= s <= s0 /\ P s = true /\ forall s', 0 <= s' < s -> P s' = false.
Proof.
  intros H0. pattern s0. apply Zlt_0_ind; [ | done]. clear s0 H0. intros s0 IH H0 HP.
  destruct (existsb (fun s => P (Z.of_nat s)) (seq 0 (Z.to_nat s0))) eqn:E.
  - apply existsb_exists in E as (s & Hs & HPs). apply in_seq in Hs.
    destruct (IH (Z.of_nat s) ltac:(lia) HPs) as (s1 & ? & ? & ?).
    exists s1. split; [lia | done].
  - exists s0. split; [lia | split; [done | ]]. intros s' Hs'.
    destruct (P s') eqn:E'; [ | done]. exfalso.
    apply not_true_iff_false in E. apply E, existsb_exists.
    exists (Z.to_nat s'). split; [apply in_seq; lia | ]. rewrite Z2Nat.id by lia. done.
Qed.

Lemma perm_hand {E} (l n o : list E) x : l ++ (x :: n) ++ o ≡ₚ (o ++ l) ++ n ++ [x].
Proof.
  rewrite <- app_assoc, (Permutation_app_comm o), <- !app_assoc. apply Permutation_app_head.
  cbn. rewrite <- Permutation_middle. done.
Qed.

(** The default of [last] matters for the empty list only. *)
Lemma last_default {A} (l : list A) x d d' : List.last (x :: l) d = List.last (x :: l) d'.
Proof. revert x. induction l as [ | y l IH]; intros x; [done | ]. apply (IH y). Qed.

(** ** Partial functions on [0..n) as lists of their values *)
Definition entries {E} (f : Z -> option E) (n : Z) : list E :=
  omap (fun i => f (Z.of_nat i)) (seq 0 (Z.to_nat n)).

Section Entries.
Context {E : Type}.
Implicit Types f : Z -> option E.

Lemma elem_of_entries f n e : e ∈ entries f n <-> exists i, 0 <= i < n /\ f i = Some e.
Proof.
  unfold entries. rewrite list_elem_of_omap. split.
  - intros (i & Hi & Hf). apply elem_of_seq in Hi. exists (Z.of_nat i). split; [lia | done].
  - intros (i & Hi & Hf). exists (Z.to_nat i). rewrite elem_of_seq, Z2Nat.id by lia. split; [lia | done].
Qed.

(** Take index [i] out of the enumeration. *)
Lemma entries_split f n i :
  0 <= i < n ->
  exists l, entries f n ≡ₚ option_list (f i) ++ omap (fun j => f (Z.of_nat j)) l /\
    seq 0 (Z.to_nat n) ≡ₚ Z.to_nat i :: l.
Proof.
  intros Hi. destruct (proj1 (elem_of_Permutation (seq 0 (Z.to_nat n)) (Z.to_nat i))) as [l Hl].
  { apply elem_of_seq. lia. }
  exists l. split; [ | done]. unfold entries. rewrite Hl. cbn. rewrite Z2Nat.id by lia.
  destruct (f i); done.
Qed.

Lemma entries_update f f' n i :
  0 <= i < n -> (forall j, 0 <= j < n -> j <> i -> f' j = f j) ->
  exists l, entries f n ≡ₚ option_list (f i) ++ l /\ entries f' n ≡ₚ option_list (f' i) ++ l.
Proof.
  intros Hi Hext. destruct (entries_split f n i Hi) as (l & Hl & Hseq).
  exists (omap (fun j => f (Z.of_nat j)) l). split; [done | ].
  assert (NoDup (Z.to_nat i :: l)) as Hnd by (rewrite <- Hseq; apply NoDup_seq).
  apply NoDup_cons in Hnd as [Hni _].
  unfold entries. rewrite Hseq. cbn. rewrite Z2Nat.id by lia.
  assert (omap (fun j => f' (Z.of_nat j)) l = omap (fun j => f (Z.of_nat j)) l) as Heq.
  { clear Hl. assert (forall j, j ∈ l -> Z.of_nat j < n /\ j <> Z.to_nat i) as Hl.
    { intros j Hj. split; [ | set_solver].
      assert (j ∈ seq 0 (Z.to_nat n)) as Hj' by (rewrite Hseq; set_solver).
      apply elem_of_seq in Hj'. lia. }
    clear Hseq Hni. induction l as [ | j l IH]; [done | ]. cbn.
    destruct (Hl j ltac:(set_solver)). rewrite Hext by lia.
    rewrite IH by set_solver. done. }
  rewrite Heq. destruct (f' i); done.
Qed.

Lemma entries_insert f f' n i e :
  0 <= i < n -> f i = None -> f' i = Some e -> (forall j, 0 <= j < n -> j <> i -> f' j = f j) ->
  entries f' n ≡ₚ e :: entries f n.
Proof.
  intros Hi Hf Hf' Hext. destruct (entries_update f f' n i Hi Hext) as (l & H1 & H2).
  rewrite Hf in H1. rewrite Hf' in H2. rewrite H1, H2. done.
Qed.

Lemma entries_delete f f' n i e :
  0 <= i < n -> f i = Some e -> f' i = None -> (forall j, 0 <= j < n -> j <> i -> f' j = f j) ->
  entries f n ≡ₚ e :: entries f' n.
Proof.
  intros Hi Hf Hf' Hext. apply (entries_insert f' f n i); auto. intros. symmetry. auto.
Qed.

Lemma entries_ext f f' n : (forall j, 0 <= j < n -> f' j = f j) -> entries f' n = entries f n.
Proof.
  intros Hext. unfold entries. assert (forall l : list nat, (forall j, j ∈ l -> (j < Z.to_nat n)%nat) ->
    omap (fun i => f' (Z.of_nat i)) l = omap (fun i => f (Z.of_nat i)) l) as H.
  { induction l as [ | j l IH]; intros Hl; [done | ]. cbn.
    rewrite Hext by (specialize (Hl j ltac:(set_solver)); lia). rewrite IH by set_solver. done. }
  apply H. intros j Hj. apply elem_of_seq in Hj. lia.
Qed.

Lemma entries_nil f n : (forall i, 0 <= i < n -> f i = None) -> entries f n = [].
Proof.
  intros H. destruct (entries f n) as [ | e l] eqn:Eq; [done | ].
  assert (e ∈ entries f n) as He by (rewrite Eq; set_solver).
  apply elem_of_entries in He as (i & Hi & Hf). rewrite H in Hf by done. done.
Qed.

(** Fewer values than indices: some index has none. *)
Lemma entries_hole f n : len (entries f n) < n -> exists i, 0 <= i < n /\ f i = None.
Proof.
  intros Hlt. assert (0 <= n) by lia.
  replace n with (Z.of_nat (Z.to_nat n)) in * by lia. revert Hlt. generalize (Z.to_nat n) as N.
  clear. unfold entries. intros N. rewrite Nat2Z.id. induction N as [ | N IH]; intros Hlt; [simpl in Hlt; lia | ].
  destruct (f (Z.of_nat N)) as [e | ] eqn:Ef; [ | exists (Z.of_nat N); split; [lia | done]].
  destruct IH as (i & Hi & Hfi); [ | exists i; split; [lia | done]].
  rewrite seq_S, omap_app, length_app in Hlt. cbn in Hlt. rewrite Ef in Hlt. simpl in Hlt. lia.
Qed.
End Entries.

Lemma entries_length_eq {E F} (f : Z -> option E) (g : Z -> option F) n :
  (forall i, 0 <= i < n -> is_Some (f i) <-> is_Some (g i)) ->
  length (entries f n) = length (entries g n).
Proof.
  intros H. unfold entries.
  assert (forall l : list nat, (forall j, j ∈ l -> (j < Z.to_nat n)%nat) ->
    length (omap (fun i => f (Z.of_nat i)) l) = length (omap (fun i => g (Z.of_nat i)) l)) as Hl.
  { induction l as [ | j l IH]; intros Hj; [done | ]. cbn.
    specialize (H (Z.of_nat j) ltac:(specialize (Hj j ltac:(set_solver)); lia)).
    rewrite !is_Some_alt in H.
    destruct (f _), (g _); cbn; rewrite ?IH by set_solver; tauto || done. }
  apply Hl. intros j Hj. apply elem_of_seq in Hj. lia.
Qed.

Lemma entries_length_le {E} (f : Z -> option E) n : (length (entries f n) <= Z.to_nat n)%nat.
Proof.
  unfold entries. transitivity (length (seq 0 (Z.to_nat n))); [ | by rewrite length_seq].
  induction (seq 0 (Z.to_nat n)) as [ | j l IH]; [done | ]. cbn. destruct (f _); cbn; lia.
Qed.

(** Two indices with the same key collide. *)
Lemma entries_key_unique {K V} (f : Z -> option (K * V)) n i j k v v' :
  NoDup (entries f n).*1 -> 0 <= i < n -> 0 <= j < n ->
  f i = Some (k, v) -> f j = Some (k, v') -> i = j.
Proof.
  intros Hnd Hi Hj Hfi Hfj. destruct (decide (i = j)) as [ | Hne]; [done | exfalso].
  destruct (entries_split f n i Hi) as (l & Hl & Hseq).
  rewrite Hl, Hfi in Hnd. cbn in Hnd. apply NoDup_cons in Hnd as [Hni _]. apply Hni.
  apply list_elem_of_fmap. exists (k, v'). split; [done | ]. apply list_elem_of_omap.
  exists (Z.to_nat j). rewrite Z2Nat.id by lia. split; [ | done].
  assert (Z.to_nat j ∈ Z.to_nat i :: l) as Hin.
  { rewrite <- Hseq. apply elem_of_seq. lia. }
  apply elem_of_cons in Hin as [E | ]; [lia | done].
Qed.

#[export] Hint Resolve cint_ok crem_ok cdiv_ok rd_ok wr_ok wr_oob : cdb.
