(* ===== verification/CLib.v ===== *)
(** * The parts of the C library the programs use

    Characters are byte values; a C string is the list of its bytes before the
    terminating zero, or a position in a buffer that holds one. *)
From Stdlib Require Import Ascii String.
From S2P Require Import Prelude.

(** The bytes of a string literal. *)
Fixpoint lit (s : string) : bytes :=
  match s with
  | EmptyString => []
  | String a s => Z.of_N (N_of_ascii a) :: lit s
  end.

(** ** Character classes of the C locale *)
Definition isspace (c : Z) : bool := (c =? 32) || ((9 <=? c) && (c <=? 13)).
Definition isdigit (c : Z) : bool := (48 <=? c) && (c <=? 57).
Definition isprint (c : Z) : bool := (32 <=? c) && (c <=? 126).

(** ** Strings inside a buffer *)

(** The string that starts at [off]: the bytes up to the first zero; reading
    past the end of the buffer is undefined. *)
Fixpoint until_nul (l : bytes) : option bytes :=
  match l with
  | [] => None
  | c :: l => if c =? 0 then Some [] else cons c <$> until_nul l
  end.
Definition cstr (buf : bytes) (off : Z) : outcome bytes :=
  if off <? 0 then Ub
  else match until_nul (drop (Z.to_nat off) buf) with Some s => Ok s | None => Ub end.

(** [strcmp(a, b) == 0] *)
Definition streq (a b : bytes) : bool := bool_decide (a = b).
(** [strncmp(a, b, n) == 0]: the strings agree on their first [n] characters. *)
Definition strneq (a b : bytes) (n : nat) : bool := bool_decide (take n a = take n b).

(** ** [atoi] *)
Fixpoint skip_space (s : bytes) : bytes :=
  match s with
  | c :: s' => if isspace c then skip_space s' else s
  | [] => []
  end.
Fixpoint digits_val (acc : Z) (s : bytes) : Z :=
  match s with
  | c :: s => if isdigit c then digits_val (10 * acc + (c - 48)) s else acc
  | [] => acc
  end.
Definition atoi (s : bytes) : outcome Z :=
  match skip_space s with
  | c :: s' =>
      if c =? 45 then cint (- digits_val 0 s')
      else if c =? 43 then cint (digits_val 0 s')
      else cint (digits_val 0 (c :: s'))
  | [] => Ok 0
  end.

(** ** Printing *)

(** The decimal digits of [n >= 0], most significant first. *)
Fixpoint dec_digits (fuel : nat) (n : Z) (acc : bytes) : bytes :=
  match fuel with
  | O => acc
  | S fuel =>
      let acc := (48 + n mod 10) :: acc in
      if n <? 10 then acc else dec_digits fuel (n / 10) acc
  end.
(** [%d] of an [int]: 10 digits are enough for every [int]. *)
Definition dec (n : Z) : bytes :=
  if n <? 0 then 45 :: dec_digits 10 (- n) [] else dec_digits 10 n [].

Definition hexdigit (d : Z) : Z := if d <? 10 then 48 + d else 97 + (d - 10).
(** [%02x] of a byte. *)
Definition hex2 (b : Z) : bytes := [hexdigit (b / 16); hexdigit (b mod 16)].
(** [%0wd]: decimal, padded with zeros on the left to [w] characters (the sign
    counts as one). *)
Definition dec_pad (w : nat) (n : Z) : bytes :=
  let ds := dec_digits 10 (Z.abs n) [] in
  let w' := if n <? 0 then (w - 1)%nat else w in
  (if n <? 0 then [45] else []) ++ replicate (w' - length ds)%nat 48 ++ ds.

(** ** Lemmas *)
Lemma digits_val_app acc s1 s2 :
  Forall (fun c => isdigit c = true) s1 ->
  digits_val acc (s1 ++ s2) = digits_val (digits_val acc s1) s2.
Proof.
  intros H. revert acc. induction H as [ | c s Hc _ IH]; intros acc; simpl; [done | ].
  rewrite Hc. apply IH.
Qed.

Lemma isdigit_spec c : isdigit c = true <-> 48 <= c <= 57.
Proof. unfold isdigit. rewrite andb_true_iff, !Z.leb_le. done. Qed.

Lemma dec_digits_digits fuel n acc :
  0 <= n -> Forall (fun c => isdigit c = true) acc ->
  Forall (fun c => isdigit c = true) (dec_digits fuel n acc).
Proof.
  revert n acc. induction fuel as [ | fuel IH]; intros n acc Hn Hacc; simpl; [done | ].
  assert (isdigit (48 + n mod 10) = true) as Hd.
  { apply isdigit_spec. pose proof (Z.mod_pos_bound n 10). lia. }
  case_if; [by constructor | ].
  apply IH; [apply Z.div_pos; lia | by constructor].
Qed.

(** The accumulator's digits follow those of [n]. *)
Lemma dec_digits_val fuel n acc a :
  0 <= n < 10 ^ Z.of_nat fuel -> (0 < fuel)%nat ->
  digits_val a (dec_digits fuel n acc) = digits_val (a * 10 ^ Z.of_nat (length (dec_digits fuel n []) ) + n) acc.
Proof.
  revert n acc a. induction fuel as [ | fuel IH]; intros n acc a Hn Hf; [lia | ].
  assert (forall v s, digits_val v ((48 + n mod 10) :: s) = digits_val (10 * v + n mod 10) s) as Hcons.
  { intros v s. simpl. rewrite (proj2 (isdigit_spec _)) by (pose proof (Z.mod_pos_bound n 10); lia).
    f_equal. lia. }
  cbn [dec_digits]. case_if.
  - rewrite Hcons. cbn [length]. f_equal. rewrite Z.mod_small by lia. lia.
  - destruct fuel as [ | fuel'].
    { simpl in Hn. lia. }
    assert (0 <= n / 10 < 10 ^ Z.of_nat (S fuel')) as Hn'.
    { split; [apply Z.div_pos; lia | ]. apply Z.div_lt_upper_bound; [lia | ].
      replace (Z.of_nat (S (S fuel'))) with (1 + Z.of_nat (S fuel')) in Hn by lia.
      rewrite Z.pow_add_r in Hn by lia. lia. }
    rewrite IH by lia. rewrite Hcons.
    assert (forall fl k l, length (dec_digits fl k l) = (length (dec_digits fl k []) + length l)%nat) as Hl.
    { clear. induction fl as [ | fl IHf]; intros k l; simpl; [done | ]. case_if; [done | ].
      rewrite IHf, (IHf _ [_]). simpl. lia. }
    f_equal. rewrite (Hl _ _ [_]). cbn [length].
    rewrite Nat2Z.inj_add, Z.pow_add_r by lia.
    pose proof (Z.div_mod n 10). change (10 ^ Z.of_nat 1) with 10. lia.
Qed.

Lemma dec_digits_cons n fuel acc : exists c s, dec_digits (S fuel) n acc = c :: s.
Proof.
  revert n acc. induction fuel as [ | fuel IH]; intros n acc; cbn [dec_digits]; case_if; eauto.
Qed.

(** Decimal printing and [atoi] are inverse on [int]. *)
Lemma atoi_dec n : INT_MIN <= n <= INT_MAX -> atoi (dec n) = Ok n.
Proof.
  intros Hn. unfold dec, atoi. case_if.
  - pose proof (dec_digits_val 10 (- n) [] 0 ltac:(simpl; int_bounds) ltac:(lia)) as Hv.
    set (d := dec_digits 10 (- n) []) in *. clearbody d. cbn. rewrite Hv. cbn [digits_val].
    rewrite cint_ok by int_bounds. f_equal. lia.
  - destruct (dec_digits_cons n 9 []) as (c & s & E).
    assert (Forall (fun c => isdigit c = true) (c :: s)) as Hd.
    { rewrite <- E. apply dec_digits_digits; [lia | done]. }
    pose proof (dec_digits_val 10 n [] 0 ltac:(simpl; int_bounds) ltac:(lia)) as Hv.
    rewrite E in *. inversion Hd as [ | ? ? Hc _]; subst. apply isdigit_spec in Hc.
    cbn [skip_space]. unfold isspace.
    rewrite (proj2 (Z.eqb_neq c 32)), (proj2 (Z.leb_gt c 13)), andb_false_r by lia. cbn [orb].
    rewrite (proj2 (Z.eqb_neq c 45)), (proj2 (Z.eqb_neq c 43)) by lia.
    rewrite Hv. cbn [digits_val]. apply cint_ok. int_bounds.
Qed.

Lemma until_nul_app s l :
  Forall (fun c => c <> 0) s -> until_nul (s ++ 0 :: l) = Some s.
Proof.
  induction 1 as [ | c s Hc _ IH]; simpl; [done | ].
  rewrite (proj2 (Z.eqb_neq c 0)) by done. by rewrite IH.
Qed.
