(* ===== verification/RingBuffer.v ===== *)
(** * The ring buffer of [ring_buffer/] *)
From S2P Require Import Prelude.

Module RingBuffer.

Definition ERROR_BUFFER_FULL : Z := 1.
Definition NULL : Z := 0.

(** [struct ringbuf_t]: the cells of [ring] hold pointers; [None] is the
    indeterminate content of memory that [malloc] returned and nobody wrote. *)
Record ringbuf_t := mk_ringbuf_t {
  ring : list (option Z);
  size : Z;
  start : Z;
  end_ : Z;
  active : Z
}.

(** The number of pointers that fit in a block of [nbytes] bytes. *)
Definition sizeof_ptr : Z := 8.
Definition cells_of (nbytes : Z) : list (option Z) :=
  replicate (Z.to_nat (nbytes / sizeof_ptr)) None.

(** [NewRingBuffer]; the two booleans say whether each [malloc] succeeds.  A
    failed first one is followed by a write through a null pointer; a failed
    second one leaves a ring without cells. *)
Definition NewRingBuffer (malloc1 malloc2 : bool) (sz : Z) : outcome ringbuf_t :=
  if malloc1 then
    Ok {| ring := if malloc2 then cells_of sizeof_ptr else [];
          size := sz; start := 0; end_ := 0; active := 0 |}
  else Ub.

Definition PushToQueue (p : Z) (b : ringbuf_t) : outcome (Z * ringbuf_t) :=
  if active b <? size b then
    let! r := wr (ring b) (end_ b) (Some p) in
    let! e1 := cint (end_ b + 1) in
    let! e := crem e1 (size b) in
    let! a := cint (active b + 1) in
    Ok (0, {| ring := r; size := size b; start := start b; end_ := e; active := a |})
  else Ok (ERROR_BUFFER_FULL, b).

Definition deref_cell (c : option Z) : outcome Z :=
  match c with Some p => Ok p | None => Ub end.

Definition RetrieveFromQueue (b : ringbuf_t) : outcome (Z * ringbuf_t) :=
  if active b =? 0 then Ok (NULL, b)
  else
    let! c := rd (ring b) (start b) in
    let! p := deref_cell c in
    let! s1 := cint (start b + 1) in
    let! s := crem s1 (size b) in
    let! a := cint (active b - 1) in
    Ok (p, {| ring := ring b; size := size b; start := s; end_ := end_ b; active := a |}).

(** [PrintBuffer] and [PrintCharBuffer] walk the active cells; [mem] is the
    memory the queued pointers point to, and the result is what is printed, in
    order. *)
Fixpoint print_loop (mem : gmap Z Z) (b : ringbuf_t) (fuel : nat) (i : Z) : outcome (list Z) :=
  if i <? active b then
    match fuel with
    | O => NoFuel
    | S fuel =>
        let! j := cint (start b + i) in
        let! idx := crem j (size b) in
        let! c := rd (ring b) idx in
        let! p := deref_cell c in
        match mem !! p with
        | None => Ub
        | Some v =>
            let! i1 := cint (i + 1) in
            let! vs := print_loop mem b fuel i1 in
            Ok (v :: vs)
        end
    end
  else Ok [].
Definition PrintBuffer (mem : gmap Z Z) (b : ringbuf_t) : outcome (list Z) :=
  print_loop mem b (Z.to_nat (active b)) 0.

(** A buffer is freed with its ring; a freed one ([None]) may not be used again. *)
Definition FreeRingBuffer (b : option ringbuf_t) : outcome (option ringbuf_t) :=
  match b with Some _ => Ok None | None => Ub end.

(** ** The driver of [main.c] *)

(** The loop of [test_ringbuf_int] that pushes [&array[i]] until a push fails. *)
Fixpoint push_all (ps : list Z) (b : ringbuf_t) : outcome ringbuf_t :=
  match ps with
  | [] => Ok b
  | p :: ps =>
      let! '(rc, b') := PushToQueue p b in
      if rc =? 0 then push_all ps b' else Ok b'
  end.

(** The addresses of the elements of an array of [n] cells at [base]. *)
Definition elem_addrs (base stride : Z) (n : nat) : list Z :=
  (fun i => base + stride * Z.of_nat i) <$> seq 0 n.
Definition store_array (base stride : Z) (vs : list Z) : gmap Z Z :=
  list_to_map (zip (elem_addrs base stride (length vs)) vs).

Definition print_retrieved (mem : gmap Z Z) (el : Z) : outcome (list Z) :=
  if el =? NULL then Ok []
  else match mem !! el with Some v => Ok [v] | None => Ub end.

(** [test_ringbuf_int], from the buffer on: [array] is stored at [base]. *)
Definition test_ringbuf_int_on (base : Z) (b0 : ringbuf_t) : outcome (list (list Z)) :=
  let mem := store_array base 4 [1; 2; 3; 4; 5; 6; 7; 8] in
  let addr i := base + 4 * i in
  let! b := push_all (elem_addrs base 4 8) b0 in
  let! o1 := PrintBuffer mem b in
  let! '(_, b) := PushToQueue (addr 3) b in
  let! o2 := PrintBuffer mem b in
  let! '(el, b) := RetrieveFromQueue b in
  let! o3 := print_retrieved mem el in
  let! '(_, b) := PushToQueue (addr 3) b in
  let! o4 := PrintBuffer mem b in
  let! '(el, b) := RetrieveFromQueue b in
  let! o5 := print_retrieved mem el in
  let! '(_, b) := PushToQueue (addr 7) b in
  let! o6 := PrintBuffer mem b in
  let! _ := FreeRingBuffer (Some b) in
  Ok [o1; o2; o3; o4; o5; o6].
Definition test_ringbuf_int (base : Z) (malloc1 malloc2 : bool) : outcome (list (list Z)) :=
  let! b := NewRingBuffer malloc1 malloc2 7 in
  test_ringbuf_int_on base b.
Definition ringbuf_main (base : Z) (malloc1 malloc2 : bool) : outcome (list (list Z)) := test_ringbuf_int base malloc1 malloc2.

(** [test_ringbuf_char], from the buffer on: [carr] is stored at [base] and the
    local [F] at [addrF]. *)
Definition test_ringbuf_char_on (base addrF : Z) (b0 : ringbuf_t) : outcome (list (list Z)) :=
  let mem := <[addrF := 70]> (store_array base 1 [65; 66; 67; 68]) in
  let! '(_, b) := PushToQueue base b0 in
  let! o1 := PrintBuffer mem b in
  let! '(_, b) := PushToQueue (base + 1) b in
  let! '(_, b) := PushToQueue (base + 2) b in
  let! o2 := PrintBuffer mem b in
  let! '(_, b) := PushToQueue (base + 3) b in
  let! o3 := PrintBuffer mem b in
  let! '(el, b) := RetrieveFromQueue b in
  let! o4 := print_retrieved mem el in
  let! '(_, b) := PushToQueue (base + 3) b in
  let! o5 := PrintBuffer mem b in
  let! '(el, b) := RetrieveFromQueue b in
  let! o6 := print_retrieved mem el in
  let! '(_, b) := PushToQueue addrF b in
  let! o7 := PrintBuffer mem b in
  let! _ := FreeRingBuffer (Some b) in
  Ok [o1; o2; o3; o4; o5; o6; o7].
Definition test_ringbuf_char (base addrF : Z) (malloc1 malloc2 : bool) :
    outcome (list (list Z)) :=
  let! b := NewRingBuffer malloc1 malloc2 3 in
  test_ringbuf_char_on base addrF b.

(** ** Specification: a bounded first-in first-out queue *)
Inductive qop := Push (p : Z) | Retrieve.

Definition spec_step (cap : Z) (q : list Z) (o : qop) : Z * list Z :=
  match o with
  | Push p => if Z.of_nat (length q) <? cap then (0, q ++ [p]) else (ERROR_BUFFER_FULL, q)
  | Retrieve => match q with [] => (NULL, []) | p :: q' => (p, q') end
  end.
Definition impl_step (b : ringbuf_t) (o : qop) : outcome (Z * ringbuf_t) :=
  match o with Push p => PushToQueue p b | Retrieve => RetrieveFromQueue b end.

Fixpoint spec_run (cap : Z) (q : list Z) (os : list qop) : list Z * list Z :=
  match os with
  | [] => ([], q)
  | o :: os =>
      let '(r, q1) := spec_step cap q o in
      let '(rs, q2) := spec_run cap q1 os in (r :: rs, q2)
  end.
Fixpoint impl_run (b : ringbuf_t) (os : list qop) : outcome (list Z * ringbuf_t) :=
  match os with
  | [] => Ok ([], b)
  | o :: os =>
      let! '(r, b1) := impl_step b o in
      let! '(rs, b2) := impl_run b1 os in Ok (r :: rs, b2)
  end.

(** The cell that holds the [i]-th oldest element. *)
Definition slot (b : ringbuf_t) (i : nat) : nat :=
  Z.to_nat ((start b + Z.of_nat i) mod size b).

(** Well-formedness: the indices are in range, [end] is [active] cells after
    [start], and the ring has at least [size] cells. *)
Record wf (b : ringbuf_t) : Prop := {
  wf_size : 0 < size b <= INT_MAX;
  wf_start : 0 <= start b < size b;
  wf_active : 0 <= active b <= size b;
  wf_end : end_ b = (start b + active b) mod size b;
  wf_ring : size b <= Z.of_nat (length (ring b))
}.

(** The buffer [b] represents the queue [q], oldest element first. *)
Definition repr (b : ringbuf_t) (q : list Z) : Prop :=
  wf b /\ Z.of_nat (length q) = active b /\
  forall i p, q !! i = Some p -> ring b !! slot b i = Some (Some p).

(** ** Lemmas *)
Section Facts.
Context (b : ringbuf_t) (Hwf : wf b).

Lemma slot_bound i : 0 <= (start b + i) mod size b < size b.
Proof. apply Z.mod_pos_bound, wf_size, Hwf. Qed.

Lemma slot_lt i : (slot b i < length (ring b))%nat.
Proof. pose proof (slot_bound (Z.of_nat i)). destruct Hwf. unfold slot. lia. Qed.

Lemma slot_inj i j :
  (Z.of_nat i < size b) -> (Z.of_nat j < size b) -> slot b i = slot b j -> i = j.
Proof.
  intros Hi Hj H. pose proof (slot_bound (Z.of_nat i)). pose proof (slot_bound (Z.of_nat j)).
  destruct Hwf. unfold slot in H.
  enough (Z.of_nat i = Z.of_nat j) by lia.
  apply (mod_add_inj (size b) (start b)); lia.
Qed.

Lemma end_slot : Z.to_nat (end_ b) = slot b (Z.to_nat (active b)).
Proof. destruct Hwf. unfold slot. rewrite wf_end0. do 3 f_equal. lia. Qed.

Lemma start_slot : Z.to_nat (start b) = slot b 0.
Proof. destruct Hwf. unfold slot. rewrite Z.add_0_r, Z.mod_small by lia. done. Qed.

Lemma PushToQueue_eq p :
  active b < size b ->
  PushToQueue p b =
    Ok (0, {| ring := <[Z.to_nat (end_ b) := Some p]> (ring b); size := size b;
              start := start b; end_ := (end_ b + 1) mod size b; active := active b + 1 |}).
Proof.
  intros Hlt. pose proof (slot_bound (active b)). destruct Hwf.
  unfold PushToQueue. rewrite (proj2 (Z.ltb_lt _ _)) by lia.
  do 4 cstep. done.
Qed.

Lemma RetrieveFromQueue_eq p :
  0 < active b -> ring b !! slot b 0 = Some (Some p) ->
  RetrieveFromQueue b =
    Ok (p, {| ring := ring b; size := size b; start := (start b + 1) mod size b;
              end_ := end_ b; active := active b - 1 |}).
Proof.
  intros Hlt Hp. rewrite <- start_slot in Hp. destruct Hwf.
  unfold RetrieveFromQueue. rewrite (proj2 (Z.eqb_neq _ _)) by lia.
  cstep. cbn [deref_cell].
  do 4 cstep. done.
Qed.
End Facts.

Lemma repr_push b q p :
  repr b q -> Z.of_nat (length q) < size b ->
  exists b', PushToQueue p b = Ok (0, b') /\ repr b' (q ++ [p]) /\ size b' = size b.
Proof.
  intros (Hwf & Hlen & Hq) Hlt.
  eexists. split; [apply PushToQueue_eq; [done | lia] | split; [ | done]].
  pose proof (end_slot b Hwf) as Hes. pose proof (slot_bound b Hwf) as Hsb.
  split; [ | split].
  - destruct Hwf as [Hs Hst Ha He Hr]. split; simpl; rewrite ?length_insert; try lia.
    rewrite He, mod_add_assoc. done.
  - rewrite length_app. simpl. lia.
  - intros i x Hi. unfold slot; simpl. fold (slot b i). rewrite Hes.
    apply lookup_app_Some in Hi as [Hi | [Hge Hi]].
    + pose proof (lookup_lt_Some _ _ _ Hi).
      rewrite list_lookup_insert_ne; [by apply Hq | ].
      intros E. apply slot_inj in E; [lia | done | lia | lia].
    + apply list_lookup_singleton_Some in Hi as [Hi0 <-].
      replace i with (Z.to_nat (active b)) by lia.
      apply list_lookup_insert_eq, slot_lt, Hwf.
Qed.

Lemma repr_retrieve b q p :
  repr b (p :: q) ->
  exists b', RetrieveFromQueue b = Ok (p, b') /\ repr b' q /\ size b' = size b.
Proof.
  intros (Hwf & Hlen & Hq). simpl in Hlen.
  eexists. split; [apply RetrieveFromQueue_eq; [done | lia | by apply (Hq 0%nat)] | ].
  split; [ | done]. pose proof (slot_bound b Hwf) as Hsb. destruct Hwf as [Hs Hst Ha He Hr].
  split; [ | split].
  - split; simpl; try lia; [apply Hsb | ].
    rewrite mod_add_assoc, He. f_equal. lia.
  - simpl. lia.
  - intros i x Hi. specialize (Hq (S i) x Hi). unfold slot in *; simpl in *.
    rewrite mod_add_assoc. rewrite <- Hq. do 4 f_equal. lia.
Qed.

Lemma repr_step b q o :
  repr b q ->
  exists b', impl_step b o = Ok ((spec_step (size b) q o).1, b') /\
             repr b' (spec_step (size b) q o).2 /\ size b' = size b.
Proof.
  intros H. destruct o as [p | ]; simpl.
  - case_if; simpl.
    + apply repr_push; done.
    + exists b. split; [ | done]. destruct H as (_ & Hlen & _).
      unfold PushToQueue. rewrite (proj2 (Z.ltb_ge _ _)) by lia. done.
  - destruct q as [ | p q]; [ | by apply repr_retrieve].
    exists b. split; [ | done]. destruct H as (_ & Hlen & _). simpl in Hlen.
    unfold RetrieveFromQueue. rewrite <- Hlen. done.
Qed.

(** A well allocated empty buffer. *)
Definition empty_of (cells : list (option Z)) (sz : Z) : ringbuf_t :=
  {| ring := cells; size := sz; start := 0; end_ := 0; active := 0 |}.

Lemma repr_empty cells sz :
  0 < sz <= INT_MAX -> sz <= Z.of_nat (length cells) -> repr (empty_of cells sz) [].
Proof.
  intros. split; [ | split; [done | ]].
  - split; simpl; try lia. done.
  - intros i p Hi. done.
Qed.

Section Print.
Context (mem : gmap Z Z) (b : ringbuf_t) (q : list Z) (f : Z -> Z).
Hypotheses (Hrepr : repr b q) (Hsize : 2 * size b <= INT_MAX + 1)
  (Hmem : forall p, p ∈ q -> mem !! p = Some (f p)).

Lemma print_loop_eq fuel i :
  (length q <= fuel + i)%nat ->
  print_loop mem b fuel (Z.of_nat i) = Ok (f <$> drop i q).
Proof.
  destruct Hrepr as (Hwf & Hlen & Hq). pose proof (wf_size _ Hwf). pose proof (wf_start _ Hwf).
  pose proof (wf_active _ Hwf).
  revert i. induction fuel as [ | fuel IH]; intros i Hi; simpl.
  - rewrite (proj2 (Z.ltb_ge _ _)) by lia. rewrite drop_ge by lia. done.
  - case_if; [ | rewrite drop_ge by lia; done].
    destruct (lookup_lt_is_Some_2 q i) as [p Hp]; [lia | ].
    pose proof (slot_bound b Hwf (Z.of_nat i)). do 2 cstep.
    rewrite (rd_ok _ _ (Some p)) by (lia || by apply Hq). rewrite obind_ok. cbn [deref_cell].
    rewrite obind_ok, (Hmem p) by (apply list_elem_of_lookup; eauto). cstep.
    replace (Z.of_nat i + 1) with (Z.of_nat (S i)) by lia. rewrite IH by lia.
    rewrite (drop_S _ _ _ Hp). done.
Qed.
End Print.

(** ** Properties *)

(** C4. Refinement: on a ring that has [size] cells, every sequence of pushes
    and retrievals, from any state that represents a queue, terminates without
    undefined behaviour, returns exactly the values a bounded first-in
    first-out queue of capacity [size] returns (0 or the full error for a push,
    the oldest element or NULL for a retrieval), and ends in a buffer that
    represents the queue's final content. *)
Theorem ring_refines_queue b q os :
  repr b q ->
  exists b', impl_run b os = Ok ((spec_run (size b) q os).1, b') /\
             repr b' (spec_run (size b) q os).2 /\ size b' = size b.
Proof.
  revert b q. induction os as [ | o os IH]; intros b q H; simpl; [eauto | ].
  destruct (repr_step b q o H) as (b1 & Hstep & H1 & Hsz).
  destruct (spec_step (size b) q o) as [r q1] eqn:E; simpl in *.
  destruct (IH b1 q1 H1) as (b2 & Hrun & H2 & Hsz2). rewrite Hsz in *.
  destruct (spec_run (size b) q1 os) as [rs q2]; simpl in *.
  exists b2. rewrite Hstep. rewrite obind_ok, Hrun. auto.
Qed.

Lemma ring_refines_queue_witness :
  exists b', impl_run (empty_of (replicate 2 None) 2) [Push 8; Push 16; Push 24; Retrieve; Push 32; Retrieve] =
    Ok ([0; 0; 1; 8; 0; 16], b') /\ repr b' [32] /\ size b' = 2.
Proof.
  apply (ring_refines_queue (empty_of (replicate 2 None) 2) []).
  apply repr_empty; unfold INT_MAX; simpl; lia.
Defined.

(** Printing: when the queued pointers point to readable integers,
    [PrintBuffer] prints the values of the queued elements, oldest first, each
    exactly once (the bound on [size] is what keeps [start + i] in [int]). *)
Theorem PrintBuffer_contents mem b q f :
  repr b q -> 2 * size b <= INT_MAX + 1 ->
  (forall p, p ∈ q -> mem !! p = Some (f p)) ->
  PrintBuffer mem b = Ok (f <$> q).
Proof.
  intros H Hs Hm. unfold PrintBuffer.
  replace 0 with (Z.of_nat 0) by done. rewrite (print_loop_eq mem b q f H Hs Hm); [done | ].
  destruct H as (_ & Hlen & _). lia.
Qed.

Lemma PrintBuffer_contents_witness :
  PrintBuffer {[8 := 41; 16 := 42]}
    {| ring := [Some 16; None; Some 8]; size := 3; start := 2; end_ := 1; active := 2 |} =
  Ok [41; 42].
Proof.
  apply (PrintBuffer_contents _ _ [8; 16] (fun p => if p =? 8 then 41 else 42)).
  - split; [split; unfold INT_MAX; simpl; (lia || done) | split; [done | ]].
    intros [ | [ | i]] p Hp; simplify_eq/=; done.
  - unfold INT_MAX; simpl; lia.
  - intros p Hp. apply list_elem_of_In in Hp. destruct Hp as [<- | [<- | []]]; done.
Defined.

(** [NewRingBuffer] allocates the room of one pointer whatever the
    requested size, so for every size of two or more the second push writes
    outside the allocated block. *)
Theorem NewRingBuffer_underallocates sz p1 p2 :
  2 <= sz ->
  exists b0 b1, NewRingBuffer true true sz = Ok b0 /\ PushToQueue p1 b0 = Ok (0, b1) /\
                PushToQueue p2 b1 = Ub.
Proof.
  intros Hsz. exists (empty_of [None] sz),
    {| ring := [Some p1]; size := sz; start := 0; end_ := 1; active := 1 |}.
  split; [done | ]. unfold PushToQueue; simpl.
  rewrite (proj2 (Z.ltb_lt 0 sz)) by lia. split.
  { repeat cstep. rewrite Z.mod_small by lia. done. }
  simpl.
  rewrite (proj2 (Z.ltb_lt 1 sz)) by lia. done.
Qed.

Lemma NewRingBuffer_underallocates_witness :
  exists b0 b1, NewRingBuffer true true 7 = Ok b0 /\ PushToQueue 64 b0 = Ok (0, b1) /\
                PushToQueue 68 b1 = Ub.
Proof. apply (NewRingBuffer_underallocates 7 64 68). lia. Defined.

(** The drivers of [main.c]: with the allocation as it is both drivers run
    into undefined behaviour, wherever the arrays are stored; on a ring with
    room for the requested number of pointers they print the queue's content
    after every step. *)
Theorem ringbuf_drivers :
  (forall base, test_ringbuf_int base true true = Ub) /\
  (forall base addrF, test_ringbuf_char base addrF true true = Ub) /\
  test_ringbuf_int_on 1000 (empty_of (replicate 7 None) 7) =
    Ok [[1; 2; 3; 4; 5; 6; 7]; [1; 2; 3; 4; 5; 6; 7]; [1]; [2; 3; 4; 5; 6; 7; 4]; [2];
        [3; 4; 5; 6; 7; 4; 8]] /\
  test_ringbuf_char_on 1000 2000 (empty_of (replicate 3 None) 3) =
    Ok [[65]; [65; 66; 67]; [65; 66; 67]; [65]; [66; 67; 68]; [66]; [67; 68; 70]].
Proof.
  split; [intros; reflexivity | split; [ | split; vm_compute; reflexivity]].
  intros base addrF.
  set (b1 := {| ring := [Some base]; size := 3; start := 0; end_ := 1; active := 1 |}).
  unfold test_ringbuf_char, test_ringbuf_char_on, NewRingBuffer. cbv zeta. rewrite obind_ok.
  set (mem := <[addrF := 70]> _).
  change (PushToQueue base _) with (Ok (0, b1)). rewrite obind_ok. cbv iota.
  assert (exists v, mem !! base = Some v) as [v Hv].
  { subst mem. rewrite lookup_insert. case_decide; [eauto | ].
    unfold store_array, elem_addrs. cbn. rewrite lookup_insert. case_decide; [eauto | lia]. }
  assert (PrintBuffer mem b1 = Ok [v]) as ->; [ | reflexivity].
  clearbody mem. unfold PrintBuffer.
  change (print_loop mem b1 _ 0) with
    (match mem !! base with Some v => Ok [v] | None => Ub end).
  rewrite Hv. done.
Qed.

End RingBuffer.
