(* ===== verification/MergeSort.v ===== *)
(** * The in-place merge sort of [sorts/mergeSort.c]

    The array is a list of [int] values; every read and write is checked
    against its bounds and every index computation against the range of [int].
    The loops take fuel; [merge] and [mergeSort] compute their own fuel, and the
    theorems show that it always suffices. *)
From Stdlib Require Import Permutation.
From stdpp Require Import sorting.
From S2P Require Import Prelude CLib.

Module MergeSort.

(** [for (k = 0; k < n; k++) dst[k] = src[at k];] *)
Fixpoint copy_loop (src dst : list Z) (n : Z) (at_ : Z -> outcome Z) (fuel : nat) (k : Z) :
    outcome (list Z) :=
  if k <? n then
    match fuel with
    | O => NoFuel
    | S fuel =>
        let! j := at_ k in
        let! v := rd src j in
        let! dst := wr dst k v in
        let! k1 := cint (k + 1) in
        copy_loop src dst n at_ fuel k1
    end
  else Ok dst.

(** [while (i < n) arr[idx++] = from[i++];] *)
Fixpoint drain_loop (arr from : list Z) (n : Z) (fuel : nat) (i idx : Z) : outcome (list Z * Z) :=
  if i <? n then
    match fuel with
    | O => NoFuel
    | S fuel =>
        let! v := rd from i in
        let! arr := wr arr idx v in
        let! idx1 := cint (idx + 1) in
        let! i1 := cint (i + 1) in
        drain_loop arr from n fuel i1 idx1
    end
  else Ok (arr, idx).

(** [while (i < n1 && j < n2) ...]: the smaller head moves into [arr]; on a tie
    the head of [right] moves first. *)
Fixpoint merge_loop (arr left right : list Z) (n1 n2 : Z) (fuel : nat) (i j idx : Z) :
    outcome (list Z * Z * Z * Z) :=
  if (i <? n1) && (j <? n2) then
    match fuel with
    | O => NoFuel
    | S fuel =>
        let! a := rd left i in
        let! b := rd right j in
        if a <? b then
          let! arr := wr arr idx a in
          let! idx1 := cint (idx + 1) in
          let! i1 := cint (i + 1) in
          merge_loop arr left right n1 n2 fuel i1 j idx1
        else
          let! arr := wr arr idx b in
          let! idx1 := cint (idx + 1) in
          let! j1 := cint (j + 1) in
          merge_loop arr left right n1 n2 fuel i j1 idx1
    end
  else Ok (arr, i, j, idx).

(** A variable-length array of [n] elements; [n <= 0] is undefined.  Its
    elements are written before they are read, so their first value is free. *)
Definition vla (n : Z) : outcome (list Z) :=
  if n <=? 0 then Ub else Ok (replicate (Z.to_nat n) 0).

Definition merge (arr : list Z) (l m r : Z) : outcome (list Z) :=
  let! d := cint (m - l) in
  let! n1 := cint (d + 1) in
  let! n2 := cint (r - m) in
  let! left_ := vla n1 in
  let! right_ := vla n2 in
  let! left_ := copy_loop arr left_ n1 (fun i => cint (i + l)) (Z.to_nat n1) 0 in
  let! right_ := copy_loop arr right_ n2 (fun j => let! s := cint (j + m) in cint (s + 1))
                  (Z.to_nat n2) 0 in
  let! '(arr, i, j, idx) := merge_loop arr left_ right_ n1 n2 (Z.to_nat (n1 + n2)) 0 0 l in
  let! '(arr, idx) := drain_loop arr left_ n1 (Z.to_nat n1) i idx in
  let! '(arr, _) := drain_loop arr right_ n2 (Z.to_nat n2) j idx in
  Ok arr.

Fixpoint mergeSort_fuel (fuel : nat) (arr : list Z) (l r : Z) : outcome (list Z) :=
  if l >=? r then Ok arr
  else
    match fuel with
    | O => NoFuel
    | S fuel =>
        let! d := cint (r - l) in
        let! h := cdiv d 2 in
        let! m := cint (l + h) in
        let! arr := mergeSort_fuel fuel arr l m in
        let! m1 := cint (m + 1) in
        let! arr := mergeSort_fuel fuel arr m1 r in
        merge arr l m r
    end.
(** The recursion halves a segment of [r - l + 1] elements. *)
Definition mergeSort (arr : list Z) (l r : Z) : outcome (list Z) :=
  mergeSort_fuel (Z.to_nat (r - l + 1)) arr l r.

(** [main]: the arguments after the program name are converted with [atoi],
    sorted and printed. *)
Fixpoint read_args (argv : list bytes) : outcome (list Z) :=
  match argv with
  | [] => Ok []
  | s :: argv =>
      let! v := atoi s in
      let! vs := read_args argv in
      Ok (v :: vs)
  end.
Definition main (argv : list bytes) : outcome (Z * list Z) :=
  let size := Z.of_nat (length argv) - 1 in
  let! _ := vla size in
  let! arr := read_args (tail argv) in
  let! last := cint (size - 1) in
  let! arr := mergeSort arr 0 last in
  Ok (size, arr).

(** ** Lemmas *)

(** An array whose segment [S] is worked on is written [A ++ S ++ B]; the
    segment starts at index [length A]. *)
Lemma copy_loop_ok at_ A S B k fuel D E :
  (forall k, 0 <= k < len S -> at_ k = Ok (len A + k)) ->
  len S <= INT_MAX -> k = len D -> (length D + fuel)%nat = length S -> length E = fuel ->
  D = take (length D) S ->
  copy_loop (A ++ S ++ B) (D ++ E) (len S) at_ fuel k = Ok S.
Proof.
  intros Hat Hmax. revert k D E. induction fuel as [ | fuel IH]; intros k D E -> Hl HE HD.
  - unfold copy_loop. rewrite (proj2 (Z.ltb_ge _ _)) by lia.
    destruct E; [ | done]. rewrite app_nil_r, HD, take_ge by lia. done.
  - destruct E as [ | e E]; [done | ]. cbn [copy_loop].
    rewrite (proj2 (Z.ltb_lt _ _)) by lia. rewrite Hat by lia. cstep.
    destruct (lookup_lt_is_Some_2 S (length D)) as [x Hx]; [lia | ].
    rewrite (rd_ok _ _ x); [ | lia | ].
    2:{ rewrite lookup_app_r by lia. rewrite lookup_app_l by lia. rewrite <- Hx. f_equal. lia. }
    rewrite obind_ok, wr_app by done. rewrite obind_ok. cstep.
    replace (D ++ x :: E) with ((D ++ [x]) ++ E) by by rewrite <- app_assoc.
    apply IH; rewrite ?length_app; simpl in *; try lia.
    rewrite Nat.add_1_r. rewrite (take_S_r _ _ x) by done. by rewrite <- HD.
Qed.

Lemma copy_all_ok at_ A S B :
  (forall k, 0 <= k < len S -> at_ k = Ok (len A + k)) -> len S <= INT_MAX ->
  copy_loop (A ++ S ++ B) (replicate (length S) 0) (len S) at_ (length S) 0 = Ok S.
Proof.
  intros Hat Hm. apply (copy_loop_ok at_ A S B 0 (length S) []); try done.
  by rewrite length_replicate.
Qed.

Lemma drain_loop_ok P L1 L2 Q1 Q2 fuel :
  (length L2 <= fuel)%nat -> length Q1 = length L2 -> len P + len L2 <= INT_MAX ->
  len (L1 ++ L2) <= INT_MAX ->
  drain_loop (P ++ Q1 ++ Q2) (L1 ++ L2) (len (L1 ++ L2)) fuel (len L1) (len P) =
    Ok (P ++ L2 ++ Q2, len (P ++ L2)).
Proof.
  revert P L1 L2 Q1. induction fuel as [ | fuel IH]; intros P L1 L2 Q1 Hf HQ Hm1 Hm2;
    (destruct L2 as [ | x L2];
     [destruct Q1; [ | done]; rewrite ?app_nil_r; unfold drain_loop;
      rewrite Z.ltb_irrefl; done | ]); simpl in Hf; [lia | ].
  destruct Q1 as [ | q Q1]; [done | ]. cbn [drain_loop].
  rewrite (proj2 (Z.ltb_lt _ _)) by (rewrite length_app; simpl; lia).
  rewrite rd_app, obind_ok by done. cbn [app]. rewrite wr_app, obind_ok by done.
  rewrite length_app in Hm2. simpl in *. do 2 cstep.
  replace (P ++ x :: Q1 ++ Q2) with ((P ++ [x]) ++ Q1 ++ Q2) by by rewrite <- app_assoc.
  replace (L1 ++ x :: L2) with ((L1 ++ [x]) ++ L2) by by rewrite <- app_assoc.
  replace (len P + 1) with (len (P ++ [x])) by (rewrite length_app; simpl; lia).
  replace (len L1 + 1) with (len (L1 ++ [x])) by (rewrite length_app; simpl; lia).
  rewrite IH by (rewrite ?length_app; simpl; lia). by rewrite <- !app_assoc.
Qed.

(** The main loop moves a prefix [W] of the merge into the array and stops when
    one side is empty; what is left on the other side is the rest of the merge. *)
Lemma merge_loop_ok P Q L1 L2 R1 R2 fuel :
  (length L2 + length R2 <= fuel)%nat -> (length L2 + length R2 <= length Q)%nat ->
  len P + len L2 + len R2 <= INT_MAX -> len (L1 ++ L2) <= INT_MAX ->
  len (R1 ++ R2) <= INT_MAX ->
  exists W L1' L2' R1' R2',
    merge_loop (P ++ Q) (L1 ++ L2) (R1 ++ R2) (len (L1 ++ L2)) (len (R1 ++ R2)) fuel
      (len L1) (len R1) (len P) =
      Ok (P ++ W ++ drop (length W) Q, len L1', len R1', len (P ++ W)) /\
    L1' ++ L2' = L1 ++ L2 /\ R1' ++ R2' = R1 ++ R2 /\ (L2' = [] \/ R2' = []) /\
    list_merge Z.lt L2 R2 = W ++ L2' ++ R2'.
Proof.
  revert P Q L1 L2 R1 R2. induction fuel as [ | fuel IH]; intros P Q L1 L2 R1 R2 Hf HQ Hm Hm1 Hm2;
    (destruct L2 as [ | a L2];
     [exists [], L1, [], R1, R2; unfold merge_loop; rewrite ?app_nil_r, Z.ltb_irrefl, list_merge_nil_l;
      by eauto 10 | ]);
    (destruct R2 as [ | b R2];
     [exists [], L1, (a :: L2), R1, []; unfold merge_loop;
      rewrite ?app_nil_r, Z.ltb_irrefl, andb_false_r, list_merge_nil_r; by eauto 10 | ]);
    simpl in Hf; [lia | ].
  destruct Q as [ | q Q]; [simpl in HQ; lia | ]. cbn [merge_loop].
  rewrite (proj2 (Z.ltb_lt (len L1) _)), (proj2 (Z.ltb_lt (len R1) _))
    by (rewrite length_app; simpl; lia).
  cbn [andb]. rewrite rd_app, obind_ok, rd_app, obind_ok by done.
  rewrite list_merge_cons. rewrite length_app in Hm1, Hm2. simpl in *.
  rewrite (wr_app P Q), (wr_app P Q) by done.
  assert (forall x : Z, len P + 1 = len (P ++ [x])) as HP by (intros; rewrite length_app; simpl; lia).
  case_if; case_decide; try lia.
  - destruct (IH (P ++ [a]) Q (L1 ++ [a]) L2 R1 (b :: R2)) as (W & L1' & L2' & R1' & R2' & E & ? & ? & ? & HW);
      try (rewrite ?length_app; simpl; lia).
    rewrite <- !app_assoc in *. cbn [app] in *.
    exists (a :: W), L1', L2', R1', R2'. rewrite HW. split; [ | by eauto 10].
    do 3 cstep. rewrite (HP a).
    replace (len L1 + 1) with (len (L1 ++ [a])) by (rewrite length_app; simpl; lia).
    rewrite E. done.
  - destruct (IH (P ++ [b]) Q L1 (a :: L2) (R1 ++ [b]) R2) as (W & L1' & L2' & R1' & R2' & E & ? & ? & ? & HW);
      try (rewrite ?length_app; simpl; lia).
    rewrite <- !app_assoc in *. cbn [app] in *.
    exists (b :: W), L1', L2', R1', R2'. rewrite HW. split; [ | by eauto 10].
    do 3 cstep. rewrite (HP b).
    replace (len R1 + 1) with (len (R1 ++ [b])) by (rewrite length_app; simpl; lia).
    rewrite E. done.
Qed.

Lemma length_list_merge (l1 l2 : list Z) :
  length (list_merge Z.lt l1 l2) = (length l1 + length l2)%nat.
Proof. by rewrite merge_Permutation, length_app. Qed.

(** Once one side is empty, the two final loops move the rest. *)
Lemma drain_both_ok P X B S1 S2 L1 L2 R1 R2 :
  L1 ++ L2 = S1 -> R1 ++ R2 = S2 -> length X = (length L2 + length R2)%nat ->
  len (P ++ X ++ B) <= INT_MAX -> len S1 <= INT_MAX -> len S2 <= INT_MAX ->
  (let! '(arr, idx) := drain_loop (P ++ X ++ B) S1 (len S1) (length S1) (len L1) (len P) in
   let! '(arr, _) := drain_loop arr S2 (len S2) (length S2) (len R1) idx in
   Ok arr) = Ok (P ++ L2 ++ R2 ++ B).
Proof.
  intros <- <- HX Hm H1 H2. rewrite !length_app in Hm.
  assert (P ++ X ++ B = P ++ take (length L2) X ++ (drop (length L2) X ++ B)) as ->.
  { rewrite (app_assoc (take _ _)), take_drop. done. }
  rewrite drain_loop_ok by (rewrite ?length_take, ?length_app in *; lia). rewrite obind_ok.
  rewrite (app_assoc P L2).
  rewrite drain_loop_ok by (rewrite ?length_drop, ?length_app in *; lia).
  rewrite obind_ok, <- !app_assoc. done.
Qed.

Lemma merge_ok A S1 S2 B l m r :
  len (A ++ (S1 ++ S2) ++ B) <= INT_MAX -> S1 <> [] -> S2 <> [] ->
  l = len A -> m = len A + len S1 - 1 -> r = len A + len S1 + len S2 - 1 ->
  merge (A ++ (S1 ++ S2) ++ B) l m r = Ok (A ++ list_merge Z.lt S1 S2 ++ B).
Proof.
  intros Hmax H1 H2 -> -> ->. rewrite !length_app in Hmax.
  assert (0 < len S1 /\ 0 < len S2) as [Hp1 Hp2] by (destruct S1, S2; simpl; split; done || lia).
  unfold merge. do 3 cstep.
  replace (len A + len S1 - 1 - len A + 1) with (len S1) by lia.
  replace (len A + len S1 + len S2 - 1 - (len A + len S1 - 1)) with (len S2) by lia.
  unfold vla. rewrite !(proj2 (Z.leb_gt _ 0)) by lia. rewrite !obind_ok, !Nat2Z.id.
  rewrite <- (app_assoc S1 S2 B).
  rewrite copy_all_ok by (intros; rewrite ?cint_ok by int_bounds; (f_equal; lia) || lia).
  rewrite obind_ok, (app_assoc A S1).
  rewrite copy_all_ok; [ | | lia].
  2:{ intros k Hk. rewrite length_app. cstep. rewrite cint_ok by int_bounds. f_equal. lia. }
  rewrite obind_ok, <- app_assoc.
  destruct (merge_loop_ok A (S1 ++ S2 ++ B) [] S1 [] S2 (Z.to_nat (len S1 + len S2)))
    as (W & L1 & L2 & R1 & R2 & E & HL & HR & _ & HW); rewrite ?length_app; simpl; try lia.
  simpl in *. change (Z.of_nat 0) with 0 in E. rewrite E, obind_ok. clear E.
  pose proof (length_list_merge S1 S2) as Hlen. rewrite HW, !length_app in Hlen.
  rewrite HW, (app_assoc S1), drop_app_le by (rewrite length_app; lia).
  rewrite (app_assoc A W), (drain_both_ok _ _ _ _ _ L1 L2 R1 R2);
    rewrite ?length_app, ?length_drop, ?length_app; try done || lia.
  by rewrite <- !app_assoc.
Qed.

Lemma Sorted_merge_lt l1 l2 :
  Sorted Z.le l1 -> Sorted Z.le l2 -> Sorted Z.le (list_merge Z.lt l1 l2).
Proof.
  assert (forall x m1 m2, HdRel Z.le x m1 -> HdRel Z.le x m2 -> HdRel Z.le x (list_merge Z.lt m1 m2)) as Hhd.
  { intros x m1 m2. destruct 1, 1; rewrite ?list_merge_cons; simpl; repeat case_decide; auto. }
  intros H1. revert l2. induction H1 as [ | x1 l1 IH1];
    induction 1 as [ | x2 l2 IH2]; rewrite ?list_merge_cons; simpl; repeat case_decide;
    repeat constructor; eauto; apply Hhd; constructor || auto; lia.
Qed.

(** Merging the sorted halves sorts the whole: sorted permutations are unique. *)
Lemma merge_sorted_halves S1 S2 :
  list_merge Z.lt (merge_sort Z.le S1) (merge_sort Z.le S2) = merge_sort Z.le (S1 ++ S2).
Proof.
  apply (Sorted_unique Z.le).
  - apply Sorted_merge_lt; apply Sorted_merge_sort; apply _.
  - apply Sorted_merge_sort; apply _.
  - by rewrite merge_Permutation, !merge_sort_Permutation.
Qed.

Lemma length_merge_sort (l : list Z) : length (merge_sort Z.le l) = length l.
Proof. by rewrite merge_sort_Permutation. Qed.

Lemma mergeSort_fuel_ok fuel A S B l r :
  (length S <= fuel)%nat -> len (A ++ S ++ B) <= INT_MAX ->
  l = len A -> r = len A + len S - 1 ->
  mergeSort_fuel fuel (A ++ S ++ B) l r = Ok (A ++ merge_sort Z.le S ++ B).
Proof.
  revert A S B l r. induction fuel as [ | fuel IH]; intros A S B l r Hf Hm -> ->; cbn [mergeSort_fuel];
    rewrite Z.geb_leb; (case_if;
      [destruct S as [ | x [ | y S]]; [done | done | simpl in *; lia] | ]); [lia | ].
  rewrite !length_app in Hm. do 2 cstep.
  set (d := (len A + len S - 1 - len A) / 2).
  assert (0 <= d /\ 2 * d <= len S - 1 < 2 * d + 2) as [Hd0 Hd].
  { subst d. pose proof (Z.div_mod (len A + len S - 1 - len A) 2).
    pose proof (Z.mod_pos_bound (len A + len S - 1 - len A) 2). lia. }
  clearbody d. cstep. rewrite <- (take_drop (Z.to_nat (d + 1)) S).
  set (S1 := take _ S). set (S2 := drop _ S).
  assert (len S1 = d + 1) as H1 by (subst S1; rewrite length_take; lia).
  assert (len S2 = len S - (d + 1)) as H2 by (subst S2; rewrite length_drop; lia).
  clearbody S1 S2. rewrite <- (app_assoc S1).
  rewrite IH by (rewrite ?length_app; lia). do 2 cstep.
  rewrite (app_assoc A), IH by (rewrite ?length_app, ?length_merge_sort; lia).
  rewrite obind_ok, <- app_assoc, (app_assoc (merge_sort _ S1)), merge_ok, merge_sorted_halves;
    rewrite ?length_app, ?length_merge_sort; try lia.
  - done.
  - intros E%(f_equal length). rewrite length_merge_sort in E. simpl in E. lia.
  - intros E%(f_equal length). rewrite length_merge_sort in E. simpl in E. lia.
Qed.

Lemma read_args_dec vs :
  Forall (fun v => INT_MIN <= v <= INT_MAX) vs -> read_args (dec <$> vs) = Ok vs.
Proof.
  induction 1 as [ | v vs Hv _ IH]; [done | ]. rewrite fmap_cons. cbn [read_args].
  rewrite atoi_dec, obind_ok, IH, obind_ok by done. done.
Qed.

(** ** Properties *)

(** C9. [mergeSort(arr, l, r)] terminates, stays inside the array and inside the
    range of [int], leaves everything outside [l..r] as it was, and leaves in
    [l..r] exactly the sorted sequence of the elements that were there (the
    result of the reference [merge_sort], a sorted permutation). *)
Theorem mergeSort_sorts A S B :
  len (A ++ S ++ B) <= INT_MAX ->
  mergeSort (A ++ S ++ B) (len A) (len A + len S - 1) = Ok (A ++ merge_sort Z.le S ++ B) /\
  Sorted Z.le (merge_sort Z.le S) /\ merge_sort Z.le S ≡ₚ S.
Proof.
  intros Hm. split; [ | split; [apply Sorted_merge_sort; apply _ | apply merge_sort_Permutation]].
  apply mergeSort_fuel_ok; try done. lia.
Qed.

Lemma mergeSort_sorts_witness :
  mergeSort ([9] ++ [5; 2; 5; -1; 3] ++ [0]) 1 5 = Ok ([9] ++ merge_sort Z.le [5; 2; 5; -1; 3] ++ [0]) /\
  Sorted Z.le (merge_sort Z.le [5; 2; 5; -1; 3]) /\
  merge_sort Z.le [5; 2; 5; -1; 3] ≡ₚ [5; 2; 5; -1; 3].
Proof. apply (mergeSort_sorts [9] [5; 2; 5; -1; 3] [0]). unfold INT_MAX; simpl; lia. Defined.

(** The program: run with one or more arguments that are decimal numbers in
    the range of [int], [main] prints how many there are and the numbers in
    sorted order; run without an argument it declares an array of zero
    elements, which is undefined. *)
Theorem mergeSort_main prog vs :
  Forall (fun v => INT_MIN <= v <= INT_MAX) vs -> len vs <= INT_MAX ->
  main (prog :: (dec <$> vs)) =
    if decide (vs = []) then Ub else Ok (len vs, merge_sort Z.le vs).
Proof.
  intros Hvs Hm. unfold main. cbn [length tail]. rewrite length_fmap.
  replace (Z.of_nat (S (length vs)) - 1) with (len vs) by lia.
  unfold vla. case_decide as Hv; [by subst | ].
  assert (0 < len vs) by (destruct vs; [done | simpl; lia]).
  rewrite (proj2 (Z.leb_gt _ 0)), obind_ok, read_args_dec, obind_ok by done. cstep.
  pose proof (mergeSort_fuel_ok (Z.to_nat (len vs - 1 - 0 + 1)) [] vs [] 0 (len vs - 1)) as Hs.
  simpl in Hs. rewrite !app_nil_r in Hs. unfold mergeSort.
  rewrite Hs, obind_ok by (done || lia). done.
Qed.

Lemma mergeSort_main_witness :
  main (lit "mergeSort"%string :: (dec <$> [30; -7; 12])) = Ok (3, merge_sort Z.le [30; -7; 12]).
Proof.
  rewrite (mergeSort_main (lit "mergeSort"%string) [30; -7; 12]);
    [done | repeat constructor; unfold INT_MIN, INT_MAX; lia | unfold INT_MAX; simpl; lia].
Defined.

End MergeSort.
