(* ===== verification/KHash.v ===== *)
(** * The hash table of [hash_table/khash.h]: definitions

    The macros [__KHASH_TYPE] and [__KHASH_IMPL] instantiated as a map
    ([kh_is_map = 1]), for any key type, hash function and value type; the flag
    words are the packed two-bit words of the source. *)
From S2P Require Import Prelude.

Module KHash.

(** ** Flag words: two bits per bucket, bit 1 "empty", bit 0 "deleted" *)
Definition flag_shift (i : Z) : Z := Z.shiftl (Z.land i 15) 1.
Definition flag_bits (f : list Z) (i : Z) : outcome Z :=
  let! w := rd f (Z.shiftr i 4) in Ok (Z.shiftr w (flag_shift i)).
Definition ac_isempty (f : list Z) (i : Z) : outcome bool :=
  let! b := flag_bits f i in Ok (negb (Z.land b 2 =? 0)).
Definition ac_isdel (f : list Z) (i : Z) : outcome bool :=
  let! b := flag_bits f i in Ok (negb (Z.land b 1 =? 0)).
Definition ac_iseither (f : list Z) (i : Z) : outcome bool :=
  let! b := flag_bits f i in Ok (negb (Z.land b 3 =? 0)).
Definition flag_update (g : Z -> Z) (f : list Z) (i : Z) : outcome (list Z) :=
  let! w := rd f (Z.shiftr i 4) in wr f (Z.shiftr i 4) (g w).
Definition ac_set_isdel_false (f : list Z) (i : Z) : outcome (list Z) :=
  flag_update (fun w => Z.land w (Z.lnot (Z.shiftl 1 (flag_shift i)))) f i.
Definition ac_set_isempty_false (f : list Z) (i : Z) : outcome (list Z) :=
  flag_update (fun w => Z.land w (Z.lnot (Z.shiftl 2 (flag_shift i)))) f i.
Definition ac_set_isboth_false (f : list Z) (i : Z) : outcome (list Z) :=
  flag_update (fun w => Z.land w (Z.lnot (Z.shiftl 3 (flag_shift i)))) f i.
Definition ac_set_isdel_true (f : list Z) (i : Z) : outcome (list Z) :=
  flag_update (fun w => Z.lor w (Z.shiftl 1 (flag_shift i))) f i.

Definition ac_fsize (m : Z) : Z := if m <? 16 then 1 else Z.shiftr m 4.
(** [memset(flags, 0xaa, ...)]: every bucket empty. *)
Definition fresh_flags (m : Z) : list Z := replicate (Z.to_nat (ac_fsize m)) 2863311530.

(** [kroundup32]: round up to a power of two, in 32-bit arithmetic. *)
Definition smear (s x : Z) : Z := Z.lor x (Z.shiftr x s).
Definition kroundup32 (x : Z) : Z :=
  u32 (smear 16 (smear 8 (smear 4 (smear 2 (smear 1 (u32 (x - 1)))))) + 1).

(** [(khint_t)(n * __ac_HASH_UPPER + 0.5)]: the double nearest to 0.77 is
    6935543426150564 / 2^53.  The function is applied to powers of two from 4
    to 2^31 only; for those the product and the sum are exact doubles. *)
Definition hash_upper (n : Z) : Z := (2 * n * 6935543426150564 + 2 ^ 53) / 2 ^ 54.

(** ** The table *)
Record kh (K V : Type) := mk_kh {
  n_buckets : Z;
  size : Z;
  n_occupied : Z;
  upper_bound : Z;
  flags : list Z;
  keys : list (option K);
  vals : list (option V)
}.
Arguments mk_kh {K V}.
Arguments n_buckets {K V}. Arguments size {K V}. Arguments n_occupied {K V}.
Arguments upper_bound {K V}. Arguments flags {K V}. Arguments keys {K V}. Arguments vals {K V}.

Definition deref {A} (c : option A) : outcome A :=
  match c with Some a => Ok a | None => Ub end.

Section Ops.
Context {K V : Type} `{!EqDecision K} (hash : K -> Z).

(** [kcalloc]: all fields zero, no arrays. *)
Definition kh_init : kh K V := mk_kh 0 0 0 0 [] [] [].

Definition kh_clear (h : kh K V) : kh K V :=
  match flags h with
  | [] => h
  | _ => mk_kh (n_buckets h) 0 0 (upper_bound h) (fresh_flags (n_buckets h)) (keys h) (vals h)
  end.

(** [isdel(i) || !__hash_equal(keys[i], key)], the key read only if needed. *)
Definition del_or_other (f : list Z) (ks : list (option K)) (i : Z) (key : K) : outcome bool :=
  let! d := ac_isdel f i in
  if d then Ok true
  else
    let! c := rd ks i in
    let! k := deref c in
    Ok (negb (bool_decide (k = key))).

(** The probing loop of [kh_get]; the result is the returned index. *)
Fixpoint get_loop (h : kh K V) (key : K) (mask last : Z) (fuel : nat) (i step : Z) : outcome Z :=
  let! e := ac_isempty (flags h) i in
  let! go := if e then Ok false else del_or_other (flags h) (keys h) i key in
  if go : bool then
    match fuel with
    | O => NoFuel
    | S fuel =>
        let step := u32 (step + 1) in
        let i := Z.land (u32 (i + step)) mask in
        if i =? last then Ok (n_buckets h) else get_loop h key mask last fuel i step
    end
  else
    let! x := ac_iseither (flags h) i in
    Ok (if x then n_buckets h else i).
Definition kh_get (h : kh K V) (key : K) : outcome Z :=
  if n_buckets h =? 0 then Ok 0
  else
    let mask := u32 (n_buckets h - 1) in
    let i := Z.land (hash key) mask in
    get_loop h key mask i (Z.to_nat (2 * n_buckets h)) i 0.

(** [while (!__ac_isempty(new_flags, i)) i = (i + (++step)) & new_mask;] *)
Fixpoint find_empty (f : list Z) (mask : Z) (fuel : nat) (i step : Z) : outcome Z :=
  let! e := ac_isempty f i in
  if e then Ok i
  else
    match fuel with
    | O => NoFuel
    | S fuel =>
        let step := u32 (step + 1) in
        find_empty f mask fuel (Z.land (u32 (i + step)) mask) step
    end.

(** The arrays [kh_resize] works on while it rehashes. *)
Record rehash := mk_rehash {
  r_flags : list Z;       (** h->flags *)
  r_new : list Z;         (** new_flags *)
  r_keys : list (option K);
  r_vals : list (option V)
}.

(** The kick-out loop: place [key], [val]; the element it displaces is placed
    next. *)
Fixpoint kick (n new_n : Z) (fuel : nat) (r : rehash) (key : K) (val : option V) :
    outcome rehash :=
  match fuel with
  | O => NoFuel
  | S fuel =>
      let new_mask := u32 (new_n - 1) in
      let i := Z.land (hash key) new_mask in
      let! i := find_empty (r_new r) new_mask (Z.to_nat (2 * new_n)) i 0 in
      let! nf := ac_set_isempty_false (r_new r) i in
      let! occupied :=
        if i <? n then let! e := ac_iseither (r_flags r) i in Ok (negb e) else Ok false in
      if occupied : bool then
        let! c := rd (r_keys r) i in
        let! key' := deref c in
        let! ks := wr (r_keys r) i (Some key) in
        let! val' := rd (r_vals r) i in
        let! vs := wr (r_vals r) i val in
        let! fl := ac_set_isdel_true (r_flags r) i in
        kick n new_n fuel (mk_rehash fl nf ks vs) key' val'
      else
        let! ks := wr (r_keys r) i (Some key) in
        let! vs := wr (r_vals r) i val in
        Ok (mk_rehash (r_flags r) nf ks vs)
  end.

(** [for (j = 0; j != h->n_buckets; ++j)] *)
Fixpoint rehash_loop (n new_n : Z) (fuel : nat) (j : Z) (r : rehash) : outcome rehash :=
  if j =? n then Ok r
  else
    match fuel with
    | O => NoFuel
    | S fuel =>
        let! e := ac_iseither (r_flags r) j in
        let! r :=
          if e then Ok r
          else
            let! c := rd (r_keys r) j in
            let! key := deref c in
            let! val := rd (r_vals r) j in
            let! fl := ac_set_isdel_true (r_flags r) j in
            kick n new_n (Z.to_nat (n + 1)) (mk_rehash fl (r_new r) (r_keys r) (r_vals r)) key val in
        rehash_loop n new_n fuel (u32 (j + 1)) r
    end.

(** [realloc] of an array of indeterminate cells. *)
Definition grow {A} (l : list (option A)) (n : Z) : list (option A) :=
  take (Z.to_nat n) l ++ replicate (Z.to_nat n - length l) None.

(** The power of two [kh_resize] aims at. *)
Definition round_buckets (n : Z) : Z :=
  let n := kroundup32 n in if n <? 4 then 4 else n.

(** [kh_resize]; the booleans say whether the allocation of the new flags, of
    the keys and of the values succeeds.  The reallocations that expand are checked;
    those that shrink are not, and a failed one leaves a null pointer (the empty
    array) in the table.  The result is the return code and the table. *)
Definition kh_resize (a1 a2 a3 : bool) (h : kh K V) (new_n_buckets : Z) : outcome (Z * kh K V) :=
  let new_n := round_buckets new_n_buckets in
  if size h >=? hash_upper new_n then Ok (0, h)
  else if negb a1 then Ok (-1, h)
  else
    let nf := fresh_flags new_n in
    let expand := n_buckets h <? new_n in
    if expand && negb a2 then Ok (-1, h)
    else
      let ks := if expand then grow (keys h) new_n else keys h in
      if expand && negb a3 then
        Ok (-1, mk_kh (n_buckets h) (size h) (n_occupied h) (upper_bound h) (flags h) ks (vals h))
      else
        let vs := if expand then grow (vals h) new_n else vals h in
        let! r := rehash_loop (n_buckets h) new_n (Z.to_nat (n_buckets h)) 0
                    (mk_rehash (flags h) nf ks vs) in
        let shrink := n_buckets h >? new_n in
        let ks := if shrink then (if a2 then grow (r_keys r) new_n else []) else r_keys r in
        let vs := if shrink then (if a3 then grow (r_vals r) new_n else []) else r_vals r in
        Ok (0, mk_kh new_n (size h) (size h) (hash_upper new_n) (r_new r) ks vs).

(** The probing loop of [kh_put]: the result is [x], [site] and [i] after it. *)
Fixpoint put_loop (h : kh K V) (key : K) (mask last : Z) (fuel : nat) (i step site : Z) :
    outcome (Z * Z * Z) :=
  let! e := ac_isempty (flags h) i in
  let! go := if e then Ok false else del_or_other (flags h) (keys h) i key in
  if go : bool then
    match fuel with
    | O => NoFuel
    | S fuel =>
        let! d := ac_isdel (flags h) i in
        let site := if d then i else site in
        let step := u32 (step + 1) in
        let i := Z.land (u32 (i + step)) mask in
        if i =? last then Ok (site, site, i)
        else put_loop h key mask last fuel i step site
    end
  else Ok (n_buckets h, site, i).

(** The bucket [x] that [kh_put] settles on. *)
Definition put_slot (h : kh K V) (key : K) : outcome Z :=
  let mask := u32 (n_buckets h - 1) in
  let i := Z.land (hash key) mask in
  let! e := ac_isempty (flags h) i in
  if e then Ok i
  else
    let! '(x, site, i) :=
      put_loop h key mask i (Z.to_nat (2 * n_buckets h)) i 0 (n_buckets h) in
    if x =? n_buckets h then
      let! e := ac_isempty (flags h) i in
      Ok (if e && negb (site =? n_buckets h) then site else i)
    else Ok x.

(** The final part of [kh_put]: occupy bucket [x] if it holds no live key. *)
Definition put_at (h : kh K V) (key : K) (x : Z) : outcome (Z * Z * kh K V) :=
  let! e := ac_isempty (flags h) x in
  if e then
    let! ks := wr (keys h) x (Some key) in
    let! fl := ac_set_isboth_false (flags h) x in
    Ok (x, 1, mk_kh (n_buckets h) (u32 (size h + 1)) (u32 (n_occupied h + 1)) (upper_bound h)
                fl ks (vals h))
  else
    let! d := ac_isdel (flags h) x in
    if d then
      let! ks := wr (keys h) x (Some key) in
      let! fl := ac_set_isboth_false (flags h) x in
      Ok (x, 2, mk_kh (n_buckets h) (u32 (size h + 1)) (n_occupied h) (upper_bound h)
                  fl ks (vals h))
    else Ok (x, 0, h).

(** [kh_put]: the returned index, [*ret] and the table. *)
Definition kh_put (a1 a2 a3 : bool) (h : kh K V) (key : K) : outcome (Z * Z * kh K V) :=
  let! '(rc, h) :=
    if n_occupied h >=? upper_bound h then
      if n_buckets h >? u32 (Z.shiftl (size h) 1)
      then kh_resize a1 a2 a3 h (u32 (n_buckets h - 1))
      else kh_resize a1 a2 a3 h (u32 (n_buckets h + 1))
    else Ok (0, h) in
  if rc <? 0 then Ok (n_buckets h, -1, h)
  else
    let! x := put_slot h key in
    put_at h key x.

Definition kh_del (h : kh K V) (x : Z) : outcome (kh K V) :=
  if x =? n_buckets h then Ok h
  else
    let! e := ac_iseither (flags h) x in
    if e then Ok h
    else
      let! fl := ac_set_isdel_true (flags h) x in
      Ok (mk_kh (n_buckets h) (u32 (size h - 1)) (n_occupied h) (upper_bound h) fl (keys h) (vals h)).

(** [kh_exist], [kh_key], [kh_val] and the assignment [kh_value(h, x) = v]. *)
Definition kh_exist (h : kh K V) (x : Z) : outcome bool :=
  let! e := ac_iseither (flags h) x in Ok (negb e).
Definition kh_key (h : kh K V) (x : Z) : outcome K :=
  let! c := rd (keys h) x in deref c.
Definition kh_val (h : kh K V) (x : Z) : outcome V :=
  let! c := rd (vals h) x in deref c.
Definition kh_set_val (h : kh K V) (x : Z) (v : V) : outcome (kh K V) :=
  let! vs := wr (vals h) x (Some v) in
  Ok (mk_kh (n_buckets h) (size h) (n_occupied h) (upper_bound h) (flags h) (keys h) vs).

End Ops.

(** ** Hash functions *)
Definition kh_int_hash_func (key : Z) : Z := u32 key.
Definition kh_int64_hash_func (key : Z) : Z :=
  u32 (Z.lxor (Z.lxor (Z.shiftr key 33) key) (u64 (Z.shiftl key 11))).
(** [__ac_X31_hash_string] over the bytes of the string as [char] (signed). *)
Definition ac_X31_hash_string (s : bytes) : Z :=
  match s with
  | [] => 0
  | c :: s => foldl (fun h c => u32 (u32 (u32 (Z.shiftl h 5) - h) + u32 (i8 c))) (u32 (i8 c)) s
  end.
Definition ac_Wang_hash (key : Z) : Z :=
  let key := u32 (key + u32 (Z.lnot (u32 (Z.shiftl key 15)))) in
  let key := Z.lxor key (Z.shiftr key 10) in
  let key := u32 (key + u32 (Z.shiftl key 3)) in
  let key := Z.lxor key (Z.shiftr key 6) in
  let key := u32 (key + u32 (Z.lnot (u32 (Z.shiftl key 11)))) in
  Z.lxor key (Z.shiftr key 16).

End KHash.
