(* ===== verification/KHashFlags.v ===== *)
(** * Facts about the packed flag words and the probe sequence of [khash.h] *)
From Stdlib Require Import Znumtheory Zpow_facts.
From S2P Require Import Prelude KHash.
Import KHash.

(** ** Bits of the flag words *)

Definition word (f : list Z) (i : Z) : Z := default 0 (f !! Z.to_nat (i / 16)).
(** [fbit f i 1] is the empty bit of bucket [i], [fbit f i 0] its deleted bit. *)
Definition fbit (f : list Z) (i b : Z) : bool := Z.testbit (word f i) (2 * (i mod 16) + b).
Definition in_flags (f : list Z) (i : Z) : Prop := 0 <= i < 16 * len f.

Lemma land_15 i : Z.land i 15 = i mod 16.
Proof. change 15 with (Z.ones 4). rewrite Z.land_ones by lia. done. Qed.

Lemma flag_shift_eq i : flag_shift i = 2 * (i mod 16).
Proof. unfold flag_shift. rewrite land_15, Z.shiftl_mul_pow2 by lia. lia. Qed.

Lemma rd_word f i : in_flags f i -> rd f (Z.shiftr i 4) = Ok (word f i).
Proof.
  intros [H0 H1]. rewrite Z.shiftr_div_pow2 by lia. change (2 ^ 4) with 16.
  destruct (lookup_lt_is_Some_2 f (Z.to_nat (i / 16))) as [w Hw].
  { apply Nat2Z.inj_lt. rewrite Z2Nat.id by (apply Z.div_pos; lia).
    apply Z.div_lt_upper_bound; lia. }
  unfold word. rewrite Hw. apply rd_ok; [apply Z.div_pos; lia | done].
Qed.

Lemma flag_bits_ok f i :
  in_flags f i -> flag_bits f i = Ok (Z.shiftr (word f i) (2 * (i mod 16))).
Proof. intros H. unfold flag_bits. rewrite rd_word, obind_ok, flag_shift_eq by done. done. Qed.

Lemma shift_nonneg i : 0 <= 2 * (i mod 16).
Proof. pose proof (Z.mod_pos_bound i 16). lia. Qed.

(** A mask with a single bit tests that bit. *)
Lemma land_bit x b : 0 <= b -> negb (Z.land x (2 ^ b) =? 0) = Z.testbit x b.
Proof.
  intros Hb. destruct (Z.testbit x b) eqn:E.
  - apply negb_true_iff, Z.eqb_neq. intros H.
    apply (f_equal (fun z => Z.testbit z b)) in H.
    rewrite Z.land_spec, E, Z.pow2_bits_true, Z.bits_0 in H by lia. done.
  - apply negb_false_iff, Z.eqb_eq. apply Z.bits_inj'. intros n Hn.
    rewrite Z.land_spec, Z.bits_0. destruct (decide (n = b)) as [-> | Hne]; [by rewrite E | ].
    rewrite Z.pow2_bits_false by lia. apply andb_false_r.
Qed.

Lemma land_1 x : negb (Z.land x 1 =? 0) = Z.testbit x 0.
Proof. apply (land_bit x 0). lia. Qed.
Lemma land_2 x : negb (Z.land x 2 =? 0) = Z.testbit x 1.
Proof. apply (land_bit x 1). lia. Qed.

Lemma ac_isempty_ok f i : in_flags f i -> ac_isempty f i = Ok (fbit f i 1).
Proof.
  intros H. unfold ac_isempty. rewrite flag_bits_ok, obind_ok by done.
  rewrite land_2, Z.shiftr_spec by lia. unfold fbit.
  do 2 f_equal. lia.
Qed.

Lemma ac_isdel_ok f i : in_flags f i -> ac_isdel f i = Ok (fbit f i 0).
Proof.
  intros H. unfold ac_isdel. rewrite flag_bits_ok, obind_ok by done.
  rewrite land_1, Z.shiftr_spec by lia. unfold fbit.
  do 2 f_equal. lia.
Qed.

Lemma ac_iseither_ok f i : in_flags f i -> ac_iseither f i = Ok (fbit f i 0 || fbit f i 1).
Proof.
  intros H. unfold ac_iseither. rewrite flag_bits_ok, obind_ok by done. f_equal.
  change 3 with (Z.lor 1 2). rewrite Z.land_lor_distr_r.
  assert (forall a b, (Z.lor a b =? 0) = (a =? 0) && (b =? 0)) as Hor.
  { intros a b. apply eq_true_iff_eq. rewrite andb_true_iff, !Z.eqb_eq. apply Z.lor_eq_0_iff. }
  rewrite Hor, negb_andb, land_1, land_2, !Z.shiftr_spec by lia. unfold fbit.
  f_equal; f_equal; lia.
Qed.

Lemma flag_update_ok g f i :
  in_flags f i -> flag_update g f i = Ok (<[Z.to_nat (i / 16) := g (word f i)]> f).
Proof.
  intros H. unfold flag_update. rewrite rd_word, obind_ok by done.
  rewrite Z.shiftr_div_pow2 by lia. change (2 ^ 4) with 16. destruct H as [H0 H1].
  apply wr_ok. split; [apply Z.div_pos; lia | apply Z.div_lt_upper_bound; lia].
Qed.

(** The effect of an update on every flag bit. *)
Lemma fbit_update g f i j b :
  in_flags f i -> 0 <= j -> 0 <= b < 2 ->
  (forall p, 0 <= p -> p < 2 * (i mod 16) \/ 2 * (i mod 16) + 2 <= p ->
     Z.testbit (g (word f i)) p = Z.testbit (word f i) p) ->
  fbit (<[Z.to_nat (i / 16) := g (word f i)]> f) j b =
    if decide (j = i) then Z.testbit (g (word f i)) (2 * (i mod 16) + b) else fbit f j b.
Proof.
  intros [H0 H1] Hj Hb Hg. pose proof (Z.mod_pos_bound i 16). pose proof (Z.mod_pos_bound j 16).
  assert (0 <= i / 16 /\ 0 <= j / 16) as [Hi' Hj'] by (split; apply Z.div_pos; lia).
  assert (i / 16 < len f) by (apply Z.div_lt_upper_bound; lia).
  unfold fbit, word at 1.
  destruct (decide (i / 16 = j / 16)) as [E | E].
  - rewrite <- E, list_lookup_insert_eq by lia. simpl.
    case_decide as Hij; [by subst | ].
    rewrite Hg; unfold word; [by rewrite E | lia | ].
    pose proof (Z.div_mod i 16). pose proof (Z.div_mod j 16). lia.
  - rewrite list_lookup_insert_ne by lia. case_decide as Hij; [by subst | done].
Qed.

Definition same_but (f f' : list Z) (i : Z) (e d : bool) : Prop :=
  length f' = length f /\ fbit f' i 1 = e /\ fbit f' i 0 = d /\
  forall j b, 0 <= j -> 0 <= b < 2 -> j <> i -> fbit f' j b = fbit f j b.

Lemma same_but_update g f i :
  in_flags f i ->
  (forall p, 0 <= p -> p < 2 * (i mod 16) \/ 2 * (i mod 16) + 2 <= p ->
     Z.testbit (g (word f i)) p = Z.testbit (word f i) p) ->
  exists f', flag_update g f i = Ok f' /\
    same_but f f' i (Z.testbit (g (word f i)) (2 * (i mod 16) + 1))
                    (Z.testbit (g (word f i)) (2 * (i mod 16) + 0)).
Proof.
  intros Hi Hg. eexists. split; [by apply flag_update_ok | ]. destruct Hi as [H0 H1].
  split; [apply length_insert | ]. split; [ | split].
  - rewrite fbit_update by (done || lia). by rewrite decide_True.
  - rewrite fbit_update by (done || lia). by rewrite decide_True.
  - intros j b Hj Hb Hne. rewrite fbit_update by (done || lia). by rewrite decide_False.
Qed.

(** A two-bit constant shifted to the bucket's place touches its two bits only. *)
Lemma testbit_shifted c s p :
  0 <= c < 4 -> 0 <= s -> 0 <= p ->
  Z.testbit (Z.shiftl c s) p =
    if decide (p = s) then Z.testbit c 0 else if decide (p = s + 1) then Z.testbit c 1 else false.
Proof.
  intros Hc Hs Hp. rewrite Z.shiftl_spec by lia.
  repeat case_decide; subst; try (f_equal; lia).
  destruct (decide (p < s)); [apply Z.testbit_neg_r; lia | ].
  apply (Z.bits_above_log2 c); [lia | ].
  destruct (decide (c = 0)) as [-> | ]; [simpl; lia | ].
  assert (Z.log2 c < 2) by (apply Z.log2_lt_pow2; lia). lia.
Qed.

Ltac solve_mask :=
  intros; cbv beta; rewrite ?Z.land_spec, ?Z.lor_spec, ?Z.lnot_spec by lia;
  rewrite testbit_shifted, ?flag_shift_eq by (rewrite ?flag_shift_eq; lia);
  repeat case_decide; try lia; simpl; rewrite ?andb_true_r, ?andb_false_r, ?orb_false_r, ?orb_true_r;
  done.

Section Updates.
Context (f : list Z) (i : Z) (Hi : in_flags f i).

Lemma set_isempty_false_ok :
  exists f', ac_set_isempty_false f i = Ok f' /\ same_but f f' i false (fbit f i 0).
Proof.
  pose proof (shift_nonneg i). unfold ac_set_isempty_false.
  edestruct (same_but_update (fun w => Z.land w (Z.lnot (Z.shiftl 2 (flag_shift i)))) f i Hi)
    as (f' & E & Hs); [solve_mask | ].
  exists f'. split; [done | ]. unfold same_but, fbit in *.
  destruct Hs as (? & He & Hd & ?). split; [done | ]. rewrite He, Hd. split; [ | split]; [solve_mask | solve_mask | done].
Qed.

Lemma set_isboth_false_ok :
  exists f', ac_set_isboth_false f i = Ok f' /\ same_but f f' i false false.
Proof.
  pose proof (shift_nonneg i). unfold ac_set_isboth_false.
  edestruct (same_but_update (fun w => Z.land w (Z.lnot (Z.shiftl 3 (flag_shift i)))) f i Hi)
    as (f' & E & Hs); [solve_mask | ].
  exists f'. split; [done | ]. unfold same_but, fbit in *.
  destruct Hs as (? & He & Hd & ?). split; [done | ]. rewrite He, Hd. split; [ | split]; [solve_mask | solve_mask | done].
Qed.

Lemma set_isdel_true_ok :
  exists f', ac_set_isdel_true f i = Ok f' /\ same_but f f' i (fbit f i 1) true.
Proof.
  pose proof (shift_nonneg i). unfold ac_set_isdel_true.
  edestruct (same_but_update (fun w => Z.lor w (Z.shiftl 1 (flag_shift i))) f i Hi)
    as (f' & E & Hs); [solve_mask | ].
  exists f'. split; [done | ]. unfold same_but, fbit in *.
  destruct Hs as (? & He & Hd & ?). split; [done | ]. rewrite He, Hd. split; [ | split]; [solve_mask | solve_mask | done].
Qed.
End Updates.

(** Freshly set flags: every bucket is empty and not deleted. *)
Lemma fresh_flags_bits m i :
  in_flags (fresh_flags m) i -> fbit (fresh_flags m) i 1 = true /\ fbit (fresh_flags m) i 0 = false.
Proof.
  intros [H0 H1]. unfold fbit, word, fresh_flags in *. rewrite length_replicate in H1.
  rewrite lookup_replicate_2.
  2:{ apply Nat2Z.inj_lt. rewrite Z2Nat.id by (apply Z.div_pos; lia).
      apply Z.div_lt_upper_bound; lia. }
  cbn [default from_option]. pose proof (Z.mod_pos_bound i 16). set (r := i mod 16) in *. clearbody r.
  assert (In r [0;1;2;3;4;5;6;7;8;9;10;11;12;13;14;15]) as Hr by (simpl; lia).
  simpl in Hr. intuition subst; reflexivity.
Qed.

Lemma in_fresh_flags n i :
  (n < 16 \/ n mod 16 = 0) -> 0 <= i < n -> in_flags (fresh_flags n) i.
Proof.
  intros Hn Hi. split; [lia | ]. unfold fresh_flags, ac_fsize. rewrite length_replicate.
  case_if; [simpl; lia | ]. destruct Hn as [? | Hn]; [lia | ].
  rewrite Z.shiftr_div_pow2 by lia. change (2 ^ 4) with 16.
  rewrite Z2Nat.id by (apply Z.div_pos; lia). pose proof (Z.div_mod n 16). lia.
Qed.

(** ** The probe sequence *)

Definition tri (s : Z) : Z := s * (s + 1) / 2.
(** The bucket the [s]-th step of the probing looks at. *)
Definition probe (n h s : Z) : Z := (h + tri s) mod n.

Lemma tri_double s : 2 * tri s = s * (s + 1).
Proof.
  unfold tri. pose proof (Z.div_mod (s * (s + 1)) 2).
  assert ((s * (s + 1)) mod 2 = 0); [ | lia].
  rewrite Z.mul_mod by lia. destruct (Zmod_even s). 
  pose proof (Z.mod_pos_bound s 2). rewrite (Z.add_mod s 1) by lia.
  assert (s mod 2 = 0 \/ s mod 2 = 1) as [-> | ->] by lia; done.
Qed.

Lemma tri_succ s : tri (s + 1) = tri s + (s + 1).
Proof. pose proof (tri_double s). pose proof (tri_double (s + 1)). lia. Qed.

Section Probe.
Context (k n : Z) (Hk : 0 <= k <= 31) (Hn : n = 2 ^ k).

Lemma pow2_bound : 1 <= n <= 2147483648.
Proof.
  subst n. split.
  - change 1 with (2 ^ 0). apply Z.pow_le_mono_r; lia.
  - change 2147483648 with (2 ^ 31). apply Z.pow_le_mono_r; lia.
Qed.

Lemma mask_eq : u32 (n - 1) = n - 1.
Proof. pose proof pow2_bound. apply Z.mod_small. simpl. lia. Qed.

Lemma land_mask x : Z.land x (n - 1) = x mod n.
Proof. rewrite Hn. replace (2 ^ k - 1) with (Z.ones k) by (rewrite Z.ones_equiv; lia).
  apply Z.land_ones. lia. Qed.

Lemma probe_bound h s : 0 <= probe n h s < n.
Proof. pose proof pow2_bound. apply Z.mod_pos_bound. lia. Qed.

Lemma probe_0 h : probe n h 0 = Z.land h (n - 1).
Proof. rewrite land_mask. unfold probe. change (tri 0) with 0. f_equal. lia. Qed.

(** One step of the source's index update. *)
Lemma probe_step h s :
  0 <= s < n -> Z.land (u32 (probe n h s + u32 (s + 1))) (n - 1) = probe n h (s + 1).
Proof.
  intros Hs. pose proof pow2_bound. pose proof (probe_bound h s). rewrite land_mask.
  unfold u32, uwrap. change (2 ^ 32) with 4294967296.
  rewrite (Z.mod_small (s + 1)), (Z.mod_small (_ + _)) by lia.
  unfold probe. rewrite Zplus_mod_idemp_l, tri_succ. f_equal. lia.
Qed.

Lemma pow2_odd_divide x y j :
  0 <= j -> ~ (2 | x) -> (2 ^ j | x * y) -> (2 ^ j | y).
Proof.
  intros Hj Hx Hd. apply (Gauss _ x); [done | ].
  apply rel_prime_sym, rel_prime_Zpower_r; [done | ].
  apply rel_prime_sym, prime_rel_prime; [apply prime_2 | done].
Qed.

(** Two steps of one round of probing look at different buckets. *)
Lemma probe_inj h a b : 0 <= a < n -> 0 <= b < n -> probe n h a = probe n h b -> a = b.
Proof.
  intros Ha Hb H. pose proof pow2_bound. unfold probe in H.
  assert (n | tri a - tri b) as [q Hq].
  { pose proof (Z.div_mod (h + tri a) n). pose proof (Z.div_mod (h + tri b) n).
    exists ((h + tri a) / n - (h + tri b) / n). lia. }
  assert (2 ^ (k + 1) | (a - b) * (a + b + 1)) as Hd.
  { exists q. rewrite Z.pow_add_r by lia. pose proof (tri_double a). pose proof (tri_double b).
    rewrite <- Hn. lia. }
  assert (2 ^ (k + 1) = 2 * n) as Hp by (rewrite Z.pow_add_r, Hn by lia; lia).
  destruct (Zdivide_dec 2 (a - b)) as [[c Hc] | Ho].
  - rewrite Z.mul_comm in Hd. apply pow2_odd_divide in Hd; [ | lia | intros [d Hd']; lia].
    destruct Hd as [d Hd]. rewrite Hp in Hd. assert (d = 0) by nia. lia.
  - apply pow2_odd_divide in Hd; [ | lia | done].
    destruct Hd as [d Hd]. rewrite Hp in Hd. assert (0 < d < 1) by nia. lia.
Qed.

(** The next step stays within the round: it is not back at the first bucket. *)
Lemma probe_next h s :
  0 <= s < n - 1 ->
  u32 (s + 1) = s + 1 /\
  Z.land (u32 (probe n h s + (s + 1))) (n - 1) = probe n h (s + 1) /\
  (probe n h (s + 1) =? probe n h 0) = false.
Proof.
  intros Hs. pose proof pow2_bound.
  assert (u32 (s + 1) = s + 1) as Hu by (apply Z.mod_small; simpl; lia).
  split; [done | ]. split; [rewrite <- (probe_step h s), Hu by lia; done | ].
  apply Z.eqb_neq. intros E. apply probe_inj in E; lia.
Qed.

(** Every bucket is reached within one round. *)
Lemma probe_surj h i : 0 <= i < n -> exists s, 0 <= s < n /\ probe n h s = i.
Proof.
  intros Hi. pose proof pow2_bound.
  set (l := (fun s => Z.to_nat (probe n h (Z.of_nat s))) <$> seq 0 (Z.to_nat n)).
  assert (NoDup l) as Hnd.
  { apply NoDup_fmap_2_strong; [ | apply NoDup_seq]. intros x y Hx Hy E.
    apply elem_of_seq in Hx, Hy. pose proof (probe_bound h (Z.of_nat x)).
    pose proof (probe_bound h (Z.of_nat y)).
    enough (Z.of_nat x = Z.of_nat y) by lia. apply (probe_inj h); lia. }
  assert (l ⊆+ seq 0 (Z.to_nat n)) as Hsub.
  { apply NoDup_submseteq; [done | ]. intros x Hx. apply list_elem_of_fmap in Hx as (s & -> & Hs).
    apply elem_of_seq. pose proof (probe_bound h (Z.of_nat s)). lia. }
  assert (l ≡ₚ seq 0 (Z.to_nat n)) as Hperm.
  { apply submseteq_length_Permutation; [done | ]. subst l. rewrite length_fmap, length_seq. done. }
  assert (Z.to_nat i ∈ l) as Hin by (rewrite Hperm; apply elem_of_seq; lia).
  apply list_elem_of_fmap in Hin as (s & E & Hs). apply elem_of_seq in Hs.
  exists (Z.of_nat s). pose proof (probe_bound h (Z.of_nat s)). lia.
Qed.
End Probe.

(** ** Rounding up to a power of two *)

(** The top bit of [x] is [p] and the [c] bits from it downwards are set. *)
Definition smeared (c p x : Z) : Prop :=
  forall i, 0 <= i -> (p < i -> Z.testbit x i = false) /\ (p - c < i <= p -> Z.testbit x i = true).

Lemma smear_double c p x : 0 <= c -> smeared c p x -> smeared (2 * c) p (smear c x).
Proof.
  intros Hc H i Hi. unfold smear. rewrite Z.lor_spec, Z.shiftr_spec by lia.
  destruct (H i Hi) as [Ha Hb]. destruct (H (i + c) ltac:(lia)) as [Ha' Hb'].
  split; intros Hip.
  - rewrite Ha, Ha' by lia. done.
  - destruct (decide (p - c < i)); [rewrite Hb by lia; done | ].
    rewrite Hb', orb_true_r by lia. done.
Qed.

Lemma smeared_ones p x : 0 <= p < 32 -> smeared 32 p x -> x = 2 ^ (p + 1) - 1.
Proof.
  intros Hp H. replace (2 ^ (p + 1) - 1) with (Z.ones (p + 1)) by (rewrite Z.ones_equiv; lia).
  apply Z.bits_inj'. intros i Hi. destruct (H i Hi) as [Ha Hb].
  destruct (decide (p < i)).
  - rewrite Ha, Z.ones_spec_high by lia. done.
  - rewrite Hb, Z.ones_spec_low by lia. done.
Qed.

Lemma kroundup32_pow2 x :
  1 < x <= 2 ^ 31 -> kroundup32 x = 2 ^ (Z.log2 (x - 1) + 1).
Proof.
  intros Hx. unfold kroundup32.
  assert (u32 (x - 1) = x - 1) as -> by (apply Z.mod_small; simpl in *; lia).
  set (p := Z.log2 (x - 1)).
  assert (0 <= p < 31) as Hp.
  { split; [apply Z.log2_nonneg | apply Z.log2_lt_pow2; lia]. }
  assert (smeared 1 p (x - 1)) as H0.
  { intros i Hi. split; intros Hip; [apply Z.bits_above_log2; lia | ].
    replace i with p by lia. apply Z.bit_log2. lia. }
  do 5 (apply smear_double in H0; [ | lia]). change (2 * (2 * (2 * (2 * (2 * 1))))) with 32 in H0.
  apply smeared_ones in H0; [ | lia].
  change (2 * (2 * (2 * (2 * 1)))) with 16 in H0. change (2 * (2 * (2 * 1))) with 8 in H0.
  change (2 * (2 * 1)) with 4 in H0. change (2 * 1) with 2 in H0.
  rewrite H0. replace (2 ^ (p + 1) - 1 + 1) with (2 ^ (p + 1)) by lia.
  apply Z.mod_small. split; [lia | ]. apply Z.pow_lt_mono_r; lia.
Qed.

(** The number of buckets a resize aims at: the least power of two, four at
    least, that is not below the request. *)
Lemma round_buckets_spec x :
  0 < x <= 2 ^ 31 ->
  exists k, round_buckets x = 2 ^ k /\ 2 <= k <= 31 /\ x <= 2 ^ k /\
            (forall j, 2 <= j -> x <= 2 ^ j -> k <= j).
Proof.
  intros Hx. unfold round_buckets. destruct (decide (x = 1)) as [-> | Hx1].
  { exists 2. split; [done | ]. split; [lia | ]. split; [lia | ]. intros; lia. }
  rewrite kroundup32_pow2 by lia. set (p := Z.log2 (x - 1)).
  assert (0 <= p < 31) as Hp.
  { split; [apply Z.log2_nonneg | apply Z.log2_lt_pow2; lia]. }
  pose proof (Z.log2_spec (x - 1) ltac:(lia)) as Hl. fold p in Hl.
  replace (Z.succ p) with (p + 1) in Hl by lia.
  assert (forall j, 2 <= j -> x <= 2 ^ j -> p + 1 <= j) as Hmin.
  { intros j Hj Hxj.
    assert (2 ^ p < 2 ^ j) as Hlt by lia. apply Z.pow_lt_mono_r_iff in Hlt; lia. }
  cbv zeta. case_if.
  - exists 2. split; [done | ]. split; [lia | ]. split; [lia | ]. intros; lia.
  - exists (p + 1). split; [done | ].
    assert (2 <= p + 1).
    { apply Z.nlt_ge. intros Hlt. assert (2 ^ (p + 1) <= 2 ^ 1) by (apply Z.pow_le_mono_r; lia).
      simpl in *. lia. }
    split; [lia | ]. split; [lia | ]. intros j Hj Hxj. apply Hmin; lia.
Qed.

(** The load limit leaves at least one empty bucket and grows with the table. *)
Lemma hash_upper_bounds k : 2 <= k <= 31 ->
  0 < hash_upper (2 ^ k) < 2 ^ k /\ 2 ^ k <= 2 * hash_upper (2 ^ k).
Proof.
  intros Hk.
  assert (In k [2;3;4;5;6;7;8;9;10;11;12;13;14;15;16;17;18;19;20;21;22;23;24;25;26;27;28;29;30;31])
    as Hin by (simpl; lia).
  simpl in Hin. intuition subst; vm_compute; done || (split; [split | ]; congruence).
Qed.
