(* ===== verification/KHashProof.v ===== *)
(** * The hash table of [hash_table/khash.h]: correctness

    A table represents a finite map from keys to (possibly not yet assigned)
    values.  The invariant says that the live buckets enumerate the map, that
    every key is found before an empty bucket on its probe sequence, and that
    the counters count what they are meant to count. *)
From S2P Require Import Prelude KHash KHashFlags.
Import KHash.

Section Table.
Context {K V : Type} `{!EqDecision K, !Countable K} (hash : K -> Z).

Implicit Types (fl : list Z) (ks : list (option K)) (vs : list (option V)).

Definition live fl (i : Z) : bool := negb (fbit fl i 0 || fbit fl i 1).

(** The key and value of a live bucket. *)
Definition slot_of fl ks vs (i : Z) : option (K * option V) :=
  if live fl i then
    match ks !! Z.to_nat i, vs !! Z.to_nat i with
    | Some (Some k), Some v => Some (k, v)
    | _, _ => None
    end
  else None.
(** The buckets that are not empty (live or deleted). *)
Definition used fl (i : Z) : option unit := if fbit fl i 1 then None else Some tt.

(** Bucket [i] is on the probe sequence of [key], behind used buckets only. *)
Definition reach (n : Z) fl (key : K) (i : Z) : Prop :=
  exists s, 0 <= s < n /\ probe n (hash key) s = i /\
            forall s', 0 <= s' < s -> fbit fl (probe n (hash key) s') 1 = false.

Record table (n : Z) fl ks vs (m : gmap K (option V)) : Prop := {
  t_flags : forall i, 0 <= i < n -> in_flags fl i;
  t_keys : n <= len ks;
  t_vals : n <= len vs;
  t_init : forall i, 0 <= i < n -> live fl i = true -> is_Some (slot_of fl ks vs i);
  t_perm : entries (slot_of fl ks vs) n ≡ₚ map_to_list m;
  t_reach : forall i k v, 0 <= i < n -> slot_of fl ks vs i = Some (k, v) -> reach n fl k i
}.

(** The table [h] represents the map [m]. *)
Definition repr (h : kh K V) (m : gmap K (option V)) : Prop :=
  (n_buckets h = 0 /\ size h = 0 /\ n_occupied h = 0 /\ upper_bound h = 0 /\ m = ∅) \/
  exists k, 2 <= k <= 31 /\ n_buckets h = 2 ^ k /\
    table (n_buckets h) (flags h) (keys h) (vals h) m /\
    size h = Z.of_nat (base.size m) /\
    n_occupied h = len (entries (used (flags h)) (n_buckets h)) /\
    upper_bound h = hash_upper (n_buckets h) /\
    n_occupied h <= upper_bound h.

Lemma slot_of_live fl ks vs i key v :
  slot_of fl ks vs i = Some (key, v) ->
  live fl i = true /\ ks !! Z.to_nat i = Some (Some key) /\ vs !! Z.to_nat i = Some v.
Proof. unfold slot_of. repeat case_match; naive_solver. Qed.

Lemma live_bits fl i : live fl i = true <-> fbit fl i 0 = false /\ fbit fl i 1 = false.
Proof. unfold live. rewrite negb_true_iff, orb_false_iff. done. Qed.

(** The test that ends the probing for [key]: an empty bucket, or a live bucket
    with this key. *)
Definition stop fl ks (key : K) (i : Z) : bool :=
  fbit fl i 1 || (live fl i && bool_decide (ks !! Z.to_nat i = Some (Some key))).

Lemma loop_test_at {A} fl ks key i (c : bool -> outcome A) :
  in_flags fl i -> (live fl i = true -> exists k, ks !! Z.to_nat i = Some (Some k)) ->
  (let! e := ac_isempty fl i in
   let! go := if e then Ok false else del_or_other fl ks i key in c go) = c (negb (stop fl ks key i)).
Proof.
  intros Hf Hinit. rewrite ac_isempty_ok, obind_ok by done. unfold stop, del_or_other.
  destruct (fbit fl i 1) eqn:E1; [done | ]. cbn [orb].
  rewrite ac_isdel_ok, obind_ok by done. destruct (fbit fl i 0) eqn:E0.
  { unfold live. rewrite E0. done. }
  assert (live fl i = true) as Hl by by apply live_bits. rewrite Hl. cbn [andb].
  destruct (Hinit Hl) as [k' Hks]. unfold in_flags in Hf.
  rewrite (rd_ok _ _ (Some k')) by (done || lia). rewrite obind_ok. cbn [deref]. rewrite obind_ok, obind_ok.
  rewrite Hks. do 2 f_equal. apply bool_decide_ext. naive_solver.
Qed.

(** ** Consequences of the invariant *)
Section Facts.
Context (k n : Z) fl ks vs (m : gmap K (option V)).
Context (Hk : 0 <= k <= 31) (Hn : n = 2 ^ k) (T : table n fl ks vs m).

Lemma table_lookup key v :
  m !! key = Some v <-> exists i, 0 <= i < n /\ slot_of fl ks vs i = Some (key, v).
Proof. rewrite <- elem_of_map_to_list, <- (t_perm _ _ _ _ _ T). apply elem_of_entries. Qed.

Lemma table_unique i j key v v' :
  0 <= i < n -> 0 <= j < n ->
  slot_of fl ks vs i = Some (key, v) -> slot_of fl ks vs j = Some (key, v') -> i = j.
Proof.
  apply entries_key_unique. rewrite (t_perm _ _ _ _ _ T). apply NoDup_fst_map_to_list.
Qed.

Lemma table_size : len (entries (slot_of fl ks vs) n) = Z.of_nat (base.size m).
Proof. rewrite (t_perm _ _ _ _ _ T), length_map_to_list. done. Qed.

Lemma loop_test {A} key i (c : bool -> outcome A) :
  0 <= i < n ->
  (let! e := ac_isempty fl i in
   let! go := if e then Ok false else del_or_other fl ks i key in c go) = c (negb (stop fl ks key i)).
Proof.
  intros Hi. apply loop_test_at; [by apply (t_flags _ _ _ _ _ T) | ]. intros Hl.
  destruct (t_init _ _ _ _ _ T i Hi Hl) as [[k' v'] Hs]. apply slot_of_live in Hs as (_ & Hks & _). eauto.
Qed.

(** With an empty bucket somewhere, the probing for [key] stops at a first step. *)
Lemma stop_exists key :
  (exists i, 0 <= i < n /\ fbit fl i 1 = true) ->
  exists s, 0 <= s < n /\ stop fl ks key (probe n (hash key) s) = true /\
            forall s', 0 <= s' < s -> stop fl ks key (probe n (hash key) s') = false.
Proof.
  intros (i & Hi & He). destruct (probe_surj k n Hk Hn (hash key) i Hi) as (s0 & Hs0 & Hp).
  destruct (least_Z (fun s => stop fl ks key (probe n (hash key) s)) s0) as (s & Hs & H1 & H2); [lia | | ].
  - rewrite Hp. unfold stop. by rewrite He.
  - exists s. split; [lia | ]. auto.
Qed.

(** Where the probing stops tells whether the key is in the map. *)
Lemma stop_present key s v :
  0 <= s < n -> stop fl ks key (probe n (hash key) s) = true ->
  (forall s', 0 <= s' < s -> stop fl ks key (probe n (hash key) s') = false) ->
  m !! key = Some v ->
  slot_of fl ks vs (probe n (hash key) s) = Some (key, v).
Proof.
  intros Hs Hstop Hmin Hm. apply table_lookup in Hm as (i & Hi & Hsl).
  destruct (t_reach _ _ _ _ _ T i key v Hi Hsl) as (s0 & Hs0 & Hp & Hused).
  assert (stop fl ks key i = true) as Hst0.
  { apply slot_of_live in Hsl as (Hl & Hks & _). unfold stop. rewrite Hl, Hks, bool_decide_true by done.
    apply orb_true_r. }
  destruct (decide (s < s0)) as [Hlt | Hge].
  - (* stopped earlier: by the key, which is unique *)
    pose proof (probe_bound k n Hk Hn (hash key) s) as Hpb. unfold stop in Hstop.
    rewrite Hused in Hstop by lia. cbn [orb] in Hstop. apply andb_true_iff in Hstop as [Hl Hkey].
    apply bool_decide_eq_true in Hkey.
    destruct (t_init _ _ _ _ _ T _ Hpb Hl) as [[k' v'] Hs'].
    assert (k' = key) as ->.
    { apply slot_of_live in Hs' as (_ & Hks & _). congruence. }
    assert (probe n (hash key) s = i) as -> by (eapply table_unique; eauto). done.
  - assert (s = s0) as ->; [ | by rewrite Hp].
    destruct (decide (s0 < s)); [ | lia]. rewrite <- Hp, Hmin in Hst0 by lia. done.
Qed.

Lemma stop_absent key s :
  0 <= s < n -> stop fl ks key (probe n (hash key) s) = true -> m !! key = None ->
  fbit fl (probe n (hash key) s) 1 = true.
Proof.
  intros Hs Hstop Hm. unfold stop in Hstop. apply orb_true_iff in Hstop as [ | Hstop]; [done | ].
  apply andb_true_iff in Hstop as [Hl Hkey]. apply bool_decide_eq_true in Hkey.
  pose proof (probe_bound k n Hk Hn (hash key) s) as Hpb.
  destruct (t_init _ _ _ _ _ T _ Hpb Hl) as [[k' v'] Hs'].
  assert (k' = key) as ->. { apply slot_of_live in Hs' as (_ & Hks & _). congruence. }
  assert (m !! key = Some v') as E by (apply table_lookup; eauto). congruence.
Qed.

Lemma stop_false_used key i : stop fl ks key i = false -> fbit fl i 1 = false.
Proof. unfold stop. intros H. apply orb_false_iff in H as [? _]. done. Qed.
End Facts.

(** ** [kh_get] *)
Lemma get_loop_ok k (h : kh K V) m key fuel s s1 :
  0 <= k <= 31 -> n_buckets h = 2 ^ k ->
  table (n_buckets h) (flags h) (keys h) (vals h) m ->
  0 <= s <= s1 -> s1 < n_buckets h -> s1 - s <= Z.of_nat fuel ->
  stop (flags h) (keys h) key (probe (n_buckets h) (hash key) s1) = true ->
  (forall s', s <= s' < s1 -> stop (flags h) (keys h) key (probe (n_buckets h) (hash key) s') = false) ->
  get_loop h key (n_buckets h - 1) (probe (n_buckets h) (hash key) 0) fuel
    (probe (n_buckets h) (hash key) s) s =
  Ok (if fbit (flags h) (probe (n_buckets h) (hash key) s1) 1 then n_buckets h
      else probe (n_buckets h) (hash key) s1).
Proof.
  intros Hk Hn T. revert s. induction fuel as [ | fuel IH]; intros s Hs Hs1 Hf Hst Hmin;
    pose proof (probe_bound k _ Hk Hn (hash key) s) as Hb; cbn [get_loop];
    erewrite loop_test by eauto.
  all: destruct (decide (s = s1)) as [-> | Hne].
  1, 3: rewrite Hst; cbn [negb]; rewrite ac_iseither_ok, obind_ok by (eapply t_flags; eauto);
    f_equal; unfold stop, live in Hst; destruct (fbit _ _ 1), (fbit _ _ 0); done.
  - lia.
  - rewrite Hmin by lia. cbn [negb].
    destruct (probe_next k _ Hk Hn (hash key) s ltac:(lia)) as (Hu & Hps & Hl).
    rewrite Hu, Hps, Hl.
    apply IH; try lia; [done | ]. intros; apply Hmin; lia.
Qed.

Lemma used_hole fl n :
  len (entries (used fl) n) < n -> exists i, 0 <= i < n /\ fbit fl i 1 = true.
Proof.
  intros H. destruct (entries_hole _ _ H) as (i & Hi & Hu). exists i. split; [done | ].
  unfold used in Hu. by destruct (fbit fl i 1).
Qed.

(** What a lookup answers: the bucket of the key, or the end iterator. *)
Definition answers (h : kh K V) (m : gmap K (option V)) (key : K) (i : Z) : Prop :=
  match m !! key with
  | Some v => 0 <= i < n_buckets h /\ slot_of (flags h) (keys h) (vals h) i = Some (key, v)
  | None => i = n_buckets h
  end.

Lemma kh_get_ok (h : kh K V) m key :
  repr h m -> exists i, kh_get hash h key = Ok i /\ answers h m key i.
Proof.
  intros [(Hn & _ & _ & _ & ->) | (k & Hk & Hn & T & Hsz & Hocc & Hub & Hle)].
  { exists 0. unfold kh_get, answers. rewrite Hn, lookup_empty. done. }
  assert (0 <= k <= 31) as Hk' by lia. pose proof (pow2_bound k _ Hk' Hn) as Hpb.
  unfold kh_get. rewrite (proj2 (Z.eqb_neq _ 0)) by lia. cbv zeta.
  rewrite (mask_eq k _ Hk' Hn), <- (probe_0 k _ Hk' Hn).
  destruct (stop_exists k _ (flags h) (keys h) Hk' Hn key) as (s & Hs & Hst & Hmin).
  { apply used_hole. pose proof (hash_upper_bounds k Hk) as Hhu. rewrite <- Hn in Hhu. lia. }
  eexists. split.
  - apply (get_loop_ok k h m key _ 0 s); done || lia.
  - unfold answers. destruct (m !! key) as [v | ] eqn:Hm.
    + pose proof (stop_present k _ _ _ _ _ Hk' Hn T key s v Hs Hst Hmin Hm) as Hsl.
      pose proof (slot_of_live _ _ _ _ _ _ Hsl) as (Hl & _ & _).
      apply live_bits in Hl as [_ ->]. split; [by apply (probe_bound k) | done].
    + rewrite (stop_absent k _ _ _ _ _ Hk' Hn T key s Hs Hst Hm). done.
Qed.

(** ** [kh_put] *)

Lemma put_loop_ok k (h : kh K V) m key fuel s s1 site :
  0 <= k <= 31 -> n_buckets h = 2 ^ k ->
  table (n_buckets h) (flags h) (keys h) (vals h) m ->
  0 <= s <= s1 -> s1 < n_buckets h -> s1 - s <= Z.of_nat fuel ->
  stop (flags h) (keys h) key (probe (n_buckets h) (hash key) s1) = true ->
  (forall s', s <= s' < s1 -> stop (flags h) (keys h) key (probe (n_buckets h) (hash key) s') = false) ->
  exists site',
  put_loop h key (n_buckets h - 1) (probe (n_buckets h) (hash key) 0) fuel
    (probe (n_buckets h) (hash key) s) s site =
  Ok (n_buckets h, site', probe (n_buckets h) (hash key) s1) /\
  (site' = site \/ exists s', s <= s' < s1 /\ site' = probe (n_buckets h) (hash key) s' /\
                             fbit (flags h) site' 0 = true).
Proof.
  intros Hk Hn T. revert s site. induction fuel as [ | fuel IH]; intros s site Hs Hs1 Hf Hst Hmin;
    pose proof (probe_bound k _ Hk Hn (hash key) s) as Hb; cbn [put_loop];
    erewrite loop_test by eauto.
  all: destruct (decide (s = s1)) as [-> | Hne].
  1, 3: rewrite Hst; cbn [negb]; by eauto.
  - lia.
  - rewrite Hmin by lia. cbn [negb].
    rewrite ac_isdel_ok, obind_ok by (eapply t_flags; eauto). cbv zeta.
    destruct (probe_next k _ Hk Hn (hash key) s ltac:(lia)) as (Hu & Hps & Hl).
    rewrite Hu, Hps, Hl.
    set (site1 := if fbit _ _ 0 then _ else site).
    destruct (IH (s + 1) site1) as (site' & E & Hsite); try lia; [done | intros; apply Hmin; lia | ].
    exists site'. split; [done | ].
    destruct Hsite as [-> | (s' & ? & ? & ?)]; [ | right; exists s'; split; [lia | done]].
    subst site1. destruct (fbit (flags h) _ 0) eqn:E0; [ | by left].
    right. exists s. split; [lia | done].
Qed.

(** The bucket a new key may take: not live, behind used buckets only. *)
Definition free_for (h : kh K V) (key : K) (x : Z) : Prop :=
  0 <= x < n_buckets h /\ live (flags h) x = false /\ reach (n_buckets h) (flags h) key x.

Lemma put_slot_ok k (h : kh K V) m key :
  2 <= k <= 31 -> n_buckets h = 2 ^ k ->
  table (n_buckets h) (flags h) (keys h) (vals h) m ->
  len (entries (used (flags h)) (n_buckets h)) < n_buckets h ->
  exists x, put_slot hash h key = Ok x /\
    match m !! key with Some v => answers h m key x | None => free_for h key x end.
Proof.
  intros Hk Hn T Hocc. assert (0 <= k <= 31) as Hk' by lia.
  pose proof (pow2_bound k _ Hk' Hn) as Hpb.
  destruct (stop_exists k _ (flags h) (keys h) Hk' Hn key (used_hole _ _ Hocc)) as (s & Hs & Hst & Hmin).
  assert (forall s', 0 <= s' < s -> fbit (flags h) (probe (n_buckets h) (hash key) s') 1 = false) as Hused.
  { intros s' Hs'. eapply stop_false_used; eauto. }
  assert (forall s', 0 <= s' <= s -> reach (n_buckets h) (flags h) key (probe (n_buckets h) (hash key) s')) as Hreach.
  { intros s' Hs'. exists s'. split; [lia | ]. split; [done | ]. intros; apply Hused; lia. }
  pose proof (fun s' => probe_bound k _ Hk' Hn (hash key) s') as Hb.
  unfold put_slot. cbv zeta. rewrite (mask_eq k _ Hk' Hn), <- (probe_0 k _ Hk' Hn).
  rewrite ac_isempty_ok, obind_ok by (eapply t_flags; eauto).
  unfold answers. destruct (m !! key) as [v | ] eqn:Hm.
  - pose proof (stop_present k _ _ _ _ _ Hk' Hn T key s v Hs Hst Hmin Hm) as Hsl.
    pose proof (slot_of_live _ _ _ _ _ _ Hsl) as (Hl & _ & _). apply live_bits in Hl as [_ Hl].
    assert (fbit (flags h) (probe (n_buckets h) (hash key) 0) 1 = false) as ->.
    { destruct (decide (s = 0)) as [-> | ]; [done | apply Hused; lia]. }
    destruct (put_loop_ok k h m key (Z.to_nat (2 * n_buckets h)) 0 s (n_buckets h)) as (site & E & _);
      try done || lia.
    rewrite E, obind_ok, Z.eqb_refl. rewrite ac_isempty_ok, obind_ok by (eapply t_flags; eauto).
    rewrite Hl. cbn [andb]. eauto.
  - pose proof (stop_absent k _ _ _ _ _ Hk' Hn T key s Hs Hst Hm) as He.
    destruct (fbit (flags h) (probe (n_buckets h) (hash key) 0) 1) eqn:E0.
    { eexists. split; [done | ]. split; [done | ]. split; [unfold live; by rewrite E0, orb_true_r | ].
      apply Hreach. lia. }
    destruct (put_loop_ok k h m key (Z.to_nat (2 * n_buckets h)) 0 s (n_buckets h)) as (site & E & Hsite);
      try done || lia.
    rewrite E, obind_ok, Z.eqb_refl. rewrite ac_isempty_ok, obind_ok by (eapply t_flags; eauto).
    rewrite He. cbn [andb]. eexists. split; [done | ].
    destruct Hsite as [-> | (s' & Hs' & -> & Hd)].
    + rewrite Z.eqb_refl. cbn [negb]. split; [done | ]. split; [unfold live; by rewrite He, orb_true_r | ].
      apply Hreach. lia.
    + rewrite (proj2 (Z.eqb_neq _ _)) by (specialize (Hb s'); lia). cbn [negb]. split; [done | ].
      split; [unfold live; by rewrite Hd | ]. apply Hreach. lia.
Qed.

Lemma slot_of_ext fl fl' ks ks' vs vs' j :
  fbit fl' j 0 = fbit fl j 0 -> fbit fl' j 1 = fbit fl j 1 ->
  ks' !! Z.to_nat j = ks !! Z.to_nat j -> vs' !! Z.to_nat j = vs !! Z.to_nat j ->
  slot_of fl' ks' vs' j = slot_of fl ks vs j.
Proof. intros H0 H1 Hk Hv. unfold slot_of, live. by rewrite H0, H1, Hk, Hv. Qed.

Lemma reach_mono k n fl fl' key i :
  0 <= k <= 31 -> n = 2 ^ k ->
  (forall j, 0 <= j < n -> fbit fl j 1 = false -> fbit fl' j 1 = false) ->
  reach n fl key i -> reach n fl' key i.
Proof.
  intros Hk Hn Hm (s & Hs & Hp & Hu). exists s. split; [done | ]. split; [done | ].
  intros s' Hs'. apply Hm; [by apply (probe_bound k) | by apply Hu].
Qed.

(** Occupying a free bucket inserts the key. *)
Lemma table_put k n fl fl' ks vs m key x v0 :
  0 <= k <= 31 -> n = 2 ^ k -> table n fl ks vs m -> m !! key = None ->
  0 <= x < n -> live fl x = false -> reach n fl key x ->
  same_but fl fl' x false false -> vs !! Z.to_nat x = Some v0 ->
  table n fl' (<[Z.to_nat x := Some key]> ks) vs (<[key := v0]> m) /\
  slot_of fl' (<[Z.to_nat x := Some key]> ks) vs x = Some (key, v0).
Proof.
  intros Hk Hn T Hm Hx Hlive Hr (Hlen & He & Hd & Hother) Hv0.
  pose proof (t_keys _ _ _ _ _ T) as Hks.
  assert (slot_of fl' (<[Z.to_nat x := Some key]> ks) vs x = Some (key, v0)) as Hsx.
  { unfold slot_of, live. rewrite He, Hd. cbn.
    rewrite list_lookup_insert_eq by lia. by rewrite Hv0. }
  assert (forall j, 0 <= j < n -> j <> x ->
            slot_of fl' (<[Z.to_nat x := Some key]> ks) vs j = slot_of fl ks vs j) as Hext.
  { intros j Hj Hne. apply slot_of_ext; try apply Hother; try lia; [ | done].
    rewrite list_lookup_insert_ne by lia. done. }
  split; [ | done]. split.
  - intros i Hi. unfold in_flags. rewrite Hlen. apply (t_flags _ _ _ _ _ T i Hi).
  - rewrite length_insert. done.
  - apply (t_vals _ _ _ _ _ T).
  - intros i Hi Hl. destruct (decide (i = x)) as [-> | Hne]; [eauto | ].
    rewrite Hext by done. apply (t_init _ _ _ _ _ T); [done | ].
    unfold live in *. rewrite !Hother in Hl by lia. done.
  - rewrite map_to_list_insert by done. rewrite <- (t_perm _ _ _ _ _ T).
    apply (entries_insert _ _ n x); try done. unfold slot_of. by rewrite Hlive.
  - intros i k' v' Hi Hs. apply (reach_mono k n fl); [done | done | | ].
    { intros j Hj Hf. destruct (decide (j = x)) as [-> | ]; [done | ]. by rewrite Hother by lia. }
    destruct (decide (i = x)) as [-> | Hne]; [congruence | ].
    rewrite Hext in Hs by done. apply (t_reach _ _ _ _ _ T i k' v'); done.
Qed.

(** ... and the count of used buckets grows by one if it was empty. *)
Lemma used_put n fl fl' x d :
  0 <= x < n -> same_but fl fl' x false d ->
  len (entries (used fl') n) = len (entries (used fl) n) + (if fbit fl x 1 then 1 else 0).
Proof.
  intros Hx (Hlen & He & Hd & Hother).
  assert (forall j, 0 <= j < n -> j <> x -> used fl' j = used fl j) as Hext.
  { intros j Hj Hne. unfold used. rewrite Hother by lia. done. }
  destruct (fbit fl x 1) eqn:E.
  - rewrite (entries_insert (used fl) (used fl') n x tt); unfold used; rewrite ?E, ?He; try done.
    simpl. lia.
  - rewrite (entries_ext (used fl) (used fl')); [lia | ].
    intros j Hj. destruct (decide (j = x)) as [-> | ]; [ | auto]. unfold used. by rewrite E, He.
Qed.

(** Marking a live bucket deleted removes its key. *)
Lemma table_del k n fl fl' ks vs m key x v :
  0 <= k <= 31 -> n = 2 ^ k -> table n fl ks vs m -> 0 <= x < n ->
  slot_of fl ks vs x = Some (key, v) -> same_but fl fl' x false true ->
  table n fl' ks vs (delete key m).
Proof.
  intros Hk Hn T Hx Hs (Hlen & He & Hd & Hother).
  assert (m !! key = Some v) as Hm by (apply (table_lookup _ _ _ _ _ T); eauto).
  assert (slot_of fl' ks vs x = None) as Hsx by (unfold slot_of, live; by rewrite Hd).
  assert (forall j, 0 <= j < n -> j <> x -> slot_of fl' ks vs j = slot_of fl ks vs j) as Hext.
  { intros j Hj Hne. apply slot_of_ext; try apply Hother; done || lia. }
  split.
  - intros i Hi. unfold in_flags. rewrite Hlen. apply (t_flags _ _ _ _ _ T i Hi).
  - apply (t_keys _ _ _ _ _ T).
  - apply (t_vals _ _ _ _ _ T).
  - intros i Hi Hl. destruct (decide (i = x)) as [-> | Hne]; [unfold live in Hl; by rewrite Hd in Hl | ].
    rewrite Hext by done. apply (t_init _ _ _ _ _ T); [done | ].
    unfold live in *. rewrite !Hother in Hl by lia. done.
  - apply (Permutation_cons_inv (a := (key, v))).
    rewrite map_to_list_delete by done. rewrite <- (t_perm _ _ _ _ _ T). symmetry.
    apply (entries_delete _ _ n x); done.
  - intros i k' v' Hi Hs'. apply (reach_mono k n fl); [done | done | | ].
    { intros j Hj Hf. destruct (decide (j = x)) as [-> | ]; [done | ]. by rewrite Hother by lia. }
    destruct (decide (i = x)) as [-> | Hne]; [congruence | ].
    rewrite Hext in Hs' by done. apply (t_reach _ _ _ _ _ T i k' v'); done.
Qed.

(** ** [kh_resize] *)

(** The invariant of the rehashing: the elements of the map are those still
    live under the old flags, those already placed under the new flags, and the
    ones in [hand]; no bucket holds an element of both kinds. *)
Record rinv (n n' : Z) (r : rehash) (hand : list (K * option V)) (m : gmap K (option V)) : Prop := {
  ri_old : forall i, 0 <= i < n -> in_flags (r_flags r) i;
  ri_new : forall i, 0 <= i < n' -> in_flags (r_new r) i;
  ri_keys : n <= len (r_keys r) /\ n' <= len (r_keys r);
  ri_vals : n <= len (r_vals r) /\ n' <= len (r_vals r);
  ri_init : forall i, 0 <= i < n -> live (r_flags r) i = true ->
    is_Some (slot_of (r_flags r) (r_keys r) (r_vals r) i);
  ri_init' : forall i, 0 <= i < n' -> fbit (r_new r) i 1 = false ->
    is_Some (slot_of (r_new r) (r_keys r) (r_vals r) i);
  ri_disjoint : forall i, 0 <= i < n -> i < n' -> live (r_flags r) i = true ->
    fbit (r_new r) i 1 = true;
  ri_nodel : forall i, 0 <= i < n' -> fbit (r_new r) i 0 = false;
  ri_perm : entries (slot_of (r_flags r) (r_keys r) (r_vals r)) n ++
            entries (slot_of (r_new r) (r_keys r) (r_vals r)) n' ++ hand ≡ₚ map_to_list m;
  ri_reach : forall i k v, 0 <= i < n' ->
    slot_of (r_new r) (r_keys r) (r_vals r) i = Some (k, v) -> reach n' (r_new r) k i
}.

Lemma find_empty_ok k n fl key fuel s s1 :
  0 <= k <= 31 -> n = 2 ^ k -> (forall i, 0 <= i < n -> in_flags fl i) ->
  0 <= s <= s1 -> s1 < n -> s1 - s <= Z.of_nat fuel ->
  fbit fl (probe n (hash key) s1) 1 = true ->
  (forall s', s <= s' < s1 -> fbit fl (probe n (hash key) s') 1 = false) ->
  find_empty fl (n - 1) fuel (probe n (hash key) s) s = Ok (probe n (hash key) s1).
Proof.
  intros Hk Hn Hf. revert s. induction fuel as [ | fuel IH]; intros s Hs Hs1 Hfu Hst Hmin;
    pose proof (probe_bound k _ Hk Hn (hash key) s) as Hb; cbn [find_empty];
    rewrite ac_isempty_ok, obind_ok by auto.
  all: destruct (decide (s = s1)) as [-> | Hne]; [by rewrite Hst | ].
  - lia.
  - rewrite Hmin by lia. cbv zeta.
    destruct (probe_next k _ Hk Hn (hash key) s ltac:(lia)) as (Hu & Hps & Hl).
    rewrite Hu, Hps. apply IH; try lia; [done | ]. intros; apply Hmin; lia.
Qed.

(** With room left under the new flags, the element in hand finds an empty
    bucket behind used ones. *)
Lemma find_new_ok k n n' r key v m :
  0 <= k <= 31 -> n' = 2 ^ k -> rinv n n' r [(key, v)] m -> Z.of_nat (base.size m) < n' ->
  exists i, find_empty (r_new r) (u32 (n' - 1)) (Z.to_nat (2 * n')) (Z.land (hash key) (u32 (n' - 1))) 0 = Ok i /\
    0 <= i < n' /\ fbit (r_new r) i 1 = true /\ reach n' (r_new r) key i.
Proof.
  intros Hk Hn I Hsz. pose proof (pow2_bound k _ Hk Hn) as Hpb.
  rewrite (mask_eq k _ Hk Hn), <- (probe_0 k _ Hk Hn).
  assert (exists i, 0 <= i < n' /\ fbit (r_new r) i 1 = true) as (i0 & Hi0 & He0).
  { destruct (entries_hole (slot_of (r_new r) (r_keys r) (r_vals r)) n') as (i & Hi & Hs).
    - pose proof (ri_perm _ _ _ _ _ I) as Hp. apply Permutation_length in Hp.
      rewrite !length_app, length_map_to_list in Hp. simpl in Hp. lia.
    - exists i. split; [done | ]. destruct (fbit (r_new r) i 1) eqn:E; [done | ].
      apply (ri_init' _ _ _ _ _ I) in E as [? E]; [congruence | done]. }
  destruct (probe_surj k n' Hk Hn (hash key) i0 Hi0) as (s0 & Hs0 & Hp).
  destruct (least_Z (fun s => fbit (r_new r) (probe n' (hash key) s) 1) s0) as (s & Hs & H1 & H2);
    [lia | by rewrite Hp | ].
  exists (probe n' (hash key) s). split.
  - apply (find_empty_ok k); try done || lia. apply (ri_new _ _ _ _ _ I).
  - split; [by apply (probe_bound k) | ]. split; [done | ].
    exists s. split; [lia | ]. auto.
Qed.

(** Placing the element in hand into the empty bucket [i]; an element that is
    still live there under the old flags moves into the hand. *)
Lemma rinv_place k n n' r key v m i fl' nf' :
  0 <= k <= 31 -> n' = 2 ^ k -> rinv n n' r [(key, v)] m ->
  0 <= i < n' -> fbit (r_new r) i 1 = true -> reach n' (r_new r) key i ->
  same_but (r_new r) nf' i false (fbit (r_new r) i 0) ->
  length fl' = length (r_flags r) ->
  (forall j b, 0 <= j < n -> 0 <= b < 2 -> j <> i -> fbit fl' j b = fbit (r_flags r) j b) ->
  (i < n -> live fl' i = false) ->
  rinv n n' (mk_rehash fl' nf' (<[Z.to_nat i := Some key]> (r_keys r)) (<[Z.to_nat i := v]> (r_vals r)))
    (if i <? n then option_list (slot_of (r_flags r) (r_keys r) (r_vals r) i) else []) m.
Proof.
  intros Hk Hn I Hi He Hr (Hlen & He' & Hd' & Hother) Hlen' Hold Hli.
  destruct I as [Io In [Hk1 Hk2] [Hv1 Hv2] Ii Ii' Idis Idel Ip Ir].
  rewrite (Idel i Hi) in Hd'.
  set (ks' := <[Z.to_nat i := Some key]> (r_keys r)). set (vs' := <[Z.to_nat i := v]> (r_vals r)).
  assert (forall fl j, 0 <= j -> j <> i -> slot_of fl ks' vs' j = slot_of fl (r_keys r) (r_vals r) j) as Hkv.
  { intros fl j Hj Hne. apply slot_of_ext; try done; apply list_lookup_insert_ne; lia. }
  assert (slot_of nf' ks' vs' i = Some (key, v)) as Hsi.
  { unfold slot_of, live. rewrite He', Hd'. cbn. subst ks' vs'.
    rewrite !list_lookup_insert_eq by lia. done. }
  assert (forall j, 0 <= j < n' -> j <> i ->
            slot_of nf' ks' vs' j = slot_of (r_new r) (r_keys r) (r_vals r) j) as Hsn.
  { intros j Hj Hne. rewrite Hkv by lia. apply slot_of_ext; try apply Hother; done || lia. }
  assert (forall j, 0 <= j < n -> j <> i ->
            slot_of fl' ks' vs' j = slot_of (r_flags r) (r_keys r) (r_vals r) j) as Hso.
  { intros j Hj Hne. rewrite Hkv by lia. apply slot_of_ext; try apply Hold; done || lia. }
  assert (forall j, 0 <= j < n -> live fl' j = true -> live (r_flags r) j = true /\ j <> i) as Hlo.
  { intros j Hj Hl. assert (j <> i) as Hne by (intros ->; rewrite Hli in Hl by lia; done).
    split; [ | done]. unfold live in *. rewrite !Hold in Hl by lia. done. }
  split; cbn [r_flags r_new r_keys r_vals].
  - intros j Hj. unfold in_flags. rewrite Hlen'. by apply Io.
  - intros j Hj. unfold in_flags. rewrite Hlen. by apply In.
  - subst ks'. rewrite length_insert. done.
  - subst vs'. rewrite length_insert. done.
  - intros j Hj Hl. destruct (Hlo j Hj Hl) as [Hl' Hne]. rewrite Hso by done. by apply Ii.
  - intros j Hj Hf. destruct (decide (j = i)) as [-> | Hne]; [eauto | ].
    rewrite Hsn by done. apply Ii'; [done | ]. by rewrite Hother in Hf by lia.
  - intros j Hj Hj' Hl. destruct (Hlo j Hj Hl) as [Hl' Hne]. rewrite Hother by lia. by apply Idis.
  - intros j Hj. destruct (decide (j = i)) as [-> | Hne]; [done | ]. rewrite Hother by lia. by apply Idel.
  - assert (slot_of (r_new r) (r_keys r) (r_vals r) i = None) as Hni.
    { unfold slot_of, live. by rewrite He, orb_true_r. }
    rewrite (entries_insert _ (slot_of nf' ks' vs') n' i (key, v) Hi Hni Hsi Hsn).
    rewrite <- Ip. case_if.
    + destruct (entries_update (slot_of (r_flags r) (r_keys r) (r_vals r)) (slot_of fl' ks' vs') n i)
        as (l & Hl1 & Hl2); [lia | done | ].
      assert (slot_of fl' ks' vs' i = None) as Hoi by (unfold slot_of; by rewrite Hli by lia).
      rewrite Hl1, Hl2, Hoi. cbn [option_list app].
      apply perm_hand.
    + rewrite (entries_ext (slot_of (r_flags r) (r_keys r) (r_vals r)) (slot_of fl' ks' vs'))
        by (intros j Hj; apply Hso; lia).
      rewrite app_nil_r. apply Permutation_app_head. rewrite (Permutation_app_comm _ [_]). done.
  - intros j k' v' Hj Hs. apply (reach_mono k n' (r_new r)); [done | done | | ].
    { intros j' Hj' Hf. destruct (decide (j' = i)) as [-> | ]; [done | ]. by rewrite Hother by lia. }
    destruct (decide (j = i)) as [-> | Hne]; [congruence | ].
    rewrite Hsn in Hs by done. by apply (Ir j k' v').
Qed.

Lemma slot_of_dead fl ks vs i : live fl i = false -> slot_of fl ks vs i = None.
Proof. intros H. unfold slot_of. by rewrite H. Qed.

(** The kick-out loop places the element in hand and every element it
    displaces; its fuel bounds the elements that are still live in the old table. *)
Lemma kick_ok k n n' fuel r key v m :
  0 <= k <= 31 -> n' = 2 ^ k -> rinv n n' r [(key, v)] m -> Z.of_nat (base.size m) < n' ->
  (length (entries (slot_of (r_flags r) (r_keys r) (r_vals r)) n) < fuel)%nat ->
  exists r', kick hash n n' fuel r key v = Ok r' /\ rinv n n' r' [] m /\
    forall j, 0 <= j < n -> live (r_flags r') j = true -> live (r_flags r) j = true.
Proof.
  intros Hk Hn. revert r key v. induction fuel as [ | fuel IH]; intros r key v I Hsz Hf; [lia | ].
  destruct (find_new_ok k n n' r key v m Hk Hn I Hsz) as (i & Hfind & Hi & He & Hr).
  destruct (set_isempty_false_ok (r_new r) i) as (nf & Hnf & Hsame); [by apply (ri_new _ _ _ _ _ I) | ].
  cbn [kick]. cbv zeta. rewrite Hfind, obind_ok, Hnf, obind_ok.
  pose proof (ri_keys _ _ _ _ _ I) as [Hk1 Hk2]. pose proof (ri_vals _ _ _ _ _ I) as [Hv1 Hv2].
  assert (forall fl', length fl' = length (r_flags r) -> _) as Hplace
    by exact (fun fl' => rinv_place k n n' r key v m i fl' nf Hk Hn I Hi He Hr Hsame).
  destruct (decide (i < n /\ live (r_flags r) i = true)) as [[Hin Hl] | Hnl].
  - rewrite (proj2 (Z.ltb_lt i n)) by done.
    rewrite ac_iseither_ok, !obind_ok by (apply (ri_old _ _ _ _ _ I); lia).
    fold (live (r_flags r) i). rewrite Hl.
    destruct (ri_init _ _ _ _ _ I i ltac:(lia) Hl) as [[k1 v1] Hs1].
    destruct (slot_of_live _ _ _ _ _ _ Hs1) as (_ & Hks & Hvs).
    rewrite (rd_ok _ _ _ (proj1 Hi) Hks), obind_ok. cbn [deref]. rewrite obind_ok.
    rewrite wr_ok, obind_ok by lia. rewrite (rd_ok _ _ _ (proj1 Hi) Hvs), obind_ok.
    rewrite wr_ok, obind_ok by lia.
    destruct (set_isdel_true_ok (r_flags r) i) as (fl' & Hfl & Hlen & He' & Hd' & Hoth);
      [apply (ri_old _ _ _ _ _ I); lia | ].
    rewrite Hfl, obind_ok.
    assert (live fl' i = false) as Hli by (unfold live; by rewrite Hd').
    specialize (Hplace fl' Hlen ltac:(intros; apply Hoth; lia) (fun _ => Hli)).
    rewrite (proj2 (Z.ltb_lt i n)), Hs1 in Hplace by done. cbn [option_list] in Hplace.
    destruct (IH _ k1 v1 Hplace Hsz) as (r' & Hkick & I' & Hmono).
    { cbn [r_flags r_keys r_vals].
      rewrite (entries_delete _ (slot_of fl' (<[Z.to_nat i := Some key]> (r_keys r))
                                  (<[Z.to_nat i := v]> (r_vals r))) n i _ ltac:(lia) Hs1) in Hf.
      - simpl in Hf. lia.
      - by apply slot_of_dead.
      - intros j Hj Hne. apply slot_of_ext; [apply Hoth; lia | apply Hoth; lia | | ];
          apply list_lookup_insert_ne; lia. }
    exists r'. split; [done | ]. split; [done | ]. intros j Hj Hlj.
    apply (Hmono j Hj) in Hlj. cbn [r_flags] in Hlj.
    destruct (decide (j = i)) as [-> | Hne]; [done | ].
    unfold live in *. rewrite !Hoth in Hlj by lia. done.
  - assert ((if i <? n then let! e := ac_iseither (r_flags r) i in Ok (negb e) else Ok false) = Ok false) as ->.
    { case_if; [ | done]. rewrite ac_iseither_ok, obind_ok by (apply (ri_old _ _ _ _ _ I); lia).
      fold (live (r_flags r) i). destruct (live (r_flags r) i); [exfalso; by apply Hnl | done]. }
    rewrite obind_ok. rewrite wr_ok, obind_ok by lia. rewrite wr_ok, obind_ok by lia.
    eexists. split; [done | ].
    assert (i < n -> live (r_flags r) i = false) as Hli.
    { intros Hlt. destruct (live (r_flags r) i); [exfalso; by apply Hnl | done]. }
    specialize (Hplace (r_flags r) eq_refl ltac:(done) Hli). split; [ | done].
    replace (if i <? n then _ else _) with (@nil (K * option V)) in Hplace; [done | ].
    case_if; [ | done]. rewrite slot_of_dead by auto. done.
Qed.

(** Taking a live element of the old table into the hand. *)
Lemma rinv_take n n' r m j key v fl' :
  rinv n n' r [] m -> 0 <= j < n ->
  slot_of (r_flags r) (r_keys r) (r_vals r) j = Some (key, v) ->
  same_but (r_flags r) fl' j false true ->
  rinv n n' (mk_rehash fl' (r_new r) (r_keys r) (r_vals r)) [(key, v)] m.
Proof.
  intros I Hj Hs (Hlen & He & Hd & Hoth). destruct I as [Io In Ik Iv Ii Ii' Idis Idel Ip Ir].
  assert (forall i, 0 <= i < n -> live fl' i = true -> live (r_flags r) i = true /\ i <> j) as Hlo.
  { intros i Hi Hl. assert (i <> j) as Hne by (intros ->; unfold live in Hl; by rewrite Hd in Hl).
    split; [ | done]. unfold live in *. rewrite !Hoth in Hl by lia. done. }
  assert (forall i, 0 <= i < n -> i <> j ->
            slot_of fl' (r_keys r) (r_vals r) i = slot_of (r_flags r) (r_keys r) (r_vals r) i) as Hso.
  { intros i Hi Hne. apply slot_of_ext; try apply Hoth; done || lia. }
  split; cbn [r_flags r_new r_keys r_vals]; try done.
  - intros i Hi. unfold in_flags. rewrite Hlen. by apply Io.
  - intros i Hi Hl. destruct (Hlo i Hi Hl) as [Hl' Hne]. rewrite Hso by done. by apply Ii.
  - intros i Hi Hi' Hl. destruct (Hlo i Hi Hl) as [Hl' Hne]. by apply Idis.
  - rewrite <- Ip, app_nil_r.
    rewrite (entries_delete _ (slot_of fl' (r_keys r) (r_vals r)) n j _ Hj Hs);
      [ | apply slot_of_dead; unfold live; by rewrite Hd | done].
    rewrite app_assoc, Permutation_app_comm. done.
Qed.

Lemma rehash_loop_ok k n n' fuel j r m :
  0 <= k <= 31 -> n' = 2 ^ k -> n <= 2147483648 -> rinv n n' r [] m -> Z.of_nat (base.size m) < n' ->
  0 <= j -> j + Z.of_nat fuel = n -> (forall i, 0 <= i < j -> live (r_flags r) i = false) ->
  exists r', rehash_loop hash n n' fuel j r = Ok r' /\ rinv n n' r' [] m /\
    forall i, 0 <= i < n -> live (r_flags r') i = false.
Proof.
  intros Hk Hn Hmax. revert j r. induction fuel as [ | fuel IH]; intros j r I Hsz Hj Hf Hdone; cbn [rehash_loop].
  - rewrite (proj2 (Z.eqb_eq j n)) by lia. exists r. split; [done | ]. split; [done | ].
    intros i Hi. apply Hdone. lia.
  - rewrite (proj2 (Z.eqb_neq j n)) by lia.
    rewrite ac_iseither_ok, obind_ok by (apply (ri_old _ _ _ _ _ I); lia).
    assert (u32 (j + 1) = j + 1) as Hu by (apply Z.mod_small; simpl; lia).
    destruct (live (r_flags r) j) eqn:Hl; unfold live in Hl; rewrite ?negb_true_iff, ?negb_false_iff in Hl;
      rewrite Hl.
    + assert (live (r_flags r) j = true) as Hl' by (unfold live; by rewrite Hl).
      destruct (ri_init _ _ _ _ _ I j ltac:(lia) Hl') as [[key v] Hs].
      destruct (slot_of_live _ _ _ _ _ _ Hs) as (_ & Hks & Hvs).
      rewrite (rd_ok _ _ _ Hj Hks), obind_ok. cbn [deref]. rewrite obind_ok.
      rewrite (rd_ok _ _ _ Hj Hvs), obind_ok.
      destruct (set_isdel_true_ok (r_flags r) j) as (fl' & Hfl & Hsame); [apply (ri_old _ _ _ _ _ I); lia | ].
      apply live_bits in Hl' as [_ Hl1]. rewrite Hl1 in Hsame.
      rewrite Hfl, obind_ok.
      pose proof (rinv_take n n' r m j key v fl' I ltac:(lia) Hs Hsame) as I1.
      destruct (kick_ok k n n' (Z.to_nat (n + 1)) _ key v m Hk Hn I1 Hsz) as (r1 & Hkick & I2 & Hmono).
      { pose proof (entries_length_le (slot_of fl' (r_keys r) (r_vals r)) n). cbn [r_flags r_keys r_vals]. lia. }
      rewrite Hkick, obind_ok, Hu. apply IH; try done || lia.
      intros i Hi. destruct (live (r_flags r1) i) eqn:E; [ | done]. apply Hmono in E; [ | lia].
      cbn [r_flags] in E. destruct Hsame as (_ & _ & Hd & Hoth).
      destruct (decide (i = j)) as [-> | Hne]; [unfold live in E; by rewrite Hd in E | ].
      rewrite <- (Hdone i) by lia. rewrite <- E. unfold live. by rewrite !Hoth by lia.
    + rewrite obind_ok, Hu. apply IH; try done || lia. intros i Hi.
      destruct (decide (i = j)) as [-> | ]; [unfold live; by rewrite Hl | apply Hdone; lia].
Qed.

(** When nothing is left under the old flags the new arrays are a table. *)
Lemma rinv_table k n n' r m ks vs :
  0 <= k <= 31 -> n' = 2 ^ k -> rinv n n' r [] m -> (forall i, 0 <= i < n -> live (r_flags r) i = false) ->
  n' <= len ks -> n' <= len vs ->
  (forall i, 0 <= i < n' -> ks !! Z.to_nat i = r_keys r !! Z.to_nat i) ->
  (forall i, 0 <= i < n' -> vs !! Z.to_nat i = r_vals r !! Z.to_nat i) ->
  table n' (r_new r) ks vs m /\ len (entries (used (r_new r)) n') = Z.of_nat (base.size m).
Proof.
  intros Hk Hn I Hdead Hlk Hlv Hks Hvs.
  assert (forall i, 0 <= i < n' -> slot_of (r_new r) ks vs i = slot_of (r_new r) (r_keys r) (r_vals r) i) as Hs.
  { intros i Hi. apply slot_of_ext; auto. }
  assert (entries (slot_of (r_new r) (r_keys r) (r_vals r)) n' ≡ₚ map_to_list m) as Hp.
  { rewrite <- (ri_perm _ _ _ _ _ I), app_nil_r.
    rewrite (entries_nil (slot_of (r_flags r) (r_keys r) (r_vals r))); [done | ].
    intros i Hi. by apply slot_of_dead, Hdead. }
  split.
  - split; try done.
    + apply (ri_new _ _ _ _ _ I).
    + intros i Hi Hl. rewrite Hs by done. apply (ri_init' _ _ _ _ _ I); [done | ]. by apply live_bits in Hl as [].
    + by rewrite (entries_ext _ _ _ Hs).
    + intros i k' v' Hi. rewrite Hs by done. by apply (ri_reach _ _ _ _ _ I).
  - rewrite <- length_map_to_list, <- Hp. f_equal. apply entries_length_eq. intros i Hi. unfold used. split.
    + intros Hu. apply (ri_init' _ _ _ _ _ I); [done | ].
      destruct (fbit (r_new r) i 1); [by destruct Hu | done].
    + intros [[k' v'] Hs']. apply slot_of_live in Hs' as (Hl & _ & _).
      apply live_bits in Hl as [_ ->]. eauto.
Qed.

Lemma length_grow {A} (l : list (option A)) n : 0 <= n -> len (grow l n) = n.
Proof. intros Hn. unfold grow. rewrite length_app, length_take, length_replicate. lia. Qed.

Lemma lookup_grow {A} (l : list (option A)) n i :
  0 <= i < n -> i < len l -> grow l n !! Z.to_nat i = l !! Z.to_nat i.
Proof.
  intros Hi Hl. unfold grow. rewrite lookup_app_l by (rewrite length_take; lia).
  apply lookup_take_lt. lia.
Qed.

Lemma repr_table h m :
  repr h m ->
  table (n_buckets h) (flags h) (keys h) (vals h) m /\ 0 <= n_buckets h <= 2147483648 /\
  size h = Z.of_nat (base.size m).
Proof.
  intros [(Hn & Hsz & _ & _ & ->) | (k & Hk & Hn & T & Hsz & _)].
  - rewrite Hn, Hsz. split; [ | split; [lia | by rewrite map_size_empty]].
    split; try (intros; lia). rewrite map_to_list_empty. done.
  - split; [done | ]. split; [ | done]. pose proof (pow2_bound k (n_buckets h) ltac:(lia) Hn). lia.
Qed.

Lemma fresh_flags_in k n i : 2 <= k <= 31 -> n = 2 ^ k -> 0 <= i < n -> in_flags (fresh_flags n) i.
Proof.
  intros Hk Hn Hi. apply in_fresh_flags; [ | done]. destruct (decide (k < 4)).
  - left. rewrite Hn. change 16 with (2 ^ 4). apply Z.pow_lt_mono_r; lia.
  - right. rewrite Hn. replace k with (4 + (k - 4)) by lia. rewrite Z.pow_add_r by lia.
    rewrite Z.mul_comm. apply Z.mod_mul. lia.
Qed.

Lemma rinv_init k n n' fl ks vs ks' vs' m :
  2 <= k <= 31 -> n' = 2 ^ k -> table n fl ks vs m ->
  n <= len ks' -> n' <= len ks' -> n <= len vs' -> n' <= len vs' ->
  (forall i, 0 <= i < n -> ks' !! Z.to_nat i = ks !! Z.to_nat i) ->
  (forall i, 0 <= i < n -> vs' !! Z.to_nat i = vs !! Z.to_nat i) ->
  rinv n n' (mk_rehash fl (fresh_flags n') ks' vs') [] m.
Proof.
  intros Hk Hn T H1 H2 H3 H4 Hks Hvs.
  assert (forall i, 0 <= i < n' -> in_flags (fresh_flags n') i) as Hin
    by (intros i Hi; by apply (fresh_flags_in k)).
  assert (forall i, 0 <= i < n -> slot_of fl ks' vs' i = slot_of fl ks vs i) as Hs.
  { intros i Hi. apply slot_of_ext; auto. }
  split; cbn [r_flags r_new r_keys r_vals]; try done.
  - apply (t_flags _ _ _ _ _ T).
  - intros i Hi Hl. rewrite Hs by done. by apply (t_init _ _ _ _ _ T).
  - intros i Hi Hf. destruct (fresh_flags_bits n' i (Hin i Hi)). congruence.
  - intros i Hi Hi' Hl. apply (fresh_flags_bits n' i). apply Hin. lia.
  - intros i Hi. by apply (fresh_flags_bits n' i), Hin.
  - rewrite (entries_ext (slot_of fl ks vs) _ _ Hs), (t_perm _ _ _ _ _ T), entries_nil, app_nil_r; [done | ].
    intros i Hi. apply slot_of_dead. unfold live. destruct (fresh_flags_bits n' i (Hin i Hi)) as [-> _].
    by rewrite orb_true_r.
  - intros i k' v' Hi Hsl. apply slot_of_live in Hsl as (Hl & _ & _). apply live_bits in Hl as [_ Hl].
    destruct (fresh_flags_bits n' i (Hin i Hi)). congruence.
Qed.

(** The rehashing part of [kh_resize], from arrays that are long enough. *)
Lemma resize_rehash k h m n' ks' vs' :
  repr h m -> 2 <= k <= 31 -> n' = 2 ^ k -> Z.of_nat (base.size m) < hash_upper n' ->
  n_buckets h <= len ks' -> n' <= len ks' -> n_buckets h <= len vs' -> n' <= len vs' ->
  (forall i, 0 <= i < n_buckets h -> ks' !! Z.to_nat i = keys h !! Z.to_nat i) ->
  (forall i, 0 <= i < n_buckets h -> vs' !! Z.to_nat i = vals h !! Z.to_nat i) ->
  exists r, rehash_loop hash (n_buckets h) n' (Z.to_nat (n_buckets h)) 0
              (mk_rehash (flags h) (fresh_flags n') ks' vs') = Ok r /\
    repr (mk_kh n' (size h) (size h) (hash_upper n') (r_new r)
            (if n_buckets h >? n' then grow (r_keys r) n' else r_keys r)
            (if n_buckets h >? n' then grow (r_vals r) n' else r_vals r)) m.
Proof.
  intros R Hk Hn Hsize H1 H2 H3 H4 Hks Hvs. destruct (repr_table h m R) as (T & Hnb & Hsz).
  destruct (hash_upper_bounds k Hk) as [[Hu0 Hu1] _]. rewrite <- Hn in Hu0, Hu1.
  pose proof (rinv_init k _ n' _ _ _ ks' vs' m Hk Hn T H1 H2 H3 H4 Hks Hvs) as I.
  destruct (rehash_loop_ok k (n_buckets h) n' (Z.to_nat (n_buckets h)) 0 _ m ltac:(lia) Hn ltac:(lia) I)
    as (r & Hr & I' & Hdead); try lia.
  exists r. split; [done | ].
  pose proof (ri_keys _ _ _ _ _ I') as [_ Hlk]. pose proof (ri_vals _ _ _ _ _ I') as [_ Hlv].
  destruct (rinv_table k (n_buckets h) n' r m
    (if n_buckets h >? n' then grow (r_keys r) n' else r_keys r)
    (if n_buckets h >? n' then grow (r_vals r) n' else r_vals r) ltac:(lia) Hn I' Hdead) as [T' Hocc];
    try (destruct (n_buckets h >? n'); [rewrite length_grow; lia | lia]);
    try (intros i Hi; destruct (n_buckets h >? n'); [apply lookup_grow; lia | done]).
  right. exists k. cbn [n_buckets flags keys vals size n_occupied upper_bound]. split; [done | ].
  split; [done | ]. split; [done | ]. split; [done | ]. split; [lia | ]. split; [done | lia].
Qed.

(** Growing the key array alone (what is left when the allocation of the values
    fails) changes nothing. *)
Lemma repr_grow_keys h m n :
  repr h m -> n_buckets h < n ->
  repr (mk_kh (n_buckets h) (size h) (n_occupied h) (upper_bound h) (flags h) (grow (keys h) n) (vals h)) m.
Proof.
  intros R Hlt. destruct (repr_table h m R) as (T0 & Hnb & _). pose proof (t_keys _ _ _ _ _ T0) as Hlk.
  destruct R as [R | (k & Hk & Hn & T & R)]; [by left | ]. right. exists k.
  cbn [n_buckets flags keys vals size n_occupied upper_bound]. split; [done | ]. split; [done | ]. split; [ | done].
  assert (forall i, 0 <= i < n_buckets h -> slot_of (flags h) (grow (keys h) n) (vals h) i =
                                   slot_of (flags h) (keys h) (vals h) i) as Hs.
  { intros i Hi. apply slot_of_ext; try done. apply lookup_grow; lia. }
  destruct T as [Tf Tk Tv Ti Tp Tr]. split; try done.
  - rewrite length_grow; lia.
  - intros i Hi Hl. rewrite Hs by done. by apply Ti.
  - by rewrite (entries_ext _ _ _ Hs).
  - intros i k' v' Hi. rewrite Hs by done. by apply Tr.
Qed.

(** [kh_resize] keeps the map unless an unchecked reallocation fails; it fails only if
    an allocation fails; and when it rehashes no bucket is left deleted. *)
Lemma kh_resize_ok a1 a2 a3 h m x :
  repr h m -> 0 < x <= 2 ^ 31 ->
  (a1 = true -> round_buckets x < n_buckets h -> size h < hash_upper (round_buckets x) ->
   a2 && a3 = true) ->
  exists rc h', kh_resize hash a1 a2 a3 h x = Ok (rc, h') /\ repr h' m /\ (rc = 0 \/ rc = -1) /\
    (a1 && a2 && a3 = true -> rc = 0) /\
    (rc = 0 -> Z.of_nat (base.size m) < hash_upper (round_buckets x) ->
     n_buckets h' = round_buckets x /\ n_occupied h' = Z.of_nat (base.size m)).
Proof.
  intros R Hx Hsh. destruct (repr_table h m R) as (T & Hnb & Hsz).
  destruct (round_buckets_spec x Hx) as (k & Hrb & Hk & _ & _).
  pose proof (t_keys _ _ _ _ _ T) as Hlk. pose proof (t_vals _ _ _ _ _ T) as Hlv.
  assert (forall h', repr h' m -> exists rc h'', Ok (-1, h') = Ok (rc, h'') /\ repr h'' m /\ (rc = 0 \/ rc = -1) /\
    (false = true -> rc = 0) /\ (rc = 0 -> Z.of_nat (base.size m) < hash_upper (round_buckets x) ->
     n_buckets h'' = round_buckets x /\ n_occupied h'' = Z.of_nat (base.size m))) as Hfail.
  { intros h' R'. exists (-1), h'. split; [done | ]. split; [done | ]. split; [by right | ]. split; [done | lia]. }
  unfold kh_resize. cbv zeta. set (n' := round_buckets x) in *. rewrite Hsz, Z.geb_leb. case_if.
  { exists 0, h. split; [done | ]. split; [done | ]. split; [by left | ]. split; [done | lia]. }
  destruct a1; cbn [negb andb]; [ | by apply Hfail].
  assert (0 < n') by (rewrite Hrb; apply Z.pow_pos_nonneg; lia).
  destruct (n_buckets h <? n') eqn:Hexp; cbn [negb andb]; zbool.
  - destruct a2; cbn [negb andb]; [ | by apply Hfail].
    pose proof (repr_grow_keys h m n' R Hexp) as Rk. rewrite Hsz in Rk.
    destruct a3; cbn [negb andb]; [ | by apply Hfail].
    destruct (resize_rehash k h m n' (grow (keys h) n') (grow (vals h) n')) as (r & Hr & R');
      rewrite ?length_grow by lia; try done || lia; try (intros; apply lookup_grow; lia).
    rewrite Hr, obind_ok. rewrite Hsz in R'. eexists _, _. split; [done | ]. split; [done | ]. by eauto.
  - destruct (resize_rehash k h m n' (keys h) (vals h)) as (r & Hr & R'); try done || lia.
    rewrite Hr, obind_ok. rewrite Hsz in R'. destruct (n_buckets h >? n') eqn:Hgt; zbool.
    + specialize (Hsh eq_refl ltac:(lia) ltac:(lia)). destruct a2, a3; try done.
      eexists _, _. split; [done | ]. split; [done | ]. by eauto.
    + eexists _, _. split; [done | ]. split; [done | ]. by eauto.
Qed.

(** What a failed shrinking reallocation leaves: null pointers for the arrays. *)
Definition lose (a2 a3 : bool) (h : kh K V) : kh K V :=
  mk_kh (n_buckets h) (size h) (n_occupied h) (upper_bound h) (flags h)
    (if a2 then keys h else []) (if a3 then vals h else []).

Lemma kh_resize_lose a2 a3 h m x :
  repr h m -> 0 < x <= 2 ^ 31 -> round_buckets x < n_buckets h -> size h < hash_upper (round_buckets x) ->
  exists h', kh_resize hash true true true h x = Ok (0, h') /\ repr h' m /\ n_occupied h' < upper_bound h' /\
    kh_resize hash true a2 a3 h x = Ok (0, lose a2 a3 h').
Proof.
  intros R Hx Hlt Hsz.
  destruct (kh_resize_ok true true true h m x R Hx ltac:(done)) as (rc & h' & E & R' & _ & Hrc & Hn').
  specialize (Hrc eq_refl). subst rc. exists h'. split; [done | ]. split; [done | ].
  destruct (repr_table h m R) as (_ & _ & Hs). destruct (Hn' eq_refl ltac:(lia)) as [Hnb Hocc].
  split.
  - destruct (round_buckets_spec x Hx) as (k & Hrb & Hk & _ & _). pose proof (Z.pow_pos_nonneg 2 k).
    destruct R' as [(H0 & _) | (k' & _ & _ & _ & _ & _ & Hub & _)]; [lia | ]. rewrite Hub, Hnb. lia.
  - revert E. unfold kh_resize. cbv zeta. rewrite Z.geb_leb, (proj2 (Z.leb_gt _ _) Hsz).
    rewrite (proj2 (Z.ltb_ge _ _)), Z.gtb_ltb, (proj2 (Z.ltb_lt _ _)) by lia. cbn [negb andb].
    intros E. apply obind_inv in E as (r & -> & E). rewrite obind_ok. injection E as <-. done.
Qed.

(** ** [kh_put], [kh_del] and the accessors *)

(** The first part of [kh_put] leaves room for one more used bucket. *)
Definition put_prepare (a1 a2 a3 : bool) (h : kh K V) : outcome (Z * kh K V) :=
  if n_occupied h >=? upper_bound h then
    if n_buckets h >? u32 (Z.shiftl (size h) 1)
    then kh_resize hash a1 a2 a3 h (u32 (n_buckets h - 1))
    else kh_resize hash a1 a2 a3 h (u32 (n_buckets h + 1))
  else Ok (0, h).

Lemma round_pred k : 2 <= k <= 31 -> round_buckets (2 ^ k - 1) = 2 ^ k.
Proof.
  intros Hk. assert (2 ^ 2 <= 2 ^ k <= 2 ^ 31) by (split; apply Z.pow_le_mono_r; lia).
  destruct (round_buckets_spec (2 ^ k - 1)) as (j & Hj & Hj2 & Hge & Hmin); [simpl in *; lia | ].
  rewrite Hj. f_equal. specialize (Hmin k ltac:(lia) ltac:(lia)).
  destruct (decide (j = k)); [done | ]. assert (2 ^ j <= 2 ^ (k - 1)) by (apply Z.pow_le_mono_r; lia).
  replace k with (1 + (k - 1)) in Hge at 1 by lia. rewrite Z.pow_add_r in Hge by lia.
  assert (2 ^ 1 <= 2 ^ (k - 1)) by (apply Z.pow_le_mono_r; lia). simpl in *. lia.
Qed.

Lemma round_succ k : 2 <= k <= 30 -> round_buckets (2 ^ k + 1) = 2 ^ (k + 1).
Proof.
  intros Hk. assert (2 ^ 2 <= 2 ^ k <= 2 ^ 30) by (split; apply Z.pow_le_mono_r; lia).
  destruct (round_buckets_spec (2 ^ k + 1)) as (j & Hj & Hj2 & Hge & Hmin); [simpl in *; lia | ].
  rewrite Hj. f_equal. specialize (Hmin (k + 1) ltac:(lia)).
  rewrite Z.pow_add_r in Hmin by lia. specialize (Hmin ltac:(simpl in *; lia)).
  destruct (decide (j <= k)); [ | lia]. assert (2 ^ j <= 2 ^ k) by (apply Z.pow_le_mono_r; lia). lia.
Qed.

Lemma used_ge_size k h m :
  2 <= k <= 31 -> table (n_buckets h) (flags h) (keys h) (vals h) m ->
  Z.of_nat (base.size m) <= len (entries (used (flags h)) (n_buckets h)).
Proof.
  intros Hk T. rewrite <- (table_size _ _ _ _ _ T).
  apply Nat2Z.inj_le. unfold entries. induction (seq 0 _) as [ | j l IH]; [done | ]. cbn.
  destruct (slot_of _ _ _ (Z.of_nat j)) as [[k' v'] | ] eqn:E; [ | destruct (used _ _); cbn; lia].
  apply slot_of_live in E as (Hl & _ & _). apply live_bits in Hl as [_ Hl].
  assert (used (flags h) (Z.of_nat j) = Some tt) as -> by (unfold used; by rewrite Hl). cbn. lia.
Qed.

Definition has_room (h : kh K V) : Prop :=
  (exists k, 2 <= k <= 31 /\ n_buckets h = 2 ^ k) /\ n_occupied h < upper_bound h.

Lemma put_prepare_ok a1 a2 a3 h m :
  repr h m -> Z.of_nat (base.size m) < 2 ^ 30 ->
  exists rc h', put_prepare a1 a2 a3 h = Ok (rc, h') /\ repr h' m /\
    ((rc = 0 /\ has_room h') \/ (rc = -1 /\ a1 && a2 && a3 = false)).
Proof.
  intros R Hmax. unfold put_prepare. rewrite Z.geb_leb. change (2 ^ 30) with 1073741824 in Hmax.
  destruct (repr_table h m R) as (T & Hnb & Hsz).
  assert (forall x, 0 < x <= 2 ^ 31 -> n_buckets h <= round_buckets x ->
    Z.of_nat (base.size m) < hash_upper (round_buckets x) ->
    exists rc h', kh_resize hash a1 a2 a3 h x = Ok (rc, h') /\ repr h' m /\
      ((rc = 0 /\ has_room h') \/ (rc = -1 /\ a1 && a2 && a3 = false))) as Hres.
  { intros x Hx Hnsh Hlt. destruct (kh_resize_ok a1 a2 a3 h m x R Hx ltac:(lia)) as (rc & h' & E & R' & Hrc & Hok & Hn').
    exists rc, h'. split; [done | ]. split; [done | ].
    destruct Hrc as [-> | ->]; [left | right; split; [done | ]].
    - split; [done | ]. destruct (Hn' eq_refl Hlt) as [Hnb' Hocc'].
      destruct (round_buckets_spec x Hx) as (k & Hrb & Hk & _).
      split; [exists k; split; [done | congruence] | ].
      destruct R' as [(H0 & _) | (k' & _ & _ & _ & _ & _ & Hub & _)].
      + rewrite Hnb', Hrb in H0. pose proof (Z.pow_pos_nonneg 2 k). lia.
      + rewrite Hub, Hnb', Hocc'. done.
    - destruct (a1 && a2 && a3); [specialize (Hok eq_refl); lia | done]. }
  assert (u32 (Z.shiftl (size h) 1) = 2 * size h) as Hsh.
  { rewrite Z.shiftl_mul_pow2 by lia. change (2 ^ 1) with 2. rewrite u32_small; lia. }
  destruct R as [(Hn0 & Hs0 & Ho0 & Hu0 & ->) | (k & Hk & Hn & _ & _ & Hocc & Hub & Hle)].
  - rewrite Ho0, Hu0, Hn0, Hs0. change (u32 (0 + 1)) with 1. change (0 >? u32 (Z.shiftl 0 1)) with false. cbv iota.
    apply Hres; [change (2 ^ 31) with 2147483648; lia | rewrite Hn0; vm_compute; done | ].
    rewrite map_size_empty. vm_compute. done.
  - destruct (hash_upper_bounds k Hk) as [[Hu0 Hu1] Hu2]. rewrite <- Hn in Hu0, Hu1, Hu2.
    pose proof (used_ge_size k h m Hk T) as Hge. case_if.
    2:{ exists 0, h. split; [done | ]. split.
        - right. exists k. split_and!; try done; lia.
        - left. split; [done | ]. split; [eauto | lia]. }
    rewrite Hsh, Z.gtb_ltb. case_if.
    + assert (2 ^ 2 <= n_buckets h) by (rewrite Hn; apply Z.pow_le_mono_r; lia).
      assert (u32 (n_buckets h - 1) = n_buckets h - 1) as -> by (apply u32_small; change (2 ^ 2) with 4 in *; lia).
      apply Hres; [change (2 ^ 31) with 2147483648; lia | | ]; rewrite Hn, round_pred, <- Hn by done; lia.
    + assert (k <= 30) as Hk30.
      { destruct (decide (k = 31)) as [-> | ]; [ | lia]. change (2 ^ 31) with 2147483648 in Hn. lia. }
      assert (u32 (n_buckets h + 1) = n_buckets h + 1) as -> by (apply u32_small; change (2 ^ 2) with 4 in *; lia).
      assert (n_buckets h <= 2 ^ 30) by (rewrite Hn; apply Z.pow_le_mono_r; lia).
      apply Hres; [change (2 ^ 30) with 1073741824 in *; change (2 ^ 31) with 2147483648; lia | | ];
        rewrite Hn, round_succ by lia; [apply Z.pow_le_mono_r; lia | ].
      destruct (hash_upper_bounds (k + 1) ltac:(lia)) as [_ Hu3].
      rewrite Z.pow_add_r in * by lia. rewrite <- Hn in *. simpl in Hu3. lia.
Qed.

(** What [kh_put] does for [key] with the table it starts from. *)
Definition put_result (h' : kh K V) (m : gmap K (option V)) (key : K) (x ret : Z) : Prop :=
  match m !! key with
  | Some _ => ret = 0 /\ repr h' m /\ answers h' m key x
  | None => (ret = 1 \/ ret = 2) /\
            exists v0, repr h' (<[key := v0]> m) /\ answers h' (<[key := v0]> m) key x
  end.

Lemma put_at_free k h m key x :
  2 <= k <= 31 -> n_buckets h = 2 ^ k -> repr h m -> n_occupied h < upper_bound h ->
  Z.of_nat (base.size m) < 2 ^ 30 -> m !! key = None -> free_for h key x ->
  exists ret h', put_at h key x = Ok (x, ret, h') /\ put_result h' m key x ret.
Proof.
  intros Hk Hn R Hroom Hmax Hm (Hx & Hl & Hr). change (2 ^ 30) with 1073741824 in Hmax.
  destruct (repr_table h m R) as (_ & Hnb & _).
  destruct R as [(H0 & _) | (k' & _ & _ & T & Hsz & Hocc & Hub & Hle)]; [lia | ].
  destruct (hash_upper_bounds k Hk) as [[_ Hu1] _]. rewrite <- Hn in Hu1.
  pose proof (t_flags _ _ _ _ _ T x Hx) as Hin. pose proof (t_keys _ _ _ _ _ T) as Hlk.
  destruct (set_isboth_false_ok (flags h) x Hin) as (fl' & Hfl & Hsame).
  destruct (lookup_lt_is_Some_2 (vals h) (Z.to_nat x)) as [v0 Hv0].
  { pose proof (t_vals _ _ _ _ _ T). lia. }
  destruct (table_put k _ _ fl' _ _ _ key x v0 ltac:(lia) Hn T Hm Hx Hl Hr Hsame Hv0) as [T' Hs'].
  pose proof (used_put (n_buckets h) (flags h) fl' x false Hx Hsame) as Hused.
  assert (u32 (size h + 1) = Z.of_nat (base.size (<[key := v0]> m))) as Hsz'.
  { rewrite map_size_insert_None by done. rewrite u32_small; lia. }
  assert (0 <= n_occupied h) by lia.
  unfold put_at, put_result. rewrite Hm. rewrite ac_isempty_ok, obind_ok by done.
  assert (forall o, o = len (entries (used fl') (n_buckets h)) -> o <= upper_bound h ->
    let h' := mk_kh (n_buckets h) (u32 (size h + 1)) o (upper_bound h) fl'
                (<[Z.to_nat x := Some key]> (keys h)) (vals h) in
    exists v0, repr h' (<[key := v0]> m) /\ answers h' (<[key := v0]> m) key x) as Hfin.
  { intros o Ho Hole h'. exists v0. split.
    - right. exists k. cbn [n_buckets flags keys vals size n_occupied upper_bound]. split_and!; try done; lia.
    - unfold answers. rewrite lookup_insert_eq. done. }
  destruct (fbit (flags h) x 1) eqn:E1.
  - rewrite wr_ok, obind_ok by lia. rewrite Hfl, obind_ok.
    eexists 1, _. split; [done | ]. split; [by left | ]. apply Hfin; rewrite u32_small; lia.
  - assert (fbit (flags h) x 0 = true) as E0.
    { unfold live in Hl. rewrite E1 in Hl. destruct (fbit (flags h) x 0); done. }
    rewrite ac_isdel_ok, obind_ok, E0 by done. rewrite wr_ok, obind_ok by lia. rewrite Hfl, obind_ok.
    eexists 2, _. split; [done | ]. split; [by right | ]. apply Hfin; lia.
Qed.

Lemma kh_put_ok a1 a2 a3 h m key :
  repr h m -> Z.of_nat (base.size m) < 2 ^ 30 ->
  exists x ret h', kh_put hash a1 a2 a3 h key = Ok (x, ret, h') /\
    ((ret = -1 /\ a1 && a2 && a3 = false /\ x = n_buckets h' /\ repr h' m) \/
     put_result h' m key x ret).
Proof.
  intros R Hmax. destruct (put_prepare_ok a1 a2 a3 h m R Hmax) as (rc & h1 & Hprep & R1 & Hcase).
  unfold kh_put. fold (put_prepare a1 a2 a3 h). rewrite Hprep, obind_ok.
  destruct Hcase as [(-> & (k & Hk & Hn) & Hroom) | (-> & Ha)].
  2:{ exists (n_buckets h1), (-1), h1. split; [done | ]. by left. }
  rewrite (proj2 (Z.ltb_ge 0 0)) by lia.
  destruct (repr_table h1 m R1) as (T & Hnb & Hsz).
  destruct (put_slot_ok k h1 m key Hk Hn T) as (x & Hx & Hcase).
  { destruct R1 as [(H0 & _) | (k' & _ & _ & _ & _ & Hocc & Hub & _)].
    - pose proof (Z.pow_pos_nonneg 2 k). lia.
    - destruct (hash_upper_bounds k Hk) as [[_ Hu1] _]. rewrite <- Hn in Hu1. lia. }
  rewrite Hx, obind_ok. destruct (m !! key) as [v | ] eqn:Hm.
  - unfold answers in Hcase. rewrite Hm in Hcase. destruct Hcase as [Hxb Hs].
    destruct (slot_of_live _ _ _ _ _ _ Hs) as (Hl & _ & _). apply live_bits in Hl as [Hl0 Hl1].
    exists x, 0, h1. split.
    + unfold put_at. rewrite ac_isempty_ok, obind_ok, Hl1 by (by apply (t_flags _ _ _ _ _ T)).
      rewrite ac_isdel_ok, obind_ok, Hl0 by (by apply (t_flags _ _ _ _ _ T)). done.
    + right. unfold put_result, answers. rewrite Hm. done.
  - destruct (put_at_free k h1 m key x Hk Hn R1 Hroom Hmax Hm Hcase) as (ret & h' & E & Hres). eauto 10.
Qed.

Lemma kh_del_ok h m key x v :
  repr h m -> m !! key = Some v -> answers h m key x ->
  exists h', kh_del h x = Ok h' /\ repr h' (delete key m).
Proof.
  intros R Hm Ha. unfold answers in Ha. rewrite Hm in Ha. destruct Ha as [Hx Hs].
  destruct (repr_table h m R) as (_ & Hnb & _).
  destruct R as [(H0 & _) | (k & Hk & Hn & T & Hsz & Hocc & Hub & Hle)]; [lia | ].
  destruct (slot_of_live _ _ _ _ _ _ Hs) as (Hl & _ & _).
  pose proof (t_flags _ _ _ _ _ T x Hx) as Hin.
  destruct (set_isdel_true_ok (flags h) x Hin) as (fl' & Hfl & Hsame).
  pose proof Hl as [_ Hl1]%live_bits. rewrite Hl1 in Hsame.
  unfold kh_del. rewrite (proj2 (Z.eqb_neq _ _)) by lia.
  rewrite ac_iseither_ok, obind_ok by done.
  unfold live in Hl. apply negb_true_iff in Hl. rewrite Hl, Hfl, obind_ok.
  eexists. split; [done | ]. right. exists k.
  cbn [n_buckets flags keys vals size n_occupied upper_bound].
  split; [done | ]. split; [done | ]. split; [ | split; [ | split; [ | done]]].
  - apply (table_del k (n_buckets h) (flags h) fl' (keys h) (vals h) m key x v); solve [done | lia].
  - assert (0 < Z.of_nat (base.size m)).
    { destruct (base.size m) eqn:E; [ | lia]. apply map_size_empty_inv in E. subst m. done. }
    pose proof (used_ge_size k h m Hk T). destruct (hash_upper_bounds k Hk) as [[_ Hu] _]. rewrite <- Hn in Hu.
    rewrite u32_small by lia. rewrite map_size_delete_Some by eauto. lia.
  - rewrite (used_put (n_buckets h) (flags h) fl' x true Hx Hsame), Hl1. lia.
Qed.

Lemma kh_clear_ok h m : repr h m -> repr (kh_clear h) ∅ /\ n_buckets (kh_clear h) = n_buckets h.
Proof.
  intros R. destruct R as [(H0 & H1 & H2 & H3 & ->) | (k & Hk & Hn & T & Hsz & Hocc & Hub & Hle)].
  - unfold kh_clear. destruct (flags h); (split; [left | ]; done).
  - assert (flags h <> []) as Hne.
    { pose proof (t_flags _ _ _ _ _ T 0 ltac:(lia)) as Hin. intros E. rewrite E in Hin. 
      unfold in_flags in Hin. simpl in Hin. lia. }
    unfold kh_clear. destruct (flags h) eqn:E; [done | ]. split; [ | done]. right. exists k.
    cbn [n_buckets flags keys vals size n_occupied upper_bound].
    assert (forall i, 0 <= i < n_buckets h -> slot_of (fresh_flags (n_buckets h)) (keys h) (vals h) i = None) as Hnone.
    { intros i Hi. apply slot_of_dead. unfold live.
      destruct (fresh_flags_bits _ i (fresh_flags_in k _ i Hk Hn Hi)) as [-> _]. by rewrite orb_true_r. }
    split; [done | ]. split; [done | ]. split; [ | split; [done | split; [ | split; [done | lia]]]].
    + split; try apply T.
      * intros i Hi. by apply (fresh_flags_in k).
      * intros i Hi Hl. apply live_bits in Hl as [_ Hl].
        destruct (fresh_flags_bits _ i (fresh_flags_in k _ i Hk Hn Hi)). congruence.
      * rewrite entries_nil by done. by rewrite map_to_list_empty.
      * intros i k' v' Hi Hsl. rewrite Hnone in Hsl by done. done.
    + rewrite entries_nil; [done | ]. intros i Hi. unfold used.
      by destruct (fresh_flags_bits _ i (fresh_flags_in k _ i Hk Hn Hi)) as [-> _].
Qed.

Lemma kh_set_val_ok h m key x v0 v :
  repr h m -> m !! key = Some v0 -> answers h m key x ->
  exists h', kh_set_val h x v = Ok h' /\ repr h' (<[key := Some v]> m) /\ kh_val h' x = Ok v /\
             n_buckets h' = n_buckets h.
Proof.
  intros R Hm Ha. unfold answers in Ha. rewrite Hm in Ha. destruct Ha as [Hx Hs].
  destruct (repr_table h m R) as (_ & Hnb & _).
  destruct R as [(H0 & _) | (k & Hk & Hn & T & Hsz & Hocc & Hub & Hle)]; [lia | ].
  pose proof (t_vals _ _ _ _ _ T) as Hlv. destruct (slot_of_live _ _ _ _ _ _ Hs) as (Hl & Hks & _).
  unfold kh_set_val. rewrite wr_ok, obind_ok by lia. eexists. split; [done | ].
  split; [ | split; [ | done]].
  2:{ unfold kh_val. cbn [vals]. rewrite (rd_ok _ _ (Some v)); [done | lia | ].
      apply list_lookup_insert_eq. lia. }
  assert (slot_of (flags h) (keys h) (<[Z.to_nat x := Some v]> (vals h)) x = Some (key, Some v)) as Hsx.
  { unfold slot_of. rewrite Hl, Hks, list_lookup_insert_eq by lia. done. }
  assert (forall j, 0 <= j < n_buckets h -> j <> x ->
    slot_of (flags h) (keys h) (<[Z.to_nat x := Some v]> (vals h)) j = slot_of (flags h) (keys h) (vals h) j) as Hext.
  { intros j Hj Hne. apply slot_of_ext; try done. apply list_lookup_insert_ne. lia. }
  right. exists k. cbn [n_buckets flags keys vals size n_occupied upper_bound].
  split; [done | ]. split; [done | ].
  split; [ | split; [rewrite map_size_insert_Some by eauto; done | done]].
  split.
  - apply (t_flags _ _ _ _ _ T).
  - apply (t_keys _ _ _ _ _ T).
  - rewrite length_insert. done.
  - intros i Hi Hli. destruct (decide (i = x)) as [-> | ]; [eauto | ]. rewrite Hext by done. by apply (t_init _ _ _ _ _ T).
  - rewrite <- insert_delete_eq, map_to_list_insert by apply lookup_delete_eq.
    destruct (entries_update (slot_of (flags h) (keys h) (vals h)) _ (n_buckets h) x Hx Hext) as (l & H1 & H2).
    rewrite H2, Hsx. rewrite Hs in H1. cbn [option_list app] in *. constructor.
    apply (Permutation_cons_inv (a := (key, v0))). rewrite <- H1, (t_perm _ _ _ _ _ T).
    symmetry. by apply map_to_list_delete.
  - intros i k' v' Hi Hsl. destruct (decide (i = x)) as [-> | Hne].
    + rewrite Hsx in Hsl. simplify_eq. by eapply (t_reach _ _ _ _ _ T x _ v0).
    + rewrite Hext in Hsl by done. by apply (t_reach _ _ _ _ _ T i k' v').
Qed.
End Table.
