(* ===== verification/KHashProbe.v ===== *)
(** * Probing in [hash_table/khash.h] on tables outside the invariant

    The loops of [kh_get], [kh_put] and [kh_resize] on two kinds of table the
    map's invariant excludes: a table without an empty bucket, where the loops end by
    coming back to the first bucket, and a table that lost an array in a failed
    shrinking reallocation, where the next access is undefined. *)
From S2P Require Import Prelude KHash KHashFlags KHashProof.
From Stdlib Require Import Znumtheory.
Import KHash.

(** ** The probe sequence over two rounds *)
Section Rounds.
Context (k n : Z) (Hk : 0 <= k <= 31) (Hn : n = 2 ^ k).

Lemma u32_mod x : u32 x mod n = x mod n.
Proof.
  unfold u32, uwrap. symmetry. rewrite Hn. apply Znumtheory.Zmod_div_mod.
  - apply Z.pow_pos_nonneg; lia.
  - done.
  - exists (2 ^ (32 - k)). rewrite <- Z.pow_add_r by lia. f_equal. lia.
Qed.

(** One step of the index update, in the second round too. *)
Lemma probe_step2 h s : 0 <= s < 2 * n - 1 ->
  u32 (s + 1) = s + 1 /\ Z.land (u32 (probe n h s + (s + 1))) (n - 1) = probe n h (s + 1).
Proof.
  intros Hs. pose proof (pow2_bound k n Hk Hn). split; [apply u32_small; lia | ].
  rewrite (land_mask k n Hk Hn), u32_mod. unfold probe. rewrite Zplus_mod_idemp_l, tri_succ. f_equal. lia.
Qed.

(** The loops come back to the first bucket after [2 n - 1] steps and not before. *)
Lemma probe_return h s : 1 <= s <= 2 * n - 1 -> (probe n h s =? probe n h 0) = (s =? 2 * n - 1).
Proof.
  intros Hs. pose proof (pow2_bound k n Hk Hn) as Hb. pose proof (tri_double s) as Ht.
  destruct (Z.eqb_spec s (2 * n - 1)) as [-> | Hne].
  - apply Z.eqb_eq. unfold probe. change (tri 0) with 0.
    replace (h + tri (2 * n - 1)) with (h + 0 + (2 * n - 1) * n) by lia. apply Z_mod_plus_full.
  - apply Z.eqb_neq. unfold probe. change (tri 0) with 0. intros E.
    assert (2 ^ (k + 1) | s * (s + 1)) as Hd.
    { pose proof (Z.div_mod (h + tri s) n). pose proof (Z.div_mod (h + 0) n).
      exists ((h + tri s) / n - (h + 0) / n). rewrite Z.pow_add_r, <- Hn by lia. lia. }
    assert (2 ^ (k + 1) = 2 * n) as Hp by (rewrite Z.pow_add_r, Hn by lia; lia).
    destruct (Zdivide_dec 2 s) as [[c Hc] | Ho].
    + rewrite Z.mul_comm in Hd. apply pow2_odd_divide in Hd; [ | lia | intros [d Hd']; lia].
      destruct Hd as [d Hd]. rewrite Hp in Hd. assert (0 < d < 1) by nia. lia.
    + apply pow2_odd_divide in Hd; [ | lia | done]. destruct Hd as [d Hd]. rewrite Hp in Hd. assert (0 < d < 1) by nia. lia.
Qed.
End Rounds.

(** ** Searching a table without an empty bucket *)
Section Full.
Context {K V : Type} `{!EqDecision K} (hash : K -> Z).
Context (k : Z) (h : kh K V) (key : K).
Notation n := (n_buckets h).
Notation at_ s := (probe n (hash key) s).
Context (Hk : 0 <= k <= 31) (Hn : n = 2 ^ k).
Context (Hflags : forall i, 0 <= i < n -> in_flags (flags h) i).
Context (Hinit : forall i, 0 <= i < n -> live (flags h) i = true -> exists k', keys h !! Z.to_nat i = Some (Some k')).

(** Bucket [i] is live and holds the key. *)
Definition holds (i : Z) : Prop :=
  0 <= i < n /\ live (flags h) i = true /\ keys h !! Z.to_nat i = Some (Some key).

Lemma test_step {A} s (c : bool -> outcome A) :
  (let! e := ac_isempty (flags h) (at_ s) in
   let! go := if e then Ok false else del_or_other (flags h) (keys h) (at_ s) key in c go) =
  c (negb (stop (flags h) (keys h) key (at_ s))).
Proof. pose proof (probe_bound k n Hk Hn (hash key) s). apply loop_test_at; auto. Qed.

Lemma get_loop_walk fuel : forall s s1, 0 <= s <= s1 -> s1 <= 2 * n - 1 -> s1 - s <= Z.of_nat fuel ->
  (forall s', s <= s' < s1 -> stop (flags h) (keys h) key (at_ s') = false) ->
  (s1 < 2 * n - 1 -> stop (flags h) (keys h) key (at_ s1) = true) -> s < 2 * n - 1 ->
  get_loop h key (n - 1) (at_ 0) fuel (at_ s) s =
  Ok (if (s1 =? 2 * n - 1) || fbit (flags h) (at_ s1) 1 then n else at_ s1).
Proof.
  induction fuel as [ | fuel IH]; intros s s1 Hs Hs1 Hf Hgo Hst Hlt; cbn [get_loop]; rewrite test_step.
  all: destruct (decide (s = s1)) as [-> | Hne].
  1, 3: rewrite (proj2 (Z.eqb_neq s1 _)) by lia; rewrite Hst by lia; cbn [negb orb];
    rewrite ac_iseither_ok, obind_ok by (apply Hflags, (probe_bound k n Hk Hn)); f_equal;
    specialize (Hst Hlt); unfold stop, live in Hst; destruct (fbit _ _ 1), (fbit _ _ 0); done.
  - lia.
  - rewrite Hgo by lia. cbn [negb]. cbv zeta.
    destruct (probe_step2 k n Hk Hn (hash key) s ltac:(lia)) as [-> ->].
    rewrite (probe_return k n Hk Hn) by lia. destruct (Z.eqb_spec (s + 1) (2 * n - 1)).
    + replace s1 with (2 * n - 1) by lia. by rewrite Z.eqb_refl.
    + apply IH; try lia. intros; apply Hgo; lia. auto.
Qed.

Lemma put_loop_walk fuel : forall s s1 site, 0 <= s <= s1 -> s1 <= 2 * n - 1 -> s1 - s <= Z.of_nat fuel ->
  (forall s', s <= s' < s1 -> stop (flags h) (keys h) key (at_ s') = false) ->
  (s1 < 2 * n - 1 -> stop (flags h) (keys h) key (at_ s1) = true) -> s < 2 * n - 1 ->
  exists site', put_loop h key (n - 1) (at_ 0) fuel (at_ s) s site =
    Ok (if s1 =? 2 * n - 1 then site' else n, site', at_ s1) /\
  ((site' = site /\ forall s', s <= s' < s1 -> fbit (flags h) (at_ s') 0 = false) \/
   exists s', s <= s' < s1 /\ site' = at_ s' /\ fbit (flags h) site' 0 = true).
Proof.
  induction fuel as [ | fuel IH]; intros s s1 site Hs Hs1 Hf Hgo Hst Hlt; cbn [put_loop]; rewrite test_step.
  all: destruct (decide (s = s1)) as [-> | Hne].
  1, 3: rewrite (proj2 (Z.eqb_neq s1 _)) by lia; rewrite Hst by lia; cbn [negb]; exists site; split; [done | left; split; [done | lia]].
  - lia.
  - rewrite Hgo by lia. cbn [negb]. rewrite ac_isdel_ok, obind_ok by (apply Hflags, (probe_bound k n Hk Hn)). cbv zeta.
    destruct (probe_step2 k n Hk Hn (hash key) s ltac:(lia)) as [-> ->]. rewrite (probe_return k n Hk Hn) by lia.
    set (site1 := if fbit _ _ 0 then _ else site).
    assert ((site1 = site /\ fbit (flags h) (at_ s) 0 = false) \/ (site1 = at_ s /\ fbit (flags h) site1 0 = true)) as Hsite1.
    { subst site1. destruct (fbit (flags h) (at_ s) 0) eqn:E; [right | left]; done. }
    destruct (Z.eqb_spec (s + 1) (2 * n - 1)) as [Heq | Hneq].
    + assert (s1 = 2 * n - 1) as -> by lia. rewrite Z.eqb_refl, Heq. exists site1. split; [done | ].
      destruct Hsite1 as [[-> E] | [-> E]]; [left | right; exists s; split; [lia | done]].
      split; [done | ]. intros s' Hs'. by replace s' with s by lia.
    + destruct (IH (s + 1) s1 site1) as (site' & E & Hcase); try lia; [intros; apply Hgo; lia | done | ].
      exists site'. split; [done | ]. destruct Hcase as [[-> Hno] | (s' & Hs' & ? & ?)]; [ | right; exists s'; split; [lia | done]].
      destruct Hsite1 as [[-> E0] | [-> E0]]; [left | right; exists s; split; [lia | done]].
      split; [done | ]. intros s' Hs'. destruct (decide (s' = s)) as [-> | ]; [done | apply Hno; lia].
Qed.

Context (Hfull : forall i, 0 <= i < n -> fbit (flags h) i 1 = false).

Lemma stop_holds s : stop (flags h) (keys h) key (at_ s) = true <-> holds (at_ s).
Proof.
  pose proof (probe_bound k n Hk Hn (hash key) s) as Hb. unfold stop, holds. rewrite Hfull by done. cbn [orb].
  rewrite andb_true_iff, bool_decide_eq_true. tauto.
Qed.

(** Where a search in the full table ends: at the first bucket that holds the key, or
    after two rounds over all the buckets. *)
Lemma walk_end : exists s1, 0 <= s1 <= 2 * n - 1 /\
  (forall s', 0 <= s' < s1 -> stop (flags h) (keys h) key (at_ s') = false) /\
  (s1 < 2 * n - 1 -> stop (flags h) (keys h) key (at_ s1) = true) /\
  (if s1 =? 2 * n - 1 then forall i, ~ holds i else holds (at_ s1)).
Proof.
  pose proof (pow2_bound k n Hk Hn) as Hb.
  destruct (decide (Exists (fun i => stop (flags h) (keys h) key (at_ (Z.of_nat i)) = true) (seq 0 (Z.to_nat n)))) as [Hex | Hno].
  - apply Exists_exists in Hex as (i & Hi%elem_of_seq & Hst).
    destruct (least_Z (fun s => stop (flags h) (keys h) key (at_ s)) (Z.of_nat i)) as (s & Hs & H1 & H2); [lia | done | ].
    exists s. split; [lia | ]. split; [done | ]. split; [done | ].
    rewrite (proj2 (Z.eqb_neq s _)) by lia. by apply stop_holds.
  - assert (forall i, ~ holds i) as Hnone.
    { intros i Hh. pose proof Hh as [Hi _]. destruct (probe_surj k n Hk Hn (hash key) i Hi) as (s & Hs & <-).
      apply stop_holds in Hh. apply Hno, Exists_exists. exists (Z.to_nat s). rewrite elem_of_seq, Z2Nat.id by lia. split; [lia | done]. }
    exists (2 * n - 1). split; [lia | ]. split; [ | split; [lia | by rewrite Z.eqb_refl]].
    intros s' _. destruct (stop _ _ _ _) eqn:E; [ | done]. apply stop_holds in E. by apply Hnone in E.
Qed.

Lemma full_get : exists x, kh_get hash h key = Ok x /\ (holds x \/ (x = n /\ forall i, ~ holds i)).
Proof.
  pose proof (pow2_bound k n Hk Hn) as Hb. destruct walk_end as (s1 & Hs1 & Hgo & Hst & Hend).
  unfold kh_get. rewrite (proj2 (Z.eqb_neq n 0)) by lia. cbv zeta.
  rewrite (mask_eq k n Hk Hn), <- (probe_0 k n Hk Hn).
  rewrite (get_loop_walk _ 0 s1) by (done || lia). eexists. split; [done | ].
  destruct (s1 =? 2 * n - 1); [by right | left]. cbn [orb]. rewrite Hfull; [done | apply (probe_bound k n Hk Hn)].
Qed.

Lemma full_put : exists x, put_slot hash h key = Ok x /\
  (holds x \/ ((forall i, ~ holds i) /\ 0 <= x < n /\
               (fbit (flags h) x 0 = true \/ (x = Z.land (hash key) (n - 1) /\ forall i, 0 <= i < n -> fbit (flags h) i 0 = false)))).
Proof.
  pose proof (pow2_bound k n Hk Hn) as Hb. destruct walk_end as (s1 & Hs1 & Hgo & Hst & Hend).
  pose proof (fun s => probe_bound k n Hk Hn (hash key) s) as Hpb.
  unfold put_slot. cbv zeta. rewrite (mask_eq k n Hk Hn), <- (probe_0 k n Hk Hn).
  rewrite ac_isempty_ok, obind_ok, Hfull by auto.
  destruct (put_loop_walk (Z.to_nat (2 * n)) 0 s1 n) as (site & -> & Hsite); try done || lia. rewrite obind_ok.
  destruct (Z.eqb_spec s1 (2 * n - 1)) as [-> | Hne].
  - destruct Hsite as [[-> Hno] | (s' & Hs' & -> & Hd)].
    + rewrite Z.eqb_refl, ac_isempty_ok, obind_ok, Hfull by auto. cbn [andb]. eexists. split; [done | ]. right.
      split; [done | ]. split; [apply Hpb | ]. right.
      split; [apply Z.eqb_eq; rewrite (probe_return k n Hk Hn) by lia; lia | ].
      intros i Hi. destruct (probe_surj k n Hk Hn (hash key) i Hi) as (s & Hs & <-).
      apply Hno. lia.
    + rewrite (proj2 (Z.eqb_neq _ n)) by (specialize (Hpb s'); lia). eexists. split; [done | ]. right. auto.
  - rewrite Z.eqb_refl, ac_isempty_ok, obind_ok, Hfull by auto. cbn [andb]. eexists. split; [done | ]. by left.
Qed.
End Full.

(** ** A table that lost an array *)

(** A null pointer can be neither read nor written through. *)
Lemma rd_null {A} i : rd ([] : list A) i = Ub.
Proof. unfold rd. by destruct (i <? 0). Qed.
Lemma wr_null {A} i (a : A) : wr [] i a = Ub.
Proof. unfold wr. destruct (0 <=? i) eqn:E; [zbool | done]. cbn [length andb]. by destruct (Z.ltb_spec i (Z.of_nat 0)); [lia | ]. Qed.

(** Nothing of the search reads the values. *)
Section NoValues.
Context {K V : Type} `{!EqDecision K} (hash : K -> Z).
Implicit Types h : kh K V.

Lemma get_lose h key : kh_get hash (lose true false h) key = kh_get hash h key.
Proof.
  unfold kh_get. cbn [lose n_buckets]. destruct (n_buckets h =? 0); [done | ].
  assert (forall fuel mask last i step, get_loop (lose true false h) key mask last fuel i step = get_loop h key mask last fuel i step) as H.
  { induction fuel as [ | fuel IH]; intros mask last i step; cbn [get_loop lose flags keys n_buckets]; [done | ].
    destruct (ac_isempty _ _) as [e | | | ]; [ | done..]. rewrite !obind_ok.
    destruct (if e then _ else _) as [go | | | ]; [ | done..]. rewrite !obind_ok. destruct go; [ | done]. by rewrite IH. }
  apply H.
Qed.
Lemma put_slot_lose h key : put_slot hash (lose true false h) key = put_slot hash h key.
Proof.
  unfold put_slot. cbn [lose n_buckets flags].
  assert (forall fuel mask last i step site, put_loop (lose true false h) key mask last fuel i step site = put_loop h key mask last fuel i step site) as H.
  { induction fuel as [ | fuel IH]; intros mask last i step site; cbn [put_loop lose flags keys n_buckets]; [done | ].
    destruct (ac_isempty _ _) as [e | | | ]; [ | done..]. rewrite !obind_ok.
    destruct (if e then _ else _) as [go | | | ]; [ | done..]. rewrite !obind_ok. destruct go; [ | done].
    destruct (ac_isdel _ _) as [d | | | ]; [ | done..]. rewrite !obind_ok. by rewrite IH. }
  by rewrite H.
Qed.
Lemma put_at_lose h key x y ret h' :
  put_at h key x = Ok (y, ret, h') -> put_at (lose true false h) key x = Ok (y, ret, lose true false h').
Proof.
  unfold put_at. cbn [lose flags keys]. intros E. run_inv E. rewrite E0, obind_ok.
  destruct r; [run_inv E; rewrite E1, obind_ok; run_inv E; rewrite E2, obind_ok; by injection E as <- <- <- | ].
  run_inv E. rewrite E1, obind_ok. destruct r; [ | by injection E as <- <- <-].
  run_inv E; rewrite E2, obind_ok; run_inv E; rewrite E3, obind_ok; by injection E as <- <- <-.
Qed.
End NoValues.

Section Lost.
Context {K V : Type} `{!EqDecision K, !Countable K} (hash : K -> Z).
Context (k : Z) (h : kh K V) (m : gmap K (option V)).
Notation n := (n_buckets h).
Context (Hk : 0 <= k <= 31) (Hn : n = 2 ^ k) (T : table hash n (flags h) (keys h) (vals h) m).
(** The table whose key array is a null pointer. *)
Context (h' : kh K V) (Hn' : n_buckets h' = n) (Hf' : flags h' = flags h) (Hk' : keys h' = []).

(** The loops go on at a deleted bucket and touch the null pointer at a live one. *)
Lemma null_test {A} key i (c : bool -> outcome A) : 0 <= i < n ->
  (let! e := ac_isempty (flags h') i in
   let! go := if e then Ok false else del_or_other (flags h') (keys h') i key in c go) =
  if fbit (flags h) i 1 then c false else if fbit (flags h) i 0 then c true else Ub.
Proof.
  intros Hi. pose proof (t_flags _ _ _ _ _ _ T i Hi) as Hin. rewrite Hf', Hk', ac_isempty_ok, obind_ok by done.
  destruct (fbit (flags h) i 1); [done | ]. unfold del_or_other. rewrite ac_isdel_ok, obind_ok by done.
  destruct (fbit (flags h) i 0); [done | ]. by rewrite rd_null.
Qed.

Lemma get_loop_null key fuel : forall s s1, 0 <= s <= s1 -> s1 < n -> s1 - s <= Z.of_nat fuel ->
  (forall s', s <= s' <= s1 -> fbit (flags h) (probe n (hash key) s') 1 = false) ->
  live (flags h) (probe n (hash key) s1) = true ->
  get_loop h' key (n - 1) (probe n (hash key) 0) fuel (probe n (hash key) s) s = Ub.
Proof.
  induction fuel as [ | fuel IH]; intros s s1 Hs Hs1 Hf Hused Hl; cbn [get_loop];
    rewrite null_test by apply (probe_bound k n Hk Hn); rewrite Hused by lia.
  all: destruct (decide (s = s1)) as [-> | Hne]; [apply live_bits in Hl as [-> _]; done | ].
  - lia.
  - destruct (fbit _ _ 0); [ | done]. cbv zeta.
    destruct (probe_next k _ Hk Hn (hash key) s ltac:(lia)) as (-> & -> & ->).
    apply (IH _ s1); try done || lia. intros; apply Hused; lia.
Qed.

(** The lookup of a key that was stored is undefined. *)
Lemma get_null key v : m !! key = Some v -> kh_get hash h' key = Ub.
Proof.
  intros Hm. pose proof (pow2_bound k n Hk Hn) as Hb. unfold kh_get. rewrite Hn', (proj2 (Z.eqb_neq n 0)) by lia.
  cbv zeta. rewrite (mask_eq k n Hk Hn), <- (probe_0 k n Hk Hn).
  apply (table_lookup hash n _ _ _ _ T) in Hm as (i & Hi & Hsl).
  destruct (t_reach _ _ _ _ _ _ T i key v Hi Hsl) as (s & Hs & Hp & Hused).
  apply slot_of_live in Hsl as (Hl & _ & _); [ | done]. apply (get_loop_null key _ 0 s); try done || lia; [ | by rewrite Hp].
  intros s' Hs'. destruct (decide (s' = s)) as [-> | ]; [ | apply Hused; lia]. rewrite Hp. by apply live_bits in Hl as [_ ->].
Qed.

Lemma put_loop_null key fuel : forall s s1 site, 0 <= s <= s1 -> s1 < n -> s1 - s <= Z.of_nat fuel ->
  fbit (flags h) (probe n (hash key) s1) 1 = true ->
  (forall s', s <= s' < s1 -> fbit (flags h) (probe n (hash key) s') 1 = false) ->
  let r := put_loop h' key (n - 1) (probe n (hash key) 0) fuel (probe n (hash key) s) s site in
  r = Ub \/ exists site', r = Ok (n, site', probe n (hash key) s1) /\
    (site' = site \/ exists s', site' = probe n (hash key) s' /\ fbit (flags h) site' 0 = true).
Proof.
  induction fuel as [ | fuel IH]; intros s s1 site Hs Hs1 Hf Hst Hused; cbn [put_loop];
    rewrite null_test by apply (probe_bound k n Hk Hn); cbv zeta.
  all: destruct (decide (s = s1)) as [-> | Hne]; [rewrite Hst, Hn'; eauto | ].
  - lia.
  - rewrite Hused by lia. destruct (fbit _ _ 0) eqn:Ed; [ | by left].
    rewrite Hf', ac_isdel_ok, obind_ok, Ed by (apply (t_flags _ _ _ _ _ _ T), (probe_bound k n Hk Hn)).
    destruct (probe_next k _ Hk Hn (hash key) s ltac:(lia)) as (-> & -> & ->).
    destruct (IH (s + 1) s1 (probe n (hash key) s)) as [-> | (site' & -> & Hsite)]; try done || lia;
      [intros; apply Hused; lia | by left | right]. exists site'. split; [done | ].
    destruct Hsite as [-> | ?]; [right; eauto | by right].
Qed.

(** So is every insertion. *)
Lemma put_null key : len (entries (used (flags h)) n) < n ->
  (let! x := put_slot hash h' key in put_at h' key x) = Ub.
Proof.
  intros Hocc. pose proof (pow2_bound k n Hk Hn) as Hb. pose proof (fun s => probe_bound k n Hk Hn (hash key) s) as Hpb.
  assert (forall x, 0 <= x < n -> live (flags h) x = false -> put_at h' key x = Ub) as Hput.
  { intros x Hx Hl. pose proof (t_flags _ _ _ _ _ _ T x Hx) as Hin. unfold put_at. rewrite Hf', Hk', ac_isempty_ok, obind_ok by done.
    rewrite wr_null. destruct (fbit (flags h) x 1) eqn:E1; [done | ]. rewrite ac_isdel_ok, obind_ok by done.
    unfold live in Hl. rewrite E1 in Hl. by destruct (fbit (flags h) x 0). }
  destruct (used_hole _ _ Hocc) as (i0 & Hi0 & He0).
  destruct (probe_surj k n Hk Hn (hash key) i0 Hi0) as (s0 & Hs0 & Hp).
  destruct (least_Z (fun s => fbit (flags h) (probe n (hash key) s) 1) s0) as (s & Hs & H1 & H2); [lia | by rewrite Hp | ].
  assert (forall x, 0 <= x < n -> fbit (flags h) x 1 = true -> live (flags h) x = false) as Hemp.
  { intros x _ E. unfold live. by rewrite E, orb_true_r. }
  unfold put_slot. rewrite Hn', Hf'. cbv zeta. rewrite (mask_eq k n Hk Hn), <- (probe_0 k n Hk Hn).
  rewrite ac_isempty_ok, obind_ok by (by apply (t_flags _ _ _ _ _ _ T)).
  destruct (fbit _ (probe n (hash key) 0) 1) eqn:E0; [rewrite obind_ok; by apply Hput; auto | ].
  destruct (put_loop_null key (Z.to_nat (2 * n)) 0 s n) as [-> | (site & -> & Hsite)]; try done || lia.
  rewrite obind_ok, Z.eqb_refl, ac_isempty_ok, obind_ok, H1, obind_ok by (by apply (t_flags _ _ _ _ _ _ T)). cbn [andb].
  destruct Hsite as [-> | (s' & -> & Hd)].
  - rewrite Z.eqb_refl. cbn [negb]. apply Hput; [done | ]. by apply Hemp.
  - rewrite (proj2 (Z.eqb_neq _ n)) by (specialize (Hpb s'); lia). cbn [negb]. apply Hput; [done | ]. unfold live. by rewrite Hd.
Qed.
End Lost.
