(* ===== verification/KHashSpec.v ===== *)
(** * The hash table of [hash_table/khash.h]: the map it implements

    Sequences of operations the way clients write them ([kh_put] followed by an
    assignment through [kh_value], [kh_get] compared with [kh_end], ...) refine a
    finite map; the driver [hash_table/example.c] evaluated. *)
From S2P Require Import Prelude CLib KHash KHashFlags KHashProof KHashProbe.

Module KHashMap.
Import KHash.

Section Client.
Context {K V : Type} `{!EqDecision K, !Countable K} (hash : K -> Z).

(** ** Operations of a client *)
(** The booleans of [Put] and [Resize]: do the three allocations succeed. *)
Inductive op :=
  | Put (a1 a2 a3 : bool) (key : K) (v : V)
  | Get (key : K)
  | Del (key : K)
  | Clear
  | Resize (a1 a2 a3 : bool) (n : Z).

Inductive obs :=
  | ORet (ret : Z)
  | OVal (v : option V)
  | OUnit.

Definition step_op (h : kh K V) (o : op) : outcome (obs * kh K V) :=
  match o with
  | Put a1 a2 a3 key v =>
      let! '(x, ret, h) := kh_put hash a1 a2 a3 h key in
      if ret <? 0 then Ok (ORet ret, h)
      else let! h := kh_set_val h x v in Ok (ORet ret, h)
  | Get key =>
      let! x := kh_get hash h key in
      if x =? n_buckets h then Ok (OVal None, h)
      else let! v := kh_val h x in Ok (OVal (Some v), h)
  | Del key =>
      let! x := kh_get hash h key in
      let! h := kh_del h x in Ok (OUnit, h)
  | Clear => Ok (OUnit, kh_clear h)
  | Resize a1 a2 a3 n =>
      let! '(rc, h) := kh_resize hash a1 a2 a3 h n in Ok (ORet rc, h)
  end.

Fixpoint run_ops (h : kh K V) (os : list op) : outcome (list obs * kh K V) :=
  match os with
  | [] => Ok ([], h)
  | o :: os =>
      let! '(b, h) := step_op h o in
      let! '(bs, h) := run_ops h os in
      Ok (b :: bs, h)
  end.

(** ** The abstract map *)
Inductive map_step (m : gmap K V) : op -> obs -> gmap K V -> Prop :=
  | step_put_new a1 a2 a3 key v ret :
      m !! key = None -> ret = 1 \/ ret = 2 ->
      map_step m (Put a1 a2 a3 key v) (ORet ret) (<[key := v]> m)
  | step_put_old a1 a2 a3 key v v0 :
      m !! key = Some v0 -> map_step m (Put a1 a2 a3 key v) (ORet 0) (<[key := v]> m)
  | step_put_fail a1 a2 a3 key v :
      a1 && a2 && a3 = false -> map_step m (Put a1 a2 a3 key v) (ORet (-1)) m
  | step_get key : map_step m (Get key) (OVal (m !! key)) m
  | step_del key : map_step m (Del key) OUnit (delete key m)
  | step_clear : map_step m Clear OUnit ∅
  | step_resize a1 a2 a3 n rc :
      rc = 0 \/ (rc = -1 /\ a1 && a2 && a3 = false) ->
      map_step m (Resize a1 a2 a3 n) (ORet rc) m.

Inductive map_run (m : gmap K V) : list op -> list obs -> gmap K V -> Prop :=
  | run_nil : map_run m [] [] m
  | run_cons o b m1 os bs m2 :
      map_step m o b m1 -> map_run m1 os bs m2 -> map_run m (o :: os) (b :: bs) m2.

(** [kh_resize] is given a size that fits its 32-bit rounding. *)
Definition op_ok (o : op) : Prop :=
  match o with Resize _ _ _ n => 0 < n <= 2 ^ 31 | _ => True end.

Definition represents (h : kh K V) (m : gmap K V) : Prop := repr hash h (Some <$> m).

Lemma represents_init : represents kh_init ∅.
Proof. left. rewrite fmap_empty. done. Qed.

Lemma answers_val h (m : gmap K V) key x v :
  answers h (Some <$> m) key x -> m !! key = Some v ->
  0 <= x < n_buckets h /\ kh_val h x = Ok v.
Proof.
  unfold answers. rewrite lookup_fmap. intros Ha Hm. rewrite Hm in Ha. destruct Ha as [Hx Hs].
  split; [done | ]. apply (slot_of_live hash) in Hs as (_ & _ & Hv). unfold kh_val.
  rewrite (rd_ok _ _ (Some v)); [done | lia | done].
Qed.

Lemma put_op_ok h m a1 a2 a3 key v :
  represents h m -> Z.of_nat (base.size m) < 2 ^ 30 ->
  exists b h' m', step_op h (Put a1 a2 a3 key v) = Ok (b, h') /\
    map_step m (Put a1 a2 a3 key v) b m' /\ represents h' m'.
Proof.
  intros R Hmax. unfold represents in *.
  destruct (kh_put_ok hash a1 a2 a3 h (Some <$> m) key R) as (x & ret & h1 & E & Hcase);
    [by rewrite map_size_fmap | ].
  cbn [step_op]. rewrite E, obind_ok. destruct Hcase as [(-> & Ha & _ & R1) | Hres].
  { exists (ORet (-1)), h1, m. split; [done | ]. split; [by constructor | done]. }
  unfold put_result in Hres. rewrite lookup_fmap in Hres. destruct (m !! key) as [v0 | ] eqn:Hm.
  - destruct Hres as (-> & R1 & Ans). rewrite (proj2 (Z.ltb_ge 0 0)) by lia.
    destruct (kh_set_val_ok hash h1 _ key x (Some v0) v R1) as (h2 & E2 & R2 & _); [by rewrite lookup_fmap, Hm | done | ].
    rewrite E2, obind_ok. exists (ORet 0), h2, (<[key := v]> m). split; [done | ].
    split; [by econstructor | ]. by rewrite fmap_insert.
  - destruct Hres as (Hret & v0 & R1 & Ans). rewrite (proj2 (Z.ltb_ge ret 0)) by lia.
    destruct (kh_set_val_ok hash h1 _ key x v0 v R1) as (h2 & E2 & R2 & _); [by rewrite lookup_insert_eq | done | ].
    rewrite E2, obind_ok. exists (ORet ret), h2, (<[key := v]> m). split; [done | ].
    split; [by constructor | ]. rewrite fmap_insert. by rewrite insert_insert_eq in R2.
Qed.

(** The one operation khash does not survive: a [kh_resize] that shrinks the table and
    whose unchecked reallocation of the keys or of the values fails. *)
Definition shrink_fails (h : kh K V) (o : op) : bool :=
  match o with
  | Resize a1 a2 a3 n =>
      a1 && negb (a2 && a3) && (round_buckets n <? n_buckets h) && (size h <? hash_upper (round_buckets n))
  | _ => false
  end.

Lemma shrink_fails_false h a1 a2 a3 n :
  shrink_fails h (Resize a1 a2 a3 n) = false ->
  a1 = true -> round_buckets n < n_buckets h -> size h < hash_upper (round_buckets n) -> a2 && a3 = true.
Proof.
  intros Hsf -> H1%Z.ltb_lt H2%Z.ltb_lt. cbn [shrink_fails andb] in Hsf. rewrite H1, H2, !andb_true_r in Hsf.
  by apply negb_false_iff in Hsf.
Qed.

(** The table such an operation leaves: it reports success, but the lookup of any stored
    key and every insertion are undefined. *)
Definition ruined (h : kh K V) (m : gmap K V) : Prop :=
  (forall key v, m !! key = Some v -> step_op h (Get key) = Ub) /\
  (forall a1 a2 a3 key v, step_op h (Put a1 a2 a3 key v) = Ub).

Lemma no_resize_put a1 a2 a3 (h : kh K V) key :
  n_occupied h < upper_bound h ->
  kh_put hash a1 a2 a3 h key = let! x := put_slot hash h key in put_at h key x.
Proof. intros H. unfold kh_put. rewrite Z.geb_leb, (proj2 (Z.leb_gt _ _) H). done. Qed.

Lemma put_at_defined (h : kh K V) m key x :
  table hash (n_buckets h) (flags h) (keys h) (vals h) m -> 0 <= x < n_buckets h ->
  exists ret h', put_at h key x = Ok (x, ret, h') /\ 0 <= ret.
Proof.
  intros T Hx. pose proof (t_flags _ _ _ _ _ _ T x Hx) as Hin. pose proof (t_keys _ _ _ _ _ _ T).
  destruct (set_isboth_false_ok (flags h) x Hin) as (fl' & Hfl & _).
  unfold put_at. rewrite ac_isempty_ok, obind_ok, wr_ok, obind_ok, Hfl, obind_ok by (done || lia).
  destruct (fbit (flags h) x 1); [eexists _, _; done | ]. rewrite ac_isdel_ok, obind_ok by done.
  destruct (fbit (flags h) x 0); [rewrite obind_ok, obind_ok | ]; eexists _, _; done.
Qed.

Lemma lose_ruined a2 a3 h m :
  represents h m -> n_occupied h < upper_bound h -> a2 && a3 = false ->
  ruined (lose a2 a3 h) m.
Proof.
  intros R Hroom Ha. unfold represents in R.
  pose proof R as [(_ & _ & Ho & Hu & _) | (k & Hk & Hn & T & Hsz & Hocc & Hub & Hle)]; [lia | ].
  destruct (hash_upper_bounds k Hk) as [[_ Hu1] _]. rewrite <- Hn in Hu1. destruct a2.
  - destruct a3; [done | ]. split.
    + intros key v Hm. cbn [step_op]. rewrite get_lose.
      destruct (kh_get_ok hash h _ key R) as (x & -> & Ans). rewrite obind_ok. cbn [lose n_buckets].
      destruct (answers_val h m key x v Ans Hm) as [Hx _]. rewrite (proj2 (Z.eqb_neq _ _)) by lia.
      unfold kh_val. cbn [lose vals]. by rewrite rd_null.
    + intros a1 a2 a3 key v. cbn [step_op]. rewrite no_resize_put, put_slot_lose by done.
      destruct (put_slot_ok hash k h _ key Hk Hn T ltac:(lia)) as (x & -> & Hx). rewrite obind_ok.
      destruct (put_at_defined h _ key x T) as (ret & h1 & E%put_at_lose & Hret).
      { unfold answers, free_for in Hx. destruct (_ !! key); tauto. }
      rewrite E, obind_ok, (proj2 (Z.ltb_ge _ _)) by done. unfold kh_set_val. cbn [lose vals]. by rewrite wr_null.
  - split.
    + intros key v Hm. cbn [step_op].
      rewrite (get_null hash k h _ ltac:(lia) Hn T (lose false a3 h) eq_refl eq_refl eq_refl key (Some v)); [done | ].
      by rewrite lookup_fmap, Hm.
    + intros a1 a2 a3' key v. cbn [step_op]. rewrite no_resize_put by done.
      rewrite (put_null hash k h _ ltac:(lia) Hn T (lose false a3 h) eq_refl eq_refl eq_refl key); [done | lia].
Qed.

Lemma shrink_fails_ruined h m a1 a2 a3 n :
  represents h m -> 0 < n <= 2 ^ 31 -> shrink_fails h (Resize a1 a2 a3 n) = true ->
  exists h', step_op h (Resize a1 a2 a3 n) = Ok (ORet 0, h') /\ ruined h' m.
Proof.
  intros R Hn Hs. cbn [shrink_fails] in Hs. rewrite !andb_true_iff, negb_true_iff, !Z.ltb_lt in Hs.
  destruct Hs as [[[-> Ha] Hlt] Hsz].
  destruct (kh_resize_lose hash a2 a3 h _ n R Hn Hlt Hsz) as (h' & _ & R' & Hroom & E).
  exists (lose a2 a3 h'). cbn [step_op]. rewrite E, obind_ok. split; [done | ]. by apply lose_ruined.
Qed.

Lemma step_op_ok h m o :
  represents h m -> op_ok o -> Z.of_nat (base.size m) < 2 ^ 30 -> shrink_fails h o = false ->
  exists b h' m', step_op h o = Ok (b, h') /\ map_step m o b m' /\ represents h' m'.
Proof.
  intros R Hok Hmax Hsf. destruct o as [a1 a2 a3 key v | key | key | | a1 a2 a3 n].
  - by apply put_op_ok.
  - destruct (kh_get_ok hash h _ key R) as (x & E & Ans). cbn [step_op]. rewrite E, obind_ok.
    exists (OVal (m !! key)), h, m. split; [ | split; [by constructor | done]].
    destruct (m !! key) as [v | ] eqn:Hm.
    + destruct (answers_val h m key x v Ans Hm) as [Hx Hv]. rewrite (proj2 (Z.eqb_neq _ _)) by lia.
      rewrite Hv. done.
    + unfold answers in Ans. rewrite lookup_fmap, Hm in Ans. simpl in Ans. subst x. by rewrite Z.eqb_refl.
  - destruct (kh_get_ok hash h _ key R) as (x & E & Ans). cbn [step_op]. rewrite E, obind_ok.
    destruct (m !! key) as [v | ] eqn:Hm.
    + destruct (kh_del_ok hash h _ key x (Some v) R) as (h' & E' & R'); [by rewrite lookup_fmap, Hm | done | ].
      rewrite E', obind_ok. eexists _, h', _. split; [done | ]. split; [constructor | ].
      unfold represents. by rewrite fmap_delete.
    + unfold answers in Ans. rewrite lookup_fmap, Hm in Ans. simpl in Ans. subst x.
      unfold kh_del. rewrite Z.eqb_refl, obind_ok. eexists _, h, _. split; [done | ]. split; [constructor | ].
      by rewrite delete_id.
  - eexists _, _, _. split; [done | ]. split; [constructor | ]. unfold represents. rewrite fmap_empty.
    by apply (kh_clear_ok hash h (Some <$> m)).
  - destruct (kh_resize_ok hash a1 a2 a3 h _ n R Hok) as (rc & h' & E & R' & Hrc & Ha & _).
    { by apply shrink_fails_false. }
    cbn [step_op]. rewrite E, obind_ok. eexists _, h', m. split; [done | ]. split; [ | done].
    constructor. destruct Hrc as [-> | ->]; [by left | right]. split; [done | ].
    destruct (a1 && a2 && a3); [specialize (Ha eq_refl); lia | done].
Qed.

Lemma map_step_size m o b m' :
  map_step m o b m' -> Z.of_nat (base.size m') <= Z.of_nat (base.size m) + 1.
Proof.
  destruct 1; try lia.
  - rewrite map_size_insert_None by done. lia.
  - rewrite map_size_insert_Some by eauto. lia.
  - destruct (m !! key) eqn:E; [rewrite map_size_delete_Some by eauto | rewrite delete_id by done]; lia.
  - rewrite map_size_empty. lia.
Qed.

(** A run follows the map to its end, or up to a shrinking reallocation that fails. *)
Lemma run_ops_ok os : forall h m,
  represents h m -> Forall op_ok os -> Z.of_nat (base.size m) + len os < 2 ^ 30 ->
  (exists bs h' m', run_ops h os = Ok (bs, h') /\ map_run m os bs m' /\ represents h' m') \/
  (exists os1 o os2 bs h1 m1 h', os = os1 ++ o :: os2 /\ run_ops h os1 = Ok (bs, h1) /\ map_run m os1 bs m1 /\
     represents h1 m1 /\ shrink_fails h1 o = true /\ step_op h1 o = Ok (ORet 0, h') /\ ruined h' m1).
Proof.
  induction os as [ | o os IH]; intros h m R Hok Hmax.
  { left. exists [], h, m. split; [done | ]. split; [constructor | done]. }
  apply Forall_cons in Hok as [Ho Hok]. cbn [length] in Hmax. destruct (shrink_fails h o) eqn:Hsf.
  { right. destruct o as [ | | | | a1 a2 a3 n]; try done.
    destruct (shrink_fails_ruined h m a1 a2 a3 n R Ho Hsf) as (h' & E & Hru).
    exists [], (Resize a1 a2 a3 n), os, [], h, m, h'. split_and!; try done. constructor. }
  destruct (step_op_ok h m o R Ho ltac:(lia) Hsf) as (b & h1 & m1 & E & Hs & R1).
  pose proof (map_step_size _ _ _ _ Hs).
  destruct (IH h1 m1 R1 Hok ltac:(lia)) as [(bs & h2 & m2 & E2 & Hr & R2) |
    (os1 & o' & os2 & bs & h2 & m2 & h' & -> & E2 & Hr & R2 & Hf & Hst & Hru)]; [left | right].
  - exists (b :: bs), h2, m2. cbn [run_ops]. rewrite E, obind_ok, E2, obind_ok.
    split; [done | ]. split; [by econstructor | done].
  - exists (o :: os1), o', os2, (b :: bs), h2, m2, h'. cbn [run_ops]. rewrite E, obind_ok, E2, obind_ok.
    split_and!; try done. by econstructor.
Qed.
(** The run of operations none of which can lose an array. *)
Lemma run_ops_total os h m :
  represents h m -> Forall op_ok os -> Z.of_nat (base.size m) + len os < 2 ^ 30 ->
  Forall (fun o => forall h, shrink_fails h o = false) os ->
  exists bs h' m', run_ops h os = Ok (bs, h') /\ map_run m os bs m' /\ represents h' m'.
Proof.
  intros R Hok Hmax Hs. destruct (run_ops_ok os h m R Hok Hmax) as [? | (os1 & o & os2 & bs & h1 & m1 & h' & -> & _ & _ & _ & Hf & _)]; [done | ].
  apply Forall_app in Hs as [_ Hs]. apply Forall_cons in Hs as [Hs _]. by rewrite Hs in Hf.
Qed.

Lemma map_run_size m os bs m' : map_run m os bs m' -> Z.of_nat (base.size m') <= Z.of_nat (base.size m) + len os.
Proof. induction 1 as [ | m o b m1 os bs m2 Hs _ IH]; simpl; [lia | ]. pose proof (map_step_size _ _ _ _ Hs). lia. Qed.

Lemma get_represented h m key :
  represents h m -> Z.of_nat (base.size m) < 2 ^ 30 -> step_op h (Get key) = Ok (OVal (m !! key), h).
Proof.
  intros R Hmax. destruct (step_op_ok h m (Get key) R I Hmax eq_refl) as (b & h2 & m2 & E2 & Hs & _).
  inversion Hs; subst. rewrite E2. f_equal. f_equal.
  cbn [step_op] in E2. apply obind_inv in E2 as (x & _ & E2).
  destruct (x =? n_buckets h); [ | apply obind_inv in E2 as (? & _ & E2)]; simplify_eq; done.
Qed.
End Client.
Arguments op : clear implicits.
Arguments obs : clear implicits.

(** ** [hash_table/example.c] *)
Section Example.
Definition t32 : Type := kh Z Z.

Fixpoint fill_loop (h : t32) (fuel : nat) (i : Z) : outcome (list bytes * t32) :=
  match fuel with
  | O => Ok ([], h)
  | S fuel =>
      let! '(k, absent, h) := kh_put kh_int_hash_func true true true h i in
      let! '(line, h) :=
        if absent =? 0 then
          let! h := kh_del h k in Ok (lit "Key " ++ dec i ++ lit " existed!", h)
        else
          let! sq := cint (i * i) in
          let! h := kh_set_val h k sq in
          Ok (lit "put (" ++ dec i ++ lit ", " ++ dec sq ++ lit ") pair", h) in
      let! '(out, h) := fill_loop h fuel (i + 1) in
      Ok (line :: out, h)
  end.

Fixpoint traverse (h : t32) (fuel : nat) (k : Z) : outcome (list bytes) :=
  if k =? n_buckets h then Ok []
  else
    match fuel with
    | O => NoFuel
    | S fuel =>
        let! e := kh_exist h k in
        let! line :=
          if e : bool then
            let! x := kh_key h k in
            let! y := kh_val h k in
            Ok [lit " value for key " ++ dec x ++ lit " is " ++ dec y]
          else Ok [] in
        let! out := traverse h fuel (u32 (k + 1)) in
        Ok (line ++ out)
    end.

Definition example_main : outcome (list bytes) :=
  let h : t32 := kh_init in
  let! '(k, absent, h) := kh_put kh_int_hash_func true true true h 101 in
  let! h := kh_set_val h k 10 in
  let! '(puts, h) := fill_loop h 20 0 in
  let key := 102 in
  let! k := kh_get kh_int_hash_func h key in
  let missing := if k =? n_buckets h then [lit "Key " ++ dec key ++ lit " does not existed!"] else [] in
  let! k := kh_get kh_int_hash_func h 5 in
  let! v := kh_val h k in
  let! h := kh_del h k in
  let! out := traverse h (Z.to_nat (n_buckets h)) 0 in
  Ok (puts ++ missing ++ [lit "Value is " ++ dec v] ++ out).
End Example.

(** ** Properties *)

(** C1. Starting from an empty table, every sequence of fewer than [2^30] client
    operations (insert with assignment, lookup, delete, clear, resize, with any
    pattern of allocation failures) runs without an out-of-range access or an endless
    probe, returns what the abstract finite map returns (code 0 for a key that was
    present, 1 or 2 for a new one, -1 with an unchanged map only if an allocation
    failed) and ends in a table that represents the map's final state; for every key
    type, value type and hash function.  The one exception is a [kh_resize] that shrinks
    the table and whose reallocation of the keys or values, which the code does not
    check, fails: the run follows the map up to it, the call still returns 0, and from
    then on the lookup of any stored key and every insertion are undefined. *)
Theorem khash_refines_map {K V : Type} `{!EqDecision K, !Countable K} (hash : K -> Z) (os : list (op K V)) :
  Forall op_ok os -> len os < 2 ^ 30 ->
  (exists bs h' m', run_ops hash kh_init os = Ok (bs, h') /\ map_run ∅ os bs m' /\
    represents hash h' m' /\
    forall key, step_op hash h' (Get key) = Ok (OVal (m' !! key), h')) \/
  (exists os1 a1 a2 a3 n os2 bs h m h', os = os1 ++ Resize a1 a2 a3 n :: os2 /\
    run_ops hash kh_init os1 = Ok (bs, h) /\ map_run ∅ os1 bs m /\ represents hash h m /\
    shrink_fails h (Resize a1 a2 a3 n) = true /\
    step_op hash h (Resize a1 a2 a3 n) = Ok (ORet 0, h') /\
    (forall key v, m !! key = Some v -> step_op hash h' (Get key) = Ub) /\
    (forall b1 b2 b3 key v, step_op hash h' (Put b1 b2 b3 key v) = Ub)).
Proof.
  intros Hok Hmax.
  destruct (run_ops_ok hash os kh_init ∅ (represents_init hash) Hok) as [(bs & h' & m' & E & Hr & R) |
    (os1 & o & os2 & bs & h1 & m1 & h' & -> & E & Hr & R & Hf & Hst & Hru)].
  { rewrite map_size_empty. done. }
  - left. assert (Z.of_nat (base.size m') <= len os) as Hsz.
    { pose proof (map_run_size _ _ _ _ Hr) as H. rewrite map_size_empty in H. lia. }
    exists bs, h', m'. split; [done | ]. split; [done | ]. split; [done | ]. intros key.
    apply get_represented; [done | lia].
  - right. destruct o as [ | | | | a1 a2 a3 n]; try done. by exists os1, a1, a2, a3, n, os2, bs, h1, m1, h'.
Qed.

(** A run that follows the map, and one in which a shrinking reallocation fails. *)
Lemma khash_refines_map_witness :
  ((exists bs h' m',
    run_ops kh_int_hash_func kh_init
      [Put true true true 3 30; Put true true true 7 70; Del 3; Resize true true false 64; Get 7] = Ok (bs, h') /\
    map_run ∅ [Put true true true 3 30; Put true true true 7 70; Del 3; Resize true true false 64; Get 7] bs m' /\
    represents kh_int_hash_func h' m' /\
    forall key, step_op kh_int_hash_func h' (Get key) = Ok (OVal (m' !! key), h')) \/
   (exists os1 a1 a2 a3 n os2 bs h m h',
    [Put true true true 3 30; Put true true true 7 70; Del 3; Resize true true false 64; Get 7] = os1 ++ Resize a1 a2 a3 n :: os2 /\
    run_ops kh_int_hash_func kh_init os1 = Ok (bs, h) /\ map_run ∅ os1 bs m /\ represents kh_int_hash_func h m /\
    shrink_fails h (Resize a1 a2 a3 n) = true /\
    step_op kh_int_hash_func h (Resize a1 a2 a3 n) = Ok (ORet 0, h') /\
    (forall key v, m !! key = Some v -> step_op kh_int_hash_func h' (Get key) = Ub) /\
    (forall b1 b2 b3 key v, step_op kh_int_hash_func h' (Put b1 b2 b3 key v) = Ub))) /\
  run_ops kh_int_hash_func kh_init [Put true true true 3 30; Resize true true true 64; Resize true true false 4; Get 3] = Ub.
Proof.
  split; [ | by vm_compute].
  apply (khash_refines_map kh_int_hash_func [Put true true true 3 30; Put true true true 7 70; Del 3; Resize true true false 64; Get 7]).
  - repeat (constructor; simpl; try lia).
  - reflexivity.
Defined.

(** C14. [kh_resize] to any size up to [2^31] keeps the map unless it shrinks the table
    and the reallocation of the keys or values fails, in which case it returns 0 and
    leaves a table on which the lookup of any stored key and every insertion are
    undefined; it returns -1 only if an allocation failed; the size it aims at is the
    least power of two that is at least 4 and at least the request, computed in 32 bits
    without overflow; and when that many buckets have room for the elements, the
    table ends up with exactly that many and with all deleted buckets purged. *)
Theorem kh_resize_keeps {K V : Type} `{!EqDecision K, !Countable K} (hash : K -> Z) a1 a2 a3
    (h : kh K V) (m : gmap K V) n :
  represents hash h m -> 0 < n <= 2 ^ 31 ->
  (if shrink_fails h (Resize a1 a2 a3 n)
   then exists h', kh_resize hash a1 a2 a3 h n = Ok (0, h') /\
     (forall key v, m !! key = Some v -> step_op hash h' (Get key) = Ub) /\
     (forall b1 b2 b3 key v, step_op hash h' (Put b1 b2 b3 key v) = Ub)
   else exists rc h', kh_resize hash a1 a2 a3 h n = Ok (rc, h') /\ represents hash h' m /\
    (rc = 0 \/ rc = -1 /\ a1 && a2 && a3 = false) /\
    (rc = 0 -> Z.of_nat (base.size m) < hash_upper (round_buckets n) ->
     n_buckets h' = round_buckets n /\ n_occupied h' = size h')) /\
  (exists k, 2 <= k <= 31 /\ round_buckets n = 2 ^ k /\ n <= 2 ^ k /\
     forall j, 2 <= j -> n <= 2 ^ j -> 2 ^ k <= 2 ^ j).
Proof.
  intros R Hn. split.
  2:{ destruct (round_buckets_spec n Hn) as (k & E & Hk & Hle & Hmin).
      exists k. split; [done | ]. split; [done | ]. split; [done | ].
      intros j Hj Hnj. apply Z.pow_le_mono_r; [lia | auto]. }
  destruct (shrink_fails _ _) eqn:Hsf.
  { destruct (shrink_fails_ruined hash h m a1 a2 a3 n R Hn Hsf) as (h' & E & Hru).
    exists h'. split; [ | done]. cbn [step_op] in E. apply obind_inv in E as ([rc h1] & E & E'). by simplify_eq. }
  destruct (kh_resize_ok hash a1 a2 a3 h _ n R Hn) as (rc & h' & E & R' & Hrc & Ha & Hb).
  { by apply shrink_fails_false. }
  exists rc, h'. split; [done | ]. split; [done | ]. split.
  - destruct Hrc as [-> | ->]; [by left | right]. split; [done | ].
    destruct (a1 && a2 && a3); [specialize (Ha eq_refl); lia | done].
  - rewrite map_size_fmap in Hb. intros H1 H2. destruct (Hb H1 H2) as [-> ->]. split; [done | ].
    destruct (repr_table hash h' _ R') as (_ & _ & ->). by rewrite map_size_fmap.
Qed.

(** On the table of one resize to 64 buckets and one insertion, shrinking to 4. *)
Definition demo_tbl : kh Z Z :=
  match run_ops kh_int_hash_func kh_init [Resize true true true 64; Put true true true 3 30] with
  | Ok (_, h) => h
  | _ => kh_init
  end.
Lemma demo_tbl_represents : represents kh_int_hash_func demo_tbl {[3 := 30]}.
Proof.
  destruct (run_ops_total kh_int_hash_func [Resize true true true 64; Put true true true 3 30] kh_init ∅)
    as (bs & h' & m' & E & Hr & R);
    [apply represents_init | repeat (constructor; simpl; try lia) | rewrite map_size_empty; done
    | repeat (constructor; [done | ]); constructor | ].
  unfold demo_tbl. rewrite E. replace {[3 := 30]} with m'; [done | ].
  inversion Hr as [ | ? ? m1 ? ? ? H1 H2]; subst. inversion H1; subst. inversion H2 as [ | ? ? ? ? ? ? H3 H4]; subst.
  inversion H4; subst. by inversion H3; subst.
Qed.
Lemma kh_resize_keeps_witness :
  (if shrink_fails demo_tbl (Resize true true false 4)
   then exists h', kh_resize kh_int_hash_func true true false demo_tbl 4 = Ok (0, h') /\
     (forall key v, ({[3 := 30]} : gmap Z Z) !! key = Some v -> step_op kh_int_hash_func h' (Get key) = Ub) /\
     (forall b1 b2 b3 key v, step_op kh_int_hash_func h' (Put b1 b2 b3 key v) = Ub)
   else exists rc h', kh_resize kh_int_hash_func true true false demo_tbl 4 = Ok (rc, h') /\
    represents kh_int_hash_func h' {[3 := 30]} /\
    (rc = 0 \/ rc = -1 /\ true && true && false = false) /\
    (rc = 0 -> Z.of_nat (base.size ({[3 := 30]} : gmap Z Z)) < hash_upper (round_buckets 4) ->
     n_buckets h' = round_buckets 4 /\ n_occupied h' = size h')) /\
  shrink_fails demo_tbl (Resize true true false 4) = true.
Proof.
  split; [ | by vm_compute].
  refine (proj1 (kh_resize_keeps kh_int_hash_func true true false demo_tbl {[3 := 30]} 4 demo_tbl_represents _)); lia.
Defined.

(** C26. The quadratic probing of the three loops misses no bucket: on a table of a
    power of two buckets, none of them empty, [kh_get] returns a live bucket that holds
    the key wherever one is, and [n_buckets] after finitely many steps if there is none;
    the search of [kh_put] returns a live bucket that holds the key, otherwise a deleted
    bucket wherever one is, and its first bucket if none is deleted either; and the
    search of [kh_resize] ends at an empty bucket of any flag array that has one.  All
    for any hash value. *)
Theorem probing_complete {K V : Type} `{!EqDecision K} (hash : K -> Z) k (h : kh K V) (key : K) :
  0 <= k <= 31 -> n_buckets h = 2 ^ k ->
  (forall i, 0 <= i < n_buckets h -> in_flags (flags h) i) ->
  (forall i, 0 <= i < n_buckets h -> live (flags h) i = true -> exists k', keys h !! Z.to_nat i = Some (Some k')) ->
  ((forall i, 0 <= i < n_buckets h -> fbit (flags h) i 1 = false) ->
   (exists x, kh_get hash h key = Ok x /\ (holds h key x \/ (x = n_buckets h /\ forall i, ~ holds h key i))) /\
   (exists x, put_slot hash h key = Ok x /\
      (holds h key x \/ ((forall i, ~ holds h key i) /\ 0 <= x < n_buckets h /\
        (fbit (flags h) x 0 = true \/
         (x = Z.land (hash key) (n_buckets h - 1) /\ forall i, 0 <= i < n_buckets h -> fbit (flags h) i 0 = false)))))) /\
  ((exists i, 0 <= i < n_buckets h /\ fbit (flags h) i 1 = true) ->
   exists x, find_empty (flags h) (n_buckets h - 1) (Z.to_nat (2 * n_buckets h)) (Z.land (hash key) (n_buckets h - 1)) 0 = Ok x /\
     0 <= x < n_buckets h /\ fbit (flags h) x 1 = true).
Proof.
  intros Hk Hn Hf Hi. split.
  - intros Hfull. split; [by apply (full_get hash k) | by apply (full_put hash k)].
  - intros (i0 & Hi0 & He0). rewrite <- (probe_0 k _ Hk Hn).
    destruct (probe_surj k _ Hk Hn (hash key) i0 Hi0) as (s0 & Hs0 & Hp).
    destruct (least_Z (fun s => fbit (flags h) (probe (n_buckets h) (hash key) s) 1) s0) as (s & Hs & H1 & H2);
      [lia | by rewrite Hp | ].
    exists (probe (n_buckets h) (hash key) s). split; [ | by split; [apply (probe_bound k) | ]].
    apply (find_empty_ok hash k); try done || lia.
Qed.

(** Four buckets, all used: 0 and 2 live with the keys 8 and 5, 1 and 3 deleted. *)
Definition full_tbl : kh Z Z := mk_kh 4 2 4 3 [68] [Some 8; Some 1; Some 5; None] [Some 80; Some 10; Some 50; None].
Lemma probing_complete_witness :
  (kh_get kh_int_hash_func full_tbl 5 = Ok 2 /\ kh_get kh_int_hash_func full_tbl 9 = Ok 4) /\
  (exists x, kh_get kh_int_hash_func full_tbl 5 = Ok x /\
     (holds full_tbl 5 x \/ (x = n_buckets full_tbl /\ forall i, ~ holds full_tbl 5 i))).
Proof.
  split; [by vm_compute | ].
  assert (forall P : Z -> Prop, (P 0 /\ P 1 /\ P 2 /\ P 3) -> forall i, 0 <= i < 4 -> P i) as four.
  { intros P (P0 & P1 & P2 & P3) i Hi. assert (i = 0 \/ i = 1 \/ i = 2 \/ i = 3) as [-> | [-> | [-> | ->]]] by lia; done. }
  refine (proj1 (proj1 (probing_complete kh_int_hash_func 2 full_tbl 5 _ _ _ _) _)).
  - lia.
  - reflexivity.
  - refine (four (fun i => in_flags [68] i) _). unfold in_flags. cbn. lia.
  - refine (four (fun i => live [68] i = true -> exists k', keys full_tbl !! Z.to_nat i = Some (Some k')) _).
    split_and!; [eexists; reflexivity | done | eexists; reflexivity | done].
  - refine (four (fun i => fbit [68] i 1 = false) _). by vm_compute.
Defined.

(** The driver [example.c] prints the twenty squares it inserts, reports key
    102 missing, finds 25 under key 5, and after deleting that key traverses the
    other twenty bindings in bucket order. *)
Theorem example_main_output :
  let put i := lit "put (" ++ dec i ++ lit ", " ++ dec (i * i) ++ lit ") pair" in
  let binding '(k, v) := lit " value for key " ++ dec k ++ lit " is " ++ dec v in
  example_main = Ok ((put <$> seqZ 0 20) ++
    [lit "Key 102 does not existed!"; lit "Value is 25"] ++
    (binding <$> ((fun i => (i, i * i)) <$> seqZ 0 5) ++ [(101, 10)] ++
                 ((fun i => (i, i * i)) <$> seqZ 6 14))).
Proof. vm_compute. reflexivity. Qed.

End KHashMap.
