(* ===== verification/KHashSet.v ===== *)
(** * The sets of [hash_table/khash.h]

    With [kh_is_map = 0] the macros compile without the accesses to [vals], which stays a
    null pointer.  The functions that differ are written out, the others are the ones of
    the map.  A set is simulated by a map whose values nobody reads, so its sequences of
    operations refine a finite set; the instances of [KHASH_SET_INIT_INT],
    [KHASH_SET_INIT_INT64] and [KHASH_SET_INIT_STR] follow. *)
From S2P Require Import Prelude CLib KHash KHashFlags KHashProof KHashProbe KHashSpec.

Module KHashSet.
Import KHash.

Section SetOps.
Context {K V : Type} `{!EqDecision K} (hash : K -> Z).
Implicit Types h : kh K V.

Fixpoint kick_set (n new_n : Z) (fuel : nat) (r : rehash (K := K) (V := V)) (key : K) : outcome (rehash (K := K) (V := V)) :=
  match fuel with
  | O => NoFuel
  | S fuel =>
      let new_mask := u32 (new_n - 1) in
      let i := Z.land (hash key) new_mask in
      let! i := find_empty (r_new r) new_mask (Z.to_nat (2 * new_n)) i 0 in
      let! nf := ac_set_isempty_false (r_new r) i in
      let! occupied :=
        if i <? n then let! e := ac_iseither (r_flags r) i in Ok (negb e) else Ok false in
      if occupied : bool then
        let! c := rd (r_keys r) i in
        let! key' := deref c in
        let! ks := wr (r_keys r) i (Some key) in
        let! fl := ac_set_isdel_true (r_flags r) i in
        kick_set n new_n fuel (mk_rehash fl nf ks (r_vals r)) key'
      else
        let! ks := wr (r_keys r) i (Some key) in
        Ok (mk_rehash (r_flags r) nf ks (r_vals r))
  end.
Fixpoint rehash_loop_set (n new_n : Z) (fuel : nat) (j : Z) (r : rehash (K := K) (V := V)) : outcome (rehash (K := K) (V := V)) :=
  if j =? n then Ok r
  else
    match fuel with
    | O => NoFuel
    | S fuel =>
        let! e := ac_iseither (r_flags r) j in
        let! r :=
          if e then Ok r
          else
            let! c := rd (r_keys r) j in
            let! key := deref c in
            let! fl := ac_set_isdel_true (r_flags r) j in
            kick_set n new_n (Z.to_nat (n + 1)) (mk_rehash fl (r_new r) (r_keys r) (r_vals r)) key in
        rehash_loop_set n new_n fuel (u32 (j + 1)) r
    end.
Definition kh_resize_set (a1 a2 : bool) h (new_n_buckets : Z) : outcome (Z * kh K V) :=
  let new_n := round_buckets new_n_buckets in
  if size h >=? hash_upper new_n then Ok (0, h)
  else if negb a1 then Ok (-1, h)
  else
    let nf := fresh_flags new_n in
    let expand := n_buckets h <? new_n in
    if expand && negb a2 then Ok (-1, h)
    else
      let ks := if expand then grow (keys h) new_n else keys h in
      let! r := rehash_loop_set (n_buckets h) new_n (Z.to_nat (n_buckets h)) 0 (mk_rehash (flags h) nf ks (vals h)) in
      let shrink := n_buckets h >? new_n in
      let ks := if shrink then (if a2 then grow (r_keys r) new_n else []) else r_keys r in
      Ok (0, mk_kh new_n (size h) (size h) (hash_upper new_n) (r_new r) ks (vals h)).
Definition kh_put_set (a1 a2 : bool) h (key : K) : outcome (Z * Z * kh K V) :=
  let! '(rc, h) :=
    if n_occupied h >=? upper_bound h then
      if n_buckets h >? u32 (Z.shiftl (size h) 1)
      then kh_resize_set a1 a2 h (u32 (n_buckets h - 1))
      else kh_resize_set a1 a2 h (u32 (n_buckets h + 1))
    else Ok (0, h) in
  if rc <? 0 then Ok (n_buckets h, -1, h)
  else
    let! x := put_slot hash h key in
    put_at h key x.

(** ** The set is the map without its values *)
Definition erase h : kh K V := lose true false h.
Definition erase_r (r : rehash (K := K) (V := V)) : rehash (K := K) (V := V) := mk_rehash (r_flags r) (r_new r) (r_keys r) [].
(** Follow the run of the map with the code of the set. *)
Ltac follow :=
  repeat match goal with
  | H : obind _ _ = Ok _ |- _ => run_inv H
  | H : ?x = Ok _ |- context [obind ?x _] => rewrite H, obind_ok
  end.
Lemma kick_erase n new_n fuel : forall r key val r', kick hash n new_n fuel r key val = Ok r' ->
  kick_set n new_n fuel (erase_r r) key = Ok (erase_r r').
Proof.
  induction fuel as [ | fuel IH]; intros r key val r' E; [done | ]. cbn [kick kick_set erase_r r_flags r_new r_keys r_vals] in *.
  run_inv E. rewrite E0, obind_ok. run_inv E. rewrite E1, obind_ok. run_inv E. rewrite E2, obind_ok.
  destruct r2; follow; [by eapply IH in E | by injection E as <-].
Qed.
Lemma rehash_erase n new_n fuel : forall j r r', rehash_loop hash n new_n fuel j r = Ok r' ->
  rehash_loop_set n new_n fuel j (erase_r r) = Ok (erase_r r').
Proof.
  induction fuel as [ | fuel IH]; intros j r r' E; cbn [rehash_loop rehash_loop_set] in *;
    (destruct (j =? n); [by injection E as <- | ]); [done | ].
  cbn [erase_r r_flags r_new r_keys r_vals]. run_inv E. rewrite E0, obind_ok. run_inv E.
  destruct r0; [injection E1 as <-; rewrite obind_ok; by apply IH | ].
  follow. apply kick_erase in E1. unfold erase_r in E1 at 1. cbn [r_flags r_new r_keys] in E1. rewrite E1, obind_ok. by apply IH.
Qed.
Lemma resize_erase a1 a2 h x rc h' : kh_resize hash a1 a2 true h x = Ok (rc, h') ->
  kh_resize_set a1 a2 (erase h) x = Ok (rc, erase h').
Proof.
  unfold kh_resize, kh_resize_set. cbn [erase lose size n_buckets keys flags vals].
  destruct (size h >=? _); [by intros [= <- <-] | ]. destruct a1; cbn [negb]; [ | by intros [= <- <-]].
  destruct (_ && negb a2); [by intros [= <- <-] | ]. rewrite andb_false_r.
  intros E. run_inv E. apply rehash_erase in E0. unfold erase_r in E0 at 1. cbn [r_flags r_new r_keys] in E0.
  rewrite E0, obind_ok. by injection E as <- <-.
Qed.
Lemma put_erase a1 a2 h key x ret h' : kh_put hash a1 a2 true h key = Ok (x, ret, h') ->
  kh_put_set a1 a2 (erase h) key = Ok (x, ret, erase h').
Proof.
  unfold kh_put, kh_put_set. cbn [erase lose n_occupied upper_bound n_buckets size]. intros E. apply obind_inv in E as ([rc h1] & E0 & E).
  assert ((if n_occupied h >=? upper_bound h then
      if n_buckets h >? u32 (Z.shiftl (size h) 1)
      then kh_resize_set a1 a2 (erase h) (u32 (n_buckets h - 1))
      else kh_resize_set a1 a2 (erase h) (u32 (n_buckets h + 1))
    else Ok (0, erase h)) = Ok (rc, erase h1)) as Hs.
  { destruct (n_occupied h >=? upper_bound h); [ | by injection E0 as <- <-].
    destruct (n_buckets h >? u32 (Z.shiftl (size h) 1)); by apply resize_erase. }
  change (mk_kh (n_buckets h) (size h) (n_occupied h) (upper_bound h) (flags h) (keys h) []) with (erase h).
  rewrite Hs, obind_ok. destruct (rc <? 0); [by injection E as <- <- <- | ]. run_inv E. rewrite (put_slot_lose hash h1 key : put_slot hash (erase h1) key = _), E1, obind_ok.
  by apply put_at_lose.
Qed.
Lemma del_erase h x h' : kh_del h x = Ok h' -> kh_del (erase h) x = Ok (erase h').
Proof.
  unfold kh_del. cbn [erase lose n_buckets flags]. destruct (x =? n_buckets h); [by intros [= <-] | ]. intros E. run_inv E.
  rewrite E0, obind_ok. destruct r; [by injection E as <- | ]. follow. by injection E as <-.
Qed.
Lemma clear_erase h : kh_clear (erase h) = erase (kh_clear h).
Proof. unfold kh_clear. cbn [erase lose flags]. by destruct (flags h) eqn:E; [unfold erase, lose; rewrite E | ]. Qed.
End SetOps.

(** ** Sequences of operations of a client *)
Section Client.
Context {K V : Type} `{!EqDecision K, !Countable K} (hash : K -> Z).

Inductive sop :=
| SPut (a1 a2 : bool) (key : K)
| SHas (key : K)  (* [kh_get(h, key) != kh_end(h)] *)
| SDel (key : K)
| SClear
| SResize (a1 a2 : bool) (n : Z).
Inductive sobs := SRet (ret : Z) | SIn (found : bool) | SUnit.
Definition step_sop (h : kh K V) (o : sop) : outcome (sobs * kh K V) :=
  match o with
  | SPut a1 a2 key => let! '(_, ret, h) := kh_put_set hash a1 a2 h key in Ok (SRet ret, h)
  | SHas key => let! x := kh_get hash h key in Ok (SIn (negb (x =? n_buckets h)), h)
  | SDel key => let! x := kh_get hash h key in let! h := kh_del h x in Ok (SUnit, h)
  | SClear => Ok (SUnit, kh_clear h)
  | SResize a1 a2 n => let! '(rc, h) := kh_resize_set hash a1 a2 h n in Ok (SRet rc, h)
  end.
Fixpoint run_sops (h : kh K V) (os : list sop) : outcome (list sobs * kh K V) :=
  match os with
  | [] => Ok ([], h)
  | o :: os => let! '(b, h) := step_sop h o in let! '(bs, h) := run_sops h os in Ok (b :: bs, h)
  end.

(** The abstract set. *)
Inductive set_step (X : gset K) : sop -> sobs -> gset K -> Prop :=
| set_put_new a1 a2 key ret : key ∉ X -> ret = 1 \/ ret = 2 -> set_step X (SPut a1 a2 key) (SRet ret) ({[key]} ∪ X)
| set_put_old a1 a2 key : key ∈ X -> set_step X (SPut a1 a2 key) (SRet 0) X
| set_put_fail a1 a2 key : a1 && a2 = false -> set_step X (SPut a1 a2 key) (SRet (-1)) X
| set_has key : set_step X (SHas key) (SIn (bool_decide (key ∈ X))) X
| set_del key : set_step X (SDel key) SUnit (X ∖ {[key]})
| set_clear : set_step X SClear SUnit ∅
| set_resize a1 a2 n rc : rc = 0 \/ (rc = -1 /\ a1 && a2 = false) -> set_step X (SResize a1 a2 n) (SRet rc) X.
Inductive set_run (X : gset K) : list sop -> list sobs -> gset K -> Prop :=
| set_run_nil : set_run X [] [] X
| set_run_cons o b X1 os bs X2 : set_step X o b X1 -> set_run X1 os bs X2 -> set_run X (o :: os) (b :: bs) X2.
Definition sop_ok (o : sop) : Prop := match o with SResize _ _ n => 0 < n <= 2 ^ 31 | _ => True end.

(** A table of the set variant: a map table without its values. *)
Definition set_repr (h : kh K V) (X : gset K) : Prop :=
  exists h0 (m : gmap K (option V)), repr hash h0 m /\ h = erase h0 /\ dom m = X.
Lemma set_repr_init : set_repr kh_init ∅.
Proof. exists kh_init, ∅. split; [by left | ]. split; [done | apply dom_empty_L]. Qed.
(** A [kh_resize] that shrinks the set and whose reallocation of the keys fails. *)
Definition set_shrink_fails (h : kh K V) (o : sop) : bool :=
  match o with
  | SResize a1 a2 n => a1 && negb a2 && (round_buckets n <? n_buckets h) && (size h <? hash_upper (round_buckets n))
  | _ => false
  end.
Lemma set_shrink_ruins h X a1 a2 n :
  set_repr h X -> 0 < n <= 2 ^ 31 -> set_shrink_fails h (SResize a1 a2 n) = true ->
  exists h', step_sop h (SResize a1 a2 n) = Ok (SRet 0, h') /\
    (forall key, key ∈ X -> step_sop h' (SHas key) = Ub) /\ (forall a1 a2 key, step_sop h' (SPut a1 a2 key) = Ub).
Proof.
  intros (h0 & m & R & -> & <-) Hn Hs. cbn [set_shrink_fails erase lose n_buckets size] in Hs.
  rewrite !andb_true_iff, negb_true_iff, !Z.ltb_lt in Hs. destruct Hs as [[[-> ->] Hlt] Hsz].
  destruct (kh_resize_lose hash false true h0 m n R Hn Hlt Hsz) as (h1 & _ & R1 & Hroom & E%resize_erase).
  destruct R1 as [(_ & _ & Ho & Hu & _) | (k & Hk & Hnb & T & _ & Hocc & Hub & Hle)]; [lia | ].
  destruct (hash_upper_bounds k Hk) as [[_ Hu1] _]. rewrite <- Hnb in Hu1.
  exists (erase (lose false true h1)). cbn [step_sop]. rewrite E, obind_ok. split; [done | ]. split.
  - intros key [v Hv]%elem_of_dom.
    by rewrite (get_null hash k h1 m ltac:(lia) Hnb T (erase (lose false true h1)) eq_refl eq_refl eq_refl key v Hv).
  - intros a1 a2 key. unfold kh_put_set. rewrite Z.geb_leb, (proj2 (Z.leb_gt _ _)), obind_ok by done. cbv iota.
    rewrite (put_null hash k h1 m ltac:(lia) Hnb T (erase (lose false true h1)) eq_refl eq_refl eq_refl key); [done | lia].
Qed.
Lemma step_sop_ok h X o : set_repr h X -> sop_ok o -> Z.of_nat (base.size X) < 2 ^ 30 -> set_shrink_fails h o = false ->
  exists b h' X', step_sop h o = Ok (b, h') /\ set_step X o b X' /\ set_repr h' X'.
Proof.
  intros (h0 & m & R & -> & <-) Ho Hmax Hsf. rewrite size_dom in Hmax. destruct o as [a1 a2 key | key | key | | a1 a2 n]; cbn [step_sop sop_ok] in *.
  - destruct (kh_put_ok hash a1 a2 true h0 m key R Hmax) as (x & ret & h1 & E & Hcase). apply put_erase in E. rewrite E, obind_ok.
    destruct Hcase as [(-> & Ha & _ & R1) | Hres].
    { eexists _, _, (dom m). split; [done | ]. split; [apply set_put_fail; by rewrite andb_true_r in Ha | by exists h1, m]. }
    unfold put_result in Hres. destruct (m !! key) as [v | ] eqn:Em.
    + destruct Hres as (-> & R1 & _). eexists _, _, (dom m). split; [done | ].
      split; [apply set_put_old, elem_of_dom; eauto | by exists h1, m].
    + destruct Hres as (Hret & v0 & R1 & _). eexists _, _, _. split; [done | ].
      split; [apply set_put_new; [by apply not_elem_of_dom | done] | ]. exists h1, (<[key:=v0]> m). by rewrite dom_insert_L.
  - destruct (kh_get_ok hash h0 m key R) as (x & E & Ha). rewrite (get_lose hash h0 key : kh_get hash (erase h0) key = _), E, obind_ok. cbn [erase lose n_buckets].
    eexists _, _, (dom m). split; [done | ]. split; [ | by exists h0, m]. unfold answers in Ha.
    destruct (m !! key) as [v | ] eqn:Em.
    + rewrite (proj2 (Z.eqb_neq x _)) by lia. cbn [negb]. rewrite <- (bool_decide_eq_true_2 (key ∈ dom m)) by (apply elem_of_dom; eauto).
      apply set_has.
    + subst x. rewrite Z.eqb_refl. cbn [negb]. rewrite <- (bool_decide_eq_false_2 (key ∈ dom m)) by (by apply not_elem_of_dom).
      apply set_has.
  - destruct (kh_get_ok hash h0 m key R) as (x & E & Ha). rewrite (get_lose hash h0 key : kh_get hash (erase h0) key = _), E, obind_ok. destruct (m !! key) as [v | ] eqn:Em.
    + destruct (kh_del_ok hash h0 m key x v R Em Ha) as (h1 & E1 & R1). apply del_erase in E1. rewrite E1, obind_ok.
      eexists _, _, _. split; [done | ]. split; [apply set_del | ]. exists h1, (delete key m). by rewrite dom_delete_L.
    + unfold answers in Ha. rewrite Em in Ha. subst x. unfold kh_del. cbn [erase lose n_buckets]. rewrite Z.eqb_refl, obind_ok.
      eexists _, _, _. split; [done | ]. split; [apply set_del | ]. exists h0, m. split; [done | ]. split; [done | ].
      apply not_elem_of_dom in Em. set_solver.
  - eexists _, _, _. split; [done | ]. split; [apply set_clear | ]. rewrite clear_erase. exists (kh_clear h0), ∅.
    split; [by apply (kh_clear_ok hash h0 m) | ]. split; [done | apply dom_empty_L].
  - destruct (kh_resize_ok hash a1 a2 true h0 m n R Ho) as (rc & h1 & E & R1 & Hrc & Ha & _).
    { intros -> H1%Z.ltb_lt H2%Z.ltb_lt. cbn [set_shrink_fails erase lose n_buckets size andb] in Hsf. rewrite H1, H2, !andb_true_r in Hsf.
      apply negb_false_iff in Hsf. by rewrite Hsf. }
    apply resize_erase in E.
    rewrite E, obind_ok. eexists _, _, (dom m). split; [done | ]. split; [ | by exists h1, m]. apply set_resize.
    destruct Hrc as [-> | ->]; [by left | right]. split; [done | ]. destruct a1, a2; try done. specialize (Ha eq_refl). lia.
Qed.
Lemma set_step_size X o b X' : set_step X o b X' -> (base.size X' <= base.size X + 1)%nat.
Proof.
  destruct 1; try lia.
  - rewrite size_union, size_singleton by set_solver. lia.
  - rewrite (subseteq_size (X ∖ {[key]}) X) by set_solver. lia.
  - rewrite size_empty. lia.
Qed.
Lemma run_sops_ok os : forall h X, set_repr h X -> Forall sop_ok os -> Z.of_nat (base.size X) + len os < 2 ^ 30 ->
  (exists bs h' X', run_sops h os = Ok (bs, h') /\ set_run X os bs X' /\ set_repr h' X') \/
  (exists os1 a1 a2 n os2 bs h1 X1 h', os = os1 ++ SResize a1 a2 n :: os2 /\ run_sops h os1 = Ok (bs, h1) /\ set_run X os1 bs X1 /\
     set_repr h1 X1 /\ set_shrink_fails h1 (SResize a1 a2 n) = true /\ step_sop h1 (SResize a1 a2 n) = Ok (SRet 0, h') /\
     (forall key, key ∈ X1 -> step_sop h' (SHas key) = Ub) /\ (forall a1 a2 key, step_sop h' (SPut a1 a2 key) = Ub)).
Proof.
  induction os as [ | o os IH]; intros h X R Hok Hmax; [by left; exists [], h, X; split; [ | split; [constructor | ]] | ].
  apply Forall_cons in Hok as [Ho Hok]. cbn [length run_sops] in *. destruct (set_shrink_fails h o) eqn:Hsf.
  { right. destruct o as [ | | | | a1 a2 n]; try done.
    destruct (set_shrink_ruins h X a1 a2 n R Ho Hsf) as (h' & E & Hru).
    exists [], a1, a2, n, os, [], h, X, h'. split_and!; try done; [constructor | apply Hru.. ]. }
  destruct (step_sop_ok h X o R Ho ltac:(lia) Hsf) as (b & h1 & X1 & E1 & Hs & R1). pose proof (set_step_size _ _ _ _ Hs).
  destruct (IH h1 X1 R1 Hok ltac:(lia)) as [(bs & h2 & X2 & E2 & Hr & R2) |
    (os1 & a1 & a2 & n & os2 & bs & h2 & X2 & h' & -> & E2 & Hr & H')]; [left | right].
  - rewrite E1, obind_ok, E2, obind_ok. eexists _, _, _. split; [done | ]. split; [by econstructor | done].
  - exists (o :: os1), a1, a2, n, os2, (b :: bs), h2, X2, h'. cbn [run_sops]. rewrite E1, obind_ok, E2, obind_ok.
    split; [done | ]. split; [done | ]. split; [by econstructor | done].
Qed.

(** C5. The set variant of khash: any sequence of fewer than 2^30 put, membership, delete,
    clear and resize operations on a fresh table, with allocations that may fail, runs
    without undefined behaviour (no access to the null value array among them) and
    behaves as a finite set, for any key type and hash function.  The one exception is a
    resize that shrinks the table and whose unchecked reallocation of the keys fails: the
    run follows the set up to it, the call still returns 0, and from then on the lookup of
    any member and every insertion are undefined. *)
Theorem khash_set_refines (os : list sop) : Forall sop_ok os -> len os < 2 ^ 30 ->
  (exists bs h X, run_sops kh_init os = Ok (bs, h) /\ set_run ∅ os bs X /\ set_repr h X /\ vals h = []) \/
  (exists os1 a1 a2 n os2 bs h X h', os = os1 ++ SResize a1 a2 n :: os2 /\
     run_sops kh_init os1 = Ok (bs, h) /\ set_run ∅ os1 bs X /\ set_repr h X /\
     set_shrink_fails h (SResize a1 a2 n) = true /\ step_sop h (SResize a1 a2 n) = Ok (SRet 0, h') /\
     (forall key, key ∈ X -> step_sop h' (SHas key) = Ub) /\ (forall a1 a2 key, step_sop h' (SPut a1 a2 key) = Ub)).
Proof.
  intros Hok Hl. destruct (run_sops_ok os kh_init ∅ set_repr_init Hok) as [(bs & h & X & E & Hr & R) | ?]; [rewrite size_empty; lia | left | by right].
  exists bs, h, X. split; [done | ]. split; [done | ]. split; [done | ]. by destruct R as (h0 & m & _ & -> & _).
Qed.
End Client.
Arguments sop : clear implicits.

(** ** The instances *)
Definition kh_int_hash_equal (a b : Z) : bool := a =? b.
Definition kh_int64_hash_equal (a b : Z) : bool := a =? b.
Definition kh_str_hash_func : bytes -> Z := ac_X31_hash_string.
Definition kh_str_hash_equal (a b : bytes) : bool := streq a b.
Definition KHASH_SET_INIT_INT : list (sop Z) -> outcome (list sobs * kh Z Z) := run_sops kh_int_hash_func kh_init.
Definition KHASH_SET_INIT_INT64 : list (sop Z) -> outcome (list sobs * kh Z Z) := run_sops kh_int64_hash_func kh_init.
Definition KHASH_SET_INIT_STR : list (sop bytes) -> outcome (list sobs * kh bytes Z) := run_sops kh_str_hash_func kh_init.
Definition shrink_demo : list (sop Z) := [SResize true true 64; SPut true true 5; SResize true false 4].
Lemma khash_set_refines_witness :
  (exists h, KHASH_SET_INIT_STR [SPut true true (lit "ab"); SPut true true (lit "cd"); SDel (lit "ab"); SHas (lit "ab"); SHas (lit "cd"); SPut false true (lit "cd")] =
    Ok ([SRet 1; SRet 1; SUnit; SIn false; SIn true; SRet 0], h)) /\
  KHASH_SET_INIT_INT (shrink_demo ++ [SHas 5]) = Ub /\
  ((exists bs h X, KHASH_SET_INIT_INT shrink_demo = Ok (bs, h) /\ set_run ∅ shrink_demo bs X /\ set_repr kh_int_hash_func h X /\ vals h = []) \/
   (exists os1 a1 a2 n os2 bs h X h', shrink_demo = os1 ++ SResize a1 a2 n :: os2 /\
     KHASH_SET_INIT_INT os1 = Ok (bs, h) /\ set_run ∅ os1 bs X /\ set_repr kh_int_hash_func h X /\
     set_shrink_fails h (SResize a1 a2 n) = true /\ step_sop kh_int_hash_func h (SResize a1 a2 n) = Ok (SRet 0, h') /\
     (forall key, key ∈ X -> step_sop kh_int_hash_func h' (SHas key) = Ub) /\
     (forall a1 a2 key, step_sop kh_int_hash_func h' (SPut a1 a2 key) = Ub))).
Proof.
  split; [by eexists | ]. split; [by vm_compute | ].
  apply (khash_set_refines (V := Z) kh_int_hash_func shrink_demo); [repeat (constructor; simpl; try lia) | done].
Defined.
End KHashSet.
