(* ===== verification/KHashIter.v ===== *)
(** * Iteration and disposal of the hash table: the macros [kh_foreach],
    [kh_foreach_value], [kh_size] and the function [kh_destroy] of
    [hash_table/khash.h]

    The loop body is a function on the state of the caller.  Iteration runs it once
    on every binding of the map the table represents. *)
From S2P Require Import Prelude KHash KHashFlags KHashProof KHashSpec.
Import KHash.

Module KHashIter.
Import KHashMap.

Section Iter.
Context {K V S : Type} `{!EqDecision K}.

(** [for (__i = kh_begin(h); __i != kh_end(h); ++__i)] *)
Fixpoint foreach_loop (code : K -> V -> S -> outcome S) (h : kh K V) (fuel : nat) (i : Z) (s : S) : outcome S :=
  if i =? n_buckets h then Ok s
  else
    match fuel with
    | O => NoFuel
    | Datatypes.S fuel =>
        let! e := kh_exist h i in
        if negb e then foreach_loop code h fuel (u32 (i + 1)) s
        else
          let! kvar := kh_key h i in
          let! vvar := kh_val h i in
          let! s := code kvar vvar s in
          foreach_loop code h fuel (u32 (i + 1)) s
    end.
Definition kh_foreach (code : K -> V -> S -> outcome S) (h : kh K V) (s : S) : outcome S :=
  foreach_loop code h (Z.to_nat (n_buckets h)) 0 s.
Fixpoint foreach_value_loop (code : V -> S -> outcome S) (h : kh K V) (fuel : nat) (i : Z) (s : S) : outcome S :=
  if i =? n_buckets h then Ok s
  else
    match fuel with
    | O => NoFuel
    | Datatypes.S fuel =>
        let! e := kh_exist h i in
        if negb e then foreach_value_loop code h fuel (u32 (i + 1)) s
        else
          let! vvar := kh_val h i in
          let! s := code vvar s in
          foreach_value_loop code h fuel (u32 (i + 1)) s
    end.
Definition kh_foreach_value (code : V -> S -> outcome S) (h : kh K V) (s : S) : outcome S :=
  foreach_value_loop code h (Z.to_nat (n_buckets h)) 0 s.

(** The table is freed with its three arrays; a null pointer is ignored. *)
Definition kh_destroy (h : option (kh K V)) : option (kh K V) := match h with Some _ => None | None => None end.
Definition kh_size (h : kh K V) : Z := size h.

(** The reference: the body on the elements of a list, in order. *)
Fixpoint ofold {A} (f : A -> S -> outcome S) (l : list A) (s : S) : outcome S :=
  match l with
  | [] => Ok s
  | a :: l => let! s := f a s in ofold f l s
  end.
End Iter.

Section Laws.
Context {K V : Type} `{!EqDecision K, !Countable K} (hash : K -> Z).

(** The bindings in the order of the buckets. *)
Definition binding (h : kh K V) (i : Z) : option (K * V) :=
  match slot_of (flags h) (keys h) (vals h) i with Some (k, Some v) => Some (k, v) | _ => None end.

(** What one round sees. *)
Lemma round_cases h (m : gmap K V) i : represents hash h m -> 0 <= i < n_buckets h ->
  (kh_exist h i = Ok false /\ binding h i = None) \/
  exists k v, kh_exist h i = Ok true /\ kh_key h i = Ok k /\ kh_val h i = Ok v /\ binding h i = Some (k, v).
Proof.
  intros R Hi. apply repr_table in R as (T & _ & _). pose proof (t_flags _ _ _ _ _ _ T i Hi) as Hf.
  unfold kh_exist. rewrite ac_iseither_ok, obind_ok by done.
  fold (live (flags h) i). unfold binding. destruct (live (flags h) i) eqn:El.
  - right. destruct (t_init _ _ _ _ _ _ T i Hi El) as [[k ov] Hs]. rewrite Hs.
    assert (exists v, ov = Some v) as [v ->].
    { assert ((Some <$> m) !! k = Some ov) as Hm.
      { apply (table_lookup hash (n_buckets h) _ _ _ _ T). by exists i. }
      rewrite lookup_fmap in Hm. destruct (m !! k) as [v | ]; [ | done]. injection Hm as <-. by exists v. }
    apply (slot_of_live hash) in Hs as (_ & Hk & Hv). exists k, v. split; [done | ].
    unfold kh_key, kh_val. rewrite (rd_ok _ _ _ (proj1 Hi) Hk), (rd_ok _ _ _ (proj1 Hi) Hv). done.
  - left. split; [done | ]. by rewrite (slot_of_dead _ _ _ _ El).
Qed.
Definition bindings (h : kh K V) (i : nat) (fuel : nat) : list (K * V) :=
  omap (fun j => binding h (Z.of_nat j)) (seq i fuel).
Lemma foreach_loop_ok {S} (code : K -> V -> S -> outcome S) h (m : gmap K V) : represents hash h m ->
  forall fuel i s, Z.of_nat i + Z.of_nat fuel = n_buckets h ->
    foreach_loop code h fuel (Z.of_nat i) s = ofold (fun kv => code kv.1 kv.2) (bindings h i fuel) s.
Proof.
  intros R. pose proof (repr_table _ _ _ R) as (_ & Hn & _).
  induction fuel as [ | fuel IH]; intros i s Hi; cbn [foreach_loop].
  { by rewrite (proj2 (Z.eqb_eq _ _)) by lia. }
  rewrite (proj2 (Z.eqb_neq _ _)), u32_small by lia. replace (Z.of_nat i + 1) with (Z.of_nat (Datatypes.S i)) by lia.
  unfold bindings. cbn [seq omap list_omap].
  destruct (round_cases h m (Z.of_nat i) R ltac:(lia)) as [[-> ->] | (k & v & -> & -> & -> & ->)]; rewrite !obind_ok; cbn [negb ofold fst snd].
  - apply IH. lia.
  - destruct (code k v s) as [s' | | | ]; [ | done ..]. rewrite !obind_ok. apply IH. lia.
Qed.
Lemma foreach_value_loop_ok {S} (code : V -> S -> outcome S) h (m : gmap K V) : represents hash h m ->
  forall fuel i s, Z.of_nat i + Z.of_nat fuel = n_buckets h ->
    foreach_value_loop code h fuel (Z.of_nat i) s = ofold (fun kv => code kv.2) (bindings h i fuel) s.
Proof.
  intros R. pose proof (repr_table _ _ _ R) as (_ & Hn & _).
  induction fuel as [ | fuel IH]; intros i s Hi; cbn [foreach_value_loop].
  { by rewrite (proj2 (Z.eqb_eq _ _)) by lia. }
  rewrite (proj2 (Z.eqb_neq _ _)), u32_small by lia. replace (Z.of_nat i + 1) with (Z.of_nat (Datatypes.S i)) by lia.
  unfold bindings. cbn [seq omap list_omap].
  destruct (round_cases h m (Z.of_nat i) R ltac:(lia)) as [[-> ->] | (k & v & -> & _ & -> & ->)]; rewrite !obind_ok; cbn [negb ofold snd].
  - apply IH. lia.
  - destruct (code v s) as [s' | | | ]; [ | done ..]. rewrite !obind_ok. apply IH. lia.
Qed.
Lemma bindings_perm h (m : gmap K V) : represents hash h m -> bindings h 0 (Z.to_nat (n_buckets h)) ≡ₚ map_to_list m.
Proof.
  intros R. apply repr_table in R as (T & _ & _).
  assert (bindings h 0 (Z.to_nat (n_buckets h)) =
    omap (fun e : K * option V => match e.2 with Some v => Some (e.1, v) | None => None end)
      (entries (slot_of (flags h) (keys h) (vals h)) (n_buckets h))) as ->.
  { unfold bindings, entries. generalize (seq 0 (Z.to_nat (n_buckets h))) as l. induction l as [ | j l IH]; [done | ].
    cbn [omap list_omap]. unfold binding at 1. destruct (slot_of _ _ _ (Z.of_nat j)) as [[k [v | ]] | ]; cbn; by rewrite IH. }
  rewrite (t_perm _ _ _ _ _ _ T), map_to_list_fmap.
  assert (forall l : list (K * V), omap (fun e : K * option V => match e.2 with Some v => Some (e.1, v) | None => None end)
            (prod_map id Some <$> l) = l) as El; [ | by rewrite El].
  induction l as [ | [k v] l IH]; [done | ]. cbn. by rewrite IH.
Qed.

(** C15. kh_foreach and kh_foreach_value run their body exactly once on each binding of
    the map the table represents, in one order that does not depend on the body,
    stop where the body stops, and kh_size is the number of bindings. *)
Theorem kh_foreach_visits (h : kh K V) (m : gmap K V) :
  represents hash h m ->
  kh_size h = Z.of_nat (base.size m) /\
  exists l, l ≡ₚ map_to_list m /\
    (forall S (code : K -> V -> S -> outcome S) s, kh_foreach code h s = ofold (fun kv => code kv.1 kv.2) l s) /\
    (forall S (code : V -> S -> outcome S) s, kh_foreach_value code h s = ofold (fun kv => code kv.2) l s).
Proof.
  intros R. pose proof (repr_table _ _ _ R) as (_ & Hn & Hs). split; [by rewrite <- (map_size_fmap Some m) | ].
  exists (bindings h 0 (Z.to_nat (n_buckets h))). split; [by apply bindings_perm | ]. split; intros S code s.
  - unfold kh_foreach. apply (foreach_loop_ok code h m R (Z.to_nat (n_buckets h)) 0). lia.
  - unfold kh_foreach_value. apply (foreach_value_loop_ok code h m R (Z.to_nat (n_buckets h)) 0). lia.
Qed.
End Laws.
Lemma kh_foreach_visits_witness : exists bs h m l,
  run_ops kh_int_hash_func kh_init [Put true true true 3 30; Put true true true 7 70; Del 3] = Ok (bs, h) /\
  represents kh_int_hash_func h m /\ l ≡ₚ map_to_list m /\
  kh_foreach (fun k v s => Ok (s ++ [(k, v)])) h [] = ofold (fun kv s => Ok (s ++ [(kv.1, kv.2)])) l [].
Proof.
  destruct (run_ops_total kh_int_hash_func [Put true true true 3 30; Put true true true 7 70; Del 3] kh_init ∅)
    as (bs & h & m & E & _ & R); [apply represents_init | repeat constructor | rewrite map_size_empty; cbn; lia | repeat constructor | ].
  destruct (kh_foreach_visits kh_int_hash_func h m R) as (_ & l & Hl & Hf & _).
  exists bs, h, m, l. exact (conj E (conj R (conj Hl (Hf _ _ _)))).
Defined.
End KHashIter.
