(* ===== verification/Rocks.v ===== *)
(** * The RocksDB shell of [rocksdb_playground]

    [src/main.c]: reading a line, stripping it, isolating the command word,
    looking the command up and running it; completion and help.
    [src/datastore.c]: the handlers that call RocksDB.

    RocksDB itself is not part of the repository: the model takes its operations
    as the class [RocksLib] and what the handlers rely on as the class
    [RocksLaws]; [MemRocks] is a concrete library that satisfies the laws. *)
From S2P Require Import Prelude CLib.
Export CLib.

(** ** What the shell calls of RocksDB's C interface *)
Class RocksLib := {
  World : Type;   (** the library's state and the disk *)
  Opt : Type; WOpt : Type; ROpt : Type;
  Db : Type; Cp : Type; Wb : Type; Iter : Type;
  rocksdb_options_create : Opt;
  rocksdb_options_increase_parallelism : Opt -> Z -> Opt;
  rocksdb_options_optimize_level_style_compaction : Opt -> Z -> Opt;
  rocksdb_options_set_create_if_missing : Opt -> Z -> Opt;
  rocksdb_writeoptions_create : WOpt;
  rocksdb_writeoptions_disable_WAL : WOpt -> Z -> WOpt;
  rocksdb_writeoptions_set_sync : WOpt -> Z -> WOpt;
  rocksdb_readoptions_create : ROpt;
  (** results: the returned pointer ([None] for NULL) and the error message *)
  rocksdb_open : Opt -> bytes -> World -> option Db * option bytes * World;
  rocksdb_close : Db -> World -> World;
  rocksdb_get : Db -> ROpt -> bytes -> World -> option bytes * option bytes;
  rocksdb_put : Db -> WOpt -> bytes -> bytes -> World -> option bytes * World;
  rocksdb_delete : Db -> WOpt -> bytes -> World -> option bytes * World;
  rocksdb_create_iterator : Db -> ROpt -> World -> option Iter;
  rocksdb_iter_seek_to_first : Iter -> Iter;
  rocksdb_iter_valid : Iter -> bool;
  rocksdb_iter_next : Iter -> Iter;
  rocksdb_iter_key : Iter -> bytes;
  rocksdb_iter_value : Iter -> bytes;
  rocksdb_writebatch_create : World -> option Wb * World;
  rocksdb_writebatch_put : Wb -> bytes -> bytes -> World -> World;
  rocksdb_write : Db -> WOpt -> Wb -> World -> option bytes * World;
  rocksdb_writebatch_destroy : option Wb -> World -> World;
  rocksdb_checkpoint_object_create : Db -> World -> option Cp * option bytes * World;
  rocksdb_checkpoint_create : Cp -> bytes -> Z -> World -> outcome (option bytes * World);
  rocksdb_checkpoint_object_destroy : Cp -> World -> World
}.

Module Rocks.

(** ** Strings and buffers of the line editor *)
Section Line.
(** The macro [whitespace] of readline. *)
Context (whitespace : Z -> bool).

(** [while (whitespace (buf[i])) i++;] *)
Fixpoint skip_white (buf : bytes) (fuel : nat) (i : Z) : outcome Z :=
  let! c := rd buf i in
  if whitespace c then match fuel with O => NoFuel | S fuel => skip_white buf fuel (i + 1) end
  else Ok i.

(** [while (t > s && whitespace (buf[t])) t--;] *)
Fixpoint back_white (buf : bytes) (s : Z) (fuel : nat) (t : Z) : outcome Z :=
  if t >? s then
    let! c := rd buf t in
    if whitespace c then match fuel with O => NoFuel | S fuel => back_white buf s fuel (t - 1) end
    else Ok t
  else Ok t.

(** The result is the returned pointer, as an offset, and the buffer. *)
Definition stripwhite (string : bytes) : outcome (Z * bytes) :=
  let! s := skip_white string (length string) 0 in
  let! c := rd string s in
  if c =? 0 then Ok (s, string)
  else
    let! str := cstr string s in
    let t := s + len str - 1 in
    let! t := back_white string s (length string) t in
    let! buf := wr string (t + 1) 0 in
    Ok (s, buf).

(** [while (line[i] && whitespace (line[i])) i++;] and its negation. *)
Fixpoint word_loop (white : bool) (buf : bytes) (fuel : nat) (i : Z) : outcome Z :=
  let! c := rd buf i in
  if negb (c =? 0) && Bool.eqb (whitespace c) white then
    match fuel with O => NoFuel | S fuel => word_loop white buf fuel (i + 1) end
  else Ok i.

(** The command word and the argument [execute_line] isolates; the buffer starts
    at the pointer it is given. *)
Definition split_line (line : bytes) : outcome (bytes * bytes) :=
  let! i := word_loop true line (length line) 0 in
  let w := i in
  let! i := word_loop false line (length line) i in
  let! c := rd line i in
  let! '(i, line) :=
    if c =? 0 then Ok (i, line)
    else let! line := wr line i 0 in Ok (i + 1, line) in
  let! word := cstr line w in
  let! a := skip_white line (length line) i in
  let! arg := cstr line a in
  Ok (word, arg).
End Line.

(** [strtok] with the delimiters " ": the token, and the string left for the
    next call. *)
Fixpoint skip_delim (s : bytes) : bytes :=
  match s with
  | c :: s' => if c =? 32 then skip_delim s' else s
  | [] => []
  end.
Fixpoint take_token (s : bytes) : bytes * bytes :=
  match s with
  | c :: s => if c =? 32 then ([], s) else let '(t, r) := take_token s in (c :: t, r)
  | [] => ([], [])
  end.
Definition strtok (s : bytes) : option bytes * bytes :=
  match skip_delim s with
  | [] => (None, [])
  | s => let '(t, r) := take_token s in (Some t, r)
  end.

(** [%-20s] *)
Definition pad20 (s : bytes) : bytes := s ++ replicate (20 - length s) 32.

(** The string [strncpy] and the added zero leave in the copy. *)
Fixpoint strncpy_str (s : bytes) : bytes :=
  match s with
  | [] => []
  | c :: s => if c =? 0 then [] else c :: strncpy_str s
  end.

(** ** Commands *)
Inductive func :=
  | com_open | com_close | com_write | com_wb_create | com_wb_destroy | com_read
  | com_list | com_delete | com_checkpoint | com_help | com_quit.
#[global] Instance func_eq_dec : EqDecision func.
Proof. solve_decision. Defined.

Record COMMAND := mk_COMMAND { name : bytes; cfunc : func; doc : bytes }.
Definition commands : list COMMAND :=
  [mk_COMMAND (lit "open") com_open (lit "Open a database");
   mk_COMMAND (lit "write") com_write (lit "Write a (key,value) pair");
   mk_COMMAND (lit "wb_create") com_wb_create (lit "Create a writebatch");
   mk_COMMAND (lit "wb_destroy") com_wb_destroy (lit "Destroy the writebatch");
   mk_COMMAND (lit "read") com_read (lit "Read the value associated with a key");
   mk_COMMAND (lit "delete") com_delete (lit "Delete a key");
   mk_COMMAND (lit "ckpt") com_checkpoint (lit "Create a checkpoint");
   mk_COMMAND (lit "list") com_list (lit "List all keys and values");
   mk_COMMAND (lit "help") com_help (lit "Display this text");
   mk_COMMAND (lit "?") com_help (lit "Synonym for `help'");
   mk_COMMAND (lit "close") com_close (lit "Close the opened database");
   mk_COMMAND (lit "quit") com_quit (lit "Quit using rocks");
   mk_COMMAND (lit "exit") com_quit (lit "Synonym for `quit'")].

Fixpoint find_in (cs : list COMMAND) (nm : bytes) : option COMMAND :=
  match cs with
  | [] => None
  | c :: cs => if streq nm (name c) then Some c else find_in cs nm
  end.
Definition find_command (nm : bytes) : option COMMAND := find_in commands nm.

(** [command_generator]: the static variables are [list_index] and [len]. *)
Fixpoint next_match (cs : list COMMAND) (text : bytes) (n : nat) (idx : Z) : option bytes * Z :=
  match cs with
  | [] => (None, idx)
  | c :: cs => if strneq (name c) text n then (Some (name c), idx + 1) else next_match cs text n (idx + 1)
  end.
Definition command_generator (statics : Z * Z) (text : bytes) (state : Z) : option bytes * (Z * Z) :=
  let '(list_index, n) := if state =? 0 then (0, len text) else statics in
  let '(r, idx) := next_match (drop (Z.to_nat list_index) commands) text (Z.to_nat n) list_index in
  (r, (idx, n)).

(** ** The shell's state *)
Inductive stream := Stdout | Stderr.

Section Shell.
Context `{L : RocksLib} (whitespace : Z -> bool) (cpus : Z).

Record st := mk_st {
  options : Opt; writeoptions : WOpt; readoptions : ROpt;
  db : option Db; cp : option Cp; wr_batch : option Wb;
  done_ : bool;
  world : World;
  out : list (stream * bytes)
}.

Definition set_db (d : option Db) (w : World) (s : st) : st :=
  mk_st (options s) (writeoptions s) (readoptions s) d (cp s) (wr_batch s) (done_ s) w (out s).
Definition set_cp (c : option Cp) (w : World) (s : st) : st :=
  mk_st (options s) (writeoptions s) (readoptions s) (db s) c (wr_batch s) (done_ s) w (out s).
Definition set_wb (b : option Wb) (w : World) (s : st) : st :=
  mk_st (options s) (writeoptions s) (readoptions s) (db s) (cp s) b (done_ s) w (out s).
Definition set_world (w : World) (s : st) : st := set_db (db s) w s.
Definition set_done (s : st) : st :=
  mk_st (options s) (writeoptions s) (readoptions s) (db s) (cp s) (wr_batch s) true (world s) (out s).
Definition emit (f : stream) (line : bytes) (s : st) : st :=
  mk_st (options s) (writeoptions s) (readoptions s) (db s) (cp s) (wr_batch s) (done_ s) (world s)
    (out s ++ [(f, line)]).

(** [init_rocksdb], from the zero-initialised globals. *)
Definition init_rocksdb (w : World) : st :=
  let mem_budget := 1048576 in
  let o := rocksdb_options_create in
  let o := rocksdb_options_increase_parallelism o (i32 cpus) in
  let o := rocksdb_options_optimize_level_style_compaction o mem_budget in
  let o := rocksdb_options_set_create_if_missing o 1 in
  let wo := rocksdb_writeoptions_create in
  let wo := rocksdb_writeoptions_disable_WAL wo 1 in
  let wo := rocksdb_writeoptions_set_sync wo 0 in
  mk_st o wo rocksdb_readoptions_create None None None false w [].

(** Handlers return the C result and the state. *)
Definition create_checkpoint_object (s : st) : outcome (Z * st) :=
  match db s with
  | None => Ub
  | Some d =>
      let '(c, err, w) := rocksdb_checkpoint_object_create d (world s) in
      let s := set_cp c w s in
      match err with
      | Some e => Ok (-2, emit Stdout (lit "Cannot create checkpoint object: " ++ e) s)
      | None => Ok (0, s)
      end
  end.

Definition is_open (s : st) : bool * st :=
  match db s with
  | None => (false, emit Stderr (lit "DB is not openned") s)
  | Some _ => (true, s)
  end.

Definition open_db (path : bytes) (s : st) : outcome (Z * st) :=
  let '(d, err, w) := rocksdb_open (options s) path (world s) in
  let s := set_db d w s in
  match err with
  | Some e => Ok (-1, emit Stdout (lit "Cannot open DB: " ++ e) s)
  | None => Ok (0, s)
  end.

Definition close_db (s : st) : outcome (Z * st) :=
  match is_open s with
  | (false, s) => Ok (0, s)
  | (true, s) =>
      match db s with
      | None => Ub
      | Some d => Ok (0, set_db None (rocksdb_close d (world s)) s)
      end
  end.

Definition deconstruct (s : st) : st :=
  let s := match cp s with
           | Some c => set_world (rocksdb_checkpoint_object_destroy c (world s)) s
           | None => s
           end in
  match db s with
  | Some d => set_world (rocksdb_close d (world s)) s
  | None => s
  end.

(** The guard [if (!is_open()) return -1;] in front of a handler's body. *)
Definition with_open (s : st) (k : Db -> st -> outcome (Z * st)) : outcome (Z * st) :=
  match is_open s with
  | (false, s) => Ok (-1, s)
  | (true, s) => match db s with None => Ub | Some d => k d s end
  end.

Definition handle_read (key : bytes) (s : st) : outcome (Z * st) :=
  with_open s (fun d s =>
    match rocksdb_get d (readoptions s) key (world s) with
    | (_, Some err) => Ok (-1, emit Stdout (lit "Read Error: " ++ err) s)
    | (None, None) => Ok (0, emit Stdout (lit "Value was not found for key " ++ key) s)
    | (Some val, None) =>
        let! v := cstr val 0 in
        Ok (0, emit Stdout (lit "Found value " ++ v ++ lit ", vallen " ++ dec (len val) ++
                            lit " for key " ++ key) s)
    end).

Fixpoint list_loop (fuel : nat) (it : Iter) (s : st) : outcome st :=
  if rocksdb_iter_valid it then
    match fuel with
    | O => NoFuel
    | S fuel =>
        let ikey := strncpy_str (rocksdb_iter_key it) in
        let ivalue := strncpy_str (rocksdb_iter_value it) in
        list_loop fuel (rocksdb_iter_next it) (emit Stdout (pad20 ikey ++ lit " | " ++ pad20 ivalue) s)
    end
  else Ok s.

(** [fuel] bounds the number of entries that are listed. *)
Definition handle_list (fuel : nat) (s : st) : outcome (Z * st) :=
  with_open s (fun d s =>
    match rocksdb_create_iterator d (readoptions s) (world s) with
    | None => Ok (-1, emit Stderr (lit "Create Iterator has an error") s)
    | Some it =>
        let s := emit Stdout (pad20 (lit "Key") ++ lit " | " ++ pad20 (lit "Value")) s in
        let s := emit Stdout (replicate 48 45) s in
        let! s := list_loop fuel (rocksdb_iter_seek_to_first it) s in
        Ok (0, s)
    end).

Definition handle_delete (key : bytes) (s : st) : outcome (Z * st) :=
  with_open s (fun d s =>
    let '(err, w) := rocksdb_delete d (writeoptions s) key (world s) in
    let s := set_world w s in
    match err with
    | Some e => Ok (-1, emit Stdout (lit "Delete Error: " ++ e) s)
    | None => Ok (0, emit Stdout (lit "Deleted key " ++ key) s)
    end).

(** [val] is the value's text; the stored value has its terminating zero. *)
Definition handle_write (key val : bytes) (s : st) : outcome (Z * st) :=
  with_open s (fun d s =>
    match wr_batch s with
    | Some b => Ok (0, set_world (rocksdb_writebatch_put b key (val ++ [0]) (world s)) s)
    | None =>
        let '(err, w) := rocksdb_put d (writeoptions s) key (val ++ [0]) (world s) in
        let s := set_world w s in
        match err with
        | Some e => Ok (-1, emit Stdout (lit "Write Error: " ++ e) s)
        | None => Ok (0, emit Stdout (lit "Write <" ++ key ++ lit "," ++ val ++ lit "> OK") s)
        end
    end).

Definition handle_checkpoint (dir : bytes) (s : st) : outcome (Z * st) :=
  with_open s (fun d s =>
    let! s := match cp s with
              | None => let! '(_, s) := create_checkpoint_object s in Ok s
              | Some _ => Ok s
              end in
    match cp s with
    | None => Ub
    | Some c =>
        let! '(err, w) := rocksdb_checkpoint_create c dir 8192 (world s) in
        let s := set_world w s in
        match err with
        | Some e => Ok (-1, emit Stdout (lit "Checkpoint Error: " ++ e) s)
        | None => Ok (0, emit Stdout (lit "Checkpoint OK") s)
        end
    end).

Definition create_writebatch (s : st) : outcome (Z * st) :=
  let '(b, w) := rocksdb_writebatch_create (world s) in
  let s := set_wb b w s in
  match b with
  | None => Ok (-1, emit Stderr (lit "Create WriteBach had problems") s)
  | Some _ => Ok (0, s)
  end.

Definition destroy_writebatch (s : st) : outcome (Z * st) :=
  let finish s := Ok (0, set_wb None (rocksdb_writebatch_destroy (wr_batch s) (world s)) s) in
  match wr_batch s with
  | None => finish s
  | Some b =>
      match db s with
      | None => Ub
      | Some d =>
          let '(err, w) := rocksdb_write d (writeoptions s) b (world s) in
          let s := set_world w s in
          match err with
          | Some e => Ok (-1, emit Stdout (lit "WriteBatch Error: " ++ e) s)
          | None => finish s
          end
      end
  end.

(** [invalid_argument]: true when it reports an error. *)
Definition invalid_argument (caller arg : bytes) (s : st) : bool * st :=
  match arg with
  | [] => (true, emit Stderr (caller ++ lit ": Argument required.") s)
  | _ => (false, s)
  end.
Definition with_arg (caller arg : bytes) (s : st) (k : st -> outcome (Z * st)) : outcome (Z * st) :=
  match invalid_argument caller arg s with
  | (true, s) => Ok (-1, s)
  | (false, s) => k s
  end.

Definition do_write (arg : bytes) (s : st) : outcome (Z * st) :=
  with_arg (lit "write") arg s (fun s =>
    let '(key, rest) := strtok arg in
    match key with
    | None => Ok (-1, emit Stderr (lit "Key is empty") s)
    | Some key =>
        match fst (strtok rest) with
        | None => Ok (-1, emit Stderr (lit "Value is empty") s)
        | Some value => handle_write key value s
        end
    end).

(** [com_help] *)
Fixpoint help_matching (cs : list COMMAND) (arg : bytes) (printed : Z) (s : st) : Z * st :=
  match cs with
  | [] => (printed, s)
  | c :: cs =>
      if bool_decide (arg = []) || streq arg (name c)
      then help_matching cs arg (printed + 1) (emit Stdout (name c ++ [9; 9] ++ doc c ++ lit ".") s)
      else help_matching cs arg printed s
  end.
(** The pieces printed by the six-column loop, without line structure. *)
Fixpoint help_columns (cs : list COMMAND) (printed : Z) (acc : bytes) : Z * bytes :=
  match cs with
  | [] => (printed, acc)
  | c :: cs =>
      let '(printed, acc) := if printed =? 6 then (0, acc ++ [10]) else (printed, acc) in
      help_columns cs (printed + 1) (acc ++ name c ++ [9])
  end.
Definition do_help (arg : bytes) (s : st) : outcome (Z * st) :=
  let '(printed, s) := help_matching commands arg 0 s in
  if printed =? 0 then
    let s := emit Stdout (lit "No commands match `" ++ arg ++ lit "'.  Possibilties are:") s in
    let '(printed, text) := help_columns commands 0 [] in
    Ok (0, if printed =? 0 then s else emit Stdout text s)
  else Ok (0, s).

(** The call through [command->func]. *)
Definition call (fuel : nat) (f : func) (arg : bytes) (s : st) : outcome (Z * st) :=
  match f with
  | com_open => with_arg (lit "open") arg s (open_db arg)
  | com_read => with_arg (lit "read") arg s (handle_read arg)
  | com_write => do_write arg s
  | com_delete => with_arg (lit "delete") arg s (handle_delete arg)
  | com_checkpoint => with_arg (lit "checkpoint") arg s (handle_checkpoint arg)
  | com_help => do_help arg s
  | com_list => handle_list fuel s
  | com_close => close_db s
  | com_wb_create => create_writebatch s
  | com_wb_destroy => destroy_writebatch s
  | com_quit => Ok (0, set_done s)
  end.

(** [execute_line] on the buffer that starts at the stripped line. *)
Definition execute_line (fuel : nat) (line : bytes) (s : st) : outcome (Z * st) :=
  let! '(word, arg) := split_line whitespace line in
  match find_command word with
  | None => Ok (-1, emit Stderr (word ++ lit " No such command.") s)
  | Some c => call fuel (cfunc c) arg s
  end.

(** One round of the main loop on the line that readline returned. *)
Definition round (fuel : nat) (line : bytes) (s : st) : outcome st :=
  let! '(p, buf) := stripwhite whitespace (line ++ [0]) in
  let buf := drop (Z.to_nat p) buf in
  let! c := rd buf 0 in
  if c =? 0 then Ok s
  else let! '(_, s) := execute_line fuel buf s in Ok s.

(** The main loop over the lines readline returns, then NULL. *)
Fixpoint loop (fuel : nat) (lines : list bytes) (s : st) : outcome st :=
  if done_ s then Ok s
  else
    match lines with
    | [] => Ok s
    | line :: lines => let! s := round fuel line s in loop fuel lines s
    end.
Definition main (fuel : nat) (lines : list bytes) (w : World) : outcome st :=
  let! s := loop fuel lines (init_rocksdb w) in
  Ok (deconstruct s).
End Shell.
End Rocks.
