(* ===== verification/RocksProof.v ===== *)
(** * The RocksDB shell: parsing of command lines and completion *)
From S2P Require Import Prelude CLib Rocks.

Module RocksLine.
Import Rocks.

Ltac side := solve [done | by left | by right | rewrite ?length_app; simpl; lia].

(** ** Reference definitions on strings *)
Section Ref.
Context (white : Z -> bool).

Fixpoint drop_white (s : bytes) : bytes :=
  match s with
  | c :: s' => if white c then drop_white s' else s
  | [] => []
  end.
Definition strip (s : bytes) : bytes := reverse (drop_white (reverse (drop_white s))).

(** The first word and what follows it. *)
Fixpoint span_word (s : bytes) : bytes * bytes :=
  match s with
  | c :: s' => if white c then ([], s) else let '(w, r) := span_word s' in (c :: w, r)
  | [] => ([], [])
  end.
Definition split (s : bytes) : bytes * bytes :=
  let '(w, r) := span_word s in (w, drop_white r).

Lemma drop_white_spec s :
  exists W, s = W ++ drop_white s /\ Forall (fun c => white c = true) W /\
    (forall c r, drop_white s = c :: r -> white c = false).
Proof.
  induction s as [ | c s (W & E & HW & Hc)]; simpl.
  - exists []. split; [done | ]. split; [done | ]. intros ? ? [=].
  - destruct (white c) eqn:Ec.
    + exists (c :: W). split; [simpl; congruence | ]. split; [by constructor | done].
    + exists []. split; [done | ]. split; [done | ]. intros ? ? [= <- <-]. done.
Qed.

Lemma span_word_spec s w r :
  span_word s = (w, r) ->
  s = w ++ r /\ Forall (fun c => white c = false) w /\ (forall c r', r = c :: r' -> white c = true).
Proof.
  revert w r. induction s as [ | c s IH]; intros w r; simpl.
  - intros [= <- <-]. split; [done | ]. split; [done | ]. intros ? ? [=].
  - destruct (white c) eqn:Ec.
    + intros [= <- <-]. split; [done | ]. split; [done | ]. intros ? ? [= <- <-]. done.
    + destruct (span_word s) as [w' r'] eqn:E. intros [= <- <-].
      destruct (IH w' r' eq_refl) as (-> & Hw & Hr). split; [done | ]. split; [by constructor | done].
Qed.

Lemma strip_spec s :
  exists W1 W2, s = W1 ++ strip s ++ W2 /\
    Forall (fun c => white c = true) W1 /\ Forall (fun c => white c = true) W2 /\
    (forall c r, strip s = c :: r -> white c = false) /\
    (forall c r, strip s = r ++ [c] -> white c = false).
Proof.
  destruct (drop_white_spec s) as (W1 & E1 & H1 & Hc1).
  destruct (drop_white_spec (reverse (drop_white s))) as (W2 & E2 & H2 & Hc2).
  fold (strip s) in *. exists W1, (reverse W2).
  assert (drop_white s = strip s ++ reverse W2) as E.
  { unfold strip. rewrite <- reverse_app, <- E2, reverse_involutive. done. }
  split; [by rewrite <- E | ]. split; [done | ]. split; [by apply Forall_reverse | ]. split.
  - intros c r Hs. rewrite Hs in E. by apply (Hc1 c (r ++ reverse W2)).
  - intros c r Hs. unfold strip in Hs. apply (f_equal reverse) in Hs.
    rewrite reverse_involutive, reverse_snoc in Hs. eauto.
Qed.

(** ** The loops of the source *)
Lemma skip_white_ok P W c Q fuel i :
  i = len P -> Forall (fun c => white c = true) W -> white c = false -> (length W <= fuel)%nat ->
  skip_white white (P ++ W ++ c :: Q) fuel i = Ok (i + len W).
Proof.
  intros Hi HW Hc. revert P fuel i Hi. induction HW as [ | w W Hw _ IH]; intros P fuel i Hi Hf.
  - unfold skip_white. destruct fuel; simpl; rewrite rd_app, obind_ok, Hc by done; f_equal; lia.
  - destruct fuel as [ | fuel]; [simpl in Hf; lia | ]. cbn [skip_white app].
    rewrite rd_app, obind_ok, Hw by done.
    change (P ++ w :: W ++ c :: Q) with (P ++ [w] ++ W ++ c :: Q).
    rewrite (app_assoc P [w]). rewrite IH; [f_equal; simpl; lia | rewrite length_app; simpl; lia | simpl in Hf; lia].
Qed.

Lemma back_white_ok P x M W Q fuel :
  (forall c r, x :: M = r ++ [c] -> white c = false) ->
  Forall (fun c => white c = true) W -> (length W <= fuel)%nat ->
  back_white white (P ++ (x :: M) ++ W ++ Q) (len P) fuel (len P + len M + len W) = Ok (len P + len M).
Proof.
  intros Hlast HW. revert Q fuel. induction W as [ | w W IH] using rev_ind; intros Q fuel Hf.
  - cbn [length] in *. rewrite Z.add_0_r. unfold back_white.
    assert (len P + len M >? len P = false \/
            exists c, rd (P ++ (x :: M) ++ [] ++ Q) (len P + len M) = Ok c /\ white c = false) as H.
    { destruct M as [ | y M'] using rev_ind; [left; rewrite Z.gtb_ltb; apply Z.ltb_ge; simpl; lia | right].
      exists y. split; [ | apply (Hlast y (x :: M')); done].
      change ((x :: M' ++ [y]) ++ [] ++ Q) with (((x :: M') ++ [y]) ++ Q).
      rewrite <- (app_assoc (x :: M')), (app_assoc P). apply rd_app.
      rewrite !length_app. simpl. lia. }
    destruct H as [H | (c & H & Hc)]; destruct fuel; rewrite ?H; try done;
      case_if; try done; rewrite ?H, ?obind_ok, ?Hc; done.
  - apply Forall_app in HW as [HW [Hw _]%Forall_cons]. rewrite length_app in Hf. simpl in Hf.
    destruct fuel as [ | fuel]; [lia | ]. cbn [back_white].
    rewrite length_app. simpl length. case_if; [ | lia].
    replace (len P + len M + Z.of_nat (length W + 1)) with (len (P ++ (x :: M) ++ W))
      by (rewrite !length_app; simpl; lia).
    replace (P ++ (x :: M) ++ (W ++ [w]) ++ Q) with ((P ++ (x :: M) ++ W) ++ w :: Q)
      by (rewrite <- !app_assoc; done).
    rewrite rd_app, obind_ok, Hw by done. rewrite <- (IH HW (w :: Q) fuel ltac:(lia)).
    rewrite <- !app_assoc. f_equal. rewrite !length_app. simpl. lia.
Qed.

Lemma word_loop_ok b P W c Q fuel i :
  i = len P -> Forall (fun c => white c = b /\ c <> 0) W -> c = 0 \/ white c = negb b ->
  (length W <= fuel)%nat ->
  word_loop white b (P ++ W ++ c :: Q) fuel i = Ok (i + len W).
Proof.
  intros Hi HW Hc. revert P fuel i Hi. induction HW as [ | w W [Hw Hw0] _ IH]; intros P fuel i Hi Hf.
  - assert (negb (c =? 0) && Bool.eqb (white c) b = false) as E.
    { destruct Hc as [-> | ->]; [done | ]. destruct b; simpl; by rewrite andb_false_r. }
    unfold word_loop. destruct fuel; simpl; rewrite rd_app, obind_ok, E by done; f_equal; lia.
  - destruct fuel as [ | fuel]; [simpl in Hf; lia | ]. cbn [word_loop app].
    rewrite rd_app, obind_ok, Hw, (proj2 (Z.eqb_neq w 0)) by done. rewrite Bool.eqb_reflx. cbn [negb andb].
    change (P ++ w :: W ++ c :: Q) with (P ++ [w] ++ W ++ c :: Q).
    rewrite (app_assoc P [w]). rewrite IH; [f_equal; simpl; lia | rewrite length_app; simpl; lia | simpl in Hf; lia].
Qed.

Lemma cstr_seam P s Q i : i = len P -> Forall (fun c => c <> 0) s -> cstr (P ++ s ++ 0 :: Q) i = Ok s.
Proof.
  intros -> Hs. unfold cstr. rewrite (proj2 (Z.ltb_ge _ 0)) by lia.
  rewrite Nat2Z.id, drop_app_length, until_nul_app by done. done.
Qed.

(** ** [stripwhite] and [execute_line] compute the reference functions *)
Context (white0 : white 0 = false).

Lemma stripwhite_ok line :
  Forall (fun c => c <> 0) line ->
  exists p buf rest, stripwhite white (line ++ [0]) = Ok (p, buf) /\ 0 <= p /\
    drop (Z.to_nat p) buf = strip line ++ 0 :: rest.
Proof.
  intros Hnz. destruct (strip_spec line) as (W1 & W2 & E & H1 & H2 & Hf & Hl).
  unfold stripwhite. set (buf := line ++ [0]).
  destruct (strip line) as [ | x M] eqn:Es.
  - assert (buf = [] ++ line ++ 0 :: []) as Eb by done.
    rewrite Eb, (skip_white_ok [] line 0 []), obind_ok; try done.
    + cbn [app]. rewrite rd_app by done. rewrite obind_ok. exists (0 + len line), (line ++ [0]), [].
      split; [done | ]. split; [lia | ]. rewrite Z.add_0_l, Nat2Z.id, drop_app_length. done.
    + rewrite E. by apply Forall_app.
    + simpl. rewrite length_app. lia.
  - assert (buf = W1 ++ (x :: M) ++ W2 ++ 0 :: []) as Eb
      by (unfold buf; rewrite E at 1; rewrite <- !app_assoc; done).
    assert (Forall (fun c => c <> 0) ((x :: M) ++ W2)) as Hnz2.
    { rewrite E in Hnz. apply Forall_app in Hnz as [_ Hnz]. done. }
    assert (skip_white white buf (length buf) 0 = Ok (len W1)) as E1.
    { rewrite Eb. change (W1 ++ (x :: M) ++ W2 ++ [0]) with ([] ++ W1 ++ x :: (M ++ W2 ++ [0])).
      apply skip_white_ok; try done; [by apply (Hf x M) | rewrite !length_app; simpl; lia]. }
    rewrite E1, obind_ok.
    assert (rd buf (len W1) = Ok x) as E2 by (rewrite Eb; by apply rd_app).
    rewrite E2, obind_ok. rewrite (proj2 (Z.eqb_neq x 0)) by (by apply Forall_cons in Hnz2 as [? _]).
    assert (cstr buf (len W1) = Ok ((x :: M) ++ W2)) as E3.
    { rewrite Eb, (app_assoc (x :: M)). by apply cstr_seam. }
    rewrite E3, obind_ok.
    replace (len W1 + len ((x :: M) ++ W2) - 1) with (len W1 + len M + len W2)
      by (rewrite length_app; simpl; lia).
    rewrite Eb, (back_white_ok W1 x M W2 [0]), obind_ok; [ | done | done | rewrite !length_app; simpl; lia].
    rewrite wr_ok by (rewrite !length_app; simpl; lia). rewrite obind_ok.
    eexists _, _, (tail (W2 ++ [0])). split; [done | ]. split; [lia | ].
    rewrite Nat2Z.id. replace (Z.to_nat (len W1 + len M + 1)) with (length W1 + length (x :: M) + 0)%nat by (simpl; lia).
    rewrite <- Nat.add_assoc, insert_app_r, drop_app_length, insert_app_r.
    destruct W2 as [ | w W2]; simpl; done.
Qed.

Lemma split_line_ok s rest :
  Forall (fun c => c <> 0) s -> (forall c r, s = c :: r -> white c = false) ->
  split_line white (s ++ 0 :: rest) = Ok (split s).
Proof.
  intros Hnz Hhead. unfold split, split_line. destruct (span_word s) as [w r] eqn:Esp.
  destruct (span_word_spec s w r Esp) as (-> & Hw & Hr).
  apply Forall_app in Hnz as [Hnzw Hnzr].
  assert (forall fuel, word_loop white true ((w ++ r) ++ 0 :: rest) fuel 0 = Ok 0) as E1.
  { intros fuel. destruct (w ++ r) as [ | c u] eqn:Ewr.
    - apply (word_loop_ok true [] [] 0 rest); try done; [by left | simpl; lia].
    - apply (word_loop_ok true [] [] c (u ++ 0 :: rest)); try done; [right; by apply (Hhead c u) | simpl; lia]. }
  rewrite E1, obind_ok.
  assert (Forall (fun c => white c = false /\ c <> 0) w) as Hww.
  { apply Forall_and. done. }
  set (buf := (w ++ r) ++ 0 :: rest).
  destruct r as [ | c r].
  - assert (buf = [] ++ w ++ 0 :: rest) as Eb by (unfold buf; by rewrite app_nil_r).
    rewrite Eb, (word_loop_ok false [] w 0 rest) by side.
    rewrite obind_ok. cbn [app]. rewrite rd_app, obind_ok by done. cbn [Z.eqb].
    rewrite obind_ok. rewrite (cstr_seam [] w rest) by done. rewrite obind_ok.
    rewrite (skip_white_ok w [] 0 rest) by side.
    rewrite obind_ok. rewrite (cstr_seam w [] rest) by side. done.
  - pose proof (Hr c r eq_refl) as Hc. apply Forall_cons in Hnzr as [Hc0 Hnzr].
    destruct (drop_white_spec r) as (W & Er & HW & Hd).
    assert (buf = [] ++ w ++ c :: (r ++ 0 :: rest)) as Eb by (unfold buf; rewrite <- app_assoc; done).
    rewrite Eb, (word_loop_ok false [] w c) by side.
    rewrite obind_ok. cbn [app]. rewrite rd_app, obind_ok by done. rewrite (proj2 (Z.eqb_neq c 0)) by done.
    rewrite (wr_app w) by done. rewrite !obind_ok. cbv beta iota.
    rewrite (cstr_seam [] w (r ++ 0 :: rest)) by done. rewrite obind_ok.
    assert (white c = true -> drop_white (c :: r) = drop_white r) as Edrop by (simpl; by intros ->).
    rewrite (Edrop Hc). set (d := drop_white r) in *.
    assert (Forall (fun c => c <> 0) d) as Hnd by (rewrite Er in Hnzr; apply Forall_app in Hnzr; tauto).
    replace (w ++ 0 :: r ++ 0 :: rest) with ((w ++ [0]) ++ W ++ (d ++ 0 :: rest))
      by (rewrite Er at 1; rewrite <- !app_assoc; done).
    assert (skip_white white ((w ++ [0]) ++ W ++ (d ++ 0 :: rest)) (length ((w ++ [0]) ++ W ++ (d ++ 0 :: rest)))
              (0 + len w + 1) = Ok (len ((w ++ [0]) ++ W))) as E2.
    { destruct d as [ | y d2] eqn:Ed; cbn [app];
        (rewrite skip_white_ok; [f_equal; rewrite !length_app; simpl; lia | rewrite length_app; simpl; lia | done |
                                 | rewrite !length_app; simpl; lia]); [done | by apply (Hd y d2)]. }
    rewrite E2, obind_ok, (app_assoc (w ++ [0])), cstr_seam by done. done.
Qed.

Lemma strip_nonzero s : Forall (fun c => c <> 0) s -> Forall (fun c => c <> 0) (strip s).
Proof.
  intros H. destruct (strip_spec s) as (W1 & W2 & E & _). rewrite E in H.
  apply Forall_app in H as [_ [H _]%Forall_app]. done.
Qed.
End Ref.


(** ** Completion *)

(** What readline collects from the generator: the calls with state 0, 1, ...
    up to the first NULL. *)
Fixpoint collect (fuel : nat) (statics : Z * Z) (text : bytes) (state : Z) : list bytes :=
  match fuel with
  | O => []
  | S fuel =>
      match command_generator statics text state with
      | (None, _) => []
      | (Some n, statics) => n :: collect fuel statics text (state + 1)
      end
  end.

(** [rocks_completion]: the matches handed to readline, none past the first word. *)
Definition rocks_completion (statics : Z * Z) (text : bytes) (start : Z) : list bytes :=
  if start =? 0 then collect 14 statics text 0 else [].

Definition matching (text : bytes) (cs : list COMMAND) : list bytes :=
  filter (fun n => take (length text) n = text) (name <$> cs).

Lemma next_match_spec text cs idx :
  match next_match cs text (length text) idx with
  | (None, _) => matching text cs = []
  | (Some n, idx') => exists k, (k < length cs)%nat /\ idx' = idx + Z.of_nat (S k) /\
                       matching text cs = n :: matching text (drop (S k) cs)
  end.
Proof.
  revert idx. induction cs as [ | c cs IH]; intros idx; [done | ].
  cbn [next_match]. unfold strneq, matching. rewrite (take_ge text) by lia. cbn [fmap list_fmap].
  rewrite filter_cons. case_bool_decide as Hc.
  - rewrite decide_True by done. exists 0%nat. split; [simpl; lia | ]. split; [lia | ]. done.
  - rewrite decide_False by done. fold (matching text cs). specialize (IH (idx + 1)).
    destruct (next_match cs text (length text) (idx + 1)) as [[n | ] idx']; [ | done].
    destruct IH as (k & Hk & -> & IH). exists (S k). split; [simpl; lia | ]. split; [lia | done].
Qed.

Lemma collect_ok text fuel idx state :
  0 < state -> 0 <= idx -> (length (drop (Z.to_nat idx) commands) < fuel)%nat ->
  collect fuel (idx, len text) text state = matching text (drop (Z.to_nat idx) commands).
Proof.
  revert idx state. induction fuel as [ | fuel IH]; intros idx state Hs Hi Hf; [lia | ].
  cbn [collect]. unfold command_generator. rewrite (proj2 (Z.eqb_neq state 0)) by lia.
  rewrite Nat2Z.id. pose proof (next_match_spec text (drop (Z.to_nat idx) commands) idx) as H.
  destruct (next_match _ text (length text) idx) as [[n | ] idx']; [ | by rewrite H].
  destruct H as (k & Hk & -> & ->). f_equal. rewrite drop_drop.
  replace (Z.to_nat idx + S k)%nat with (Z.to_nat (idx + Z.of_nat (S k))) by lia.
  apply IH; [lia | lia | ]. rewrite !length_drop in *. lia.
Qed.

Lemma collect_start fuel text statics :
  (length commands <= fuel)%nat -> collect (S fuel) statics text 0 = matching text commands.
Proof.
  intros Hf. cbn [collect]. unfold command_generator. cbn [Z.eqb].
  rewrite Nat2Z.id. change (drop (Z.to_nat 0) commands) with commands.
  pose proof (next_match_spec text commands 0) as H.
  destruct (next_match _ text (length text) 0) as [[n | ] idx']; [ | by rewrite H].
  destruct H as (k & Hk & -> & H). rewrite H. f_equal.
  rewrite collect_ok; [f_equal; f_equal; lia | lia | lia | ]. rewrite length_drop. lia.
Qed.

(** ** Properties *)

(** One round of the main loop on the stripped line. *)
Lemma round_eq `{L : RocksLib} (whitespace : Z -> bool) fuel line (s : st) :
  whitespace 0 = false -> Forall (fun c => c <> 0) line ->
  round whitespace fuel line s =
    match strip whitespace line with
    | [] => Ok s
    | stripped =>
        let '(word, arg) := split whitespace stripped in
        match find_command word with
        | None => Ok (emit Stderr (word ++ lit " No such command.") s)
        | Some c => let! '(_, s) := call fuel (cfunc c) arg s in Ok s
        end
    end.
Proof.
  intros H0 Hnz. unfold round.
  destruct (stripwhite_ok whitespace H0 line Hnz) as (p & buf & rest & E & Hp & Hd).
  rewrite E, obind_ok. rewrite Hd. pose proof (strip_nonzero whitespace line Hnz) as Hs.
  destruct (strip_spec whitespace line) as (_ & _ & _ & _ & _ & Hhead & _).
  destruct (strip whitespace line) as [ | x M] eqn:Es; [done | ].
  apply Forall_cons in Hs as Hs'. destruct Hs' as [Hx _].
  change (rd ((x :: M) ++ 0 :: rest) 0) with (Ok x). rewrite obind_ok.
  rewrite (proj2 (Z.eqb_neq x 0)) by done. unfold execute_line.
  rewrite (split_line_ok whitespace H0 (x :: M) rest Hs Hhead). rewrite !obind_ok.
  destruct (split whitespace (x :: M)) as [w a]. destruct (find_command w); done.
Qed.

(** C27. A line is executed as its stripped text: an empty one does nothing, and
    otherwise its first word selects the command and the text after the
    whitespace that follows is passed to it unchanged; no access to the line
    buffer is out of range.  Stated for any [whitespace] test that rejects the
    terminating zero. *)
Theorem round_dispatch `{L : RocksLib} (whitespace : Z -> bool) fuel line (s : st) :
  whitespace 0 = false -> Forall (fun c => c <> 0) line ->
  round whitespace fuel line s =
    match strip whitespace line with
    | [] => Ok s
    | stripped =>
        let '(word, arg) := split whitespace stripped in
        match find_command word with
        | None => Ok (emit Stderr (word ++ lit " No such command.") s)
        | Some c => let! '(_, s) := call fuel (cfunc c) arg s in Ok s
        end
    end.
Proof. apply round_eq. Qed.

(** Command completion offers exactly the commands that start with the text,
    in table order, when the word starts the line, and nothing elsewhere. *)
Theorem completion_exact statics text start :
  rocks_completion statics text start =
    if start =? 0 then filter (fun n => take (length text) n = text) (name <$> commands) else [].
Proof. unfold rocks_completion. case_if; [ | done]. apply collect_start. done. Qed.
End RocksLine.
