(* ===== verification/RocksSpec.v ===== *)
(** * The RocksDB shell: what its commands do to the stored data

    [RocksLaws] states the behaviour of RocksDB the handlers rely on; [spec] is
    the shell seen as a set of key-value maps on disk, the open one, and a write
    batch; [effect] says what a command prints and how it changes them.  The
    handlers are proved to implement it for every library that satisfies the
    laws. *)
From S2P Require Import Prelude CLib Rocks RocksProof.

Abbreviation kv := (gmap (list Z) (list Z)) (only parsing).

(** Apply the insertions of a write batch, in order. *)
Definition apply_batch (m : kv) (l : list (bytes * bytes)) : kv :=
  foldl (fun m '(k, v) => <[k := v]> m) m l.

Class RocksLaws (L : RocksLib) := {
  content : World -> Db -> option kv;           (** what an open handle holds *)
  disk : World -> bytes -> kv;                  (** what opening a path shows *)
  db_path : Db -> bytes;
  batch : World -> Wb -> option (list (bytes * bytes));
  cp_db : Cp -> Db;
  iter_left : Iter -> list (bytes * bytes);
  (** an operation on [d] leaves other paths and the batches alone *)
  frame d w w' := (forall q, q <> db_path d -> disk w' q = disk w q) /\ (forall b, batch w' b = batch w b);
  open_ok o p w d w' : rocksdb_open o p w = (d, None, w') ->
    exists d0, d = Some d0 /\ content w' d0 = Some (disk w p) /\ db_path d0 = p;
  open_err o p w d e w' : rocksdb_open o p w = (d, Some e, w') -> d = None;
  open_frame o p w d e w' : rocksdb_open o p w = (d, e, w') ->
    (forall q, disk w' q = disk w q) /\ (forall b, batch w' b = batch w b);
  close_ok d w m : content w d = Some m ->
    disk (rocksdb_close d w) (db_path d) = m /\ frame d w (rocksdb_close d w);
  get_ok d o k w m v : content w d = Some m -> rocksdb_get d o k w = (v, None) -> v = m !! k;
  put_ok d o k v w m e w' : content w d = Some m -> rocksdb_put d o k v w = (e, w') ->
    content w' d = Some (match e with None => <[k := v]> m | Some _ => m end) /\ frame d w w';
  delete_ok d o k w m e w' : content w d = Some m -> rocksdb_delete d o k w = (e, w') ->
    content w' d = Some (match e with None => delete k m | Some _ => m end) /\ frame d w w';
  iter_ok d o w m it : content w d = Some m -> rocksdb_create_iterator d o w = Some it ->
    iter_left (rocksdb_iter_seek_to_first it) ≡ₚ map_to_list m;
  iter_valid_ok it : rocksdb_iter_valid it = negb (bool_decide (iter_left it = []));
  iter_step it k v l : iter_left it = (k, v) :: l ->
    rocksdb_iter_key it = k /\ rocksdb_iter_value it = v /\ iter_left (rocksdb_iter_next it) = l;
  batch_create_ok w b w' : rocksdb_writebatch_create w = (b, w') ->
    (forall b0, b = Some b0 -> batch w' b0 = Some []) /\
    (forall d, content w' d = content w d) /\ (forall q, disk w' q = disk w q);
  batch_put_ok b k v w l : batch w b = Some l ->
    batch (rocksdb_writebatch_put b k v w) b = Some (l ++ [(k, v)]) /\
    (forall d, content (rocksdb_writebatch_put b k v w) d = content w d) /\
    (forall q, disk (rocksdb_writebatch_put b k v w) q = disk w q);
  write_ok d o b w m l e w' : content w d = Some m -> batch w b = Some l ->
    rocksdb_write d o b w = (e, w') ->
    content w' d = Some (match e with None => apply_batch m l | Some _ => m end) /\ frame d w w';
  batch_destroy_ok b w :
    (forall d, content (rocksdb_writebatch_destroy b w) d = content w d) /\
    (forall q, disk (rocksdb_writebatch_destroy b w) q = disk w q);
  cp_destroy_ok c w :
    (forall d, content (rocksdb_checkpoint_object_destroy c w) d = content w d) /\
    (forall q, disk (rocksdb_checkpoint_object_destroy c w) q = disk w q);
  (** an error comes with a null object *)
  cp_create_ok d w m c e w' : content w d = Some m -> rocksdb_checkpoint_object_create d w = (c, e, w') ->
    match e with None => exists c0, c = Some c0 /\ cp_db c0 = d | Some _ => c = None end /\
    content w' d = Some m /\ (forall q, disk w' q = disk w q) /\ (forall b, batch w' b = batch w b);
  checkpoint_ok c dir n w m : content w (cp_db c) = Some m ->
    exists e w', rocksdb_checkpoint_create c dir n w = Ok (e, w') /\ content w' (cp_db c) = Some m /\
      (forall b, batch w' b = batch w b) /\ (forall q, q <> dir -> disk w' q = disk w q) /\
      (e = None -> disk w' dir = m /\ dir <> db_path (cp_db c))
}.

Module RocksSpec.
Import Rocks.

(** ** The abstract shell *)
Inductive cp_state := CpNone | CpFresh | CpStale.

Record spec := mk_spec {
  adisk : bytes -> option kv;            (** closed databases that are known *)
  cur : option (bytes * kv);             (** the open database *)
  abatch : option (list (bytes * bytes));
  acp : cp_state;                        (** checkpoint object: none, of the open database, of an earlier one *)
  adone : bool
}.

Definition upd (f : bytes -> option kv) (p : bytes) (x : option kv) : bytes -> option kv :=
  fun q => if bool_decide (q = p) then x else f q.
Definition stale (c : cp_state) : cp_state := match c with CpNone => CpNone | _ => CpStale end.
Definition with_cur (m : option (bytes * kv)) (a : spec) : spec :=
  mk_spec (adisk a) m (abatch a) (acp a) (adone a).

Definition row (kv : bytes * bytes) : stream * bytes :=
  (Stdout, pad20 (strncpy_str (fst kv)) ++ lit " | " ++ pad20 (strncpy_str (snd kv))).

Definition arg_caller (f : func) : option bytes :=
  match f with
  | com_open => Some (lit "open") | com_read => Some (lit "read") | com_write => Some (lit "write")
  | com_delete => Some (lit "delete") | com_checkpoint => Some (lit "checkpoint")
  | _ => None
  end.

(** What [help] prints: the commands of that name (all without an argument), or the list of
    all names. *)
Definition help_rows (arg : bytes) : list (stream * bytes) :=
  (fun c => (Stdout, name c ++ [9; 9] ++ doc c ++ lit ".")) <$>
  List.filter (fun c => bool_decide (arg = []) || streq arg (name c)) commands.
Definition help_out (arg : bytes) : list (stream * bytes) :=
  match help_rows arg with
  | [] => [(Stdout, lit "No commands match `" ++ arg ++ lit "'.  Possibilties are:");
           (Stdout, snd (help_columns commands 0 []))]
  | rows => rows
  end.

Section Effects.
Context {L : RocksLib}.

(** The checkpoint object the command [ckpt] works with, and the world then. *)
Definition checkpoint_with (s : st) : option (Cp * World) :=
  match cp s, db s with
  | Some c, _ => Some (c, world s)
  | None, Some d =>
      match rocksdb_checkpoint_object_create d (world s) with
      | (Some c, _, w) => Some (c, w)
      | _ => None
      end
  | None, None => None
  end.

(** [effect s a f arg o a']: command [f] with argument [arg] prints [o] and goes
    to [a'].  The state [s] of the shell says whether the library reports an error for
    the call that the command makes. *)
Inductive effect (s : st) (a : spec) : func -> bytes -> list (stream * bytes) -> spec -> Prop :=
  | e_noarg f caller : arg_caller f = Some caller ->
      effect s a f [] [(Stderr, caller ++ lit ": Argument required.")] a
  | e_open_err p e d w : p <> [] -> rocksdb_open (options s) p (world s) = (d, Some e, w) ->
      effect s a com_open p [(Stdout, lit "Cannot open DB: " ++ e)]
        (mk_spec (adisk a) None (abatch a) (stale (acp a)) (adone a))
  | e_open p m : p <> [] -> (forall m0, adisk a p = Some m0 -> m = m0) ->
      effect s a com_open p []
        (mk_spec (upd (adisk a) p None) (Some (p, m)) (abatch a) (stale (acp a)) (adone a))
  | e_closed f arg : f = com_read \/ f = com_delete \/ f = com_checkpoint -> arg <> [] -> cur a = None ->
      effect s a f arg [(Stderr, lit "DB is not openned")] a
  | e_list_closed arg : cur a = None -> effect s a com_list arg [(Stderr, lit "DB is not openned")] a
  | e_close_closed arg : cur a = None -> effect s a com_close arg [(Stderr, lit "DB is not openned")] a
  | e_close arg p m : cur a = Some (p, m) ->
      effect s a com_close arg [] (mk_spec (upd (adisk a) p (Some m)) None (abatch a) (stale (acp a)) (adone a))
  | e_read_err k e p m d v : k <> [] -> cur a = Some (p, m) -> db s = Some d ->
      rocksdb_get d (readoptions s) k (world s) = (v, Some e) ->
      effect s a com_read k [(Stdout, lit "Read Error: " ++ e)] a
  | e_read_none k p m : k <> [] -> cur a = Some (p, m) -> m !! k = None ->
      effect s a com_read k [(Stdout, lit "Value was not found for key " ++ k)] a
  | e_read k p m v t : k <> [] -> cur a = Some (p, m) -> m !! k = Some v -> until_nul v = Some t ->
      effect s a com_read k
        [(Stdout, lit "Found value " ++ t ++ lit ", vallen " ++ dec (len v) ++ lit " for key " ++ k)] a
  | e_write_nokey arg : arg <> [] -> fst (strtok arg) = None ->
      effect s a com_write arg [(Stderr, lit "Key is empty")] a
  | e_write_noval arg k r : arg <> [] -> strtok arg = (Some k, r) -> fst (strtok r) = None ->
      effect s a com_write arg [(Stderr, lit "Value is empty")] a
  | e_write_closed arg k r v : arg <> [] -> strtok arg = (Some k, r) -> fst (strtok r) = Some v -> cur a = None ->
      effect s a com_write arg [(Stderr, lit "DB is not openned")] a
  | e_write_batch arg k r v p m l :
      arg <> [] -> strtok arg = (Some k, r) -> fst (strtok r) = Some v ->
      cur a = Some (p, m) -> abatch a = Some l ->
      effect s a com_write arg [] (mk_spec (adisk a) (cur a) (Some (l ++ [(k, v ++ [0])])) (acp a) (adone a))
  | e_write_err arg k r v p m e d w :
      arg <> [] -> strtok arg = (Some k, r) -> fst (strtok r) = Some v -> cur a = Some (p, m) -> abatch a = None ->
      db s = Some d -> rocksdb_put d (writeoptions s) k (v ++ [0]) (world s) = (Some e, w) ->
      effect s a com_write arg [(Stdout, lit "Write Error: " ++ e)] a
  | e_write arg k r v p m :
      arg <> [] -> strtok arg = (Some k, r) -> fst (strtok r) = Some v -> cur a = Some (p, m) -> abatch a = None ->
      effect s a com_write arg [(Stdout, lit "Write <" ++ k ++ lit "," ++ v ++ lit "> OK")]
        (with_cur (Some (p, <[k := v ++ [0]]> m)) a)
  | e_delete_err k e p m d w : k <> [] -> cur a = Some (p, m) -> db s = Some d ->
      rocksdb_delete d (writeoptions s) k (world s) = (Some e, w) ->
      effect s a com_delete k [(Stdout, lit "Delete Error: " ++ e)] a
  | e_delete k p m : k <> [] -> cur a = Some (p, m) ->
      effect s a com_delete k [(Stdout, lit "Deleted key " ++ k)] (with_cur (Some (p, delete k m)) a)
  | e_list_err arg p m d : cur a = Some (p, m) -> db s = Some d ->
      rocksdb_create_iterator d (readoptions s) (world s) = None ->
      effect s a com_list arg [(Stderr, lit "Create Iterator has an error")] a
  | e_list arg p m kvs : cur a = Some (p, m) -> kvs ≡ₚ map_to_list m ->
      effect s a com_list arg ([(Stdout, pad20 (lit "Key") ++ lit " | " ++ pad20 (lit "Value"));
                              (Stdout, replicate 48 45)] ++ (row <$> kvs)) a
  | e_ckpt_err dir e p m c w w' : dir <> [] -> cur a = Some (p, m) -> checkpoint_with s = Some (c, w) ->
      rocksdb_checkpoint_create c dir 8192 w = Ok (Some e, w') ->
      effect s a com_checkpoint dir [(Stdout, lit "Checkpoint Error: " ++ e)]
        (mk_spec (upd (adisk a) dir None) (cur a) (abatch a) CpFresh (adone a))
  | e_ckpt dir p m : dir <> [] -> cur a = Some (p, m) ->
      effect s a com_checkpoint dir [(Stdout, lit "Checkpoint OK")]
        (mk_spec (upd (adisk a) dir (Some m)) (cur a) (abatch a) CpFresh (adone a))
  | e_wb_create_err arg : fst (rocksdb_writebatch_create (world s)) = None ->
      effect s a com_wb_create arg [(Stderr, lit "Create WriteBach had problems")]
        (mk_spec (adisk a) (cur a) None (acp a) (adone a))
  | e_wb_create arg : effect s a com_wb_create arg [] (mk_spec (adisk a) (cur a) (Some []) (acp a) (adone a))
  | e_wb_destroy_none arg : abatch a = None -> effect s a com_wb_destroy arg [] a
  | e_wb_destroy_err arg e l p m d b w : abatch a = Some l -> cur a = Some (p, m) ->
      db s = Some d -> wr_batch s = Some b -> rocksdb_write d (writeoptions s) b (world s) = (Some e, w) ->
      effect s a com_wb_destroy arg [(Stdout, lit "WriteBatch Error: " ++ e)] a
  | e_wb_destroy arg l p m : abatch a = Some l -> cur a = Some (p, m) ->
      effect s a com_wb_destroy arg []
        (mk_spec (adisk a) (Some (p, apply_batch m l)) None (acp a) (adone a))
  | e_help arg : effect s a com_help arg (help_out arg) a
  | e_quit arg : effect s a com_quit arg [] (mk_spec (adisk a) (cur a) (abatch a) (acp a) true).

End Effects.

(** The commands that run into undefined behaviour: flushing a batch without an open
    database, printing a value that has no terminating zero, and taking a checkpoint
    with the null pointer that a failed creation of the checkpoint object left. *)
Definition crashes {L : RocksLib} (s : st) (a : spec) (f : func) (arg : bytes) : Prop :=
  (f = com_wb_destroy /\ is_Some (abatch a) /\ cur a = None) \/
  (f = com_read /\ exists p m v, cur a = Some (p, m) /\ m !! arg = Some v /\ 0 ∉ v) \/
  (f = com_checkpoint /\ arg <> [] /\ cp s = None /\
   exists d e w, db s = Some d /\ rocksdb_checkpoint_object_create d (world s) = (None, Some e, w)).
(** Taking a checkpoint with the object of a database that was closed since. *)
Definition stale_use (a : spec) (f : func) (arg : bytes) : Prop :=
  f = com_checkpoint /\ arg <> [] /\ is_Some (cur a) /\ acp a = CpStale.
(** The listing's fuel covers the open database. *)
Definition fits (fuel : nat) (a : spec) : bool :=
  match cur a with Some (_, m) => bool_decide (base.size m <= fuel)%nat | None => true end.

(** ** Simulation *)
Section Sim.
Context {L : RocksLib} {Laws : RocksLaws L}.

Record repr (s : st) (a : spec) : Prop := {
  rp_disk p m : adisk a p = Some m -> disk (world s) p = m;
  rp_cur : match cur a with
           | None => db s = None
           | Some (p, m) => exists d, db s = Some d /\ db_path d = p /\ content (world s) d = Some m /\ adisk a p = None
           end;
  rp_batch : match abatch a with
             | None => wr_batch s = None
             | Some l => exists b, wr_batch s = Some b /\ batch (world s) b = Some l
             end;
  rp_cp : match acp a with
          | CpNone => cp s = None
          | CpFresh => exists c, cp s = Some c /\ db s = Some (cp_db c)
          | CpStale => is_Some (cp s)
          end;
  rp_done : done_ s = adone a
}.

Definition simulates (s : st) (a : spec) (f : func) (arg : bytes) (r : outcome (Z * st)) : Prop :=
  exists rc s' o a', r = Ok (rc, s') /\ effect s a f arg o a' /\ repr s' a' /\ out s' = out s ++ o.

Lemma simulates_intro s a f arg rc s' o a' :
  effect s a f arg o a' -> repr s' a' -> out s' = out s ++ o -> simulates s a f arg (Ok (rc, s')).
Proof. unfold simulates. eauto 10. Qed.

Lemma repr_emit f l s a : repr s a -> repr (emit f l s) a.
Proof. intros []. split; done. Qed.

(** The state after an operation on the open handle. *)
Lemma repr_handle s a p m d w' m' b' a' :
  repr s a -> cur a = Some (p, m) -> db s = Some d -> db_path d = p ->
  content w' d = Some m' -> (forall q, q <> p -> disk w' q = disk (world s) q) ->
  match b' with
  | None => abatch a' = None
  | Some b => exists l, abatch a' = Some l /\ batch w' b = Some l
  end ->
  a' = mk_spec (adisk a) (Some (p, m')) (abatch a') (acp a) (adone a) ->
  repr (set_wb b' w' s) a'.
Proof.
  intros R Hc Hd Hp Hm Hq Hb Ha. destruct R as [Rd Rc Rb Rcp Rdone]. rewrite Hc in Rc.
  destruct Rc as (d0 & Hd0 & _ & _ & Hn). rewrite Ha. split; cbn; try done.
  - intros q m0 Hq0. rewrite Hq; [auto | ]. intros ->. congruence.
  - exists d. done.
  - destruct b' as [b | ]; [destruct Hb as (l & -> & Hl); eauto | by rewrite Hb].
Qed.

Lemma repr_world s a p m d w' m' :
  repr s a -> cur a = Some (p, m) -> db s = Some d -> db_path d = p ->
  content w' d = Some m' -> frame d (world s) w' ->
  repr (set_world w' s) (with_cur (Some (p, m')) a).
Proof.
  intros R Hc Hd Hp Hm [Hq Hb]. unfold set_world.
  replace (set_db (db s) w' s) with (set_wb (wr_batch s) w' s) by (by destruct s).
  eapply (repr_handle s a p m d w' m' (wr_batch s)); try done; [by subst p | ].
  pose proof (rp_batch s a R) as Rb. cbn. destruct (wr_batch s) as [b | ] eqn:E.
  - destruct (abatch a) as [l | ]; [ | done]. destruct Rb as (b0 & [= <-] & Hl). exists l. by rewrite Hb.
  - destruct (abatch a) as [l | ]; [ | done]. by destruct Rb as (b0 & ? & _).
Qed.

Lemma with_cur_same a p m : cur a = Some (p, m) -> with_cur (Some (p, m)) a = a.
Proof. intros H. unfold with_cur. rewrite <- H. by destruct a. Qed.

(** The guard of the handlers. *)
Lemma with_open_closed s a f arg k :
  repr s a -> cur a = None -> effect s a f arg [(Stderr, lit "DB is not openned")] a ->
  simulates s a f arg (with_open s k).
Proof.
  intros R Hc He. pose proof (rp_cur s a R) as Hd. rewrite Hc in Hd. unfold with_open, is_open.
  rewrite Hd. eapply simulates_intro; [done | by apply repr_emit | done].
Qed.
Lemma with_open_open s d k : db s = Some d -> with_open s k = k d s.
Proof. intros Hd. unfold with_open, is_open. by rewrite Hd, Hd. Qed.

Lemma with_arg_sim s a f caller arg k :
  repr s a -> arg_caller f = Some caller -> (arg <> [] -> simulates s a f arg (k s)) ->
  simulates s a f arg (with_arg caller arg s k).
Proof.
  intros R Hf Hk. unfold with_arg, invalid_argument. destruct arg as [ | c arg]; [ | by apply Hk].
  eapply simulates_intro; [by constructor | by apply repr_emit | done].
Qed.

(** A handler that needs the database open. *)
Lemma open_cases s a f arg k :
  repr s a ->
  (cur a = None -> effect s a f arg [(Stderr, lit "DB is not openned")] a) ->
  (forall p m d, cur a = Some (p, m) -> db s = Some d -> db_path d = p -> content (world s) d = Some m ->
     adisk a p = None -> simulates s a f arg (k d s)) ->
  simulates s a f arg (with_open s k).
Proof.
  intros R Hcl Hop. destruct (cur a) as [[p m] | ] eqn:Hc.
  - pose proof (rp_cur s a R) as Hd. rewrite Hc in Hd. destruct Hd as (d & Hd & Hp & Hm & Hn).
    rewrite (with_open_open s d k Hd). eauto.
  - apply with_open_closed; auto.
Qed.

Lemma sim_open s a p : repr s a -> p <> [] -> simulates s a com_open p (open_db p s).
Proof.
  intros R Hp. unfold open_db. destruct (rocksdb_open (options s) p (world s)) as [[d e] w] eqn:E.
  destruct (open_frame _ _ _ _ _ _ E) as [Hq Hb]. destruct R as [Rd Rc Rb Rcp Rdone].
  assert (match stale (acp a) with CpNone => cp s = None | CpFresh => False | CpStale => is_Some (cp s) end) as Hst.
  { destruct (acp a); simpl; [done | | done]. destruct Rcp as (c & -> & _). eauto. }
  assert (match abatch a with None => wr_batch s = None
          | Some l => exists b, wr_batch s = Some b /\ batch w b = Some l end) as Hbb.
  { destruct (abatch a); [ | done]. destruct Rb as (b & ? & ?). exists b. by rewrite Hb. }
  destruct e as [e | ].
  - pose proof (open_err _ _ _ _ _ _ E) as ->. eapply simulates_intro; [by eapply e_open_err | | done].
    apply repr_emit. split; cbn; try done; [intros; rewrite Hq; auto | ].
    by destruct (stale (acp a)).
  - destruct (open_ok _ _ _ _ _ E) as (d0 & -> & Hm & Hp0).
    eapply simulates_intro; [apply (e_open s a p (disk (world s) p) Hp) | | by rewrite app_nil_r].
    + intros m0 Hm0. by apply Rd.
    + split; cbn; try done.
      * intros q m0. unfold upd. case_bool_decide; [done | ]. rewrite Hq. auto.
      * exists d0. unfold upd. by rewrite bool_decide_eq_true_2.
      * by destruct (stale (acp a)).
Qed.

Lemma sim_close s a arg : repr s a -> simulates s a com_close arg (close_db s).
Proof.
  intros R. unfold close_db, is_open. pose proof (rp_cur s a R) as Hd.
  destruct (cur a) as [[p m] | ] eqn:Hc.
  - destruct Hd as (d & Hd & Hp & Hm & Hn). rewrite Hd, Hd.
    destruct (close_ok d (world s) m Hm) as [Hdisk [Hq Hb]].
    eapply simulates_intro; [by apply e_close | | by rewrite app_nil_r].
    destruct R as [Rd Rc Rb Rcp Rdone]. split; cbn; try done.
    + intros q m0. unfold upd. case_bool_decide as Hqp; [intros [= <-]; by subst | ].
      intros Hq0. rewrite Hq by congruence. auto.
    + destruct (abatch a); [ | done]. destruct Rb as (b & ? & ?). exists b. by rewrite Hb.
    + destruct (acp a); simpl; [done | | done]. destruct Rcp as (c & -> & _). eauto.
  - rewrite Hd. eapply simulates_intro; [by apply e_close_closed | by apply repr_emit | done].
Qed.

Lemma until_nul_some v : 0 ∈ v -> exists t, until_nul v = Some t.
Proof.
  induction v as [ | c v IH]; intros Hin; [by apply not_elem_of_nil in Hin | ]. simpl.
  destruct (c =? 0) eqn:E; [eauto | ]. zbool. apply elem_of_cons in Hin as [Heq | Hin]; [congruence | ].
  destruct (IH Hin) as (t & ->). simpl. eauto.
Qed.

Lemma until_nul_none v : 0 ∉ v -> until_nul v = None.
Proof.
  induction v as [ | c v IH]; intros Hv; [done | ]. apply not_elem_of_cons in Hv as [Hc Hv]. simpl.
  rewrite (proj2 (Z.eqb_neq c 0)) by congruence. by rewrite IH.
Qed.

Lemma sim_read s a k : repr s a -> k <> [] ->
  simulates s a com_read k (handle_read k s) \/ (crashes s a com_read k /\ handle_read k s = Ub).
Proof.
  intros R Hk. pose proof (rp_cur s a R) as Hd. destruct (cur a) as [[p m] | ] eqn:Hc.
  2:{ left. apply with_open_closed; [done | done | ]. apply e_closed; auto. }
  destruct Hd as (d & Hd & Hp & Hm & Hn). unfold handle_read. rewrite (with_open_open s d _ Hd).
  destruct (rocksdb_get d (readoptions s) k (world s)) as [v [e | ]] eqn:E.
  - left. destruct v; (eapply simulates_intro; [by eapply e_read_err | by apply repr_emit | done]).
  - pose proof (get_ok _ _ _ _ _ _ Hm E) as Hv. destruct v as [v | ].
    + destruct (decide (0 ∈ v)) as [Hz | Hz].
      * left. destruct (until_nul_some v Hz) as (t & Ht).
        assert (cstr v 0 = Ok t) as -> by (unfold cstr; simpl; by rewrite drop_0, Ht). rewrite obind_ok.
        eapply simulates_intro; [by eapply e_read | by apply repr_emit | done].
      * right. split; [right; left; split; [done | ]; by exists p, m, v | ].
        assert (cstr v 0 = Ub) as -> by (unfold cstr; simpl; by rewrite drop_0, until_nul_none). done.
    + left. eapply simulates_intro; [by eapply e_read_none | by apply repr_emit | done].
Qed.

Lemma sim_delete s a k : repr s a -> k <> [] -> simulates s a com_delete k (handle_delete k s).
Proof.
  intros R Hk. apply open_cases; [done | intros; apply e_closed; auto | ].
  intros p m d Hc Hd Hp Hm Hn. destruct (rocksdb_delete d (writeoptions s) k (world s)) as [e w] eqn:E.
  destruct (delete_ok _ _ _ _ _ _ _ Hm E) as [Hm' Hf].
  pose proof (repr_world s a p m d w _ R Hc Hd Hp Hm' Hf) as R'. destruct e as [e | ].
  - rewrite with_cur_same in R' by done.
    eapply simulates_intro; [by eapply e_delete_err | by apply repr_emit | done].
  - eapply simulates_intro; [by eapply e_delete | by apply repr_emit | done].
Qed.

Lemma sim_write s a arg : repr s a -> simulates s a com_write arg (do_write arg s).
Proof.
  intros R. unfold do_write. apply with_arg_sim; [done | done | ]. intros Harg.
  destruct (strtok arg) as [[k | ] r] eqn:Ek.
  2:{ eapply simulates_intro; [apply e_write_nokey; by rewrite ?Ek | by apply repr_emit | done]. }
  destruct (fst (strtok r)) as [v | ] eqn:Ev.
  2:{ eapply simulates_intro; [by eapply e_write_noval | by apply repr_emit | done]. }
  apply open_cases; [done | intros; by eapply e_write_closed | ].
  intros p m d Hc Hd Hp Hm Hn. pose proof (rp_batch s a R) as Hb.
  destruct (abatch a) as [l | ] eqn:Ea.
  - destruct Hb as (b & Hwb & Hl). rewrite Hwb.
    destruct (batch_put_ok b k (v ++ [0]) (world s) l Hl) as (Hl' & Hcont & Hq).
    eapply simulates_intro; [by eapply e_write_batch | | by rewrite app_nil_r].
    unfold set_world. rewrite Hc.
    match goal with |- repr (set_db (db s) ?w s) _ =>
      replace (set_db (db s) w s) with (set_wb (wr_batch s) w s) by (by destruct s);
      eapply (repr_handle s a p m d w m (wr_batch s)); try done end.
    + by rewrite Hcont.
    + rewrite Hwb. cbn. eauto.
  - rewrite Hb. destruct (rocksdb_put d (writeoptions s) k (v ++ [0]) (world s)) as [e w] eqn:E.
    destruct (put_ok _ _ _ _ _ _ _ _ Hm E) as [Hm' Hf].
    pose proof (repr_world s a p m d w _ R Hc Hd Hp Hm' Hf) as R'. destruct e as [e | ].
    + rewrite with_cur_same in R' by done.
      eapply simulates_intro; [by eapply e_write_err | by apply repr_emit | done].
    + eapply simulates_intro; [by eapply e_write | by apply repr_emit | done].
Qed.

Lemma list_loop_ok fuel it s a :
  (length (iter_left it) <= fuel)%nat -> repr s a ->
  exists s', list_loop fuel it s = Ok s' /\ repr s' a /\ out s' = out s ++ (row <$> iter_left it).
Proof.
  revert it s. induction fuel as [ | fuel IH]; intros it s Hf R.
  - destruct (iter_left it) eqn:E; [ | simpl in Hf; lia].
    exists s. cbn. rewrite iter_valid_ok, E, app_nil_r. done.
  - cbn [list_loop]. rewrite iter_valid_ok. destruct (iter_left it) as [ | [k v] l] eqn:E.
    + exists s. rewrite app_nil_r. done.
    + rewrite bool_decide_eq_false_2 by done. cbn [negb].
      destruct (iter_step it k v l E) as (-> & -> & Hn).
      destruct (IH (rocksdb_iter_next it) (emit Stdout (pad20 (strncpy_str k) ++ lit " | " ++ pad20 (strncpy_str v)) s))
        as (s' & E' & R' & Ho); [rewrite Hn; simpl in Hf; lia | by apply repr_emit | ].
      exists s'. split; [done | ]. split; [done | ]. rewrite Ho, Hn. cbn. by rewrite <- app_assoc.
Qed.

Lemma sim_list s a fuel arg : repr s a -> fits fuel a = true -> simulates s a com_list arg (handle_list fuel s).
Proof.
  intros R Hfit. apply open_cases; [done | intros; by apply e_list_closed | ].
  intros p m d Hc Hd Hp Hm Hn. destruct (rocksdb_create_iterator d (readoptions s) (world s)) as [it | ] eqn:E.
  - pose proof (iter_ok _ _ _ _ _ Hm E) as Hit.
    destruct (list_loop_ok fuel (rocksdb_iter_seek_to_first it)
      (emit Stdout (replicate 48 45) (emit Stdout (pad20 (lit "Key") ++ lit " | " ++ pad20 (lit "Value")) s)) a)
      as (s' & E' & R' & Ho); [ | by repeat apply repr_emit | ].
    { rewrite Hit, length_map_to_list. unfold fits in Hfit. rewrite Hc in Hfit. by apply bool_decide_eq_true in Hfit. }
    cbv zeta. rewrite E', obind_ok. eapply simulates_intro; [by eapply e_list | done | ].
    rewrite Ho. cbn. by rewrite <- !app_assoc.
  - eapply simulates_intro; [by eapply e_list_err | by apply repr_emit | done].
Qed.

(** The checkpoint object the handler works with. *)
Lemma checkpoint_object s a p m d :
  repr s a -> cur a = Some (p, m) -> db s = Some d -> db_path d = p -> content (world s) d = Some m ->
  acp a <> CpStale ->
  exists s', match cp s with
             | None => let! '(_, s) := create_checkpoint_object s in Ok s
             | Some _ => Ok s
             end = Ok s' /\
    ((cp s = None /\ cp s' = None /\ exists e w, rocksdb_checkpoint_object_create d (world s) = (None, Some e, w)) \/
     (repr s' (mk_spec (adisk a) (cur a) (abatch a) CpFresh (adone a)) /\ out s' = out s /\
      db s' = Some d /\ content (world s') d = Some m /\
      exists c, cp s' = Some c /\ cp_db c = d /\ checkpoint_with s = Some (c, world s'))).
Proof.
  intros R Hc Hd Hp Hm Hcp. destruct R as [Rd Rc Rb Rcp Rdone]. unfold checkpoint_with. destruct (acp a) eqn:Ea; [ | | done].
  - rewrite Rcp. unfold create_checkpoint_object. rewrite Hd.
    destruct (rocksdb_checkpoint_object_create d (world s)) as [[c e] w'] eqn:E.
    destruct (cp_create_ok d (world s) m c e w' Hm E) as (Hce & Hm' & Hq & Hb). destruct e as [e | ].
    { subst c. rewrite !obind_ok. eexists. split; [done | ]. left. eauto 10. }
    destruct Hce as (c0 & -> & Hcd).
    rewrite !obind_ok. eexists. split; [done | ]. right. split; [split; cbn; try done | ].
    + intros q m0 ?. rewrite Hq. auto.
    + rewrite Hc in Rc |- *. destruct Rc as (d0 & Hd0 & Hp0 & _ & Hn). exists d0. split_and!; try done.
      congruence.
    + destruct (abatch a); [ | done]. destruct Rb as (b & ? & ?). exists b. by rewrite Hb.
    + exists c0. by rewrite Hcd.
    + cbn. split_and!; try done. eauto.
  - destruct Rcp as (c & Hcs & Hdc). rewrite Hcs. eexists. split; [done | ]. right.
    split; [split; cbn; try done; eauto | ]. split_and!; try done. exists c. split; [done | ]. split; [congruence | done].
Qed.

Lemma sim_checkpoint s a dir :
  repr s a -> ~ stale_use a com_checkpoint dir -> dir <> [] ->
  simulates s a com_checkpoint dir (handle_checkpoint dir s) \/ (crashes s a com_checkpoint dir /\ handle_checkpoint dir s = Ub).
Proof.
  intros R Hsafe Hdir. pose proof (rp_cur s a R) as Hd. destruct (cur a) as [[p m] | ] eqn:Hc.
  2:{ left. apply with_open_closed; [done | done | ]. apply e_closed; auto. }
  destruct Hd as (d & Hd & Hp & Hm & Hn). unfold handle_checkpoint. rewrite (with_open_open s d _ Hd).
  assert (acp a <> CpStale) as Hcp.
  { intros E. apply Hsafe. split; [done | ]. split; [done | ]. split; [rewrite Hc; eauto | done]. }
  destruct (checkpoint_object s a p m d R Hc Hd Hp Hm Hcp) as (s1 & E1 & [(Hn1 & Hn2 & e & w & Ee) | (R1 & Ho & Hd1 & Hm1 & c & Hcp1 & Hcd & Hcw)]).
  { right. split; [right; right; split; [done | ]; eauto 10 | ]. rewrite E1, obind_ok, Hn2. done. }
  left. rewrite E1, obind_ok, Hcp1. subst d.
  destruct (checkpoint_ok c dir 8192 (world s1) m Hm1) as (e & w & E & Hm2 & Hb & Hq & Hok).
  rewrite E, obind_ok.
  assert (forall x, (forall m0, x = Some m0 -> disk w dir = m0 /\ dir <> p) ->
    repr (set_world w s1) (mk_spec (upd (adisk a) dir x) (cur a) (abatch a) CpFresh (adone a))) as Hfin.
  { intros x Hx. destruct R1 as [Rd1 Rc1 Rb1 Rcp1 Rdone1]. cbn in *. split; cbn; try done.
    - intros q m0. unfold upd. case_bool_decide as Hqd; [intros ->; subst; by apply Hx | ].
      intros H. rewrite Hq; auto.
    - rewrite Hc. exists (cp_db c). split_and!; try done. unfold upd. case_bool_decide as Hpd; [ | done].
      destruct x as [m0 | ]; [ | done]. destruct (Hx m0 eq_refl). congruence.
    - destruct (abatch a); [ | done]. destruct Rb1 as (b & ? & ?). exists b. by rewrite Hb. }
  destruct e as [e | ].
  - eapply simulates_intro; [by eapply e_ckpt_err | apply repr_emit, Hfin; done | cbn; by rewrite Ho].
  - eapply simulates_intro; [by eapply e_ckpt | apply repr_emit, Hfin | cbn; by rewrite Ho].
    intros m0 [= <-]. subst p. by apply Hok.
Qed.

Lemma sim_wb_create s a arg : repr s a -> simulates s a com_wb_create arg (create_writebatch s).
Proof.
  intros R. unfold create_writebatch. destruct (rocksdb_writebatch_create (world s)) as [b w] eqn:E.
  destruct (batch_create_ok _ _ _ E) as (Hb & Hcont & Hq).
  assert (forall l, match b with None => l = None | Some _ => l = Some [] end ->
    repr (set_wb b w s) (mk_spec (adisk a) (cur a) l (acp a) (adone a))) as Hfin.
  { intros l Hl. destruct R as [Rd Rc Rb Rcp Rdone]. split; cbn; try done.
    - intros q m ?. rewrite Hq. auto.
    - destruct (cur a) as [[p m] | ]; [ | done]. destruct Rc as (d & ? & ? & ? & ?). exists d. by rewrite Hcont.
    - destruct b as [b | ]; subst l; [exists b; split; [done | by apply Hb] | done]. }
  destruct b as [b | ].
  - eapply simulates_intro; [apply e_wb_create | by apply Hfin | by rewrite app_nil_r].
  - eapply simulates_intro; [apply e_wb_create_err; by rewrite E | by apply repr_emit, Hfin | done].
Qed.

Lemma sim_wb_destroy s a arg :
  repr s a -> simulates s a com_wb_destroy arg (destroy_writebatch s) \/
  (crashes s a com_wb_destroy arg /\ destroy_writebatch s = Ub).
Proof.
  intros R. unfold destroy_writebatch. pose proof (rp_batch s a R) as Hb.
  destruct (abatch a) as [l | ] eqn:Ea.
  - destruct Hb as (b & Hwb & Hl). rewrite Hwb.
    pose proof (rp_cur s a R) as Hd. destruct (cur a) as [[p m] | ] eqn:Hc; [left | ].
    2:{ right. rewrite Hd. split; [left; split; [done | ]; rewrite Ea; eauto | done]. }
    destruct Hd as (d & Hd & Hp & Hm & Hn). rewrite Hd.
    destruct (rocksdb_write d (writeoptions s) b (world s)) as [e w] eqn:E.
    destruct (write_ok _ _ _ _ _ _ _ _ Hm Hl E) as [Hm' Hf].
    destruct e as [e | ].
    + pose proof (repr_world s a p m d w _ R Hc Hd Hp Hm' Hf) as R'. rewrite with_cur_same in R' by done.
      eapply simulates_intro; [by eapply e_wb_destroy_err | by apply repr_emit | done].
    + destruct (batch_destroy_ok (wr_batch (set_world w s)) w) as [Hcont Hq]. destruct Hf as [Hfq _].
      eapply simulates_intro; [by eapply e_wb_destroy | | by rewrite app_nil_r]. cbn [world set_world set_db].
      match goal with |- repr (set_wb None ?w' _) _ =>
        replace (set_wb None w' (set_world w s)) with (set_wb None w' s) by (by destruct s);
        eapply (repr_handle s a p m d w' (apply_batch m l) None); try done end.
      * by rewrite Hcont.
      * intros q Hne. rewrite Hq. apply Hfq. congruence.
  - left. rewrite Hb. destruct (batch_destroy_ok None (world s)) as [Hcont Hq].
    eapply simulates_intro; [by eapply e_wb_destroy_none | | by rewrite app_nil_r].
    destruct R as [Rd Rc Rb Rcp Rdone]. split; cbn; try done.
    + intros q m ?. rewrite Hq. auto.
    + destruct (cur a) as [[p m] | ]; [ | done]. destruct Rc as (d & ? & ? & ? & ?). exists d. by rewrite Hcont.
    + by rewrite Ea.
Qed.

Lemma help_matching_out cs arg n s a :
  repr s a ->
  let rows := (fun c => (Stdout, name c ++ [9; 9] ++ doc c ++ lit ".")) <$>
              List.filter (fun c => bool_decide (arg = []) || streq arg (name c)) cs in
  repr (snd (help_matching cs arg n s)) a /\ out (snd (help_matching cs arg n s)) = out s ++ rows /\
  fst (help_matching cs arg n s) = n + len rows.
Proof.
  cbv zeta. revert n s. induction cs as [ | c cs IH]; intros n s R; cbn [help_matching List.filter].
  - rewrite app_nil_r. split; [done | ]. split; [done | ]. cbn. lia.
  - destruct (_ || _); [ | by apply IH].
    destruct (IH (n + 1) (emit Stdout (name c ++ [9; 9] ++ doc c ++ lit ".") s)) as (R' & E & En); [by apply repr_emit | ].
    split; [done | ]. split; [rewrite E; cbn; by rewrite <- app_assoc | ]. rewrite En, fmap_cons. cbn [length]. lia.
Qed.

Lemma sim_help s a arg : repr s a -> simulates s a com_help arg (do_help arg s).
Proof.
  intros R. unfold do_help. destruct (help_matching_out commands arg 0 s a R) as (R1 & E & En). fold (help_rows arg) in E, En.
  destruct (help_matching commands arg 0 s) as [n s1]. cbn [fst snd] in *.
  pose proof (e_help s a arg) as He. unfold help_out in He. destruct (help_rows arg) as [ | row rows] eqn:Er.
  - cbn in En. subst n. destruct (help_columns commands 0 []) as [n2 text] eqn:Ec.
    assert (n2 = 1) as -> by (vm_compute in Ec; congruence). cbn [snd] in He.
    eapply simulates_intro; [exact He | by repeat apply repr_emit | ]. cbn. rewrite E, app_nil_r, <- app_assoc. done.
  - cbn [length] in En. rewrite (proj2 (Z.eqb_neq n 0)) by lia. eapply simulates_intro; [exact He | done | done].
Qed.

Lemma cp_use_dec a arg : stale_use a com_checkpoint arg \/ ~ stale_use a com_checkpoint arg.
Proof.
  unfold stale_use. destruct (acp a) eqn:E; [right; naive_solver.. | ].
  destruct arg, (cur a) eqn:Ec; [right; naive_solver | right; naive_solver | left; rewrite <- Ec; eauto | right].
  intros (_ & _ & [? ?] & _). done.
Qed.

(** Every command has its effect, or is undefined, or uses a stale checkpoint object. *)
Lemma call_sim s a fuel f arg :
  repr s a -> fits fuel a = true ->
  simulates s a f arg (call fuel f arg s) \/ (crashes s a f arg /\ forall n, call n f arg s = Ub) \/ stale_use a f arg.
Proof.
  intros R Hfit. destruct f; cbn [call].
  - left. apply with_arg_sim; [done | done | ]. by apply sim_open.
  - left. by apply sim_close.
  - left. by apply sim_write.
  - left. by apply sim_wb_create.
  - destruct (sim_wb_destroy s a arg R) as [? | []]; [by left | by right; left].
  - destruct arg as [ | c arg]; [left; by apply with_arg_sim | ].
    destruct (sim_read s a (c :: arg) R) as [? | []]; [done | by left | by right; left].
  - left. by apply sim_list.
  - left. apply with_arg_sim; [done | done | ]. by apply sim_delete.
  - destruct arg as [ | c arg]; [left; by apply with_arg_sim | ].
    destruct (cp_use_dec a (c :: arg)) as [Hs | Hs]; [by right; right | ].
    destruct (sim_checkpoint s a (c :: arg) R Hs) as [? | []]; [done | by left | by right; left].
  - left. by apply sim_help.
  - left. eapply simulates_intro; [apply e_quit | | by rewrite app_nil_r]. destruct R. split; done.
Qed.
End Sim.
End RocksSpec.
