(* ===== verification/RocksSession.v ===== *)
(** * The RocksDB shell: whole sessions

    A session of the shell is a run of the abstract shell as long as no command
    is undefined; [MemRocks] is a library that satisfies the laws, on which sessions
    are evaluated. *)
From S2P Require Import Prelude CLib Rocks RocksProof RocksSpec.

Module RocksSession.
Import Rocks RocksLine RocksSpec.

Section Sessions.
Context {L : RocksLib} {Laws : RocksLaws L} (whitespace : Z -> bool) (Hw0 : whitespace 0 = false).










End Sessions.

(** ** A library in memory that satisfies the laws *)
Record mem := mk_mem {
  m_disk : gmap (list Z) kv;
  m_open : gmap nat (list Z * kv);                  (** open handles *)
  m_batch : gmap nat (list (bytes * bytes));
  m_next : nat
}.
Definition upd_open (w : mem) (d : nat * list Z) (f : kv -> kv) : mem :=
  mk_mem (m_disk w) (alter (fun '(p, m) => (p, f m)) (fst d) (m_open w)) (m_batch w) (m_next w).
Definition mem_content (w : mem) (d : nat * list Z) : option kv := snd <$> m_open w !! fst d.
Definition mem_disk (w : mem) (p : bytes) : kv := default ∅ (m_disk w !! p).
Definition locked (w : mem) (p : bytes) : bool :=
  existsb (fun e : nat * (list Z * kv) => bool_decide (fst (snd e) = p)) (map_to_list (m_open w)).

Definition MemRocks : RocksLib := {|
  World := mem; Opt := unit; WOpt := unit; ROpt := unit;
  Db := nat * list Z; Cp := nat * list Z; Wb := nat; Iter := list (bytes * bytes);
  rocksdb_options_create := tt;
  rocksdb_options_increase_parallelism o _ := o;
  rocksdb_options_optimize_level_style_compaction o _ := o;
  rocksdb_options_set_create_if_missing o _ := o;
  rocksdb_writeoptions_create := tt;
  rocksdb_writeoptions_disable_WAL o _ := o;
  rocksdb_writeoptions_set_sync o _ := o;
  rocksdb_readoptions_create := tt;
  rocksdb_open _ p w :=
    if locked w p then (None, Some (lit "lock held"), w)
    else (Some (m_next w, p), None,
          mk_mem (<[p := mem_disk w p]> (m_disk w)) (<[m_next w := (p, mem_disk w p)]> (m_open w))
                 (m_batch w) (S (m_next w)));
  rocksdb_close d w :=
    match m_open w !! fst d with
    | None => w
    | Some (_, m) => mk_mem (<[snd d := m]> (m_disk w)) (delete (fst d) (m_open w)) (m_batch w) (m_next w)
    end;
  rocksdb_get d _ k w :=
    match mem_content w d with Some m => (m !! k, None) | None => (None, Some (lit "closed")) end;
  rocksdb_put d _ k v w := (None, upd_open w d (fun m => <[k := v]> m));
  rocksdb_delete d _ k w := (None, upd_open w d (fun m => delete k m));
  rocksdb_create_iterator d _ w := map_to_list <$> mem_content w d;
  rocksdb_iter_seek_to_first it := it;
  rocksdb_iter_valid it := negb (bool_decide (it = []));
  rocksdb_iter_next it := tail it;
  rocksdb_iter_key it := fst (hd ([], []) it);
  rocksdb_iter_value it := snd (hd ([], []) it);
  rocksdb_writebatch_create w :=
    (Some (m_next w), mk_mem (m_disk w) (m_open w) (<[m_next w := []]> (m_batch w)) (S (m_next w)));
  rocksdb_writebatch_put b k v w :=
    mk_mem (m_disk w) (m_open w) (alter (fun l => l ++ [(k, v)]) b (m_batch w)) (m_next w);
  rocksdb_write d _ b w :=
    (None, upd_open w d (fun m => apply_batch m (default [] (m_batch w !! b))));
  rocksdb_writebatch_destroy b w :=
    match b with
    | Some b => mk_mem (m_disk w) (m_open w) (delete b (m_batch w)) (m_next w)
    | None => w
    end;
  rocksdb_checkpoint_object_create d w :=
    if bool_decide (snd d = lit "full") then (None, Some (lit "no space"), w) else (Some d, None, w);
  rocksdb_checkpoint_create c dir _ w :=
    match mem_content w c with
    | None => Ub
    | Some m =>
        if bool_decide (is_Some (m_disk w !! dir)) || bool_decide (dir = snd c) then Ok (Some (lit "exists"), w)
        else Ok (None, mk_mem (<[dir := m]> (m_disk w)) (m_open w) (m_batch w) (m_next w))
    end;
  rocksdb_checkpoint_object_destroy _ w := w
|}.

Lemma mem_content_upd w d f m :
  mem_content w d = Some m -> mem_content (upd_open w d f) d = Some (f m).
Proof.
  unfold mem_content, upd_open. cbn. rewrite lookup_alter_eq. intros H.
  destruct (m_open w !! d.1) as [[p m0] | ]; simpl in *; congruence.
Qed.

#[global] Instance MemLaws : RocksLaws MemRocks.
Proof.
  refine (Build_RocksLaws MemRocks mem_content mem_disk snd
    (fun w b => m_batch w !! b) (fun c => c) (fun it => it) _ _ _ _ _ _ _ _ _ _ _ _ _ _ _ _ _); cbn.
  - intros _ p w d w'. case_if; [done | ]. intros [= <- <-]. eexists. split; [done | ].
    unfold mem_content. cbn. by rewrite lookup_insert_eq.
  - intros _ p w d e w'. case_if; [by intros [= <- _ _] | done].
  - intros _ p w d e w'. case_if; intros [= _ _ <-]; [done | ]. split; [ | done]. intros q. unfold mem_disk. cbn.
    destruct (decide (p = q)) as [-> | ]; [by rewrite lookup_insert_eq | by rewrite lookup_insert_ne].
  - intros d w m. unfold mem_content. destruct (m_open w !! d.1) as [[p m0] | ]; [ | done].
    intros [= ->]. unfold mem_disk. cbn. rewrite lookup_insert_eq. split; [done | ]. split; [ | done].
    intros q Hq. by rewrite lookup_insert_ne.
  - intros d _ k w m v ->. congruence.
  - intros d _ k v w m e w' H [= <- <-]. by rewrite (mem_content_upd _ _ _ m).
  - intros d _ k w m e w' H [= <- <-]. by rewrite (mem_content_upd _ _ _ m).
  - intros d _ w m it ->. intros [= <-]. done.
  - done.
  - intros it k v l ->. done.
  - intros w b w' [= <- <-]. cbn. split; [ | done]. intros b0 [= <-]. by rewrite lookup_insert_eq.
  - intros b k v w l Hl. rewrite lookup_alter_eq, Hl. done.
  - intros d _ b w m l e w' H Hl [= <- <-]. rewrite (mem_content_upd _ _ _ m), Hl by done. done.
  - intros [b | ] w; done.
  - done.
  - intros d w m c e w' H. case_bool_decide; intros [= <- <- <-]; split; try done; by eexists.
  - intros c dir _ w m H. rewrite H.
    destruct (bool_decide (is_Some (m_disk w !! dir)) || bool_decide (dir = c.2)) eqn:Heqb.
    + eexists _, _. split; [done | ]. split; [done | ]. split; [done | ]. split; [done | ]. done.
    + apply orb_false_iff in Heqb as [H1%bool_decide_eq_false H2%bool_decide_eq_false].
      eexists _, _. split; [done | ]. split; [done | ]. split; [done | ]. unfold mem_disk. cbn. split.
      * intros q Hq. by rewrite lookup_insert_ne.
      * intros _. by rewrite lookup_insert_eq.
Defined.

(** Readline's macro [whitespace]: blank or tab. *)
Definition rl_whitespace (c : Z) : bool := (c =? 32) || (c =? 9).
Definition empty_disk : mem := mk_mem ∅ ∅ ∅ 0.
Definition session (lines : list bytes) : outcome (list (stream * bytes)) :=
  let! s := main (L := MemRocks) rl_whitespace 1 100 lines empty_disk in Ok (out s).

(** ** Properties *)



Lemma round_dispatch_witness :
  round (L := MemRocks) rl_whitespace 100 (lit "  nop  x ") (init_rocksdb (L := MemRocks) 1 empty_disk) =
  Ok (emit Stderr (lit "nop No such command.") (init_rocksdb (L := MemRocks) 1 empty_disk)).
Proof.
  pose proof (round_dispatch (L := MemRocks) rl_whitespace 100 (lit "  nop  x ") (init_rocksdb (L := MemRocks) 1 empty_disk)) as H.
  rewrite H; [reflexivity | reflexivity | ]. repeat constructor; discriminate.
Defined.

(** Flushing a write batch while no database is open passes a null database
    to RocksDB, for every library that creates batches: the lines [wb_create],
    [wb_destroy] in a fresh shell are undefined behaviour. *)
Theorem wb_destroy_closed_ub {L : RocksLib} cpus fuel w :
  is_Some (fst (rocksdb_writebatch_create w)) ->
  main rl_whitespace cpus fuel [lit "wb_create"; lit "wb_destroy"] w = Ub.
Proof.
  intros [b Hb]. unfold main. set (s0 := init_rocksdb cpus w).
  assert (forall s, round rl_whitespace fuel (lit "wb_create") s = let! '(_, s) := create_writebatch s in Ok s) as E1.
  { intros s. unfold round. change (stripwhite _ _) with (Ok (0, lit "wb_create" ++ [0])). reflexivity. }
  assert (forall s, round rl_whitespace fuel (lit "wb_destroy") s = let! '(_, s) := destroy_writebatch s in Ok s) as E2.
  { intros s. unfold round. change (stripwhite _ _) with (Ok (0, lit "wb_destroy" ++ [0])). reflexivity. }
  cbn [loop]. change (done_ s0) with false. rewrite E1. unfold create_writebatch.
  change (world s0) with w. destruct (rocksdb_writebatch_create w) as [b0 w1]. simpl in Hb. subst b0.
  rewrite !obind_ok. change (done_ (set_wb (Some b) w1 s0)) with false. rewrite E2. reflexivity.
Qed.

Lemma wb_destroy_closed_ub_witness :
  main (L := MemRocks) rl_whitespace 1 100 [lit "wb_create"; lit "wb_destroy"] empty_disk = Ub.
Proof. apply (wb_destroy_closed_ub (L := MemRocks) 1 100 empty_disk). eexists. reflexivity. Defined.

(** Concrete sessions on the in-memory library: a write is read back with its
    terminating zero counted, a batched write becomes visible when the batch is
    flushed, a delete removes the key; closing and reopening after a checkpoint
    and taking another one uses the checkpoint object of the closed handle, and after the
    creation of the checkpoint object has failed a null one; both are undefined. *)
Theorem shell_sessions :
  session [lit "open a"; lit "write k v"; lit "read k"; lit " delete k "; lit "read k"; lit "quit"; lit "read k"] =
    Ok [(Stdout, lit "Write <k,v> OK"); (Stdout, lit "Found value v, vallen 2 for key k");
        (Stdout, lit "Deleted key k"); (Stdout, lit "Value was not found for key k")] /\
  session [lit "open a"; lit "wb_create"; lit "write k v"; lit "read k"; lit "wb_destroy"; lit "read k"] =
    Ok [(Stdout, lit "Value was not found for key k"); (Stdout, lit "Found value v, vallen 2 for key k")] /\
  session [lit "read k"; lit "write k"; lit "foo"; lit "open"] =
    Ok [(Stderr, lit "DB is not openned"); (Stderr, lit "Value is empty"); (Stderr, lit "foo No such command.");
        (Stderr, lit "open: Argument required.")] /\
  session [lit "open a"; lit "ckpt c1"; lit "close"; lit "open a"; lit "ckpt c2"] = Ub /\
  session [lit "open full"; lit "write k v"; lit "ckpt c1"] = Ub.
Proof. vm_compute. auto. Qed.
End RocksSession.
