(* ===== verification/Bytes.v ===== *)
(** * Integer fields inside byte buffers

    Loads and stores of little-endian fields of 1, 2, 4 or 8 bytes at an offset
    of a buffer, as the programs do through struct pointers on the host; accesses
    outside the buffer are undefined. *)
From S2P Require Import Prelude.

(** The [n] bytes of [v], least significant first, and back. *)
Fixpoint le_bytes (n : nat) (v : Z) : bytes :=
  match n with
  | O => []
  | S n => v mod 256 :: le_bytes n (v / 256)
  end.
Fixpoint le_val (l : bytes) : Z :=
  match l with
  | [] => 0
  | b :: l => b + 256 * le_val l
  end.

(** Whether [n] bytes at [off] lie inside the buffer. *)
Definition in_buf (buf : bytes) (off n : Z) : bool :=
  (0 <=? off) && (0 <=? n) && (off + n <=? Z.of_nat (length buf)).

(** The [n] bytes at [off]. *)
Definition slice (buf : bytes) (off n : Z) : bytes :=
  take (Z.to_nat n) (drop (Z.to_nat off) buf).
Definition splice (buf : bytes) (off : Z) (l : bytes) : bytes :=
  take (Z.to_nat off) buf ++ l ++ drop (Z.to_nat off + length l) buf.

(** [memcpy] out of and into a buffer. *)
Definition load (buf : bytes) (off n : Z) : outcome bytes :=
  if in_buf buf off n then Ok (slice buf off n) else Ub.
Definition store (buf : bytes) (off : Z) (l : bytes) : outcome bytes :=
  if in_buf buf off (Z.of_nat (length l)) then Ok (splice buf off l) else Ub.

(** Integer fields of [n] bytes. *)
Definition get_le (n : nat) (buf : bytes) (off : Z) : outcome Z :=
  let! l := load buf off (Z.of_nat n) in Ok (le_val l).
Definition set_le (n : nat) (buf : bytes) (off v : Z) : outcome bytes :=
  store buf off (le_bytes n v).
Definition get16 := get_le 2.
Definition get32 := get_le 4.
Definition get64 := get_le 8.
Definition set16 := set_le 2.
Definition set32 := set_le 4.
Definition set64 := set_le 8.
Definition set8 (buf : bytes) (off v : Z) : outcome bytes := store buf off [v mod 256].
Definition get8 (buf : bytes) (off : Z) : outcome Z := rd buf off.

(** An IPv4 address in memory: its four bytes in network order, read as a host
    integer. *)
Definition ip4 (a b c d : Z) : Z := le_val [a; b; c; d].

(** ** Lemmas *)
Lemma length_le_bytes n v : length (le_bytes n v) = n.
Proof. revert v. induction n; intros v; simpl; auto. Qed.

Lemma le_bytes_byte n v : Forall is_byte (le_bytes n v).
Proof.
  revert v. induction n as [ | n IH]; intros v; simpl; constructor; [ | apply IH].
  unfold is_byte. apply Z.mod_pos_bound. lia.
Qed.

Lemma le_val_bound l : Forall is_byte l -> 0 <= le_val l < 256 ^ len l.
Proof.
  induction 1 as [ | b l Hb _ IH]; [simpl; lia | ]. unfold is_byte in Hb. cbn [le_val length].
  rewrite Nat2Z.inj_succ, Z.pow_succ_r by lia. lia.
Qed.

Lemma le_val_bytes n v : le_val (le_bytes n v) = v mod 256 ^ Z.of_nat n.
Proof.
  revert v. induction n as [ | n IH]; intros v; [simpl; by rewrite Z.mod_1_r | ].
  cbn [le_bytes le_val]. rewrite IH, Nat2Z.inj_succ, Z.pow_succ_r by lia.
  rewrite (Z.rem_mul_r v 256) by lia. lia.
Qed.

Lemma le_bytes_val l : Forall is_byte l -> le_bytes (length l) (le_val l) = l.
Proof.
  induction 1 as [ | b l Hb _ IH]; [done | ]. unfold is_byte in Hb. cbn [le_val length le_bytes].
  rewrite (Z.mul_comm 256), Z.mod_add, Z.div_add, Z.mod_small, Z.div_small by lia. by rewrite Z.add_0_l, IH.
Qed.

Lemma in_buf_spec buf off n : in_buf buf off n = true <-> 0 <= off /\ 0 <= n /\ off + n <= len buf.
Proof. unfold in_buf. rewrite !andb_true_iff, !Z.leb_le. lia. Qed.

Lemma load_ok buf off n : 0 <= off -> 0 <= n -> off + n <= len buf -> load buf off n = Ok (slice buf off n).
Proof. intros. unfold load. by rewrite (proj2 (in_buf_spec buf off n)) by lia. Qed.
Lemma store_ok buf off l : 0 <= off -> off + len l <= len buf -> store buf off l = Ok (splice buf off l).
Proof. intros. unfold store. by rewrite (proj2 (in_buf_spec buf off (len l))) by lia. Qed.
Lemma store_oob buf off l : off < 0 \/ len buf < off + len l -> store buf off l = Ub.
Proof.
  intros H. unfold store. destruct (in_buf buf off (len l)) eqn:E; [ | done].
  apply in_buf_spec in E. lia.
Qed.

Lemma length_splice buf off l :
  0 <= off -> off + len l <= len buf -> length (splice buf off l) = length buf.
Proof. intros. unfold splice. rewrite !length_app, length_take, length_drop. lia. Qed.

Lemma length_slice buf off n : 0 <= off -> 0 <= n -> off + n <= len buf -> len (slice buf off n) = n.
Proof. intros. unfold slice. rewrite length_take, length_drop. lia. Qed.

Lemma slice_splice buf off l :
  0 <= off -> off + len l <= len buf -> slice (splice buf off l) off (len l) = l.
Proof.
  intros. unfold slice, splice. rewrite Nat2Z.id.
  rewrite drop_app_length' by (rewrite length_take; lia). by rewrite take_app_length.
Qed.

Lemma slice_splice_other buf off l off' n :
  0 <= off -> off + len l <= len buf -> 0 <= off' -> 0 <= n -> off' + n <= len buf ->
  off' + n <= off \/ off + len l <= off' ->
  slice (splice buf off l) off' n = slice buf off' n.
Proof.
  intros H1 H2 H3 H4 H5 H6. apply list_eq. intros i. unfold slice, splice.
  destruct (decide (i < Z.to_nat n)%nat) as [Hi | Hi].
  2:{ rewrite !lookup_ge_None_2; [done | rewrite length_take; lia | rewrite length_take; lia]. }
  rewrite !lookup_take_lt, !lookup_drop by lia. destruct H6 as [H6 | H6].
  - rewrite lookup_app_l by (rewrite length_take; lia). rewrite lookup_take_lt by lia. done.
  - rewrite lookup_app_r by (rewrite length_take; lia).
    rewrite lookup_app_r by (rewrite length_take; lia). rewrite lookup_drop. f_equal. rewrite length_take. lia.
Qed.

Lemma is_byte_splice buf off l :
  Forall is_byte buf -> Forall is_byte l -> Forall is_byte (splice buf off l).
Proof.
  intros Hb Hl. unfold splice. repeat apply Forall_app_2; [by apply Forall_take | done | by apply Forall_drop].
Qed.

Lemma is_byte_slice buf off n : Forall is_byte buf -> Forall is_byte (slice buf off n).
Proof. intros Hb. unfold slice. by apply Forall_take, Forall_drop. Qed.

(** A field reads back what was stored, other fields are kept. *)
Lemma get_set_le n buf off v buf' :
  set_le n buf off v = Ok buf' -> get_le n buf' off = Ok (v mod 256 ^ Z.of_nat n).
Proof.
  unfold set_le, get_le, store. destruct (in_buf buf off _) eqn:E; [ | done]. intros [= <-].
  apply in_buf_spec in E. rewrite length_le_bytes in E.
  rewrite load_ok by (rewrite ?length_splice; rewrite ?length_le_bytes; lia). rewrite obind_ok.
  pose proof (slice_splice buf off (le_bytes n v)) as H. rewrite length_le_bytes in H.
  rewrite H by lia. by rewrite le_val_bytes.
Qed.

Lemma get_set_le_other n n' buf off v buf' off' :
  set_le n buf off v = Ok buf' -> off' + Z.of_nat n' <= off \/ off + Z.of_nat n <= off' ->
  get_le n' buf' off' = get_le n' buf off'.
Proof.
  unfold set_le, get_le, store, load. destruct (in_buf buf off _) eqn:E; [ | done]. intros [= <-] Hd.
  apply in_buf_spec in E. rewrite length_le_bytes in E.
  assert (in_buf (splice buf off (le_bytes n v)) off' (Z.of_nat n') = in_buf buf off' (Z.of_nat n')) as ->.
  { unfold in_buf. rewrite length_splice by (rewrite ?length_le_bytes; lia). done. }
  destruct (in_buf buf off' (Z.of_nat n')) eqn:E'; [ | done]. apply in_buf_spec in E'.
  rewrite slice_splice_other by (rewrite ?length_le_bytes; lia). done.
Qed.

(** ** Fields of a header in front of other bytes *)
Lemma splice_app h r off l :
  0 <= off -> off + len l <= len h -> splice (h ++ r) off l = splice h off l ++ r.
Proof.
  intros H1 H2. unfold splice. rewrite take_app_le by lia. rewrite drop_app_le by lia.
  by rewrite <- !app_assoc.
Qed.
Lemma store_app h r off l :
  0 <= off -> off + len l <= len h -> store (h ++ r) off l = let! h' := store h off l in Ok (h' ++ r).
Proof.
  intros H1 H2. rewrite !store_ok by (rewrite ?length_app; lia). by rewrite obind_ok, splice_app.
Qed.
Lemma set_le_app n h r off v :
  0 <= off -> off + Z.of_nat n <= len h -> set_le n (h ++ r) off v = let! h' := set_le n h off v in Ok (h' ++ r).
Proof. intros H1 H2. unfold set_le. apply store_app; rewrite ?length_le_bytes; lia. Qed.
Lemma set8_app h r off v :
  0 <= off -> off + 1 <= len h -> set8 (h ++ r) off v = let! h' := set8 h off v in Ok (h' ++ r).
Proof. intros H1 H2. unfold set8. apply store_app; simpl; lia. Qed.
Lemma get8_app h r off : 0 <= off < len h -> get8 (h ++ r) off = get8 h off.
Proof.
  intros H. unfold get8, rd. rewrite lookup_app_l by lia. done.
Qed.
Lemma load_app h r off n : 0 <= off -> 0 <= n -> off + n <= len h -> load (h ++ r) off n = load h off n.
Proof.
  intros H1 H2 H3. rewrite !load_ok by (rewrite ?length_app; lia). f_equal. unfold slice.
  rewrite drop_app_le by lia. rewrite take_app_le by (rewrite length_drop; lia). done.
Qed.
Lemma get_le_app n h r off : 0 <= off -> off + Z.of_nat n <= len h -> get_le n (h ++ r) off = get_le n h off.
Proof. intros H1 H2. unfold get_le. rewrite load_app by lia. done. Qed.

(** Run a statement on an explicit header [h] in front of [r]. *)
Ltac hnorm t :=
  let e := eval lazy -[le_val Z.modulo Z.div Z.lor Z.land Z.shiftl htons htonl u16 u32] in t in
  change t with e; rewrite ?obind_ok; cbv beta iota.
Ltac hstep :=
  lazymatch goal with
  | |- obind (set8 (?h ++ ?r) ?o ?v) _ = _ =>
      rewrite (set8_app h r o v) by (simpl; lia); hnorm (set8 h o v)
  | |- obind (set_le ?n (?h ++ ?r) ?o ?v) _ = _ =>
      rewrite (set_le_app n h r o v) by (simpl; lia); hnorm (set_le n h o v)
  | |- obind (get8 (?h ++ ?r) ?o) _ = _ =>
      rewrite (get8_app h r o) by (simpl; lia); hnorm (get8 h o)
  | |- obind (get_le ?n (?h ++ ?r) ?o) _ = _ =>
      rewrite (get_le_app n h r o) by (simpl; lia); hnorm (get_le n h o)
  | |- obind (load (?h ++ ?r) ?o ?n) _ = _ =>
      rewrite (load_app h r o n) by (simpl; lia); hnorm (load h o n)
  | |- obind (store (?h ++ ?r) ?o ?l) _ = _ =>
      rewrite (store_app h r o l) by (simpl; lia); hnorm (store h o l)
  end.

Lemma store_after h r l : len l <= len r -> store (h ++ r) (len h) l = Ok (h ++ l ++ drop (length l) r).
Proof.
  intros Hl. rewrite store_ok by (rewrite ?length_app; lia). f_equal. unfold splice.
  rewrite Nat2Z.id, take_app_length, drop_app_ge by lia. repeat f_equal. lia.
Qed.
Lemma load_mid p m r off n : off = len p -> n = len m -> load (p ++ m ++ r) off n = Ok m.
Proof.
  intros -> ->. rewrite load_ok by (rewrite ?length_app; lia). unfold slice.
  by rewrite !Nat2Z.id, drop_app_length, take_app_length.
Qed.
Lemma store_mid p m m' r off : off = len p -> length m' = length m -> store (p ++ m ++ r) off m' = Ok (p ++ m' ++ r).
Proof.
  intros -> Hm. rewrite store_ok by (rewrite ?length_app; lia). unfold splice. f_equal.
  rewrite Nat2Z.id, take_app_length, <- drop_drop, drop_app_length. by rewrite drop_app_length' by lia.
Qed.
Lemma store_prefix m m' r : length m' = length m -> store (m ++ r) 0 m' = Ok (m' ++ r).
Proof. apply (store_mid [] m m' r 0). done. Qed.
Lemma get_le_mid k p v r off :
  off = len p -> get_le k (p ++ le_bytes k v ++ r) off = Ok (v mod 256 ^ Z.of_nat k).
Proof.
  intros ->. unfold get_le. rewrite load_mid by (rewrite ?length_le_bytes; done).
  by rewrite obind_ok, le_val_bytes.
Qed.
Lemma get_le_prefix k v r : get_le k (le_bytes k v ++ r) 0 = Ok (v mod 256 ^ Z.of_nat k).
Proof. apply (get_le_mid k [] v r 0). done. Qed.
Lemma load_prefix h r n : n = len h -> load (h ++ r) 0 n = Ok h.
Proof.
  intros ->. rewrite load_ok by (rewrite ?length_app; lia). unfold slice. rewrite Nat2Z.id.
  change (drop (Z.to_nat 0) (h ++ r)) with (h ++ r). by rewrite take_app_length.
Qed.

(** ** Byte order *)
Lemma lor_disjoint k a b : 0 <= k -> 0 <= b < 2 ^ k -> Z.lor (a * 2 ^ k) b = a * 2 ^ k + b.
Proof.
  intros Hk Hb. assert (Z.land (a * 2 ^ k) b = 0) as H.
  { apply Z.bits_inj'. intros n Hn. rewrite Z.land_spec, Z.bits_0. destruct (Z.ltb_spec n k).
    - rewrite Z.mul_pow2_bits_low by lia. done.
    - replace b with (b mod 2 ^ k) by (apply Z.mod_small; lia).
      rewrite Z.mod_pow2_bits_high by lia. apply andb_false_r. }
  rewrite <- Z.lxor_lor, <- Z.add_nocarry_lxor by done. done.
Qed.

Lemma htons_arith x : htons x = x mod 256 * 256 + (x / 256) mod 256.
Proof.
  unfold htons. change 255 with (Z.ones 8). rewrite !Z.land_ones, Z.shiftr_div_pow2, Z.shiftl_mul_pow2 by lia.
  rewrite lor_disjoint; [done | lia | apply Z.mod_pos_bound; lia].
Qed.

Lemma htons_bound x : 0 <= htons x < 65536.
Proof.
  rewrite htons_arith. pose proof (Z.mod_pos_bound x 256). pose proof (Z.mod_pos_bound (x / 256) 256). lia.
Qed.

Lemma ntohs_htons x : 0 <= x < 65536 -> ntohs (htons x) = x.
Proof.
  intros Hx. change ntohs with htons. rewrite !htons_arith.
  pose proof (Z.mod_pos_bound x 256). pose proof (Z.div_mod x 256).
  assert (0 <= x / 256 < 256) by (split; [apply Z.div_pos | apply Z.div_lt_upper_bound]; lia).
  rewrite (Z.mod_small (x / 256)) by lia.
  assert ((x mod 256 * 256 + x / 256) mod 256 = x / 256) as -> by (symmetry; apply (Z.mod_unique _ _ (x mod 256)); lia).
  assert ((x mod 256 * 256 + x / 256) / 256 = x mod 256) as -> by (symmetry; apply (Z.div_unique _ _ _ (x / 256)); lia).
  rewrite Z.mod_mod by lia. lia.
Qed.

Lemma get8_ok packet i : 0 <= i < len packet -> exists c, get8 packet i = Ok c.
Proof.
  intros Hi. destruct (lookup_lt_is_Some_2 packet (Z.to_nat i)) as [c Hc]; [lia | ].
  exists c. apply rd_ok; [lia | done].
Qed.

(** Big-endian value of two bytes. *)
Lemma ntohs_pair a b : is_byte a -> is_byte b -> ntohs (le_val [a; b]) = 256 * a + b.
Proof.
  unfold is_byte. intros Ha Hb. change ntohs with htons. rewrite htons_arith. cbn [le_val].
  replace (a + 256 * (b + 256 * 0)) with (a + b * 256) by lia.
  rewrite Z.mod_add, Z.div_add, (Z.mod_small a), (Z.div_small a), Z.add_0_l, (Z.mod_small b) by lia. lia.
Qed.

Lemma get16_at packet off a b :
  0 <= off -> packet !! Z.to_nat off = Some a -> packet !! S (Z.to_nat off) = Some b ->
  get16 packet off = Ok (le_val [a; b]).
Proof.
  intros H1 Ha Hb. pose proof (lookup_lt_Some _ _ _ Hb). unfold get16, get_le.
  rewrite load_ok, obind_ok by lia. unfold slice. rewrite (drop_S _ _ _ Ha), (drop_S _ _ _ Hb). done.
Qed.
