(* ===== verification/Checksum.v ===== *)
(** * Raw UDP packets: [checksum/main.c] and [raw_socket/main.c]

    The two programs are the same code up to the size of the datagram buffer,
    which is a parameter here: the Internet checksum, the construction of the
    headers and the sending of a message through a raw socket. *)
From S2P Require Import Prelude CLib Bytes.

Module Checksum.

Definition PAXOS_LEN : Z := 102.
Definition IPPROTO_UDP : Z := 17.

(** [while (nbytes > 1) { sum += *ptr++; nbytes -= 2; }]; the result is [ptr],
    [nbytes] and [sum]. *)
Fixpoint csum_loop (buf : bytes) (fuel : nat) (ptr nbytes sum : Z) : outcome (Z * Z * Z) :=
  if nbytes >? 1 then
    match fuel with
    | O => NoFuel
    | S fuel => let! w := get16 buf ptr in csum_loop buf fuel (ptr + 2) (nbytes - 2) (sum + w)
    end
  else Ok (ptr, nbytes, sum).

Definition csum (buf : bytes) (ptr nbytes : Z) : outcome Z :=
  let! '(ptr, nbytes, sum) := csum_loop buf (Z.to_nat nbytes) ptr nbytes 0 in
  let! sum := if nbytes =? 1 then let! b := get8 buf ptr in Ok (sum + b) else Ok sum in
  let sum := Z.shiftr sum 16 + Z.land sum 65535 in
  let sum := sum + Z.shiftr sum 16 in
  let answer := i16 (Z.lnot sum) in
  Ok (u16 answer).

(** [struct sockaddr_in], address and port in network order. *)
Record sockaddr_in := mk_sockaddr { sin_port : Z; s_addr : Z }.

Record proposer_state := mk_proposer {
  rawsock : Z;
  datagram : bytes;
  dest : sockaddr_in
}.
Definition set_datagram (d : bytes) (ctx : proposer_state) : proposer_state :=
  mk_proposer (rawsock ctx) d (dest ctx).

(** Byte 0 of the IP header: [ihl] in its low and [version] in its high half. *)
Definition set_ihl (buf : bytes) (v : Z) : outcome bytes :=
  let! b := get8 buf 0 in set8 buf 0 (Z.lor (Z.land b 240) (Z.land v 15)).
Definition set_version (buf : bytes) (v : Z) : outcome bytes :=
  let! b := get8 buf 0 in set8 buf 0 (Z.lor (Z.land b 15) (Z.shiftl (Z.land v 15) 4)).

Definition init_rawsock (ctx : proposer_state) (mine dst : sockaddr_in) : outcome proposer_state :=
  let d := datagram ctx in
  let! d := store d 0 (replicate (Z.to_nat PAXOS_LEN) 0) in
  let! d := set_ihl d 5 in
  let! d := set_version d 4 in
  let! d := set8 d 1 0 in
  let! d := set16 d 4 (u16 (htonl 54321)) in
  let! d := set16 d 6 0 in
  let! d := set8 d 8 255 in
  let! d := set8 d 9 IPPROTO_UDP in
  let! d := set16 d 10 0 in
  let! d := set32 d 12 (s_addr mine) in
  let! d := set32 d 16 (s_addr dst) in
  let! d := set16 d 20 (sin_port mine) in
  let! d := set16 d 22 (sin_port dst) in
  let! d := set16 d 26 0 in
  Ok (set_datagram d ctx).

(** What the program does to the outside. *)
Inductive event :=
  | Sent (sock : Z) (packet : bytes) (to : sockaddr_in)
  | Printed (line : bytes)
  | Perror (msg : bytes).

(** [sent] is the result of [sendto]. *)
Definition paxos_send (sent : Z) (ctx : proposer_state) (msg : bytes) (msglen : Z) :
    outcome (list event * proposer_state) :=
  let d := datagram ctx in
  let! m := load msg 0 msglen in
  let! d := store d 28 m in
  let! tot := get16 d 2 in
  let! c := csum d 0 tot in
  let! d := set16 d 10 c in
  let! n := cint (28 + msglen) in
  let! d := set16 d 2 n in
  let! ul := cint (8 + msglen) in
  let! d := set16 d 24 (htons (u16 ul)) in
  let! d := set16 d 26 0 in
  let! tot := get16 d 2 in
  let! packet := load d 0 tot in
  let evs := Sent (rawsock ctx) packet (dest ctx) ::
             (if sent <? 0 then [Perror (lit "sendto failed")]
              else [Printed (lit "Packet Send. Length : " ++ dec tot ++ lit " ")]) in
  Ok (evs, set_datagram d ctx).

(** [create_rawsock]: [s] is the result of [socket]. *)
Definition create_rawsock (s : Z) : outcome Z := if s =? -1 then Exit 1 else Ok s.

(** [main]; [junk] is the content of the allocated datagram buffer. *)
Definition main (junk : bytes) (s sent : Z) : outcome (list event) :=
  let msg := lit "ABC123456789" ++ [0] in
  let mine := mk_sockaddr (htons 12345) (ip4 192 168 4 97) in
  let dst := mk_sockaddr (htons 34952) (ip4 224 3 29 73) in
  let! rs := create_rawsock s in
  let ctx := mk_proposer rs junk dst in
  let! ctx := init_rawsock ctx mine dst in
  let! text := cstr msg 0 in
  let! '(evs, _) := paxos_send sent ctx msg (len text) in
  Ok evs.

(** [raw_socket/main.c]: the datagram buffer has [PAXOS_LEN] bytes. *)
Definition raw_init_rawsock := init_rawsock.
Definition raw_paxos_send := paxos_send.
Definition raw_main (junk : bytes) (s sent : Z) : outcome (list event) :=
  main (take (Z.to_nat PAXOS_LEN) junk) s sent.

(** ** The checksum *)

(** The sum of the 16-bit words of a byte string, an odd last byte padded with
    zero. *)
Fixpoint words_sum (l : bytes) : Z :=
  match l with
  | a :: b :: l => a + 256 * b + words_sum l
  | [a] => a
  | [] => 0
  end.
(** The two carry folds and the cut to 16 bits. *)
Definition fold16 (s : Z) : Z :=
  let s := Z.shiftr s 16 + Z.land s 65535 in
  (s + Z.shiftr s 16) mod 65536.

Lemma fold16_spec s :
  0 <= s < 2 ^ 32 -> 0 <= fold16 s <= 65535 /\ fold16 s mod 65535 = s mod 65535 /\ (fold16 s = 0 <-> s = 0).
Proof.
  intros Hs. assert (fold16 s = (s / 65536 + s mod 65536 + (s / 65536 + s mod 65536) / 65536) mod 65536) as ->.
  { unfold fold16. change 65535 with (Z.ones 16). rewrite Z.land_ones, !Z.shiftr_div_pow2 by lia. done. }
  change (2 ^ 32) with 4294967296 in Hs.
  pose proof (Z.div_mod s 65536 ltac:(lia)). pose proof (Z.mod_pos_bound s 65536 ltac:(lia)).
  set (q := s / 65536) in *. set (r := s mod 65536) in *.
  assert (0 <= q < 65536) by (split; [apply Z.div_pos; lia | apply Z.div_lt_upper_bound; lia]).
  assert (s mod 65535 = (q + r) mod 65535) as E.
  { replace s with (q + r + q * 65535) by lia. by rewrite Z.mod_add. }
  rewrite E. destruct (decide (q + r < 65536)).
  - rewrite (Z.div_small (q + r)), Z.add_0_r, (Z.mod_small (q + r) 65536) by lia. split; [lia | ]. split; [done | lia].
  - assert ((q + r) / 65536 = 1) as -> by (symmetry; apply (Z.div_unique _ _ _ (q + r - 65536)); lia).
    assert ((q + r + 1) mod 65536 = q + r - 65535) as -> by (symmetry; apply (Z.mod_unique _ _ 1); lia).
    split; [lia | ]. split; [ | lia].
    replace (q + r) with (q + r - 65535 + 1 * 65535) at 2 by lia. by rewrite Z.mod_add.
Qed.

Lemma words_sum_app l1 l2 : Nat.Even (length l1) -> words_sum (l1 ++ l2) = words_sum l1 + words_sum l2.
Proof.
  intros [k Hk]. revert l1 Hk. induction k as [ | k IH]; intros l1 Hk.
  - destruct l1; [done | simpl in Hk; lia].
  - destruct l1 as [ | a [ | b l1]]; [simpl in Hk; lia | simpl in Hk; lia | ].
    cbn [app words_sum]. rewrite IH by (simpl in Hk; lia). lia.
Qed.

Lemma words_sum_bound l : Forall is_byte l -> 0 <= words_sum l <= 65535 * len l.
Proof.
  assert (forall n l, (length l <= n)%nat -> Forall is_byte l -> 0 <= words_sum l <= 65535 * len l) as H.
  { clear l. induction n as [ | n IH]; intros l Hn Hl.
    - destruct l; [simpl; lia | simpl in Hn; lia].
    - destruct l as [ | a [ | b l]]; [simpl; lia | | ].
      + apply Forall_cons in Hl as [Ha _]. unfold is_byte in Ha. simpl. lia.
      + apply Forall_cons in Hl as [Ha [Hb Hl]%Forall_cons]. unfold is_byte in *.
        specialize (IH l ltac:(simpl in Hn; lia) Hl). cbn [words_sum length]. lia. }
  apply (H (length l) l). done.
Qed.

Lemma csum_loop_ok buf l P Q fuel sum :
  buf = P ++ l ++ Q -> (length l <= fuel)%nat ->
  exists l1 l2, l = l1 ++ l2 /\ (length l2 < 2)%nat /\ Nat.Even (length l1) /\
    csum_loop buf fuel (len P) (len l) sum = Ok (len P + len l1, len l2, sum + words_sum l1).
Proof.
  revert l P sum. induction fuel as [ | fuel IH]; intros l P sum Hbuf Hf.
  - destruct l; [ | simpl in Hf; lia]. exists [], []. split; [done | ]. split; [simpl; lia | ].
    split; [by exists 0%nat | ]. cbn. apply f_equal, f_equal2; [apply f_equal2 | ]; lia.
  - destruct l as [ | a [ | b l]].
    + exists [], []. split; [done | ]. split; [simpl; lia | ]. split; [by exists 0%nat | ]. cbn. apply f_equal, f_equal2; [apply f_equal2 | ]; lia.
    + exists [], [a]. split; [done | ]. split; [simpl; lia | ]. split; [by exists 0%nat | ]. cbn. apply f_equal, f_equal2; [apply f_equal2 | ]; lia.
    + assert (csum_loop buf (S fuel) (len P) (len (a :: b :: l)) sum =
        csum_loop buf fuel (len (P ++ [a; b])) (len l) (sum + (a + 256 * b))) as ->.
      { cbn [csum_loop]. case_if; [ | simpl length in *; lia].
        unfold get16, get_le. rewrite load_ok by (rewrite ?Hbuf, ?length_app; simpl; lia). rewrite !obind_ok.
        f_equal; [rewrite length_app; simpl; lia | simpl; lia | ].
        rewrite Hbuf. unfold slice. rewrite !Nat2Z.id, drop_app_length. cbn [app take le_val]. rewrite take_0. simpl. lia. }
      destruct (IH l (P ++ [a; b]) (sum + (a + 256 * b))) as (l1 & l2 & -> & Hl2 & [k Hk] & E).
      { by rewrite Hbuf, <- app_assoc. } { simpl in Hf. lia. }
      exists (a :: b :: l1), l2. split; [done | ]. split; [done | ]. split; [exists (S k); simpl; lia | ].
      rewrite E. cbn [words_sum length]. rewrite length_app. simpl length. apply f_equal, f_equal2; [apply f_equal2 | ]; lia.
Qed.

Lemma u16_lnot s : u16 (i16 (Z.lnot s)) = 65535 - s mod 65536.
Proof.
  unfold u16, i16, uwrap, swrap, Z.lnot. change (2 ^ 16) with 65536. change (2 ^ (16 - 1)) with 32768.
  pose proof (Z.div_mod s 65536 ltac:(lia)). pose proof (Z.mod_pos_bound s 65536 ltac:(lia)).
  rewrite Zminus_mod_idemp_l. symmetry. apply (Z.mod_unique _ _ (- (s / 65536) - 1)); lia.
Qed.

(** [csum] is the complement of the folded word sum of the bytes it is given. *)
Lemma csum_spec buf l P Q :
  buf = P ++ l ++ Q -> csum buf (len P) (len l) = Ok (65535 - fold16 (words_sum l)).
Proof.
  intros Hbuf. unfold csum. rewrite Nat2Z.id.
  destruct (csum_loop_ok buf l P Q (length l) 0 Hbuf ltac:(lia)) as (l1 & l2 & -> & Hl2 & Hev & ->).
  rewrite obind_ok, words_sum_app by done. cbv beta iota.
  assert ((if len l2 =? 1 then let! b := get8 buf (len P + len l1) in Ok (0 + words_sum l1 + b)
           else Ok (0 + words_sum l1)) = Ok (words_sum l1 + words_sum l2)) as ->.
  { destruct l2 as [ | b [ | ]]; [simpl; f_equal; lia | | simpl in Hl2; lia].
    cbn [length Z.eqb Z.of_nat Pos.of_succ_nat Pos.eqb]. unfold get8.
    rewrite Hbuf, <- app_assoc, (app_assoc P). change ([b] ++ Q) with (b :: Q). rewrite rd_app by (rewrite length_app; lia). rewrite obind_ok.
    simpl. f_equal; lia. }
  rewrite obind_ok. cbv zeta. by rewrite u16_lnot.
Qed.

(** Placing the checksum of a string in a zero field at an even offset. *)
Lemma words_sum_field P a b Q :
  Nat.Even (length P) -> words_sum (P ++ a :: b :: Q) = words_sum (P ++ 0 :: 0 :: Q) + (a + 256 * b).
Proof. intros HP. rewrite !words_sum_app by done. cbn [words_sum]. lia. Qed.

(** ** The packet *)

(** The 28 bytes of the IP and UDP headers. *)
Definition headers (tot check ulen : Z) (mine dst : sockaddr_in) : bytes :=
  [69; 0] ++ le_bytes 2 tot ++ le_bytes 2 0 ++ le_bytes 2 0 ++ [255; 17] ++ le_bytes 2 check ++
  le_bytes 4 (s_addr mine) ++ le_bytes 4 (s_addr dst) ++
  le_bytes 2 (sin_port mine) ++ le_bytes 2 (sin_port dst) ++ le_bytes 2 ulen ++ le_bytes 2 0.

Lemma init_rawsock_ok ctx mine dst :
  PAXOS_LEN <= len (datagram ctx) ->
  init_rawsock ctx mine dst =
    Ok (set_datagram (headers 0 0 0 mine dst ++ replicate 74 0 ++ drop 102 (datagram ctx)) ctx).
Proof.
  unfold PAXOS_LEN. intros Hlen. unfold init_rawsock. cbv zeta.
  rewrite store_ok by (rewrite ?length_replicate; unfold PAXOS_LEN; lia). rewrite obind_ok.
  unfold splice. change (take (Z.to_nat 0) (datagram ctx)) with (@nil Z). rewrite length_replicate.
  change (Z.to_nat 0 + Z.to_nat PAXOS_LEN)%nat with 102%nat.
  change (replicate (Z.to_nat PAXOS_LEN) 0) with (replicate 28 0 ++ replicate 74 0).
  rewrite <- app_assoc, app_nil_l. set (r := replicate 74 0 ++ drop 102 (datagram ctx)). clearbody r.
  unfold set_ihl, set_version, set16, set32. hnorm (replicate 28 0).
  repeat (rewrite ?obind_assoc; hstep). reflexivity.
Qed.

(** The first message after [init_rawsock]: [tot_len] is still zero when the
    checksum is taken. *)
Lemma paxos_send_first sent ctx msg msglen mine dst r :
  datagram ctx = headers 0 0 0 mine dst ++ r -> 0 <= msglen <= len r -> msglen <= len msg -> msglen <= 65507 ->
  let h := headers (28 + msglen) 65535 (htons (8 + msglen)) mine dst in
  let m := take (Z.to_nat msglen) msg in
  paxos_send sent ctx msg msglen =
    Ok (Sent (rawsock ctx) (h ++ m) (dest ctx) ::
          (if sent <? 0 then [Perror (lit "sendto failed")]
           else [Printed (lit "Packet Send. Length : " ++ dec (28 + msglen) ++ lit " ")]),
        set_datagram (h ++ m ++ drop (length m) r) ctx).
Proof.
  intros Hd Hr Hm Hbig h m. unfold paxos_send. rewrite Hd. cbv zeta.
  rewrite load_ok, obind_ok by lia. unfold slice. change (drop (Z.to_nat 0) msg) with msg. fold m.
  assert (len m = msglen) as Hlm by (unfold m; rewrite length_take; lia).
  assert (store (headers 0 0 0 mine dst ++ r) 28 m = Ok (headers 0 0 0 mine dst ++ m ++ drop (length m) r)) as ->
    by (apply (store_after (headers 0 0 0 mine dst)); lia).
  rewrite obind_ok. set (q := m ++ drop (length m) r).
  unfold get16 at 1. rewrite get_le_app by (simpl; lia). change (get_le 2 (headers 0 0 0 mine dst) 2) with (Ok 0).
  rewrite obind_ok. change (csum (headers 0 0 0 mine dst ++ q) 0 0) with (Ok 65535). rewrite obind_ok.
  assert (forall t c u, set16 (headers t c u mine dst ++ q) 10 65535 = Ok (headers t 65535 u mine dst ++ q)) as E1
    by (intros; unfold set16; rewrite set_le_app by (simpl; lia); reflexivity).
  assert (forall t c u v, set16 (headers t c u mine dst ++ q) 2 v = Ok (headers v c u mine dst ++ q)) as E2
    by (intros; unfold set16; rewrite set_le_app by (simpl; lia); reflexivity).
  assert (forall t c u v, set16 (headers t c u mine dst ++ q) 24 v = Ok (headers t c v mine dst ++ q)) as E3
    by (intros; unfold set16; rewrite set_le_app by (simpl; lia); reflexivity).
  assert (forall t c u, set16 (headers t c u mine dst ++ q) 26 0 = Ok (headers t c u mine dst ++ q)) as E4
    by (intros; unfold set16; rewrite set_le_app by (simpl; lia); reflexivity).
  rewrite E1, obind_ok. cstep. rewrite E2, obind_ok. cstep.
  rewrite (u16_small (8 + msglen)) by lia. rewrite E3, obind_ok, E4, obind_ok.
  assert (get16 (headers (28 + msglen) 65535 (htons (8 + msglen)) mine dst ++ q) 2 = Ok (28 + msglen)) as ->.
  { unfold get16. rewrite get_le_app by (simpl; lia).
    change (get_le 2 (headers (28 + msglen) 65535 (htons (8 + msglen)) mine dst) 2)
      with (Ok (le_val (le_bytes 2 (28 + msglen)))).
    rewrite le_val_bytes. f_equal. apply Z.mod_small. simpl. lia. }
  rewrite obind_ok. fold h. unfold q. rewrite app_assoc, load_prefix, obind_ok; [by rewrite <- app_assoc | ].
  unfold h. rewrite length_app. cbn [length headers app le_bytes]. lia.
Qed.

(** ** Properties *)

(** Adding the complement of the folded sum makes the sum a non-zero multiple of 65535,
    whose fold is 65535. *)
Lemma fold16_complement s :
  0 <= s <= 65535 * 65536 -> fold16 (s + (65535 - fold16 s)) = 65535.
Proof.
  intros Hs. destruct (fold16_spec s ltac:(lia)) as (Hf & Hmod & Hz).
  set (c := 65535 - fold16 s) in *. destruct (fold16_spec (s + c) ltac:(lia)) as (Hf' & Hmod' & Hz').
  assert ((s + c) mod 65535 = 0) as E0.
  { unfold c. replace (s + (65535 - fold16 s)) with (s - fold16 s + 1 * 65535) by lia.
    rewrite Z.mod_add by lia. rewrite Zminus_mod, Hmod, Z.sub_diag. done. }
  rewrite E0 in Hmod'. assert (fold16 (s + c) <> 0) by (rewrite Hz'; lia).
  destruct (Z.eq_dec (fold16 (s + c)) 65535); [done | ]. rewrite Z.mod_small in Hmod' by lia. lia.
Qed.
Lemma le_bytes_2 c : 0 <= c <= 65535 -> exists a b, le_bytes 2 c = [a; b] /\ a + 256 * b = c.
Proof.
  intros Hc. eexists _, _. split; [reflexivity | ].
  pose proof (Z.div_mod c 256). pose proof (Z.mod_pos_bound c 256).
  assert (c / 256 < 256) by (apply Z.div_lt_upper_bound; lia). assert (0 <= c / 256) by (apply Z.div_pos; lia).
  rewrite (Z.mod_small (c / 256)) by lia. lia.
Qed.

(** C16. The Internet checksum.  Of the bytes it is given, up to 65536 of them anywhere in
    a buffer, [csum] returns the one's complement checksum: the 16-bit number whose sum
    with the little-endian 16-bit words of the bytes, an odd last byte counted as a word of
    its own, is a multiple of 65535, and which is 65535 exactly if all the words are zero;
    no byte outside is read.  So a receiver can verify it: with the value written into a
    zero 16-bit field at an even offset, [csum] of the string is zero. *)
Theorem csum_verifies :
  (forall P l Q, Forall is_byte l -> len l <= 65536 ->
     exists c, csum (P ++ l ++ Q) (len P) (len l) = Ok c /\
       0 <= c <= 65535 /\ (words_sum l + c) mod 65535 = 0 /\ (c = 65535 <-> words_sum l = 0)) /\
  (forall P Q, Nat.Even (length P) -> Forall is_byte (P ++ Q) -> len (P ++ Q) <= 65534 ->
     exists c, csum (P ++ 0 :: 0 :: Q) 0 (len (P ++ 0 :: 0 :: Q)) = Ok c /\
       csum (P ++ le_bytes 2 c ++ Q) 0 (len (P ++ le_bytes 2 c ++ Q)) = Ok 0).
Proof.
  split.
  - intros P l Q Hb Hlen. eexists. split; [by apply (csum_spec _ _ P Q) | ].
    pose proof (words_sum_bound l Hb) as HS. destruct (fold16_spec (words_sum l) ltac:(lia)) as (Hf & Hmod & Hz).
    split; [lia | ]. split; [ | rewrite <- Hz; lia].
    replace (words_sum l + (65535 - fold16 (words_sum l))) with (words_sum l - fold16 (words_sum l) + 1 * 65535) by lia.
    rewrite Z.mod_add by lia. rewrite Zminus_mod, Hmod, Z.sub_diag. done.
  - intros P Q HP Hb Hlen.
    assert (forall l, csum l 0 (len l) = Ok (65535 - fold16 (words_sum l))) as Hcs.
    { intros l. apply (csum_spec l l [] []). by rewrite app_nil_r. }
    eexists. split; [apply Hcs | ]. rewrite Hcs. f_equal.
    set (S := words_sum (P ++ 0 :: 0 :: Q)).
    assert (0 <= S <= 65535 * 65536) as HS.
    { apply Forall_app in Hb as [HbP HbQ].
      pose proof (words_sum_bound (P ++ 0 :: 0 :: Q)) as H. rewrite length_app in H, Hlen. cbn [length] in H.
      assert (Forall is_byte (P ++ 0 :: 0 :: Q)) as HF
        by (apply Forall_app_2; [done | ]; repeat constructor; done || (unfold is_byte; lia)).
      specialize (H HF). fold S in H. lia. }
    destruct (fold16_spec S ltac:(lia)) as (Hf & _ & _).
    destruct (le_bytes_2 (65535 - fold16 S) ltac:(lia)) as (a & b & -> & Hab).
    cbn [app]. rewrite words_sum_field by done. fold S. rewrite Hab, fold16_complement by done. lia.
Qed.

Lemma csum_verifies_witness :
  (exists c, csum ([9] ++ [69; 0; 0; 40; 7] ++ [8; 8]) (len [9]) (len [69; 0; 0; 40; 7]) = Ok c /\
     0 <= c <= 65535 /\ (words_sum [69; 0; 0; 40; 7] + c) mod 65535 = 0 /\ (c = 65535 <-> words_sum [69; 0; 0; 40; 7] = 0)) /\
  words_sum [69; 0; 0; 40; 7] = 69 + 40 * 256 + 7 /\
  (exists c, csum ([69; 0; 0; 40] ++ 0 :: 0 :: [1]) 0 (len ([69; 0; 0; 40] ++ 0 :: 0 :: [1])) = Ok c /\
     csum ([69; 0; 0; 40] ++ le_bytes 2 c ++ [1]) 0 (len ([69; 0; 0; 40] ++ le_bytes 2 c ++ [1])) = Ok 0).
Proof.
  split; [ | split; [reflexivity | ]].
  - apply (proj1 csum_verifies [9] [69; 0; 0; 40; 7] [8; 8]); [repeat constructor; lia | vm_compute; discriminate].
  - apply (proj2 csum_verifies [69; 0; 0; 40] [1]);
      [exists 2%nat; reflexivity | repeat constructor; lia | vm_compute; discriminate].
Defined.

(** The first packet of both programs, for any message that fits the datagram
    buffer: version 4, header length 5, ttl 255, protocol UDP, the ports and
    addresses of the two socket addresses, total length 28 plus the message,
    UDP length 8 plus the message, the message itself; the identification is 0
    (the 32-bit [htonl(54321)] cut to 16 bits) and the header checksum is 0xffff,
    because it is taken over [tot_len] bytes while [tot_len] is still 0. *)
Theorem first_packet sent sock junk msg mine dst :
  PAXOS_LEN <= len junk -> len msg + 28 <= len junk -> len msg <= 65507 ->
  exists ctx ctx' evs,
    init_rawsock (mk_proposer sock junk dst) mine dst = Ok ctx /\
    paxos_send sent ctx msg (len msg) =
      Ok (Sent sock (headers (28 + len msg) 65535 (htons (8 + len msg)) mine dst ++ msg) dst :: evs, ctx').
Proof.
  intros H1 H2 H3. unfold PAXOS_LEN in H1.
  pose proof (init_rawsock_ok (mk_proposer sock junk dst) mine dst H1) as E.
  cbn [datagram] in E. set (ctx := set_datagram _ _) in E. exists ctx.
  pose proof (paxos_send_first sent ctx msg (len msg) mine dst (replicate 74 0 ++ drop 102 junk)) as E'.
  rewrite length_app, length_replicate, length_drop, Nat2Z.id, take_ge in E' by lia.
  eexists _, _. split; [done | ]. apply E'; [done | lia | lia | lia].
Qed.

Lemma first_packet_witness :
  exists ctx ctx' evs,
    init_rawsock (mk_proposer 3 (replicate 102 7) (mk_sockaddr 8 9)) (mk_sockaddr 5 6) (mk_sockaddr 8 9) = Ok ctx /\
    paxos_send 40 ctx (lit "ABC") (len (lit "ABC")) =
      Ok (Sent 3 (headers (28 + len (lit "ABC")) 65535 (htons (8 + len (lit "ABC"))) (mk_sockaddr 5 6) (mk_sockaddr 8 9)
                  ++ lit "ABC") (mk_sockaddr 8 9) :: evs, ctx').
Proof. apply (first_packet 40 3 (replicate 102 7) (lit "ABC") (mk_sockaddr 5 6) (mk_sockaddr 8 9)); vm_compute; discriminate. Defined.

(** A message longer than the space behind the headers overflows the datagram
    buffer: from 1473 bytes in [checksum], from 75 bytes in [raw_socket]. *)
Theorem paxos_send_overflow sent ctx msg msglen :
  len (datagram ctx) < 28 + msglen -> 0 <= msglen -> paxos_send sent ctx msg msglen = Ub.
Proof.
  intros H1 H2. unfold paxos_send. unfold load. destruct (in_buf msg 0 msglen) eqn:E; [ | done].
  apply in_buf_spec in E. rewrite obind_ok, store_oob; [done | ].
  right. rewrite length_slice by lia. lia.
Qed.

Lemma paxos_send_overflow_witness :
  paxos_send 0 (mk_proposer 3 (replicate 102 0) (mk_sockaddr 1 2)) (replicate 75 65) 75 = Ub.
Proof. apply paxos_send_overflow; [reflexivity | discriminate]. Defined.

(** The whole of [main] in both programs: without a socket the program exits
    with code 1; otherwise it sends one packet of 40 bytes to 224.3.29.73 port
    34952 and reports the result of [sendto]. *)
Theorem raw_main_packets junk s sent :
  1500 <= len junk ->
  let mine := mk_sockaddr (htons 12345) (ip4 192 168 4 97) in
  let dst := mk_sockaddr (htons 34952) (ip4 224 3 29 73) in
  let result := if s =? -1 then Exit 1
    else Ok [Sent s (headers 40 65535 (htons 20) mine dst ++ lit "ABC123456789") dst;
             if sent <? 0 then Perror (lit "sendto failed") else Printed (lit "Packet Send. Length : 40 ")] in
  main junk s sent = result /\ raw_main junk s sent = result.
Proof.
  intros Hj mine dst result.
  assert (forall junk, 102 <= len junk -> main junk s sent = result) as H.
  { clear junk Hj. intros junk Hj. unfold main, create_rawsock, result. cbv zeta.
    destruct (s =? -1); [done | ]. rewrite obind_ok. fold mine dst.
    rewrite init_rawsock_ok by done. rewrite obind_ok.
    change (cstr (lit "ABC123456789" ++ [0]) 0) with (Ok (lit "ABC123456789")). rewrite obind_ok.
    rewrite (paxos_send_first sent _ _ _ mine dst (replicate 74 0 ++ drop 102 junk)), obind_ok.
    - by destruct (sent <? 0).
    - done.
    - rewrite length_app, length_replicate. simpl. lia.
    - simpl. lia.
    - simpl. lia. }
  split; [apply H; lia | ]. unfold raw_main, PAXOS_LEN. apply H. rewrite length_take. lia.
Qed.

Lemma raw_main_packets_witness :
  main (replicate 1500 0) (-1) 0 = Exit 1 /\ raw_main (replicate 1500 0) (-1) 0 = Exit 1.
Proof. apply (raw_main_packets (replicate 1500 0) (-1) 0). vm_compute. discriminate. Defined.
End Checksum.
