(* ===== verification/Sys.v ===== *)
(** * Programs that talk to the operating system

    A program asks the system (socket calls, library calls) and prints; the
    answers it gets are a list given to the model, and the model returns what it
    asked and printed, also when it exits early.  [NoFuel] is the end of the
    list: the program waits for an answer. *)
From S2P Require Import Prelude CLib.

(** What is visible from outside: a call with its integer arguments and the bytes
    passed to it, a line on stdout, a line on stderr. *)
Inductive event :=
  | Call (fn : string) (args : list Z) (data : bytes)
  | Out (line : bytes)
  | Err (line : bytes).
#[global] Instance event_eq_dec : EqDecision event.
Proof. solve_decision. Defined.

(** An answer: the returned value, [errno] and the bytes written by the call. *)
Record answer := mk_answer { ret : Z; errno : Z; filled : bytes }.
Definition ok (r : Z) : answer := mk_answer r 0 [].
Definition fails (e : Z) : answer := mk_answer (-1) e [].

(** The trace and the outcome, with the answers that are left. *)
Definition io (A : Type) : Type := list answer -> list event * outcome (A * list answer).

Definition iret {A} (a : A) : io A := fun ans => ([], Ok (a, ans)).
Definition ibind {A B} (m : io A) (k : A -> io B) : io B :=
  fun ans =>
    match m ans with
    | (t, Ok (a, ans)) => let '(t', r) := k a ans in (t ++ t', r)
    | (t, Exit c) => (t, Exit c)
    | (t, Ub) => (t, Ub)
    | (t, NoFuel) => (t, NoFuel)
    end.
Notation "'let?' x ':=' e 'in' k" := (ibind e (fun x => k))
  (at level 10, x binder, e at level 100, k at level 200,
   format "'[v' 'let?'  x  ':='  e  'in'  '/' k ']'") : c_scope.

Definition ask (fn : string) (args : list Z) (data : bytes) : io answer :=
  fun ans =>
    match ans with
    | a :: ans => ([Call fn args data], Ok (a, ans))
    | [] => ([Call fn args data], NoFuel)
    end.
(** A call whose result is not used. *)
Definition tell (e : event) : io unit := fun ans => ([e], Ok (tt, ans)).
Definition lift {A} (o : outcome A) : io A :=
  fun ans => ([], let! a := o in Ok (a, ans)).
Definition stop {A} (c : Z) : io A := fun _ => ([], Exit c).

(** [exit(EXIT_FAILURE)] after messages on stderr. *)
Definition die {A} (msg : bytes) : io A := let? _ := tell (Err msg) in stop 1.

(** A loop over a list, without result. *)
Fixpoint ifor {A} (f : A -> io unit) (l : list A) : io unit :=
  match l with
  | [] => iret tt
  | a :: l => let? _ := f a in ifor f l
  end.

(** ** Lemmas: running a program on given answers *)
Lemma ibind_ok {A B} (m : io A) (k : A -> io B) ans t a ans' :
  m ans = (t, Ok (a, ans')) -> ibind m k ans = (t ++ fst (k a ans'), snd (k a ans')).
Proof. intros H. unfold ibind. rewrite H. by destruct (k a ans'). Qed.
Lemma ibind_exit {A B} (m : io A) (k : A -> io B) ans t c :
  m ans = (t, Exit c) -> ibind m k ans = (t, Exit c).
Proof. intros H. unfold ibind. by rewrite H. Qed.
Lemma ibind_lift {A B} (o : outcome A) a (k : A -> io B) ans :
  o = Ok a -> ibind (lift o) k ans = k a ans.
Proof. intros ->. unfold ibind, lift. rewrite obind_ok. by destruct (k a ans). Qed.
