(* ===== verification/Net.v ===== *)
(** * The socket helpers of [fast_leveldb/src/net.c]

    (the same file as [how-to-receive-a-million-packets/net.c]): parsing and
    printing of addresses, binding and connecting of UDP sockets, spawning of
    threads.  The messages of FATAL and PFATAL are modelled without the source
    location they append.  The conversions [inet_pton] and [inet_ntop] are
    parameters. *)
From S2P Require Import Prelude CLib Bytes Sys.

Module Net.

(** [struct net_addr]; ports as stored (network order), an IPv6 address as its
    16 bytes. *)
Inductive which := NoAddr | Sin4 | Sin6.
Record net_addr := mk_net_addr {
  ipver : Z;
  sin4_port : Z; sin4_addr : Z;
  sin6_port : Z; sin6_addr : bytes;
  sockaddr : which;
  sockaddr_len : Z
}.
Definition SIZEOF_SIN4 : Z := 16.

(** [snprintf(buf, n, ...)] keeps at most [n - 1] characters. *)
Definition snprintf (n : nat) (s : bytes) : bytes := take (n - 1) s.

Definition str_quote (s : bytes) : bytes := snprintf 1024 ([34] ++ take 1020 s ++ [34]).

Definition fatal {A} (msg : bytes) : io A := die (lit "[-] PROGRAM ABORT : " ++ msg).
Definition pfatal {A} (msg : bytes) : io A := die (lit "[-] SYSTEM ERROR : " ++ msg).

Definition SOL_SOCKET : Z := 1.
Definition SO_REUSEADDR : Z := 2.
Definition SO_SNDBUF : Z := 7.
Definition SO_RCVBUF : Z := 8.
Definition SO_REUSEPORT : Z := 15.
Definition AF_INET : Z := 2.
Definition SOCK_DGRAM : Z := 2.
Definition IPPROTO_UDP : Z := 17.
Definition EINPROGRESS : Z := 115.

(** The loop of [net_set_buffer_size]: [size] is the outer variable, which the
    declaration inside the loop shadows. *)
Fixpoint buffer_loop (cd max flag : Z) (fuel : nat) (i size : Z) : io unit :=
  if (i <? 10) && negb (size =? 0) then
    match fuel with
    | O => lift NoFuel
    | S fuel =>
        let? a := ask "getsockopt" [cd; SOL_SOCKET; flag] [] in
        if ret a <? 0 then pfatal (lit "getsockopt(SOL_SOCKET)")
        else
          let bef := ret a in
          if bef >=? max then iret tt
          else
            let? inner := lift (cint (bef * 2)) in
            let? b := ask "setsockopt" [cd; SOL_SOCKET; flag; inner] [] in
            if ret b <? 0 then iret tt else buffer_loop cd max flag fuel (i + 1) size
    end
  else iret tt.
Definition net_set_buffer_size (cd max send : Z) : io unit :=
  let flag := if send =? 0 then SO_RCVBUF else SO_SNDBUF in
  let size := 0 in
  buffer_loop cd max flag 10 0 size.

(** [strrchr(addr, ':')]: the text before and after the last colon. *)
Fixpoint split_colon (s : bytes) : option (bytes * bytes) :=
  match s with
  | [] => None
  | c :: s =>
      match split_colon s with
      | Some (h, p) => Some (c :: h, p)
      | None => if c =? 58 then Some ([], s) else None
      end
  end.

Section Addr.
(** [inet_pton] and [inet_ntop] for the two families. *)
Context (pton4 : bytes -> option Z) (pton6 : bytes -> option bytes)
        (ntop4 : Z -> bytes) (ntop6 : bytes -> bytes).

Definition net_gethostbyname (host : bytes) (port : Z) : io net_addr :=
  match pton4 host with
  | Some a => iret (mk_net_addr 4 (htons (u16 port)) a 0 [] Sin4 SIZEOF_SIN4)
  | None =>
      match pton6 host with
      | Some a => iret (mk_net_addr 6 0 0 (htons (u16 port)) a Sin6 SIZEOF_SIN4)
      | None => fatal (lit "inet_pton(" ++ str_quote host ++ lit ")")
      end
  end.

Definition parse_addr (addr : bytes) : io net_addr :=
  match split_colon addr with
  | None => fatal (lit "You forgot to specify port")
  | Some (before, after) =>
      let? port := lift (atoi after) in
      if (port <? 0) || (port >? 65535) then fatal (lit "Invalid port number " ++ dec port)
      else net_gethostbyname (take 254 before) port
  end.

Definition addr_to_str (a : net_addr) : bytes :=
  let '(dst, port) :=
    if ipver a =? 4 then (ntop4 (sin4_addr a), ntohs (sin4_port a))
    else if ipver a =? 16 then (ntop6 (sin6_addr a), ntohs (sin6_port a))
    else (lit "?", 0) in
  snprintf 255 (dst ++ lit ":" ++ dec port).

(** The bytes of the address [bind] and [connect] are given: family, port and the
    start of the address, cut to [sockaddr_len]. *)
Definition sockaddr_args (a : net_addr) : list Z :=
  match sockaddr a with
  | Sin4 => [4; sin4_port a; sin4_addr a; sockaddr_len a]
  | Sin6 => [6; sin6_port a; sockaddr_len a]
  | NoAddr => []
  end.

Definition net_bind_udp (shost : net_addr) (reuseport : Z) : io Z :=
  let? s := ask "socket" [AF_INET; SOCK_DGRAM; IPPROTO_UDP] [] in
  let sd := ret s in
  if sd <? 0 then pfatal (lit "socket()")
  else
    let? a := ask "setsockopt" [sd; SOL_SOCKET; SO_REUSEADDR; 1] [] in
    let r := ret a in
    if r <? 0 then pfatal (lit "setsockopt(SO_REUSEADDR)")
    else
      let? _ :=
        if reuseport =? 0 then iret tt
        else
          let? _ := ask "setsockopt" [sd; SOL_SOCKET; SO_REUSEPORT; 1] [] in
          if r <? 0 then pfatal (lit "setsockopt(SO_REUSEPORT)") else iret tt in
      let? b := ask "bind" (sd :: sockaddr_args shost) (sin6_addr shost) in
      if ret b <? 0 then pfatal (lit "bind()") else iret sd.

Definition net_connect_udp (shost : net_addr) (src_port : Z) : io Z :=
  let? s := ask "socket" [AF_INET; SOCK_DGRAM; IPPROTO_UDP] [] in
  let sd := ret s in
  if sd <? 0 then pfatal (lit "socket()")
  else
    let? a := ask "setsockopt" [sd; SOL_SOCKET; SO_REUSEADDR; 1] [] in
    if ret a <? 0 then pfatal (lit "setsockopt(SO_REUSEADDR)")
    else
      let? _ :=
        if (src_port >? 1) && (src_port <? 65536) then
          let? src := parse_addr (snprintf 32 (lit "0.0.0.0:" ++ dec src_port)) in
          let? b := ask "bind" (sd :: sockaddr_args src) (sin6_addr src) in
          if ret b <? 0 then pfatal (lit "bind()") else iret tt
        else iret tt in
      let? c := ask "connect" (sd :: sockaddr_args shost) (sin6_addr shost) in
      if (ret c =? -1) && negb (errno c =? EINPROGRESS) then pfatal (lit "connect()")
      else iret sd.
End Addr.

(** [thread_spawn]: the thread is identified by its argument. *)
Definition thread_spawn (id : Z) : io unit :=
  let? r := ask "pthread_create" [id] [] in
  if ret r =? 0 then iret tt else pfatal (lit "pthread_create()").
(** [_thread_start] runs the callback with all signals blocked. *)
Definition thread_start (callback : io unit) : io unit :=
  let? r := ask "pthread_sigmask" [2] [] in
  if ret r =? 0 then callback else pfatal (lit "pthread_sigmask()").

(** ** Lemmas *)
Lemma split_colon_none s : Forall (fun c => c <> 58) s -> split_colon s = None.
Proof.
  induction 1 as [ | c s Hc _ IH]; [done | ]. cbn. rewrite IH, (proj2 (Z.eqb_neq c 58)) by done. done.
Qed.
Lemma split_colon_app h p : Forall (fun c => c <> 58) p -> split_colon (h ++ 58 :: p) = Some (h, p).
Proof.
  intros Hp. induction h as [ | c h IH]; cbn.
  - by rewrite split_colon_none.
  - by rewrite IH.
Qed.

Lemma dec_no_colon n : Forall (fun c => c <> 58) (dec n).
Proof.
  assert (forall fuel m, 0 <= m -> Forall (fun c => c <> 58) (dec_digits fuel m [])) as H.
  { intros fuel m Hm. eapply Forall_impl; [by apply (dec_digits_digits fuel m []) | ].
    intros c Hc. apply isdigit_spec in Hc. lia. }
  unfold dec. case_if; [constructor; [lia | ] | ]; apply H; lia.
Qed.

Lemma length_dec n : (length (dec n) <= 11)%nat.
Proof.
  assert (forall fuel m acc, (length (dec_digits fuel m acc) <= fuel + length acc)%nat) as H.
  { induction fuel as [ | fuel IH]; intros m acc; cbn; [lia | ]. case_if; [simpl; lia | ].
    specialize (IH (m / 10) ((48 + m mod 10) :: acc)). simpl in IH. lia. }
  unfold dec. case_if; cbn [length]; pose proof (H 10%nat (- n) []); pose proof (H 10%nat n []); simpl in *; lia.
Qed.

(** ** Properties *)
Section Props.
Context (pton4 : bytes -> option Z) (pton6 : bytes -> option bytes)
        (ntop4 : Z -> bytes) (ntop6 : bytes -> bytes).

(** C28. [parse_addr] on a host, a colon and a decimal port (any [int]): ports
    outside 0..65535 abort the program with exit code 1, and otherwise the text
    before the last colon, cut to 254 bytes, is resolved with that port; without
    a colon the program aborts as well. *)
Theorem parse_addr_spec host port :
  INT_MIN <= port <= INT_MAX ->
  (forall ans, parse_addr pton4 pton6 (host ++ lit ":" ++ dec port) ans =
    if (0 <=? port) && (port <=? 65535)
    then net_gethostbyname pton4 pton6 (take 254 host) port ans
    else ([Err (lit "[-] PROGRAM ABORT : Invalid port number " ++ dec port)], Exit 1)) /\
  (forall s ans, Forall (fun c => c <> 58) s ->
    parse_addr pton4 pton6 s ans = ([Err (lit "[-] PROGRAM ABORT : You forgot to specify port")], Exit 1)).
Proof.
  intros Hp. split.
  - intros ans. unfold parse_addr. change (lit ":" ++ dec port) with (58 :: dec port).
    rewrite split_colon_app by apply dec_no_colon. rewrite (ibind_lift _ port) by (by apply atoi_dec).
    destruct ((0 <=? port) && (port <=? 65535)) eqn:E.
    + zbool. rewrite (proj2 (Z.ltb_ge _ _)), Z.gtb_ltb, (proj2 (Z.ltb_ge _ _)) by lia. done.
    + assert ((port <? 0) || (port >? 65535) = true) as ->; [ | done].
      rewrite orb_true_iff, Z.gtb_ltb, !Z.ltb_lt. apply andb_false_iff in E. rewrite !Z.leb_gt in E. lia.
  - intros s ans Hs. unfold parse_addr. rewrite split_colon_none by done. done.
Qed.

(** C24. Addresses print and parse back: for an IPv4 address whose textual form
    [inet_pton] reads back, parsing what [addr_to_str] prints gives the same
    [net_addr], for every port. *)
Theorem addr_roundtrip a port ans :
  pton4 (ntop4 a) = Some a -> (length (ntop4 a) <= 15)%nat -> 0 <= port <= 65535 ->
  let addr := mk_net_addr 4 (htons port) a 0 [] Sin4 SIZEOF_SIN4 in
  addr_to_str ntop4 ntop6 addr = ntop4 a ++ lit ":" ++ dec port /\
  parse_addr pton4 pton6 (addr_to_str ntop4 ntop6 addr) ans = ([], Ok (addr, ans)).
Proof.
  intros Ha Hlen Hp addr.
  assert (addr_to_str ntop4 ntop6 addr = ntop4 a ++ lit ":" ++ dec port) as E.
  { unfold addr_to_str. cbn [ipver addr Z.eqb Pos.eqb sin4_addr sin4_port].
    rewrite ntohs_htons by lia. unfold snprintf. apply take_ge. pose proof (length_dec port).
    rewrite !length_app. change (length (lit ":")) with 1%nat. lia. }
  split; [done | ]. rewrite E. unfold parse_addr. change (lit ":" ++ dec port) with (58 :: dec port).
  rewrite split_colon_app by apply dec_no_colon. rewrite (ibind_lift _ port) by (apply atoi_dec; int_bounds).
  rewrite (proj2 (Z.ltb_ge _ _)), Z.gtb_ltb, (proj2 (Z.ltb_ge _ _)) by lia. cbn [orb].
  rewrite take_ge by lia. unfold net_gethostbyname. rewrite Ha, u16_small by lia. done.
Qed.

(** Departures from the evident intent: [net_set_buffer_size] never calls the
    system (its loop tests a variable that stays 0); an IPv6 address is printed
    as ["?:0"] and carries the length of an IPv4 socket address; a failing
    SO_REUSEPORT is not noticed by [net_bind_udp]. *)
Theorem net_departures :
  (forall cd max send ans, net_set_buffer_size cd max send ans = ([], Ok (tt, ans))) /\
  (forall host port a ans addr ans', pton4 host = None -> pton6 host = Some a ->
     net_gethostbyname pton4 pton6 host port ans = ([], Ok (addr, ans')) ->
     addr_to_str ntop4 ntop6 addr = lit "?:0" /\ sockaddr_len addr = SIZEOF_SIN4) /\
  (forall shost sd r reuse b, 0 <= sd -> 0 <= r -> 0 <= b ->
     snd (net_bind_udp shost 1 [ok sd; ok r; ok reuse; ok b]) = Ok (sd, [])).
Proof.
  split; [done | ]. split.
  - intros host port a ans addr ans' H4 H6. unfold net_gethostbyname. rewrite H4, H6. intros [= <- _]. done.
  - intros shost sd r reuse b Hsd Hr Hb. unfold net_bind_udp, ibind, ask, iret. 
    cbn [ret ok]. rewrite (proj2 (Z.ltb_ge sd 0)) by lia. cbn [ret ok].
    rewrite (proj2 (Z.ltb_ge r 0)) by lia. cbn. rewrite (proj2 (Z.ltb_ge b 0)) by lia. done.
Qed.
End Props.

(** Dotted-quad conversions on single-digit components, to instantiate the
    parameters. *)
Definition pton4_digits (s : bytes) : option Z :=
  match s with
  | [a; 46; b; 46; c; 46; d] =>
      if isdigit a && isdigit b && isdigit c && isdigit d
      then Some (ip4 (a - 48) (b - 48) (c - 48) (d - 48)) else None
  | _ => None
  end.
Definition ntop4_digits (a : Z) : bytes :=
  match le_bytes 4 a with
  | [a; b; c; d] => [a + 48; 46; b + 48; 46; c + 48; 46; d + 48]
  | _ => []
  end.

Lemma parse_addr_spec_witness :
  parse_addr pton4_digits (fun _ => None) (lit "1.2.3.4" ++ lit ":" ++ dec 70000) [] =
    ([Err (lit "[-] PROGRAM ABORT : Invalid port number " ++ dec 70000)], Exit 1).
Proof. apply (parse_addr_spec pton4_digits (fun _ => None) (lit "1.2.3.4") 70000). unfold INT_MIN, INT_MAX. lia. Defined.

Lemma addr_roundtrip_witness :
  let addr := mk_net_addr 4 (htons 4321) (ip4 1 2 3 4) 0 [] Sin4 SIZEOF_SIN4 in
  addr_to_str ntop4_digits (fun _ => []) addr = ntop4_digits (ip4 1 2 3 4) ++ lit ":" ++ dec 4321 /\
  parse_addr pton4_digits (fun _ => None) (addr_to_str ntop4_digits (fun _ => []) addr) [] = ([], Ok (addr, [])).
Proof.
  apply (addr_roundtrip pton4_digits (fun _ => None) ntop4_digits (fun _ => []) (ip4 1 2 3 4) 4321 []).
  - reflexivity.
  - simpl. lia.
  - lia.
Defined.

Lemma net_departures_witness :
  snd (net_bind_udp (mk_net_addr 4 0 0 0 [] Sin4 16) 1 [ok 3; ok 0; ok (-1); ok 0]) = Ok (3, []).
Proof.
  apply (net_departures pton4_digits (fun _ => None) ntop4_digits (fun _ => [])); lia.
Defined.
End Net.
