(* ===== verification/LevelServer.v ===== *)
(** * The UDP key-value server of [fast_leveldb] and its load generator

    [src/udpreceiver.c] receives batches of datagrams with [recvmmsg] into a ring
    of buffers and applies each as a request to LevelDB; [src/udpsender.c] sends
    one request over and over.  LevelDB is the class [LevelLib]. *)
From S2P Require Import Prelude CLib Bytes Sys Net.

Class LevelLib := {
  LWorld : Type;
  LDb : Type;
  (** results: handle ([None] for NULL), error message, state *)
  leveldb_open : bytes -> LWorld -> option LDb * option bytes * LWorld;
  leveldb_put : LDb -> bytes -> bytes -> LWorld -> option bytes * LWorld;
  leveldb_get : LDb -> bytes -> LWorld -> option bytes * option bytes;
  leveldb_delete : LDb -> bytes -> LWorld -> option bytes * LWorld
}.

(** What the server relies on: an operation that reports no error did what it
    says, one that reports an error changed nothing. *)
Class LevelLaws (L : LevelLib) := {
  lcontent : LWorld -> LDb -> option (gmap (list Z) (list Z));
  lput_ok d k v w m e w' : lcontent w d = Some m -> leveldb_put d k v w = (e, w') ->
    lcontent w' d = Some (match e with None => <[k := v]> m | Some _ => m end);
  lget_ok d k w m v : lcontent w d = Some m -> leveldb_get d k w = (v, None) -> v = m !! k;
  ldelete_ok d k w m e w' : lcontent w d = Some m -> leveldb_delete d k w = (e, w') ->
    lcontent w' d = Some (match e with None => delete k m | Some _ => m end)
}.

Module LevelServer.
Import Net.

(** [application.h] *)
Definition PUT : Z := 1.
Definition GET : Z := 2.
Definition DELETE : Z := 3.
Inductive return_code := SUCCESS | GOT_VALUE | NOT_FOUND | INVALID_OP | FAILED.
#[global] Instance return_code_eq_dec : EqDecision return_code.
Proof. solve_decision. Defined.

Definition MTU_SIZE : Z := 2048 - 64 * 2.
Definition MAX_MSG : Z := 512.
Definition EAGAIN : Z := 11.
Definition EINTR : Z := 4.
Definition ECONNREFUSED : Z := 111.

Section Server.
Context {L : LevelLib}.

(** [struct state] of the receiver; [messages] is reduced to the received
    lengths. *)
Record state := mk_state {
  fd : Z;
  bps : Z;
  pps : Z;
  msg_lens : list Z;
  buffers : list bytes;
  db : option LDb
}.

(** [calloc] of a state. *)
Definition zero_state : state :=
  mk_state 0 0 0 (replicate (Z.to_nat MAX_MSG) 0)
    (replicate (Z.to_nat MAX_MSG) (replicate (Z.to_nat MTU_SIZE) 0)) None.
Definition set_fd (f : Z) (s : state) : state :=
  mk_state f (bps s) (pps s) (msg_lens s) (buffers s) (db s).

(** [state_init]: the messages point to the buffers, the database is opened. *)
Definition state_init (s : state) (w : LWorld) : outcome (state * LWorld) :=
  match leveldb_open (lit "/tmp/testdb") w with
  | (_, Some _, _) => Exit 1
  | (d, None, w) => Ok (mk_state (fd s) (bps s) (pps s) (msg_lens s) (buffers s) d, w)
  end.

(** [deliver]: the return code, [*return_val] and the library's state. *)
Definition deliver (request : option bytes) (d : LDb) (w : LWorld) :
    outcome (return_code * option bytes * LWorld) :=
  match request with
  | None => Ok (FAILED, None, w)
  | Some req =>
      let! c := rd req 0 in
      if c =? 0 then Ok (FAILED, None, w)
      else
        let op := i8 c in
        if op =? PUT then
          let! ksize := rd req 1 in
          let! vsize := rd req 2 in
          let! k := load req 3 ksize in
          let! v := load req (3 + ksize) vsize in
          let '(err, w) := leveldb_put d k v w in
          Ok (match err with Some _ => FAILED | None => SUCCESS end, None, w)
        else if op =? GET then
          let! ksize := rd req 1 in
          let! k := load req 3 ksize in
          match leveldb_get d k w with
          | (v, Some _) => Ok (FAILED, v, w)
          | (Some v, None) => Ok (GOT_VALUE, Some v, w)
          | (None, None) => Ok (NOT_FOUND, None, w)
          end
        else if op =? DELETE then
          let! ksize := rd req 1 in
          let! k := load req 3 ksize in
          let '(err, w) := leveldb_delete d k w in
          Ok (match err with Some _ => FAILED | None => SUCCESS end, None, w)
        else Ok (INVALID_OP, None, w)
  end.

(** What [recvmmsg] reports: a result of at most 0 and the error number, or the number
    of datagrams, at least one, and the datagrams in order. *)
Inductive recv := RFail (e : Z) | RMsgs (d0 : bytes) (ds : list bytes).
Definition datagrams (m : recv) : list bytes := match m with RMsgs d0 ds => d0 :: ds | RFail _ => [] end.

(** The kernel fills the first buffers and lengths. *)
Fixpoint fill (bufs ds : list bytes) : list bytes :=
  match bufs, ds with
  | b :: bufs, d :: ds => splice b 0 (take (Z.to_nat MTU_SIZE) d) :: fill bufs ds
  | bufs, _ => bufs
  end.
Fixpoint fill_lens (lens : list Z) (ds : list bytes) : list Z :=
  match lens, ds with
  | _ :: lens, d :: ds => Z.min MTU_SIZE (len d) :: fill_lens lens ds
  | lens, _ => lens
  end.

(** [for (i = 0; i < r; i++)]: deliver each buffer, reset its length, add it up. *)
Fixpoint serve (r : nat) (i : Z) (bytes_ : Z) (d : LDb) (s : state) (w : LWorld) :
    outcome (Z * state * LWorld) :=
  match r with
  | O => Ok (bytes_, s, w)
  | S r =>
      let! buf := rd (buffers s) i in
      let! '(_, _, w) := deliver (Some buf) d w in
      let! n := rd (msg_lens s) i in
      let! lens := wr (msg_lens s) i 0 in
      let! bytes_ := cint (bytes_ + n) in
      serve r (i + 1) bytes_ d (mk_state (fd s) (bps s) (pps s) lens (buffers s) (db s)) w
  end.

(** One round of [thread_loop]. *)
Definition receive (m : recv) (s : state) (w : LWorld) : outcome (state * LWorld) :=
  match m with
  | RFail e => if (e =? EAGAIN) || (e =? EINTR) then Ok (s, w) else Exit 1
  | RMsgs d0 ds =>
      let ds := d0 :: ds in
      match db s with
      | None => Ub
      | Some d =>
          let s := mk_state (fd s) (bps s) (pps s) (fill_lens (msg_lens s) ds) (fill (buffers s) ds) (db s) in
          let! '(n, s, w) := serve (length ds) 0 0 d s w in
          Ok (mk_state (fd s) (u64 (bps s + n)) (u64 (pps s + len ds)) (msg_lens s) (buffers s) (db s), w)
      end
  end.
(** [thread_loop] over the results of its successive [recvmmsg] calls. *)
Fixpoint thread_loop (ms : list recv) (s : state) (w : LWorld) : outcome (state * LWorld) :=
  match ms with
  | [] => Ok (s, w)
  | m :: ms => let! '(s, w) := receive m s w in thread_loop ms s w
  end.

(** ** [main] of the receiver *)
Section Main.
Context (pton4 : bytes -> option Z) (pton6 : bytes -> option bytes)
        (ntop4 : Z -> bytes) (ntop6 : bytes -> bytes).

(** The command line: address, number of threads, reuseport. *)
Definition receiver_args (argv : list bytes) : io (bytes * Z * Z) :=
  match argv with
  | [_] => iret (lit "0.0.0.0:4321", 1, 0)
  | [_; a] => iret (a, 1, 0)
  | [_; a; n] => let? n := lift (atoi n) in iret (a, n, 0)
  | [_; a; n; r] => let? r := lift (atoi r) in let? n := lift (atoi n) in iret (a, n, r)
  | name :: _ => fatal (lit "Usage: " ++ name ++ lit " [listen ip:port] [fork cnt] [reuseport]")
  | [] => fatal (lit "Usage: (null) [listen ip:port] [fork cnt] [reuseport]")
  end.

Definition starting (a : net_addr) : io unit :=
  tell (Err (lit "[*] Starting udpreceiver on " ++ addr_to_str ntop4 ntop6 a ++ lit ", recv buffer " ++
             dec (4 * 1024 / 1024) ++ lit "KiB")).
Definition bind_listen (a : net_addr) (reuseport : Z) : io Z :=
  let? _ := starting a in
  let? f := net_bind_udp a reuseport in
  let? _ := net_set_buffer_size f (4 * 1024) 0 in
  iret f.

(** The loop that starts the threads; thread [t] gets state number [t]. *)
Fixpoint start_threads (n : nat) (t : Z) (a : net_addr) (main_fd reuseport : Z) (w : LWorld) :
    io (list state * LWorld) :=
  match n with
  | O => iret ([], w)
  | S n =>
      let? '(s, w) := lift (state_init zero_state w) in
      let? f := if reuseport =? 0 then iret main_fd else bind_listen a 1 in
      let s := set_fd f s in
      let? _ := thread_spawn t in
      let? '(rest, w) := start_threads n (t + 1) a main_fd reuseport w in
      iret (s :: rest, w)
  end.

(** [main] up to its endless reporting loop. *)
Definition receiver_main (argv : list bytes) (w : LWorld) : io (list state * LWorld) :=
  let? '(addr, thread_num, reuseport) := receiver_args argv in
  let? a := parse_addr pton4 pton6 addr in
  let? main_fd := if reuseport =? 0 then bind_listen a 0 else iret (-1) in
  start_threads (Z.to_nat thread_num) 0 a main_fd reuseport w.
End Main.

(** One round of the reporting loop: the differences to the last totals. *)
Definition report (ss : list state) (last_pps last_bps : Z) : (Z * Z) * (Z * Z) :=
  let now_pps := foldl (fun n s => u64 (n + pps s)) 0 ss in
  let now_bps := foldl (fun n s => u64 (n + bps s)) 0 ss in
  ((u64 (now_pps - last_pps), u64 (now_bps - last_bps)), (now_pps, now_bps)).
End Server.

(** The inner waiting loop of both programs: a result of [select] and the time
    left; it ends with a timeout that has run out. *)
Fixpoint wait_second (rs : list (Z * Z)) : outcome (list (Z * Z)) :=
  match rs with
  | [] => NoFuel
  | (r, usec) :: rs => if negb (r =? 0) then wait_second rs else if usec =? 0 then Ok rs else wait_second rs
  end.

(** ** [src/udpsender.c] *)
(** The payload, written into an uninitialised array of 32 bytes. *)
Definition build_payload (junk : bytes) : outcome (bytes * Z) :=
  let key := lit "abcde123456789" ++ [0] in
  let values := lit "zxcvbnmasdfghj" ++ [0] in
  let! p := set8 junk 0 GET in
  let! p := set8 p 1 14 in
  let! p := set8 p 2 14 in
  let! n := rd p 1 in
  let! k := load key 0 (i8 n) in
  let! p := store p 3 k in
  let! n := rd p 1 in
  let! m := rd p 2 in
  let! v := load values 0 (i8 m) in
  let! p := store p (3 + i8 n) v in
  let! n := rd p 1 in
  let! m := rd p 2 in
  Ok (p, i8 n + i8 m + 4).

Section Sender.
Context (pton4 : bytes -> option Z) (pton6 : bytes -> option bytes)
        (ntop4 : Z -> bytes) (ntop6 : bytes -> bytes).

Record sstate := mk_sstate {
  target_addr : net_addr;
  packets_in_buf : Z;
  payload : bytes;
  payload_sz : Z;
  src_port : Z
}.

(** The send loop; an answer to [sendmmsg] carries the sent lengths. *)
Fixpoint send_loop (fuel : nat) (f : Z) (s : sstate) : io unit :=
  match fuel with
  | O => lift NoFuel
  | S fuel =>
      let? a := ask "sendmmsg" [f; packets_in_buf s; payload_sz s] (payload s) in
      if ret a <=? 0 then
        if (errno a =? EAGAIN) || (errno a =? EINTR) then send_loop fuel f s
        else if errno a =? ECONNREFUSED then send_loop fuel f s
        else pfatal (lit "sendmmsg()")
      else
        let? _ := lift (foldl (fun o n => let! b := o in cint (b + n)) (Ok 0) (filled a)) in
        send_loop fuel f s
  end.
Definition sender_thread (fuel : nat) (s : sstate) : io unit :=
  let? f := net_connect_udp pton4 pton6 (target_addr s) (src_port s) in
  send_loop fuel f s.

Fixpoint parse_targets (argv : list bytes) : io (list net_addr) :=
  match argv with
  | [] => iret []
  | t :: argv =>
      let? a := parse_addr pton4 pton6 t in
      let? _ := tell (Err (lit "[*] Sending to " ++ addr_to_str ntop4 ntop6 a ++ lit ", send buffer " ++
                           dec 1024 ++ lit " packets")) in
      let? rest := parse_targets argv in
      iret (a :: rest)
  end.
Fixpoint spawn_senders (t : Z) (pl : bytes) (sz : Z) (addrs : list net_addr) : io (list sstate) :=
  match addrs with
  | [] => iret []
  | a :: addrs =>
      let s := mk_sstate a 1024 pl sz 11404 in
      let? _ := thread_spawn t in
      let? rest := spawn_senders (t + 1) pl sz addrs in
      iret (s :: rest)
  end.
Definition sender_main (junk : bytes) (argv : list bytes) : io (list sstate) :=
  let? '(pl, sz) := lift (build_payload junk) in
  match argv with
  | [name] => fatal (lit "Usage: " ++ name ++ lit " [target ip:port] [target ...]")
  | argv =>
      let? addrs := parse_targets (tail argv) in
      spawn_senders 0 pl sz addrs
  end.
End Sender.

(** ** Requests *)
Definition encode (op : Z) (k v : bytes) : bytes := [op; len k; len v] ++ k ++ v.

(** What a buffer asks for, and its effect on the stored map. *)
Inductive request := RPut (k v : bytes) | RGet (k : bytes) | RDelete (k : bytes) | RNone.
Definition decode (buf : bytes) : request :=
  match buf with
  | op :: ks :: vs :: rest =>
      let k := take (Z.to_nat ks) rest in
      if op =? PUT then RPut k (take (Z.to_nat vs) (drop (Z.to_nat ks) rest))
      else if op =? GET then RGet k
      else if op =? DELETE then RDelete k
      else RNone
  | _ => RNone
  end.
Definition apply_request (r : request) (m : gmap (list Z) (list Z)) : gmap (list Z) (list Z) :=
  match r with
  | RPut k v => <[k := v]> m
  | RDelete k => delete k m
  | _ => m
  end.
(** The answer to a request that did not fail. *)
Definition answer_of (r : request) (m : gmap (list Z) (list Z)) : return_code * option bytes :=
  match r with
  | RPut _ _ | RDelete _ => (SUCCESS, None)
  | RGet k => match m !! k with Some v => (GOT_VALUE, Some v) | None => (NOT_FOUND, None) end
  | RNone => (INVALID_OP, None)
  end.

(** A buffer of the server: 1920 bytes. *)
Definition is_buffer (b : bytes) : Prop := len b = MTU_SIZE /\ Forall is_byte b.

Lemma decode_encode op k v rest :
  len k <= 255 -> len v <= 255 ->
  decode (encode op k v ++ rest) =
    if op =? PUT then RPut k v else if op =? GET then RGet k else if op =? DELETE then RDelete k else RNone.
Proof.
  intros Hk Hv. unfold encode. cbn [app decode]. rewrite !Nat2Z.id, <- app_assoc.
  rewrite take_app_length, drop_app_length, take_app_length. done.
Qed.

Lemma i8_op c : is_byte c -> (i8 c =? PUT) = (c =? PUT) /\ (i8 c =? GET) = (c =? GET) /\ (i8 c =? DELETE) = (c =? DELETE).
Proof.
  unfold is_byte. intros Hc. assert (i8 c = if c <? 128 then c else c - 256) as ->.
  { unfold i8, swrap. change (2 ^ (8 - 1)) with 128. change (2 ^ 8) with 256. case_if.
    - rewrite Z.mod_small; lia.
    - replace (c + 128) with (c - 128 + 1 * 256) by lia. rewrite Z.mod_add, Z.mod_small; lia. }
  unfold PUT, GET, DELETE. case_if; repeat split; try done; rewrite !(proj2 (Z.eqb_neq _ _)) by lia; done.
Qed.

Section ServerProofs.
Context {L : LevelLib} {Laws : LevelLaws L}.

(** What the library does with a request in a state: whether it reports an error, and its
    state then. *)
Definition lib_error (d : LDb) (r : request) (w : LWorld) : bool :=
  match r with
  | RPut k v => bool_decide (is_Some (leveldb_put d k v w).1)
  | RGet k => bool_decide (is_Some (leveldb_get d k w).2)
  | RDelete k => bool_decide (is_Some (leveldb_delete d k w).1)
  | RNone => false
  end.
Definition lib_world (d : LDb) (r : request) (w : LWorld) : LWorld :=
  match r with
  | RPut k v => (leveldb_put d k v w).2
  | RDelete k => (leveldb_delete d k w).2
  | _ => w
  end.
(** The requests one after the other: those without an error change the map. *)
Fixpoint run_lib (d : LDb) (rs : list request) (w : LWorld) (m : gmap (list Z) (list Z)) : LWorld * gmap (list Z) (list Z) :=
  match rs with
  | [] => (w, m)
  | r :: rs => run_lib d rs (lib_world d r w) (if lib_error d r w then m else apply_request r m)
  end.
Lemma run_lib_app d rs1 rs2 w m :
  run_lib d (rs1 ++ rs2) w m = let '(w, m) := run_lib d rs1 w m in run_lib d rs2 w m.
Proof. revert w m. induction rs1 as [ | r rs1 IH]; intros w m; [done | apply IH]. Qed.

Lemma deliver_ok buf d w m :
  is_buffer buf -> lcontent w d = Some m ->
  let w' := lib_world d (decode buf) w in
  exists code val, deliver (Some buf) d w = Ok (code, val, w') /\
    if (hd 0 buf =? 0) || lib_error d (decode buf) w
    then code = FAILED /\ lcontent w' d = Some m
    else (code, val) = answer_of (decode buf) m /\ lcontent w' d = Some (apply_request (decode buf) m).
Proof.
  intros [Hlen Hb] Hm. unfold MTU_SIZE in Hlen.
  destruct buf as [ | c [ | ks [ | vs rest]]]; [simpl in Hlen; lia.. | ].
  apply Forall_cons in Hb as [Hc [Hks [Hvs Hr]%Forall_cons]%Forall_cons].
  destruct (i8_op c Hc) as (E1 & E2 & E3). unfold is_byte in *. cbn [length] in Hlen.
  unfold deliver. change (rd (c :: ks :: vs :: rest) 0) with (Ok c). rewrite obind_ok. cbn [hd].
  destruct (c =? 0) eqn:E0.
  { zbool. subst c. exists FAILED, None. cbn. done. }
  zbool. change (rd (c :: ks :: vs :: rest) 1) with (Ok ks). change (rd (c :: ks :: vs :: rest) 2) with (Ok vs).
  assert (load (c :: ks :: vs :: rest) 3 ks = Ok (take (Z.to_nat ks) rest)) as Ek
    by (rewrite load_ok by (cbn [length]; lia); done).
  assert (load (c :: ks :: vs :: rest) (3 + ks) vs = Ok (take (Z.to_nat vs) (drop (Z.to_nat ks) rest))) as Ev.
  { rewrite load_ok by (cbn [length]; lia). unfold slice. replace (Z.to_nat (3 + ks)) with (3 + Z.to_nat ks)%nat by lia. done. }
  rewrite E1, E2, E3. unfold decode. set (k := take (Z.to_nat ks) rest) in *.
  set (v := take (Z.to_nat vs) (drop (Z.to_nat ks) rest)) in *. cbn [orb].
  destruct (c =? PUT); [ | destruct (c =? GET); [ | destruct (c =? DELETE)]]; rewrite ?obind_ok, ?Ek, ?obind_ok, ?Ev, ?obind_ok;
    cbn [lib_error lib_world answer_of apply_request].
  - destruct (leveldb_put d k v w) as [e w'] eqn:E. pose proof (lput_ok _ _ _ _ _ _ _ Hm E) as Hm'.
    eexists _, None. split; [done | ]. by destruct e.
  - destruct (leveldb_get d k w) as [x e] eqn:E. destruct e as [e | ].
    + exists FAILED, x. by destruct x.
    + pose proof (lget_ok _ _ _ _ _ Hm E) as Hx. cbn. destruct x as [x | ]; eexists _, _; (split; [done | ]); by rewrite <- Hx.
  - destruct (leveldb_delete d k w) as [e w'] eqn:E. pose proof (ldelete_ok _ _ _ _ _ _ Hm E) as Hm'.
    eexists _, None. split; [done | ]. by destruct e.
  - by exists INVALID_OP, None.
Qed.
(** In both cases the map goes the way of [run_lib]. *)
Lemma deliver_step buf d w m :
  is_buffer buf -> lcontent w d = Some m ->
  exists code val, deliver (Some buf) d w = Ok (code, val, lib_world d (decode buf) w) /\
    lcontent (lib_world d (decode buf) w) d = Some (if lib_error d (decode buf) w then m else apply_request (decode buf) m).
Proof.
  intros Hb Hm. destruct (deliver_ok buf d w m Hb Hm) as (code & val & E & H). exists code, val. split; [done | ].
  destruct (lib_error d (decode buf) w); [by rewrite orb_true_r in H; destruct H | ]. rewrite orb_false_r in H.
  destruct (hd 0 buf =? 0) eqn:E0; [ | by destruct H]. destruct H as [_ H]. rewrite H. f_equal.
  destruct buf as [ | c [ | ? [ | ? ?]]]; try done. cbn in E0. zbool. by subst c.
Qed.

Record state_ok (s : state) (d : LDb) : Prop := {
  so_db : db s = Some d;
  so_lens : length (msg_lens s) = 512%nat;
  so_bufs : length (buffers s) = 512%nat;
  so_buf : Forall is_buffer (buffers s)
}.

Lemma serve_ok r : forall i n d s w m,
  state_ok s d -> lcontent w d = Some m -> 0 <= i -> i + Z.of_nat r <= 512 ->
  0 <= n -> (forall j x, msg_lens s !! j = Some x -> 0 <= x <= MTU_SIZE) -> n + Z.of_nat r * MTU_SIZE <= INT_MAX ->
  exists s' w' m', serve r i n d s w =
      Ok (n + foldr Z.add 0 (take r (drop (Z.to_nat i) (msg_lens s))), s', w') /\
    state_ok s' d /\ lcontent w' d = Some m' /\ run_lib d (decode <$> take r (drop (Z.to_nat i) (buffers s))) w m = (w', m') /\
    buffers s' = buffers s /\ bps s' = bps s /\ pps s' = pps s /\ fd s' = fd s /\
    (forall j x, msg_lens s' !! j = Some x -> 0 <= x <= MTU_SIZE).
Proof.
  induction r as [ | r IH]; intros i n d s w m Hs Hm Hi Hr Hn Hl Hmax.
  - exists s, w, m. cbn [serve]. rewrite !take_0. split; [f_equal; f_equal; f_equal; simpl; lia | ].
    split; [done | ]. split; [done | ]. split; done.
  - destruct (lookup_lt_is_Some_2 (buffers s) (Z.to_nat i)) as [b Hb]; [rewrite (so_bufs s d Hs); lia | ].
    destruct (lookup_lt_is_Some_2 (msg_lens s) (Z.to_nat i)) as [x Hx]; [rewrite (so_lens s d Hs); lia | ].
    pose proof (Hl _ _ Hx) as Hxb. unfold MTU_SIZE in *. 
    destruct (deliver_step b d w m) as (code & val & E & Hm1);
      [by apply (Forall_lookup_1 _ _ _ _ (so_buf s d Hs) Hb) | done | ].
    cbn [serve]. rewrite (rd_ok _ _ b), obind_ok by (done || lia). rewrite E, obind_ok.
    rewrite (rd_ok _ _ x), obind_ok by (done || lia).
    rewrite wr_ok, obind_ok by (rewrite (so_lens s d Hs); lia). rewrite cint_ok, obind_ok by int_bounds.
    set (s1 := mk_state (fd s) (bps s) (pps s) (<[Z.to_nat i:=0]> (msg_lens s)) (buffers s) (db s)).
    assert (state_ok s1 d) as Hs1.
    { destruct Hs. split; cbn; try done. by rewrite length_insert. }
    destruct (IH (i + 1) (n + x) d s1 _ _ Hs1 Hm1) as (s' & w' & m' & E' & R1 & R2 & R3 & R4 & R5 & R6 & R7 & R8); try done; try lia.
    { intros j y Hj. cbn in Hj. apply list_lookup_insert_Some in Hj as [(_ & <- & _) | [_ Hj]]; [lia | eauto]. }
    exists s', w', m'. rewrite (drop_S (buffers s) b) in * by done. rewrite (drop_S (msg_lens s) x) by done.
    replace (Z.to_nat (i + 1)) with (S (Z.to_nat i)) in * by lia. cbn [msg_lens buffers s1] in *.
    rewrite drop_insert_lt in E' by lia.
    split; [rewrite E'; cbn; f_equal; f_equal; f_equal; lia | ].
    split; [done | ]. split; [done | ]. split; [cbn [take fmap list_fmap run_lib]; exact R3 | done].
Qed.

Lemma fill_ok bufs ds :
  (length ds <= length bufs)%nat -> Forall is_buffer bufs -> Forall (Forall is_byte) ds ->
  length (fill bufs ds) = length bufs /\ Forall is_buffer (fill bufs ds).
Proof.
  revert ds. induction bufs as [ | b bufs IH]; intros [ | d ds] Hl Hb Hd; cbn [fill]; try done.
  apply Forall_cons in Hb as [[Hlb Hbb] Hb]. apply Forall_cons in Hd as [Hd Hds].
  destruct (IH ds) as [H1 H2]; [simpl in Hl; lia | done | done | ]. split; [simpl; lia | ].
  constructor; [ | done]. unfold is_buffer in *. split.
  - rewrite length_splice; [done | lia | rewrite length_take; unfold MTU_SIZE in *; lia].
  - apply is_byte_splice; [done | by apply Forall_take].
Qed.

Lemma fill_lens_ok lens ds :
  (length ds <= length lens)%nat -> (forall j x, lens !! j = Some x -> 0 <= x <= MTU_SIZE) ->
  length (fill_lens lens ds) = length lens /\
  (forall j x, fill_lens lens ds !! j = Some x -> 0 <= x <= MTU_SIZE) /\
  foldr Z.add 0 (take (length ds) (fill_lens lens ds)) = foldr Z.add 0 ((fun d => Z.min MTU_SIZE (len d)) <$> ds).
Proof.
  revert ds. induction lens as [ | l lens IH]; intros [ | d ds] Hl Hx; cbn [fill_lens]; try done.
  - simpl in Hl. lia.
  - destruct (IH ds) as (H1 & H2 & H3); [simpl in Hl; lia | intros j x Hj; by apply (Hx (S j)) | ].
    split; [simpl; lia | ]. split.
    + intros [ | j] x; cbn; [intros [= <-]; unfold MTU_SIZE; lia | apply H2].
    + cbn. by rewrite H3.
Qed.

(** The results of [recvmmsg] the loop goes on after. *)
Definition recv_ok (m : recv) : Prop :=
  match m with
  | RFail e => e = EAGAIN \/ e = EINTR
  | RMsgs d0 ds => (length (d0 :: ds) <= 512)%nat /\ Forall (Forall is_byte) (d0 :: ds)
  end.
Definition volume (ds : list bytes) : Z := foldr Z.add 0 ((fun d => Z.min MTU_SIZE (len d)) <$> ds).

(** The buffers that are delivered, batch after batch. *)
Fixpoint delivered (bufs : list bytes) (ms : list recv) : list bytes :=
  match ms with
  | [] => []
  | m :: ms => take (length (datagrams m)) (fill bufs (datagrams m)) ++ delivered (fill bufs (datagrams m)) ms
  end.

Lemma u64_add a b : u64 (u64 a + b) = u64 (a + b).
Proof. apply Zplus_mod_idemp_l. Qed.

Lemma receive_ok x d s w m :
  state_ok s d -> lcontent w d = Some m -> recv_ok x ->
  (forall j y, msg_lens s !! j = Some y -> 0 <= y <= MTU_SIZE) ->
  exists s' w' m', receive x s w = Ok (s', w') /\ state_ok s' d /\ lcontent w' d = Some m' /\
    buffers s' = fill (buffers s) (datagrams x) /\
    run_lib d (decode <$> take (length (datagrams x)) (fill (buffers s) (datagrams x))) w m = (w', m') /\
    u64 (pps s') = u64 (pps s + len (datagrams x)) /\ u64 (bps s') = u64 (bps s + volume (datagrams x)) /\
    (forall j y, msg_lens s' !! j = Some y -> 0 <= y <= MTU_SIZE).
Proof.
  intros Hs Hm Hx Hl. destruct x as [e | d0 ds0]; cbn [receive datagrams].
  - exists s, w, m. assert ((e =? EAGAIN) || (e =? EINTR) = true) as -> by (destruct Hx as [-> | ->]; done).
    split; [done | ]. split; [done | ]. split; [done | ]. split; [by destruct (buffers s) | ].
    split; [done | ]. cbn. rewrite !Z.add_0_r. done.
  - destruct Hx as [Hn Hb]. set (ds := d0 :: ds0) in *. rewrite (so_db s d Hs). cbv zeta. pose proof Hs as [Hdb Hll Hlb Hbuf].
    destruct (fill_ok (buffers s) ds) as [H1 H2]; [lia | done | done | ].
    destruct (fill_lens_ok (msg_lens s) ds) as (H3 & H4 & H5); [lia | done | ].
    set (s1 := mk_state _ _ _ _ _ _).
    destruct (serve_ok (length ds) 0 0 d s1 w m) as (s' & w' & m' & E & R1 & R2 & R3 & R4 & R5 & R6 & R7 & R8); try done; try lia.
    { split; cbn; [done | lia | lia | done]. }
    { unfold MTU_SIZE, INT_MAX. lia. }
    change (serve (length ds) 0 0 d (mk_state (fd s) (bps s) (pps s) _ _ (Some d)) w) with (serve (length ds) 0 0 d s1 w).
    rewrite E, obind_ok. eexists _, w', m'. split; [done | ]. change (drop (Z.to_nat 0) ?l) with l in *.
    destruct R1 as [? ? ? ?]. split; [split; done | ]. split; [done | ]. split; [done | ]. split; [done | ].
    cbn [pps bps msg_lens]. rewrite R5, R6. cbn [s1 pps bps msg_lens]. 
    unfold u64, uwrap. rewrite !Z.mod_mod by done.
    split; [done | ]. split; [ | done]. f_equal. f_equal. unfold volume. rewrite <- H5. done.
Qed.

Lemma thread_loop_ok ms : forall d s w m,
  state_ok s d -> lcontent w d = Some m -> Forall recv_ok ms ->
  (forall j y, msg_lens s !! j = Some y -> 0 <= y <= MTU_SIZE) ->
  exists s' w' m', thread_loop ms s w = Ok (s', w') /\ state_ok s' d /\ lcontent w' d = Some m' /\
    run_lib d (decode <$> delivered (buffers s) ms) w m = (w', m') /\
    u64 (pps s') = u64 (pps s + len (concat (datagrams <$> ms))) /\
    u64 (bps s') = u64 (bps s + volume (concat (datagrams <$> ms))).
Proof.
  assert (forall l1 l2, volume (l1 ++ l2) = volume l1 + volume l2) as Hvol.
  { intros l1 l2. unfold volume. rewrite fmap_app. induction (_ <$> l1); cbn; lia. }
  induction ms as [ | x ms IH]; intros d s w m Hs Hm Hok Hl.
  - exists s, w, m. cbn. rewrite !Z.add_0_r. split; [done | ]. split; [done | ]. split; [done | ].
    split; done.
  - apply Forall_cons in Hok as [Hx Hok].
    destruct (receive_ok x d s w m Hs Hm Hx Hl) as (s1 & w1 & m1 & E1 & Hs1 & Hm1 & Hb1 & Hsv & Hp1 & Hv1 & Hl1).
    destruct (IH d s1 w1 m1 Hs1 Hm1 Hok Hl1) as (s2 & w2 & m2 & E2 & Hs2 & Hm2 & Hsv2 & Hp2 & Hv2).
    exists s2, w2, m2. cbn [thread_loop]. rewrite E1, obind_ok, E2. split; [done | ]. split; [done | ].
    split; [done | ]. split; [rewrite Hb1 in Hsv2; cbn [delivered]; by rewrite fmap_app, run_lib_app, Hsv | ].
    cbn [fmap list_fmap concat]. rewrite length_app, Nat2Z.inj_add, Hvol, !Z.add_assoc.
    rewrite Hp2, Hv2, <- u64_add, Hp1, u64_add, <- (u64_add (bps s1)), Hv1, u64_add. done.
Qed.
End ServerProofs.

(** A library in memory that satisfies the laws. *)
Definition MemLevel : LevelLib := {|
  LWorld := gmap (list Z) (list Z); LDb := unit;
  leveldb_open _ w := (Some tt, None, w);
  leveldb_put _ k v w := (None, <[k := v]> w);
  leveldb_get _ k w := (w !! k, None);
  leveldb_delete _ k w := (None, delete k w)
|}.
#[global] Instance MemLevelLaws : LevelLaws MemLevel.
Proof.
  refine (Build_LevelLaws MemLevel (fun w _ => Some w) _ _ _); cbn.
  - intros ? k v w m e w' [= ->] [= <- <-]. done.
  - intros ? k w m v [= ->] [= <-]. done.
  - intros ? k w m e w' [= ->] [= <- <-]. done.
Defined.

(** A library whose disk is full: it answers lookups and refuses writes. *)
Definition FullLevel : LevelLib := {|
  LWorld := gmap (list Z) (list Z); LDb := unit;
  leveldb_open _ w := (Some tt, None, w);
  leveldb_put _ k v w := (Some (lit "IO error"), w);
  leveldb_get _ k w := (w !! k, None);
  leveldb_delete _ k w := (Some (lit "IO error"), w)
|}.

(** ** Properties *)

(** C10. [deliver] on a receive buffer refines the map of the database: whatever
    the 1920 bytes are, it stays inside the buffer; it fails exactly if the buffer is empty
    or LevelDB reports an error for the request the buffer decodes to, and then leaves the
    map alone; otherwise it answers and changes the map as the decoded request says;
    a request that was encoded with key and value of at most 255 bytes decodes to itself. *)
Theorem deliver_refines {L : LevelLib} {Laws : LevelLaws L} buf d w m :
  is_buffer buf -> lcontent w d = Some m ->
  (let w' := lib_world d (decode buf) w in
   exists code val, deliver (Some buf) d w = Ok (code, val, w') /\
    if (hd 0 buf =? 0) || lib_error d (decode buf) w
    then code = FAILED /\ lcontent w' d = Some m
    else code <> FAILED /\ (code, val) = answer_of (decode buf) m /\ lcontent w' d = Some (apply_request (decode buf) m)) /\
  (forall k v rest, (length k <= 255)%nat -> (length v <= 255)%nat ->
     decode (encode PUT k v ++ rest) = RPut k v /\ decode (encode GET k v ++ rest) = RGet k /\
     decode (encode DELETE k v ++ rest) = RDelete k).
Proof.
  intros Hb Hm. split; [ | intros k v rest Hk Hv; by rewrite !decode_encode by lia].
  destruct (deliver_ok buf d w m Hb Hm) as (code & val & E & H). exists code, val. split; [done | ].
  destruct (_ || _); [done | ]. destruct H as [Ha H]. split; [ | done].
  unfold answer_of in Ha. repeat case_match; simplify_eq; done.
Qed.

(** On the library in memory, and on one that refuses every write. *)
Lemma deliver_refines_witness :
  let buf := encode PUT [107] [118] ++ replicate 1915 0 in
  deliver (L := FullLevel) (Some buf) tt ∅ = Ok (FAILED, None, ∅) /\
  exists code val, deliver (L := MemLevel) (Some buf) tt ∅ = Ok (code, val, lib_world (L := MemLevel) tt (decode buf) ∅) /\
    if (hd 0 buf =? 0) || lib_error (L := MemLevel) tt (decode buf) ∅
    then code = FAILED /\ lcontent (L := MemLevel) (lib_world (L := MemLevel) tt (decode buf) ∅) tt = Some ∅
    else code <> FAILED /\ (code, val) = answer_of (decode buf) ∅ /\
      lcontent (L := MemLevel) (lib_world (L := MemLevel) tt (decode buf) ∅) tt = Some (apply_request (decode buf) ∅).
Proof.
  intros buf. split; [vm_compute; reflexivity | ]. refine (proj1 (deliver_refines (L := MemLevel) buf tt ∅ ∅ _ _)).
  - split; [reflexivity | ]. apply Forall_app_2; [repeat (constructor; [unfold is_byte, PUT; simpl; lia | ]); constructor | ].
    apply Forall_replicate. unfold is_byte. lia.
  - reflexivity.
Defined.

(** C13. The receive loop over any sequence of batches of one to 512 datagrams
    and of interrupted calls: it never leaves its buffers, the packet and byte
    counters advance by the number and the (truncated) sizes of the datagrams
    modulo 2^64, and the database and its map end as the requests decoded from the
    delivered buffers leave them, one after the other in this order, where exactly the
    requests for which LevelDB reports an error do not change the map. *)
Theorem receiver_counts {L : LevelLib} {Laws : LevelLaws L} ms d s w m :
  state_ok s d -> lcontent w d = Some m -> Forall recv_ok ms ->
  (forall j y, msg_lens s !! j = Some y -> 0 <= y <= MTU_SIZE) ->
  exists s' w' m', thread_loop ms s w = Ok (s', w') /\ state_ok s' d /\ lcontent w' d = Some m' /\
    run_lib d (decode <$> delivered (buffers s) ms) w m = (w', m') /\
    u64 (pps s') = u64 (pps s + len (concat (datagrams <$> ms))) /\
    u64 (bps s') = u64 (bps s + volume (concat (datagrams <$> ms))).
Proof. apply thread_loop_ok. Qed.

Definition ready : state (L := MemLevel) :=
  mk_state (L := MemLevel) 3 0 0 (replicate 512 0) (replicate 512 (replicate 1920 0)) (Some tt).

Lemma ready_ok : state_ok (L := MemLevel) ready tt /\ forall j y, msg_lens ready !! j = Some y -> 0 <= y <= MTU_SIZE.
Proof.
  split.
  - split; [done | done | done | ]. apply Forall_replicate. split; [done | ].
    apply Forall_replicate. unfold is_byte. lia.
  - intros j y Hj. apply lookup_replicate in Hj as [-> _]. unfold MTU_SIZE. lia.
Qed.

Lemma receiver_counts_witness :
  let ms := [RMsgs (encode PUT [107] [118]) [[]]; RFail EINTR] in
  exists s' w' m', thread_loop (L := MemLevel) ms ready ∅ = Ok (s', w') /\
    state_ok s' tt /\ lcontent (L := MemLevel) w' tt = Some m' /\ run_lib (L := MemLevel) tt (decode <$> delivered (buffers ready) ms) ∅ ∅ = (w', m') /\
    u64 (pps s') = u64 (pps ready + len (concat (datagrams <$> ms))) /\
    u64 (bps s') = u64 (bps ready + volume (concat (datagrams <$> ms))).
Proof.
  intros ms. apply (receiver_counts (L := MemLevel) ms tt ready ∅ ∅).
  - apply ready_ok.
  - reflexivity.
  - repeat constructor; unfold PUT; simpl; lia.
  - apply ready_ok.
Defined.

(** The length of a datagram is not taken into account: a datagram of the
    single byte PUT makes the server store the key and value that an earlier
    request left in the buffer. *)
Theorem stale_request op k v rest :
  (length k <= 255)%nat -> (length v <= 255)%nat ->
  fill [encode op k v ++ rest] [[PUT]] = [encode PUT k v ++ rest] /\
  decode (encode PUT k v ++ rest) = RPut k v.
Proof. intros Hk Hv. split; [done | ]. by rewrite decode_encode by lia. Qed.

Lemma stale_request_witness :
  fill [encode GET [107] [118] ++ [7]] [[PUT]] = [encode PUT [107] [118] ++ [7]] /\
  decode (encode PUT [107] [118] ++ [7]) = RPut [107] [118].
Proof. apply (stale_request GET [107] [118] [7]); simpl; lia. Defined.

(** The load generator's packet: whatever its array held before, the payload
    is the encoded request GET of key "abcde123456789" (with a value the server
    ignores) followed by one byte that was never written, and the server decodes
    it as that request. *)
Theorem sender_payload junk rest :
  len junk = 32 ->
  build_payload junk =
    Ok (encode GET (lit "abcde123456789") (lit "zxcvbnmasdfghj") ++ drop 31 junk, 32) /\
  decode (encode GET (lit "abcde123456789") (lit "zxcvbnmasdfghj") ++ rest) = RGet (lit "abcde123456789").
Proof.
  intros Hj. split; [ | by rewrite decode_encode by (simpl; lia)].
  do 32 (destruct junk as [ | ? junk]; [simpl in Hj; lia | ]). destruct junk; [ | simpl in Hj; lia]. reflexivity.
Qed.

Lemma sender_payload_witness :
  build_payload (replicate 32 170) = Ok (encode GET (lit "abcde123456789") (lit "zxcvbnmasdfghj") ++ [170], 32) /\
  decode (encode GET (lit "abcde123456789") (lit "zxcvbnmasdfghj") ++ [170]) = RGet (lit "abcde123456789").
Proof. apply (sender_payload (replicate 32 170) [170]). reflexivity. Defined.

(** ** Start of the server *)
Section Start.
Context {L : LevelLib} {Laws : LevelLaws L}.
Context (pton4 : bytes -> option Z) (pton6 : bytes -> option bytes)
        (ntop4 : Z -> bytes) (ntop6 : bytes -> bytes).
Context (Hany : pton4 (lit "0.0.0.0") = Some 0).

Definition any_addr : net_addr := mk_net_addr 4 (htons 4321) 0 0 [] Sin4 SIZEOF_SIN4.

Lemma parse_any ans : parse_addr pton4 pton6 (lit "0.0.0.0:4321") ans = ([], Ok (any_addr, ans)).
Proof.
  unfold parse_addr. change (split_colon _) with (Some (lit "0.0.0.0", lit "4321")).
  cbv beta iota.
  rewrite (ibind_lift _ 4321) by reflexivity. cbn [orb]. unfold net_gethostbyname.
  change (take 254 (lit "0.0.0.0")) with (lit "0.0.0.0"). rewrite Hany. done.
Qed.

Lemma bind_listen_ok a sd ans :
  0 <= sd -> exists t, bind_listen ntop4 ntop6 a 0 (ok sd :: ok 0 :: ok 0 :: ans) = (t, Ok (sd, ans)).
Proof.
  intros Hsd. eexists. unfold bind_listen, starting, net_bind_udp, ibind, tell, ask, iret. cbn [ret ok].
  rewrite (proj2 (Z.ltb_ge sd 0)) by lia. cbn. reflexivity.
Qed.

Lemma zero_state_ok f d :
  let s := mk_state f 0 0 (msg_lens zero_state) (buffers zero_state) (Some d) in
  state_ok s d /\ forall j y, msg_lens s !! j = Some y -> 0 <= y <= MTU_SIZE.
Proof.
  split.
  - split; [done | done | done | ]. apply Forall_replicate. split; [done | ].
    apply Forall_replicate. unfold is_byte. lia.
  - intros j y Hj. cbn in Hj. apply lookup_replicate in Hj as [-> _]. unfold MTU_SIZE. lia.
Qed.

Lemma receiver_start name sd w d w1 :
  0 <= sd -> leveldb_open (lit "/tmp/testdb") w = (Some d, None, w1) ->
  (exists t s, receiver_main pton4 pton6 ntop4 ntop6 [name] w [ok sd; ok 0; ok 0; ok 0] = (t, Ok (([s], w1), [])) /\
     state_ok s d /\ fd s = sd /\ pps s = 0 /\ bps s = 0 /\
     (forall j y, msg_lens s !! j = Some y -> 0 <= y <= MTU_SIZE)) /\
  (forall d2 e w2, leveldb_open (lit "/tmp/testdb") w1 = (d2, Some e, w2) ->
     snd (receiver_main pton4 pton6 ntop4 ntop6 [name; lit "0.0.0.0:4321"; lit "2"] w [ok sd; ok 0; ok 0; ok 0]) = Exit 1).
Proof.
  intros Hsd Hopen. destruct (zero_state_ok sd d) as [Hz1 Hz2].
  assert (forall s : state, state_init s w = Ok (mk_state (fd s) (bps s) (pps s) (msg_lens s) (buffers s) (Some d), w1)) as Einit.
  { intros s. unfold state_init. by rewrite Hopen. }
  split.
  - destruct (bind_listen_ok any_addr sd [ok 0] Hsd) as [t Et].
    unfold receiver_main. erewrite (ibind_ok (receiver_args [name])); [ | reflexivity]. cbv beta iota.
    erewrite (ibind_ok (parse_addr _ _ _)); [ | apply parse_any]. cbv beta iota. cbn [Z.eqb].
    erewrite (ibind_ok (bind_listen _ _ _ _)); [ | apply Et]. cbv beta iota.
    change (Z.to_nat 1) with 1%nat. cbn [start_threads].
    erewrite (ibind_lift (state_init _ _)); [ | apply Einit]. cbv beta iota. cbn [Z.eqb].
    eexists _, _. split; [reflexivity | ]. done.
  - intros d2 e w2 Hopen2. destruct (bind_listen_ok any_addr sd [ok 0] Hsd) as [t Et].
    assert (forall s : state, state_init s w1 = Exit 1) as Einit2 by (intros s; unfold state_init; by rewrite Hopen2).
    unfold receiver_main. rewrite (ibind_ok (receiver_args _) _ _ [] (lit "0.0.0.0:4321", 2, 0) [ok sd; ok 0; ok 0; ok 0])
      by reflexivity. cbv beta iota.
    erewrite (ibind_ok (parse_addr _ _ _)); [ | apply parse_any]. cbv beta iota. cbn [Z.eqb].
    erewrite (ibind_ok (bind_listen _ _ _ _)); [ | apply Et]. cbv beta iota.
    change (Z.to_nat 2) with 2%nat. cbn [start_threads].
    erewrite (ibind_lift (state_init _ _)); [ | apply Einit]. cbv beta iota. cbn [Z.eqb].
    unfold ibind, iret, thread_spawn, ask, lift. cbn. rewrite Einit2. reflexivity.
Qed.
End Start.

(** Started without arguments, with the socket calls succeeding and the
    database opening, the server has one thread whose state is ready for the
    receive loop, on the bound socket with zero counters; started with two
    threads it exits with code 1 if the library refuses to open the same database
    a second time, because every thread opens it. *)
Theorem receiver_main_starts {L : LevelLib} pton4 pton6 ntop4 ntop6 name sd w d w1 :
  pton4 (lit "0.0.0.0") = Some 0 ->
  0 <= sd -> leveldb_open (lit "/tmp/testdb") w = (Some d, None, w1) ->
  (exists t s, receiver_main pton4 pton6 ntop4 ntop6 [name] w [ok sd; ok 0; ok 0; ok 0] = (t, Ok (([s], w1), [])) /\
     state_ok s d /\ fd s = sd /\ pps s = 0 /\ bps s = 0 /\
     (forall j y, msg_lens s !! j = Some y -> 0 <= y <= MTU_SIZE)) /\
  (forall d2 e w2, leveldb_open (lit "/tmp/testdb") w1 = (d2, Some e, w2) ->
     snd (receiver_main pton4 pton6 ntop4 ntop6 [name; lit "0.0.0.0:4321"; lit "2"] w [ok sd; ok 0; ok 0; ok 0]) = Exit 1).
Proof. intros H1 H2 H3. by apply receiver_start. Qed.

Lemma receiver_main_starts_witness :
  exists t s, receiver_main (L := MemLevel) pton4_digits (fun _ => None) ntop4_digits (fun _ => []) [lit "srv"] ∅
                [ok 3; ok 0; ok 0; ok 0] = (t, Ok (([s], ∅), [])) /\
     state_ok s tt /\ fd s = 3 /\ pps s = 0 /\ bps s = 0 /\
     (forall j y, msg_lens s !! j = Some y -> 0 <= y <= MTU_SIZE).
Proof.
  refine (proj1 (receiver_main_starts (L := MemLevel) pton4_digits (fun _ => None) ntop4_digits (fun _ => [])
    (lit "srv") 3 ∅ tt ∅ _ _ _)); [reflexivity | discriminate | reflexivity].
Defined.
End LevelServer.
