(* ===== verification/LevelLoad.v ===== *)
(** * The key-value server with its clients: [fast_leveldb/src/udpreceiver.c] with
    complete requests, and with the load of [fast_leveldb/src/udpsender.c]

    Clients send requests that are complete in one datagram; the network delivers
    any of them in any order, and the server receives them in batches of any size between
    interrupted calls, into buffers that hold older requests.  The server is a sequential
    map of the requests that LevelDB accepts. *)
From S2P Require Import Prelude CLib Bytes Sys Net LevelServer.

Module LevelLoad.
Import LevelServer.

(** ** Requests of clients *)
(** A request as a client sends it, with bytes behind it that do not matter. *)
Record client_request := MkRequest { op : Z; key : bytes; val : bytes; trailer : bytes }.
Definition request_ok (r : client_request) : Prop :=
  1 <= op r <= 255 /\ (length (key r) <= 255)%nat /\ (length (val r) <= 255)%nat /\
  Forall is_byte (key r) /\ Forall is_byte (val r) /\ Forall is_byte (trailer r).
Definition datagram_of (r : client_request) : bytes := encode (op r) (key r) (val r) ++ trailer r.
(** What it means. *)
Definition meaning (r : client_request) : request :=
  if op r =? PUT then RPut (key r) (val r) else if op r =? GET then RGet (key r) else if op r =? DELETE then RDelete (key r) else RNone.
Definition run_requests (rs : list client_request) (m : gmap (list Z) (list Z)) : gmap (list Z) (list Z) :=
  foldl (fun m r => apply_request (meaning r) m) m rs.
(** A batch of at least one request, or an interrupted call; the results of [recvmmsg]. *)
Definition batch : Type := option (client_request * list client_request).
Definition requests_of (b : batch) : list client_request := match b with Some (r, rs) => r :: rs | None => [] end.
Definition arrival (b : batch) : recv :=
  match b with Some (r, rs) => RMsgs (datagram_of r) (map datagram_of rs) | None => RFail EINTR end.
Definition arrivals (bs : list batch) : list recv := map arrival bs.
Definition all_requests (bs : list batch) : list client_request := concat (map requests_of bs).
Definition batch_ok (b : batch) : Prop := (length (requests_of b) <= 512)%nat /\ Forall request_ok (requests_of b).
(** The bytes the server counts for a request. *)
Definition size_of (r : client_request) : Z := Z.min MTU_SIZE (len (datagram_of r)).

(** ** Lemmas *)
(** Whatever a buffer held, it now asks for the request. *)
Lemma buffer_means b r : request_ok r -> len b = MTU_SIZE ->
  let b' := splice b 0 (take (Z.to_nat MTU_SIZE) (datagram_of r)) in decode b' = meaning r /\ hd 0 b' <> 0.
Proof.
  intros (Ho & Hk & Hv & _) Hb b'. assert (exists rest, b' = encode (op r) (key r) (val r) ++ rest) as [rest ->].
  { unfold b', splice, datagram_of. change (take (Z.to_nat 0) b) with (@nil Z). cbn [app].
    rewrite take_app_ge by (unfold encode, MTU_SIZE; rewrite !length_app; cbn [length]; lia).
    rewrite <- app_assoc. by eexists. }
  rewrite decode_encode by lia. split; [done | ]. cbn. lia.
Qed.
Lemma fill_means rs : forall bufs, Forall request_ok rs -> Forall is_buffer bufs -> (length rs <= length bufs)%nat ->
  decode <$> take (length rs) (fill bufs (map datagram_of rs)) = map meaning rs.
Proof.
  induction rs as [ | r rs IH]; intros bufs Hr Hb Hl; [done | ].
  destruct bufs as [ | b bufs]; cbn [length] in Hl; [lia | ].
  apply Forall_cons in Hr as [Hr Hrs], Hb as [[Hb _] Hbs]. cbn [map fill length take fmap list_fmap].
  f_equal; [by apply buffer_means | ]. apply IH; [done | done | lia].
Qed.
Lemma datagram_bytes r : request_ok r -> Forall is_byte (datagram_of r).
Proof.
  intros (Ho & Hk & Hv & H1 & H2 & H3). unfold datagram_of, encode. rewrite !Forall_app. repeat split; try done.
  repeat constructor; unfold is_byte; lia.
Qed.
Lemma datagrams_arrival b : datagrams (arrival b) = map datagram_of (requests_of b).
Proof. by destruct b as [[r rs] | ]. Qed.
Lemma batch_bytes b : batch_ok b -> Forall (Forall is_byte) (datagrams (arrival b)).
Proof.
  intros [_ Hr]. rewrite datagrams_arrival, Forall_map. eapply Forall_impl; [exact Hr | ]. apply datagram_bytes.
Qed.
Lemma arrivals_ok bs : Forall batch_ok bs -> Forall recv_ok (arrivals bs).
Proof.
  induction 1 as [ | b bs Hb _ IH]; [constructor | ]. constructor; [ | done].
  pose proof (batch_bytes b Hb) as Hbytes. destruct b as [[r rs] | ]; [ | by right].
  destruct Hb as [Hl _]. split; [cbn [length requests_of] in *; by rewrite length_map | exact Hbytes].
Qed.
Lemma delivered_means bs : forall bufs, Forall batch_ok bs -> Forall is_buffer bufs -> length bufs = 512%nat ->
  decode <$> delivered bufs (arrivals bs) = map meaning (all_requests bs).
Proof.
  induction bs as [ | b bs IH]; intros bufs Hbs Hb Hl; [done | ]. apply Forall_cons in Hbs as [Hx Hbs].
  unfold all_requests. cbn [arrivals map delivered concat]. rewrite fmap_app, map_app. pose proof (batch_bytes b Hx) as Hbytes.
  rewrite datagrams_arrival in *. destruct Hx as [Hx1 Hx2]. f_equal.
  - rewrite length_map. apply fill_means; [done | done | lia].
  - destruct (fill_ok bufs (map datagram_of (requests_of b))) as [E1 E2]; [rewrite length_map; lia | done | done | ].
    apply IH; [done | done | lia].
Qed.
Lemma arrivals_datagrams bs : concat (datagrams <$> arrivals bs) = map datagram_of (all_requests bs).
Proof.
  induction bs as [ | b bs IH]; [done | ]. unfold all_requests in *. cbn [arrivals map fmap list_fmap concat].
  rewrite map_app, <- IH, <- datagrams_arrival. done.
Qed.
Lemma volume_requests rs : volume (map datagram_of rs) = foldr Z.add 0 (size_of <$> rs).
Proof. induction rs as [ | r rs IH]; [done | ]. unfold volume, size_of in *. cbn [map fmap list_fmap foldr]. by rewrite <- IH. Qed.
(** LevelDB reports no error for any of the requests in the states they meet. *)
Fixpoint no_error {L : LevelLib} (d : LDb) (rs : list request) (w : LWorld) : bool :=
  match rs with
  | [] => true
  | r :: rs => negb (lib_error d r w) && no_error d rs (lib_world d r w)
  end.
Lemma run_lib_requests {L : LevelLib} d rs : forall w m,
  no_error d (map meaning rs) w = true -> (run_lib d (map meaning rs) w m).2 = run_requests rs m.
Proof.
  induction rs as [ | r rs IH]; intros w m; [done | ]. cbn [map no_error run_lib]. intros [H1 H2]%andb_true_iff.
  apply negb_true_iff in H1. rewrite H1. by apply IH.
Qed.

Lemma requests_served {L : LevelLib} {Laws : LevelLaws L} bs d s w m :
  state_ok s d -> lcontent w d = Some m -> Forall batch_ok bs ->
  (forall j y, msg_lens s !! j = Some y -> 0 <= y <= MTU_SIZE) ->
  exists s' w' m', thread_loop (arrivals bs) s w = Ok (s', w') /\ lcontent w' d = Some m' /\
    run_lib d (map meaning (all_requests bs)) w m = (w', m') /\
    (report [s'] (u64 (pps s)) (u64 (bps s))).1 =
      (u64 (len (all_requests bs)), u64 (foldr Z.add 0 (size_of <$> all_requests bs))).
Proof.
  intros Hs Hm Hb Hl.
  destruct (thread_loop_ok (arrivals bs) d s w m Hs Hm (arrivals_ok bs Hb) Hl) as (s' & w' & m' & E & _ & Hm' & Hsv & Hp & Hv).
  exists s', w', m'. split; [done | ]. split; [done | ].
  rewrite (delivered_means bs _ Hb (so_buf s d Hs) (so_bufs s d Hs)) in Hsv. split; [done | ].
  rewrite arrivals_datagrams, length_map in Hp. rewrite arrivals_datagrams, volume_requests in Hv.
  unfold report. cbn [foldl fst]. rewrite !Z.add_0_l, Hp, Hv. unfold u64, uwrap.
  rewrite <- !Zminus_mod. do 2 f_equal; lia.
Qed.

(** ** Properties *)

(** C8. The server with any clients: complete requests that arrive in any batches of one to
    512, into buffers with any older contents and between interrupted calls, are applied
    to the map in the order of their arrival, each exactly once unless LevelDB reports
    an error for it in the state it meets, so all of them if LevelDB reports no error for
    these requests; the report of the next second shows their number and their bytes. *)
Theorem server_is_map {L : LevelLib} {Laws : LevelLaws L} bs d s w m :
  state_ok s d -> lcontent w d = Some m -> Forall batch_ok bs ->
  (forall j y, msg_lens s !! j = Some y -> 0 <= y <= MTU_SIZE) ->
  exists s' w' m', thread_loop (arrivals bs) s w = Ok (s', w') /\ lcontent w' d = Some m' /\
    run_lib d (map meaning (all_requests bs)) w m = (w', m') /\
    (no_error d (map meaning (all_requests bs)) w = true -> m' = run_requests (all_requests bs) m) /\
    (report [s'] (u64 (pps s)) (u64 (bps s))).1 =
      (u64 (len (all_requests bs)), u64 (foldr Z.add 0 (size_of <$> all_requests bs))).
Proof.
  intros Hs Hm Hb Hl. destruct (requests_served bs d s w m Hs Hm Hb Hl) as (s' & w' & m' & E & Hm' & Hr & Hrep).
  exists s', w', m'. do 3 (split; [done | ]). split; [ | done]. intros He. by rewrite <- (run_lib_requests d _ w m He), Hr.
Qed.

(** The load generator: with its payload in every datagram the server only looks up a key,
    so the database stays as it is, errors or not, and every packet counts as 32 bytes. *)
Theorem load_reads {L : LevelLib} {Laws : LevelLaws L} junk ns d s w m :
  len junk = 32 -> Forall is_byte junk -> state_ok s d -> lcontent w d = Some m ->
  Forall (fun n => (n < 512)%nat) ns -> (forall j y, msg_lens s !! j = Some y -> 0 <= y <= MTU_SIZE) ->
  exists p s' w', build_payload junk = Ok (p, 32) /\
    thread_loop (map (fun n => RMsgs p (replicate n p)) ns) s w = Ok (s', w') /\ lcontent w' d = Some m /\
    (report [s'] (u64 (pps s)) (u64 (bps s))).1 =
      (u64 (Z.of_nat (sum_list (S <$> ns))), u64 (32 * Z.of_nat (sum_list (S <$> ns)))).
Proof.
  intros Hj Hjb Hs Hm Hn Hl. destruct (sender_payload junk [] Hj) as [Ep _].
  set (r := MkRequest GET (lit "abcde123456789") (lit "zxcvbnmasdfghj") (drop 31 junk)).
  assert (request_ok r) as Hr.
  { repeat split; cbn [op key val trailer r]; try (unfold GET; cbn; lia); try (by apply Forall_drop);
      apply (bool_decide_unpack _); vm_compute; done. }
  assert (len (datagram_of r) = 32) as Hlen by (unfold datagram_of, encode; cbn [r trailer key val op]; rewrite length_app, length_drop; cbn; lia).
  exists (datagram_of r). destruct (requests_served (map (fun n => Some (r, replicate n r)) ns) d s w m Hs Hm) as (s' & w' & m' & E & Hm' & Hrun & Hrep); [ | done | ].
  { rewrite Forall_map. eapply Forall_impl; [exact Hn | ]. cbn beta. intros n Hn'. split; cbn [requests_of length]; [rewrite length_replicate; lia | constructor; [done | by apply Forall_replicate]]. }
  assert (all_requests (map (fun n => Some (r, replicate n r)) ns) = replicate (sum_list (S <$> ns)) r) as Ha.
  { clear. unfold all_requests. induction ns as [ | n ns IH]; [done | ]. cbn [map concat fmap list_fmap sum_list requests_of].
    rewrite IH. cbn [Nat.add replicate app]. by rewrite <- replicate_add. }
  rewrite Ha in Hrun, Hrep. exists s', w'. split; [done | ]. split.
  { rewrite <- E. f_equal. unfold arrivals. rewrite map_map. apply map_ext. intros n. cbn [arrival]. f_equal.
    induction n as [ | n IH]; [done | ]. cbn [replicate map]. by rewrite IH. }
  split.
  - rewrite Hm'. f_equal. revert Hrun. generalize (sum_list (S <$> ns)) w m. clear. intros k.
    induction k as [ | k IH]; intros w m; [by intros [= _ <-] | ]. cbn [replicate map run_lib].
    change (meaning r) with (RGet (lit "abcde123456789")) at 1 2 3. cbn [lib_world apply_request]. intros H. apply (IH w m).
    by destruct (lib_error _ _ _).
  - rewrite Hrep, length_replicate. do 2 f_equal. clear -Hlen. generalize (sum_list (S <$> ns)). intros k. unfold size_of.
    induction k as [ | k IH]; [done | ]. cbn [replicate fmap list_fmap foldr]. rewrite IH, Hlen. unfold MTU_SIZE. lia.
Qed.

(** ** Witnesses *)
(** A put over an older request, an interrupted call, and in the next batch another put,
    a deletion and an unknown operation. *)
Lemma server_is_map_witness :
  let bs := [Some (MkRequest 1 [107] [1; 2] [], [MkRequest 1 [108] [9] [5]]); None;
             Some (MkRequest 1 [107] [3] [], [MkRequest 3 [108] [] []; MkRequest 7 [] [] []])] in
  exists s' w', thread_loop (L := MemLevel) (arrivals bs) ready ∅ = Ok (s', w') /\ Some w' = Some ({[ [107] := [3] ]} : gmap (list Z) (list Z)) /\
    (report [s'] 0 0).1 = (5, 6 + 6 + 5 + 4 + 3).
Proof.
  intros bs. destruct (server_is_map (L := MemLevel) bs tt ready ∅ ∅) as (s' & w' & m' & E & Hw & _ & Hm & Hr).
  - apply ready_ok.
  - reflexivity.
  - repeat (apply Forall_cons_2; [split; [cbn; lia | ];
      (repeat (apply Forall_cons_2; [repeat split; try (cbn; lia); cbn; repeat constructor; unfold is_byte; lia | ]); apply Forall_nil_2) | ]).
    apply Forall_nil_2.
  - apply ready_ok.
  - exists s', w'. split; [exact E | ]. split; [ | exact Hr]. rewrite (Hm eq_refl) in Hw. exact Hw.
Defined.
Lemma load_reads_witness :
  exists p s' w', build_payload (replicate 32 170) = Ok (p, 32) /\
    thread_loop (L := MemLevel) (map (fun n => RMsgs p (replicate n p)) [1; 2]%nat) ready ∅ = Ok (s', w') /\ Some w' = Some (∅ : gmap (list Z) (list Z)) /\
    (report [s'] 0 0).1 = (5, 160).
Proof.
  destruct (load_reads (L := MemLevel) (replicate 32 170) [1; 2]%nat tt ready ∅ ∅) as (p & s' & w' & E1 & E2 & Hw & Hr).
  - reflexivity.
  - apply Forall_replicate. unfold is_byte. lia.
  - apply ready_ok.
  - reflexivity.
  - repeat constructor; lia.
  - apply ready_ok.
  - exists p, s', w'. exact (conj E1 (conj E2 (conj Hw Hr))).
Defined.
End LevelLoad.
