(* ===== verification/HowTo.v ===== *)
(** * The packet counter of [how-to-receive-a-million-packets]

    [udpreceiver1.c] counts datagrams without looking at them; [udpsender.c] sends
    32 zero bytes over and over.  Both use the same [net.c] and [common.h] as
    [fast_leveldb]. *)
From S2P Require Import Prelude CLib Bytes Sys Net LevelServer.

Module HowTo.
Import Net.

(** [struct state]: the messages are reduced to the received lengths. *)
Record state := mk_state { fd : Z; bps : Z; pps : Z; msg_lens : list Z }.
Definition state_init (s : state) : state := s.

(** A result of at most 0 with the error number, or the lengths of at least one message. *)
Inductive recv := RFail (e : Z) | RLens (l0 : Z) (ls : list Z).

(** [recvmmsg] writes the lengths of the received messages. *)
Definition fill_lens (lens ls : list Z) : list Z := ls ++ drop (length ls) lens.

(** [for (i = 0; i < r; i++)] *)
Fixpoint count_loop (r : nat) (i bytes_ : Z) (lens : list Z) : outcome (Z * list Z) :=
  match r with
  | O => Ok (bytes_, lens)
  | S r =>
      let! n := rd lens i in
      let! lens := wr lens i 0 in
      let! bytes_ := cint (bytes_ + n) in
      count_loop r (i + 1) bytes_ lens
  end.
Definition receive (m : recv) (s : state) : outcome state :=
  match m with
  | RFail e => if (e =? LevelServer.EAGAIN) || (e =? LevelServer.EINTR) then Ok s else Exit 1
  | RLens l0 ls =>
      let ls := l0 :: ls in
      let! '(n, lens) := count_loop (length ls) 0 0 (fill_lens (msg_lens s) ls) in
      Ok (mk_state (fd s) (u64 (bps s + n)) (u64 (pps s + len ls)) lens)
  end.
Fixpoint thread_loop (ms : list recv) (s : state) : outcome state :=
  match ms with
  | [] => Ok s
  | m :: ms => let! s := receive m s in thread_loop ms s
  end.

Section Main.
Context (pton4 : bytes -> option Z) (pton6 : bytes -> option bytes)
        (ntop4 : Z -> bytes) (ntop6 : bytes -> bytes).

Definition zero_state : state := mk_state 0 0 0 (replicate 512 0).

Fixpoint start_threads (n : nat) (t : Z) (a : net_addr) (main_fd reuseport : Z) : io (list state) :=
  match n with
  | O => iret []
  | S n =>
      let s := state_init zero_state in
      let? f := if reuseport =? 0 then iret main_fd else LevelServer.bind_listen ntop4 ntop6 a 1 in
      let s := mk_state f (bps s) (pps s) (msg_lens s) in
      let? _ := thread_spawn t in
      let? rest := start_threads n (t + 1) a main_fd reuseport in
      iret (s :: rest)
  end.
(** [main] up to its endless reporting loop. *)
Definition receiver1_main (argv : list bytes) : io (list state) :=
  let? '(addr, thread_num, reuseport) := LevelServer.receiver_args argv in
  let? a := parse_addr pton4 pton6 addr in
  let? main_fd := if reuseport =? 0 then LevelServer.bind_listen ntop4 ntop6 a 0 else iret (-1) in
  start_threads (Z.to_nat thread_num) 0 a main_fd reuseport.

Definition report (ss : list state) (last_pps last_bps : Z) : (Z * Z) * (Z * Z) :=
  let now_pps := foldl (fun n s => u64 (n + pps s)) 0 ss in
  let now_bps := foldl (fun n s => u64 (n + bps s)) 0 ss in
  ((u64 (now_pps - last_pps), u64 (now_bps - last_bps)), (now_pps, now_bps)).

(** [thread_loop] of [udpsender.c], the same code as in [fast_leveldb]. *)
Definition sender_thread := LevelServer.sender_thread pton4 pton6.
(** [main] of [udpsender.c]. *)
Definition sender_main (argv : list bytes) : io (list LevelServer.sstate) :=
  let payload := replicate 32 0 in
  match argv with
  | [name] => fatal (lit "Usage: " ++ name ++ lit " [target ip:port] [target ...]")
  | argv =>
      let? addrs := LevelServer.parse_targets pton4 pton6 ntop4 ntop6 (tail argv) in
      LevelServer.spawn_senders 0 payload 32 addrs
  end.
End Main.

(** ** Lemmas *)
Definition total (ls : list Z) : Z := foldr Z.add 0 ls.

Lemma count_loop_ok ls : forall P Q n,
  Forall (fun x => 0 <= x <= LevelServer.MTU_SIZE) ls -> 0 <= n -> n + len ls * LevelServer.MTU_SIZE <= INT_MAX ->
  count_loop (length ls) (len P) n (P ++ ls ++ Q) = Ok (n + total ls, P ++ replicate (length ls) 0 ++ Q).
Proof.
  unfold LevelServer.MTU_SIZE. induction ls as [ | l ls IH]; intros P Q n Hl Hn Hmax.
  - cbn. f_equal. f_equal. unfold total. simpl. lia.
  - apply Forall_cons in Hl as [Hl Hls]. cbn [length count_loop app] in *.
    rewrite rd_app, obind_ok by done. rewrite wr_app, obind_ok by done.
    rewrite cint_ok, obind_ok by int_bounds.
    replace (len P + 1) with (len (P ++ [0])) by (rewrite length_app; simpl; lia).
    replace (P ++ 0 :: ls ++ Q) with ((P ++ [0]) ++ ls ++ Q) by (rewrite <- app_assoc; done).
    rewrite IH by (done || lia). cbn [replicate app]. rewrite <- app_assoc. f_equal. f_equal. unfold total. cbn. lia.
Qed.

Definition recv_ok (m : recv) : Prop :=
  match m with
  | RFail e => e = LevelServer.EAGAIN \/ e = LevelServer.EINTR
  | RLens l0 ls => (length (l0 :: ls) <= 512)%nat /\ Forall (fun x => 0 <= x <= LevelServer.MTU_SIZE) (l0 :: ls)
  end.
Definition lens_of (m : recv) : list Z := match m with RLens l0 ls => l0 :: ls | RFail _ => [] end.

Lemma receive1_ok m s :
  recv_ok m -> length (msg_lens s) = 512%nat ->
  exists s', receive m s = Ok s' /\ length (msg_lens s') = 512%nat /\ fd s' = fd s /\
    u64 (pps s') = u64 (pps s + len (lens_of m)) /\ u64 (bps s') = u64 (bps s + total (lens_of m)).
Proof.
  intros Hm Hl. destruct m as [e | l0 ls0]; cbn [receive lens_of].
  - exists s. assert ((e =? LevelServer.EAGAIN) || (e =? LevelServer.EINTR) = true) as -> by (destruct Hm as [-> | ->]; done).
    cbn. rewrite !Z.add_0_r. done.
  - destruct Hm as [Hn Hls]. set (ls := l0 :: ls0) in *. cbv zeta. unfold fill_lens.
    set (Q := drop (length ls) (msg_lens s)).
    assert (count_loop (length ls) 0 0 (ls ++ Q) = Ok (0 + total ls, replicate (length ls) 0 ++ Q)) as ->
      by (apply (count_loop_ok ls [] Q 0 Hls); unfold LevelServer.MTU_SIZE, INT_MAX; lia).
    rewrite obind_ok. eexists. split; [done | ]. cbn [msg_lens fd pps bps].
    split; [unfold Q; rewrite length_app, length_replicate, length_drop; lia | ]. split; [done | ].
    unfold u64, uwrap. rewrite !Z.mod_mod by done. done.
Qed.

(** ** Property *)

(** The counters of [udpreceiver1]: over any sequence of batches of one to
    512 messages and of interrupted calls the thread keeps running and its packet
    and byte counters advance, modulo 2^64, by the number and the sizes of the
    messages. *)
Theorem receiver1_counts ms s :
  Forall recv_ok ms -> length (msg_lens s) = 512%nat ->
  exists s', thread_loop ms s = Ok s' /\ length (msg_lens s') = 512%nat /\ fd s' = fd s /\
    u64 (pps s') = u64 (pps s + len (concat (lens_of <$> ms))) /\
    u64 (bps s') = u64 (bps s + total (concat (lens_of <$> ms))).
Proof.
  assert (forall l1 l2, total (l1 ++ l2) = total l1 + total l2) as Htot.
  { intros l1 l2. unfold total. induction l1; cbn; lia. }
  revert s. induction ms as [ | m ms IH]; intros s Hok Hl.
  - exists s. cbn. rewrite !Z.add_0_r. done.
  - apply Forall_cons in Hok as [Hm Hok].
    destruct (receive1_ok m s Hm Hl) as (s1 & E1 & Hl1 & Hf1 & Hp1 & Hb1).
    destruct (IH s1 Hok Hl1) as (s2 & E2 & Hl2 & Hf2 & Hp2 & Hb2).
    exists s2. cbn [thread_loop]. rewrite E1, obind_ok, E2. split; [done | ]. split; [done | ].
    split; [congruence | ]. cbn [fmap list_fmap concat].
    rewrite length_app, Nat2Z.inj_add, Htot, !Z.add_assoc.
    rewrite Hp2, Hb2, <- LevelServer.u64_add, Hp1, LevelServer.u64_add.
    by rewrite <- (LevelServer.u64_add (bps s1)), Hb1, LevelServer.u64_add.
Qed.

Lemma receiver1_counts_witness :
  exists s', thread_loop [RLens 32 [32]; RFail LevelServer.EAGAIN; RLens 7 []] (zero_state) = Ok s' /\
    length (msg_lens s') = 512%nat /\ fd s' = 0 /\ u64 (pps s') = u64 (0 + 3) /\ u64 (bps s') = u64 (0 + 71).
Proof.
  apply (receiver1_counts [RLens 32 [32]; RFail LevelServer.EAGAIN; RLens 7 []] zero_state).
  - unfold recv_ok, LevelServer.MTU_SIZE. repeat constructor; simpl; lia.
  - reflexivity.
Defined.
End HowTo.
