(* ===== verification/CondWait.v ===== *)
(** * The condition-variable demo [pthread_wait/main.c]

    One watcher and two incrementing threads share a counter under a mutex.  The
    threads are a step relation on the shared state; [pthread_cond_wait] releases
    the mutex atomically, may wake up spuriously, and takes the mutex again before
    it returns. *)
From S2P Require Import Prelude CLib.

Module CondWait.

Definition TCOUNT : Z := 10.
Definition COUNT_LIMIT : Z := 12.

(** Control points of [inc_count], with its loop variable. *)
Inductive ipc := IFor | ILocked | ICounted | ISignalled | ISleep | IDone.
(** Control points of [watch_count]. *)
Inductive wpc := WStart | WLock | WTest | WWait | WWoken | WBody | WUnlock | WDone.
#[global] Instance ipc_eq_dec : EqDecision ipc.
Proof. solve_decision. Defined.
#[global] Instance wpc_eq_dec : EqDecision wpc.
Proof. solve_decision. Defined.

(** The globals, and the watcher's control point (a signal moves it). *)
Record shared := mk_shared { count : Z; mutex : option Z; watch : wpc }.
Record inc := mk_inc { pc : ipc; iter : Z }.
Record st := mk_st { sh : shared; inc2 : inc; inc3 : inc; out : list bytes }.

(** [pthread_cond_signal]: a waiting watcher becomes runnable. *)
Definition signal (w : wpc) : wpc := match w with WWait => WWoken | w => w end.

(** One step of [inc_count] in thread [t]; [None] if it is blocked or done. *)
Definition inc_step (t : Z) (s : shared) (p : inc) : option (shared * inc * list bytes) :=
  match pc p with
  | IFor =>
      if iter p <? TCOUNT then
        match mutex s with
        | None => Some (mk_shared (count s) (Some t) (watch s), mk_inc ILocked (iter p), [])
        | Some _ => None
        end
      else Some (s, mk_inc IDone (iter p), [])
  | ILocked => Some (mk_shared (count s + 1) (mutex s) (watch s), mk_inc ICounted (iter p), [])
  | ICounted =>
      if count s =? COUNT_LIMIT then
        Some (mk_shared (count s) (mutex s) (signal (watch s)), mk_inc ISignalled (iter p),
              [lit "inc_count(): thread " ++ dec t ++ lit ", count = " ++ dec (count s) ++ lit "  Threshold reached."])
      else Some (s, mk_inc ISignalled (iter p), [])
  | ISignalled =>
      Some (mk_shared (count s) None (watch s), mk_inc ISleep (iter p),
            [lit "inc_count(): thread " ++ dec t ++ lit ", count = " ++ dec (count s) ++ lit ", unlocking mutex"])
  | ISleep => Some (s, mk_inc IFor (iter p + 1), [])
  | IDone => None
  end.

(** One step of [watch_count] in thread [t]. *)
Definition watch_step (t : Z) (s : shared) : option (shared * list bytes) :=
  let goto w := mk_shared (count s) (mutex s) w in
  match watch s with
  | WStart => Some (goto WLock, [lit "Starting watch_count(): thread " ++ dec t])
  | WLock =>
      match mutex s with
      | None => Some (mk_shared (count s) (Some t) WTest, [])
      | Some _ => None
      end
  | WTest =>
      if count s <? COUNT_LIMIT then Some (mk_shared (count s) None WWait, [])
      else Some (goto WUnlock, [])
  | WWait => None
  | WWoken =>
      match mutex s with
      | None => Some (mk_shared (count s) (Some t) WBody, [])
      | Some _ => None
      end
  | WBody =>
      Some (mk_shared (count s + 125) (mutex s) WTest,
            [lit "watch_count(): thread " ++ dec t ++ lit " Condition signal received.";
             lit "watch_count(): thread " ++ dec t ++ lit " count now = " ++ dec (count s + 125) ++ lit "."])
  | WUnlock => Some (mk_shared (count s) None WDone, [])
  | WDone => None
  end.

(** A step of the program; the flag marks a spurious wake-up. *)
Inductive step (s : st) : bool -> st -> Prop :=
  | step_watch h o : watch_step 1 (sh s) = Some (h, o) ->
      step s false (mk_st h (inc2 s) (inc3 s) (out s ++ o))
  | step_inc2 h p o : inc_step 2 (sh s) (inc2 s) = Some (h, p, o) ->
      step s false (mk_st h p (inc3 s) (out s ++ o))
  | step_inc3 h p o : inc_step 3 (sh s) (inc3 s) = Some (h, p, o) ->
      step s false (mk_st h (inc2 s) p (out s ++ o))
  | step_spurious : watch (sh s) = WWait ->
      step s true (mk_st (mk_shared (count (sh s)) (mutex (sh s)) WWoken) (inc2 s) (inc3 s) (out s)).

(** [main] creates the three threads ... *)
Definition init : st := mk_st (mk_shared 0 None WStart) (mk_inc IFor 0) (mk_inc IFor 0) [].
(** ... and joins them. *)
Definition joined (s : st) : bool :=
  bool_decide (watch (sh s) = WDone) && bool_decide (pc (inc2 s) = IDone) && bool_decide (pc (inc3 s) = IDone).
Definition main_end (s : st) : list bytes := out s ++ [lit "Main(): Waited on " ++ dec 3 ++ lit "  threads. Done."].

Inductive run : nat -> st -> st -> Prop :=
  | run_zero s : run 0 s s
  | run_step n s b s1 s2 : step s b s1 -> run n s1 s2 -> run (S n) s s2.

(** ** Invariant *)
(** Increments a thread has done. *)
Definition incs (p : inc) : Z :=
  match pc p with ICounted | ISignalled | ISleep => iter p + 1 | _ => iter p end.
Definition inc_holds (p : inc) : bool := match pc p with ILocked | ICounted | ISignalled => true | _ => false end.
Definition watch_holds (w : wpc) : bool := match w with WTest | WBody | WUnlock => true | _ => false end.
Definition inc_ok (p : inc) : Prop :=
  0 <= iter p <= TCOUNT /\
  match pc p with IFor => True | IDone => iter p = TCOUNT | _ => iter p < TCOUNT end.
(** Times the watcher has run its loop body. *)
Definition bodies (s : st) : Z := if count (sh s) <? 125 then 0 else 1.

Record inv (s : st) : Prop := {
  i_inc2 : inc_ok (inc2 s);
  i_inc3 : inc_ok (inc3 s);
  i_lock : mutex (sh s) = if watch_holds (watch (sh s)) then Some 1
                          else if inc_holds (inc2 s) then Some 2
                          else if inc_holds (inc3 s) then Some 3 else None;
  i_excl : (Z.b2z (watch_holds (watch (sh s))) + Z.b2z (inc_holds (inc2 s)) + Z.b2z (inc_holds (inc3 s)) <= 1);
  i_count : count (sh s) = incs (inc2 s) + incs (inc3 s) + 125 * bodies s;
  i_watch : match watch (sh s) with
            | WStart | WLock | WBody | WWoken => bodies s = 0
            | WTest => True
            | WWait => bodies s = 0 /\
                (count (sh s) < COUNT_LIMIT \/
                 count (sh s) = COUNT_LIMIT /\ (pc (inc2 s) = ICounted \/ pc (inc3 s) = ICounted))
            | WUnlock | WDone => COUNT_LIMIT <= count (sh s)
            end
}.

Lemma incs_bound p : inc_ok p -> 0 <= incs p <= 10.
Proof. unfold inc_ok, incs, TCOUNT. destruct (pc p); lia. Qed.

Lemma inv_init : inv init.
Proof. split; done. Qed.

Lemma inc_watch_step s h o :
  inv s -> watch_step 1 (sh s) = Some (h, o) -> inv (mk_st h (inc2 s) (inc3 s) (out s ++ o)).
Proof.
  intros [H2 H3 Hl Hx Hc Hw] E. pose proof (incs_bound _ H2). pose proof (incs_bound _ H3).
  destruct s as [[c m w] p2 p3 o0]. unfold watch_step, bodies, COUNT_LIMIT in *. cbn in *.
  destruct w; cbn in *; repeat case_match; simplify_eq/=; zbool;
    (split; cbn; unfold bodies, COUNT_LIMIT in *; cbn;
     [done | done | | | repeat case_if; lia | repeat case_if; try done; try lia]).
  all: destruct (inc_holds p2), (inc_holds p3); cbn in *; congruence || lia || idtac.
Qed.

(** A step of an incrementing thread, seen from its own state. *)
Lemma inc_ok_step t h p h' p' o : inc_ok p -> inc_step t h p = Some (h', p', o) -> inc_ok p'.
Proof.
  unfold inc_ok, inc_step, TCOUNT. intros H E. destruct p as [q i]. cbn in *.
  destruct q; repeat case_match; simplify_eq/=; zbool; lia.
Qed.

(** The effect of such a step on what the invariant mentions. *)
Lemma inc_step_effect t h p h' p' o :
  inc_ok p -> inc_step t h p = Some (h', p', o) ->
  (count h' = count h /\ incs p' = incs p /\ watch h' = watch h /\
     (pc p = ICounted -> count h <> COUNT_LIMIT) /\
     ((mutex h' = mutex h /\ inc_holds p' = inc_holds p) \/
      (mutex h = None /\ mutex h' = Some t /\ inc_holds p = false /\ inc_holds p' = true) \/
      (mutex h' = None /\ inc_holds p = true /\ inc_holds p' = false))) \/
  (count h' = count h + 1 /\ incs p' = incs p + 1 /\ watch h' = watch h /\ mutex h' = mutex h /\
     inc_holds p = true /\ inc_holds p' = true /\ pc p = ILocked /\ pc p' = ICounted) \/
  (count h' = count h /\ incs p' = incs p /\ watch h' = signal (watch h) /\ mutex h' = mutex h /\
     inc_holds p = true /\ inc_holds p' = true /\ pc p = ICounted /\ count h = COUNT_LIMIT).
Proof.
  unfold inc_ok, inc_step. intros [Hi Hp] E. destruct p as [q i], h as [c m w]. cbn in *.
  destruct q; cbn in *.
  - destruct (i <? TCOUNT) eqn:Hlt; [destruct m | ]; simplify_eq/=; left; naive_solver.
  - simplify_eq/=. right. left. naive_solver.
  - destruct (c =? COUNT_LIMIT) eqn:Hc; zbool; simplify_eq/=; [right; right | left]; naive_solver.
  - simplify_eq/=. left. naive_solver.
  - simplify_eq/=. left. unfold incs. cbn. naive_solver.
  - done.
Qed.

(** The watcher's part of the invariant, for [p] the moving and [q] the other
    incrementing thread. *)
Definition watch_inv (h : shared) (p q : inc) : Prop :=
  let b := if count h <? 125 then 0 else 1 in
  match watch h with
  | WStart | WLock | WBody | WWoken => b = 0
  | WTest => True
  | WWait => b = 0 /\ (count h < COUNT_LIMIT \/ count h = COUNT_LIMIT /\ (pc p = ICounted \/ pc q = ICounted))
  | WUnlock | WDone => COUNT_LIMIT <= count h
  end.

Lemma watch_inv_step t h p h' p' q o :
  inc_ok p -> inc_step t h p = Some (h', p', o) ->
  (inc_holds p = true -> inc_holds q = false) ->
  count h + 1 < 125 \/ 125 <= count h -> watch_inv h p q -> watch_inv h' p' q.
Proof.
  intros Hp E Hexcl Hb Hw. assert (pc q = ICounted -> inc_holds q = true) as Hq by (unfold inc_holds; by intros ->).
  assert ((count h + 1 <? 125) = (count h <? 125)) as Hbb
    by (destruct (count h <? 125) eqn:?; zbool; [apply Z.ltb_lt | apply Z.ltb_ge]; lia).
  destruct (inc_step_effect _ _ _ _ _ _ Hp E) as [(Hc & _ & Hww & Hpc & Hm) | [(Hc & _ & Hww & _ & H1 & _ & Hpc & Hpc') | (Hc & _ & Hww & _ & H1 & _)]];
    unfold watch_inv, COUNT_LIMIT in *; rewrite Hc, Hww, ?Hbb; destruct (watch h); cbn in *; repeat case_if; try done; try lia.
  - destruct Hw as [_ [Hw | [Hw [Hw' | Hw']]]]; [split; [done | by left] | exfalso; by apply Hpc | ].
    split; [done | ]. right. auto.
  - destruct Hw as [_ [Hw | [Hw [Hw' | Hw']]]]; [ | congruence | by rewrite Hexcl in Hq by done; specialize (Hq Hw')].
    split; [done | ]. destruct (decide (count h + 1 < 12)); [by left | right]. split; [lia | by left].
Qed.

(** The common part of the two preservation proofs. *)
Ltac inc_preserves s Hme E :=
  destruct (inc_step_effect _ _ _ _ _ _ Hme E) as
    [(Ec & Ei & Ew & _ & Em) | [(Ec & Ei & Ew & Em & Eh & Eh' & _) | (Ec & Ei & Ew & Em & Eh & Eh' & _)]];
  cbn [sh inc2 inc3];
  match goal with Hbb : (_ <? 125) = (_ <? 125) |- _ =>
    unfold bodies in *; cbn [sh] in *; rewrite ?Ec, ?Ei, ?Hbb; try lia end;
  assert (watch_holds (signal (watch (sh s))) = watch_holds (watch (sh s))) as Hsig by (by destruct (watch (sh s)));
  rewrite Ew, ?Hsig;
  match goal with Hx : Z.b2z _ + _ + _ <= 1 |- _ =>
    destruct (watch_holds (watch (sh s))), (inc_holds (inc2 s)), (inc_holds (inc3 s)); simpl in Hx; try lia end;
  try rewrite Eh'; try congruence; try (simpl; lia);
  try (destruct Em as [(Em & Eh) | [(Em0 & Em & Eh & Eh') | (Em & Eh & Eh')]]; rewrite ?Eh, ?Eh', ?Em; simpl in *; congruence || lia).

Lemma inv_bodies s : inv s ->
  (count (sh s) + 1 < 125 \/ 125 <= count (sh s)) /\ (count (sh s) + 1 <? 125) = (count (sh s) <? 125).
Proof.
  intros [H2 H3 _ _ Hc _]. pose proof (incs_bound _ H2). pose proof (incs_bound _ H3). unfold bodies in Hc.
  destruct (count (sh s) <? 125) eqn:Hlt; zbool; (split; [lia | ]); [apply Z.ltb_lt | apply Z.ltb_ge]; lia.
Qed.

Lemma inv_inc2 s h p o :
  inv s -> inc_step 2 (sh s) (inc2 s) = Some (h, p, o) -> inv (mk_st h p (inc3 s) (out s ++ o)).
Proof.
  intros I E. destruct (inv_bodies s I) as [Hb Hbb]. destruct I as [H2 H3 Hl Hx Hc Hw].
  pose proof (inc_ok_step _ _ _ _ _ _ H2 E) as H2'.
  split; [done | done | | | | ].
  4:{ apply (watch_inv_step _ _ _ _ _ (inc3 s) _ H2 E); [ | done | done].
      intros Hh. rewrite Hh in Hx. destruct (inc_holds (inc3 s)), (watch_holds (watch (sh s))); simpl in Hx; done || lia. }
  all: inc_preserves s H2 E.
Qed.

Lemma watch_inv_sym h p q : watch_inv h p q -> watch_inv h q p.
Proof. unfold watch_inv. destruct (watch h); tauto. Qed.

Lemma inv_inc3 s h p o :
  inv s -> inc_step 3 (sh s) (inc3 s) = Some (h, p, o) -> inv (mk_st h (inc2 s) p (out s ++ o)).
Proof.
  intros I E. destruct (inv_bodies s I) as [Hb Hbb]. destruct I as [H2 H3 Hl Hx Hc Hw].
  pose proof (inc_ok_step _ _ _ _ _ _ H3 E) as H3'.
  split; [done | done | | | | ].
  4:{ apply watch_inv_sym, (watch_inv_step _ _ _ _ _ (inc2 s) _ H3 E); [ | done | by apply watch_inv_sym].
      intros Hh. rewrite Hh in Hx. destruct (inc_holds (inc2 s)), (watch_holds (watch (sh s))); simpl in Hx; done || lia. }
  all: inc_preserves s H3 E.
Qed.

Lemma inv_step s b s' : inv s -> step s b s' -> inv s'.
Proof.
  intros I H. destruct H as [h o E | h p o E | h p o E | E].
  - by apply inc_watch_step.
  - by apply inv_inc2.
  - by apply inv_inc3.
  - destruct I as [H2 H3 Hl Hx Hc Hw]. rewrite E in *. destruct Hw as [Hw _]. by split.
Qed.

Lemma inv_run n s s' : run n s s' -> inv s -> inv s'.
Proof. induction 1; eauto using inv_step. Qed.

(** ** Every step decreases a measure *)
Definition inc_left (p : inc) : Z :=
  match pc p with
  | IFor => 5 * (TCOUNT - iter p) + 1
  | ILocked => 5 * (TCOUNT - iter p)
  | ICounted => 5 * (TCOUNT - iter p) - 1
  | ISignalled => 5 * (TCOUNT - iter p) - 2
  | ISleep => 5 * (TCOUNT - iter p) - 3
  | IDone => 0
  end.
Definition watch_left (h : shared) : Z :=
  match watch h with
  | WStart => 9 | WLock => 8
  | WTest => if count h <? COUNT_LIMIT then 7 else 3
  | WWait => 6 | WWoken => 5 | WBody => 4 | WUnlock => 2 | WDone => 0
  end.
Definition left (s : st) : Z := watch_left (sh s) + inc_left (inc2 s) + inc_left (inc3 s).

Lemma inc_left_step t h p h' p' o :
  inc_ok p -> inc_step t h p = Some (h', p', o) -> watch_holds (watch h) && inc_holds p = false ->
  0 <= inc_left p' < inc_left p /\ watch_left h' <= watch_left h.
Proof.
  unfold inc_ok, inc_step. intros [Hi Hp] E Hx. destruct p as [q i], h as [c m w]. unfold inc_left, watch_left, TCOUNT, COUNT_LIMIT in *.
  cbn in *. destruct q; cbn in *; repeat (case_match; simplify_eq/=); zbool; try lia.
  all: destruct w; cbn in *; try done; repeat case_if; lia.
Qed.

Lemma inc_left_nonneg p : inc_ok p -> 0 <= inc_left p.
Proof. unfold inc_ok, inc_left, TCOUNT. destruct (pc p); lia. Qed.

Lemma step_left s b s' : inv s -> step s b s' -> 0 <= left s' < left s.
Proof.
  intros I H. pose proof (inv_step s b s' I H) as I'. destruct I as [H2 H3 Hl Hx Hc Hw].
  pose proof (inc_left_nonneg _ H2). pose proof (inc_left_nonneg _ H3).
  assert (0 <= watch_left (sh s')) by (unfold watch_left; destruct (watch (sh s')); repeat case_if; lia).
  destruct H as [h o E | h p o E | h p o E | E]; unfold left in *; cbn [sh inc2 inc3] in *.
  - assert (0 <= count (sh s)) as H0c.
    { pose proof (incs_bound _ H2). pose proof (incs_bound _ H3). unfold bodies in Hc. destruct (count (sh s) <? 125); lia. }
    assert (watch_left h < watch_left (sh s)); [ | lia]. clear - E H0c.
    destruct (sh s) as [c m w]. unfold watch_step, watch_left, COUNT_LIMIT in *. cbn in *.
    destruct w; repeat (case_match; simplify_eq/=); zbool; repeat case_if; lia.
  - destruct (inc_left_step _ _ _ _ _ _ H2 E); [ | lia].
    destruct (watch_holds (watch (sh s))), (inc_holds (inc2 s)), (inc_holds (inc3 s)); simpl in *; done || lia.
  - destruct (inc_left_step _ _ _ _ _ _ H3 E); [ | lia].
    destruct (watch_holds (watch (sh s))), (inc_holds (inc2 s)), (inc_holds (inc3 s)); simpl in *; done || lia.
  - unfold watch_left in *. rewrite E. cbn. lia.
Qed.

(** ** No deadlock *)
Lemma inc_blocked t h p :
  inc_ok p -> inc_step t h p = None ->
  inc_holds p = false /\ (is_Some (mutex h) \/ (pc p = IDone /\ incs p = TCOUNT)).
Proof.
  unfold inc_ok, inc_step, inc_holds, incs. intros [_ Hp] E. destruct (pc p); try done.
  - case_match; [ | done]. case_match; [eauto | done].
  - case_match; done.
  - auto.
Qed.
Lemma watch_blocked t h :
  watch_step t h = None ->
  watch_holds (watch h) = false /\ (is_Some (mutex h) \/ watch h = WWait \/ watch h = WDone).
Proof.
  unfold watch_step. destruct (watch h); try done; intros E.
  - destruct (mutex h); [eauto | done].
  - case_match; done.
  - auto.
  - destruct (mutex h); [eauto | done].
  - auto.
Qed.

Lemma progress s : inv s -> joined s = false -> exists s', step s false s'.
Proof.
  intros [H2 H3 Hl Hx Hc Hw] Hj.
  destruct (watch_step 1 (sh s)) as [[h o] | ] eqn:E1; [eexists; by eapply step_watch | ].
  destruct (inc_step 2 (sh s) (inc2 s)) as [[[h p] o] | ] eqn:E2; [eexists; by eapply step_inc2 | ].
  destruct (inc_step 3 (sh s) (inc3 s)) as [[[h p] o] | ] eqn:E3; [eexists; by eapply step_inc3 | ].
  exfalso. apply watch_blocked in E1 as [B1 C1]. apply inc_blocked in E2 as [B2 C2]; [ | done].
  apply inc_blocked in E3 as [B3 C3]; [ | done]. rewrite B1, B2, B3 in Hl. rewrite Hl in *.
  destruct C2 as [[? ?] | [C2 I2]]; [done | ]. destruct C3 as [[? ?] | [C3 I3]]; [done | ].
  destruct C1 as [[? ?] | [C1 | C1]]; [done | | ].
  - rewrite C1 in Hw. rewrite I2, I3 in Hc. destruct Hw as [Hb Hw]. rewrite Hb in Hc.
    unfold TCOUNT, COUNT_LIMIT in *. lia.
  - unfold joined in Hj. rewrite C1, C2, C3 in Hj. done.
Qed.

(** ** Properties *)

(** C11. Safety of every interleaving, spurious wake-ups included: at most one
    thread is between locking and unlocking the mutex, the counter is the number
    of increments done plus 125 if the watcher has run its loop body, which it
    does at most once, so the counter stays within 0..145; a waiting watcher has
    not missed the threshold: the counter is below 12, or it is 12 and the thread
    that made it 12 still has to signal. *)
Theorem condwait_safe n s :
  run n init s ->
  Z.b2z (watch_holds (watch (sh s))) + Z.b2z (inc_holds (inc2 s)) + Z.b2z (inc_holds (inc3 s)) <= 1 /\
  count (sh s) = incs (inc2 s) + incs (inc3 s) + 125 * bodies s /\ 0 <= count (sh s) <= 145 /\
  (watch (sh s) = WWait ->
     count (sh s) < COUNT_LIMIT \/ count (sh s) = COUNT_LIMIT /\ (pc (inc2 s) = ICounted \/ pc (inc3 s) = ICounted)).
Proof.
  intros Hr. destruct (inv_run n init s Hr inv_init) as [H2 H3 Hl Hx Hc Hw].
  split; [done | ]. split; [done | ]. split.
  - pose proof (incs_bound _ H2). pose proof (incs_bound _ H3). unfold bodies in Hc.
    destruct (count (sh s) <? 125); lia.
  - intros E. rewrite E in Hw. apply Hw.
Qed.

(** C12. Termination: every execution has at most 111 steps, spurious wake-ups
    included, and no reachable state is a deadlock: as long as a thread is not
    done some thread can step without a spurious wake-up; when all are joined
    the counter is 20, or 145 if the watcher waited. *)
Theorem condwait_terminates n s :
  run n init s ->
  (n <= 111)%nat /\
  (joined s = false -> exists s', step s false s') /\
  (joined s = true -> count (sh s) = 20 \/ count (sh s) = 145).
Proof.
  intros Hr. pose proof (inv_run n init s Hr inv_init) as I. split; [ | split].
  - assert (forall n s1 s2, run n s1 s2 -> inv s1 -> 0 <= left s1 -> Z.of_nat n <= left s1) as H.
    { clear. induction 1 as [s | n s b s1 s2 Hs _ IH]; intros I H0; [lia | ].
      pose proof (step_left s b s1 I Hs). specialize (IH (inv_step s b s1 I Hs)). lia. }
    specialize (H n init s Hr inv_init). change (left init) with 111 in H. lia.
  - by apply progress.
  - intros Hj. unfold joined in Hj. apply andb_true_iff in Hj as [[_ J2%bool_decide_eq_true]%andb_true_iff J3%bool_decide_eq_true].
    destruct I as [[_ H2] [_ H3] _ _ Hc _]. unfold incs, bodies, TCOUNT in *. rewrite J2 in *. rewrite J3 in *.
    rewrite H2, H3 in Hc. destruct (count (sh s) <? 125); lia.
Qed.

(** Any sequence of threads is a run; used for the witnesses. *)
Definition try_step (s : st) (t : Z) : st :=
  let s' := if t =? 1 then match watch_step 1 (sh s) with Some (h, o) => mk_st h (inc2 s) (inc3 s) (out s ++ o) | None => s end
            else match inc_step 2 (sh s) (inc2 s) with Some (h, p, o) => mk_st h p (inc3 s) (out s ++ o) | None => s end in s'.

Lemma condwait_safe_witness :
  let s := foldl try_step init [1; 1; 1; 2] in
  Z.b2z (watch_holds (watch (sh s))) + Z.b2z (inc_holds (inc2 s)) + Z.b2z (inc_holds (inc3 s)) <= 1 /\
  count (sh s) = incs (inc2 s) + incs (inc3 s) + 125 * bodies s /\ 0 <= count (sh s) <= 145 /\
  (watch (sh s) = WWait ->
     count (sh s) < COUNT_LIMIT \/ count (sh s) = COUNT_LIMIT /\ (pc (inc2 s) = ICounted \/ pc (inc3 s) = ICounted)).
Proof.
  apply (condwait_safe 4).
  eapply run_step; [apply step_watch; reflexivity | ]. eapply run_step; [apply step_watch; reflexivity | ].
  eapply run_step; [apply step_watch; reflexivity | ]. eapply run_step; [apply step_inc2; reflexivity | ].
  apply run_zero.
Defined.

Lemma condwait_terminates_witness :
  let s := foldl try_step init [1] in
  (1 <= 111)%nat /\ (joined s = false -> exists s', step s false s') /\
  (joined s = true -> count (sh s) = 20 \/ count (sh s) = 145).
Proof.
  apply (condwait_terminates 1). eapply run_step; [apply step_watch; reflexivity | ]. apply run_zero.
Defined.
End CondWait.
