(* ===== verification/Small.v ===== *)
(** * Small programs: [cmake-tutorial], [profiling] and [multithread] *)
From S2P Require Import Prelude CLib Bytes Sys.

Module Small.

(** ** [cmake-tutorial/src] *)
Fixpoint factorial (fuel : nat) (n : Z) : outcome Z :=
  if negb (n =? 1) then
    match fuel with
    | O => NoFuel
    | S fuel =>
        let! m := cint (n - 1) in
        let! f := factorial fuel m in
        cint (n * f)
    end
  else Ok 1.
Definition print_hello : io unit := tell (Out (lit "Hello World!")).
Definition tutorial_main : io Z :=
  let? _ := print_hello in
  let? f := lift (factorial 5 5) in
  let? _ := tell (Out (lit "The factorial of 5 is " ++ dec f)) in
  iret 0.

(** ** [profiling/src/main.c] *)
Definition BUFSIZE : Z := 1024.
Definition TIMES : nat := Z.to_nat 1000000.
(** [memset(buf, 'c', size - 2)]: a negative length is a huge [size_t]. *)
Definition func2 (buf : bytes) (size : Z) : outcome bytes :=
  let! n := cint (size - 2) in
  if n <? 0 then Ub
  else
    let! buf := store buf 0 (replicate (Z.to_nat n) 99) in
    let! i := cint (size - 1) in
    wr buf i 0.
Fixpoint repeat_func2 (times : nat) (buf : bytes) (size : Z) : outcome bytes :=
  match times with
  | O => Ok buf
  | S times => let! buf := func2 buf size in repeat_func2 times buf size
  end.
Definition heap_allocation (buf : bytes) (size : Z) : outcome bytes := repeat_func2 TIMES buf size.
Definition stack_allocation (junk : bytes) : outcome bytes := repeat_func2 TIMES junk BUFSIZE.
Definition profiling_main (junk1 junk2 : bytes) : outcome (bytes * bytes) :=
  let! a := heap_allocation junk1 BUFSIZE in
  let! b := stack_allocation junk2 in
  Ok (a, b).

(** ** [multithread/src/multithread.c] *)
Definition sig_handler (signo stopped : Z) : Z := 1.
(** [while (!stopped) fprintf(devNull, "y\n");], the reads of [stopped] answered
    from outside: a signal sets it at any time. *)
Fixpoint yes_loop (fuel : nat) : io unit :=
  match fuel with
  | O => lift NoFuel
  | S fuel =>
      let? s := ask "stopped" [] [] in
      if ret s =? 0 then
        let? _ := tell (Call "fprintf" [] (lit "y" ++ [10])) in
        yes_loop fuel
      else iret tt
  end.
(** A null stream is passed on to [fprintf]. *)
Definition yesThread (fuel : nat) : io unit :=
  let? f := ask "freopen" [] (lit "/dev/null") in
  if ret f =? 0 then
    let? s := ask "stopped" [] [] in
    if ret s =? 0 then lift Ub else iret tt
  else yes_loop fuel.
Definition multithread_main : io Z :=
  let? _ := tell (Call "signal" [2] (lit "sig_handler")) in
  let? _ := tell (Call "signal" [9] (lit "sig_handler")) in
  let? n := ask "get_nprocs" [] [] in
  let n_procs := ret n in
  if n_procs <=? 0 then lift Ub
  else
    let? _ := ifor (fun i => tell (Call "pthread_create" [Z.of_nat i] (lit "yesThread"))) (seq 0 (Z.to_nat n_procs)) in
    let? _ := ifor (fun i => tell (Call "pthread_join" [Z.of_nat i] [])) (seq 0 (Z.to_nat n_procs)) in
    iret 0.

(** ** Lemmas *)
Fixpoint zfact (n : nat) : Z :=
  match n with
  | O => 1
  | S m => Z.of_nat n * zfact m
  end.

Lemma zfact_bound n : (n <= 12)%nat -> 0 <= zfact n <= 479001600.
Proof. intros Hn. do 13 (destruct n as [ | n]; [split; vm_compute; discriminate | ]). lia. Qed.

Lemma factorial_pos fuel : forall n, 1 <= n <= 12 -> n <= Z.of_nat fuel + 1 ->
  factorial fuel n = Ok (zfact (Z.to_nat n)).
Proof.
  induction fuel as [ | fuel IH]; intros n Hn Hf.
  - assert (n = 1) as -> by lia. done.
  - cbn [factorial]. destruct (n =? 1) eqn:E; zbool; [by subst | ]. cbn [negb].
    rewrite cint_ok, obind_ok by int_bounds. rewrite IH, obind_ok by lia.
    replace (Z.to_nat n) with (S (Z.to_nat (n - 1))) by lia. cbn [zfact].
    replace (Z.of_nat (S (Z.to_nat (n - 1)))) with n by lia. apply cint_ok.
    pose proof (zfact_bound (S (Z.to_nat (n - 1))) ltac:(lia)) as Hb. cbn [zfact] in Hb.
    replace (Z.of_nat (S (Z.to_nat (n - 1)))) with n in Hb by lia. int_bounds.
Qed.

Lemma func2_ok buf n :
  0 <= n -> n + 2 <= INT_MAX -> len buf = n + 2 ->
  func2 buf (n + 2) = Ok (replicate (Z.to_nat n) 99 ++ take 1 (drop (Z.to_nat n) buf) ++ [0]).
Proof.
  intros Hn Hmax Hlen. unfold func2. rewrite cint_ok, obind_ok by int_bounds.
  replace (n + 2 - 2) with n by lia. rewrite (proj2 (Z.ltb_ge n 0)) by lia.
  rewrite store_ok, obind_ok by (rewrite ?length_replicate; lia). rewrite cint_ok, obind_ok by int_bounds.
  unfold splice. rewrite length_replicate. change (take (Z.to_nat 0) buf) with (@nil Z). cbn [app].
  change (Z.to_nat 0 + Z.to_nat n)%nat with (Z.to_nat n).
  destruct (drop (Z.to_nat n) buf) as [ | x [ | y [ | z r]]] eqn:E.
  - apply (f_equal length) in E. rewrite length_drop in E. simpl in E. lia.
  - apply (f_equal length) in E. rewrite length_drop in E. simpl in E. lia.
  - change (replicate (Z.to_nat n) 99 ++ [x; y]) with (replicate (Z.to_nat n) 99 ++ [x] ++ y :: []).
    rewrite app_assoc, wr_app by (rewrite length_app, length_replicate; simpl; lia). by rewrite <- app_assoc.
  - apply (f_equal length) in E. rewrite length_drop in E. simpl in E. lia.
Qed.

Lemma repeat_func2_ok n x times :
  0 <= n -> n + 2 <= INT_MAX ->
  repeat_func2 times (replicate (Z.to_nat n) 99 ++ [x; 0]) (n + 2) = Ok (replicate (Z.to_nat n) 99 ++ [x; 0]).
Proof.
  intros Hn Hmax. induction times as [ | times IH]; [done | ]. cbn [repeat_func2].
  rewrite func2_ok, obind_ok by (rewrite ?length_app, ?length_replicate; simpl; lia).
  rewrite drop_app_length' by (rewrite length_replicate; done). exact IH.
Qed.

(** ** Properties *)

(** [factorial] is the factorial for arguments 1..12 and overflows [int]
    (undefined) from 13 on; for arguments below 1 it never returns normally,
    however deep the recursion may go; the program prints 120. *)
Theorem factorial_range :
  (forall n fuel, 1 <= n <= 12 -> n <= Z.of_nat fuel -> factorial fuel n = Ok (zfact (Z.to_nat n))) /\
  (forall n fuel, 13 <= n <= INT_MAX -> n <= Z.of_nat fuel -> factorial fuel n = Ub) /\
  (forall n fuel r, n <= 0 -> factorial fuel n <> Ok r) /\
  tutorial_main [] = ([Out (lit "Hello World!"); Out (lit "The factorial of 5 is 120")], Ok (0, [])).
Proof.
  split; [ | split; [ | split; [ | done]]].
  - intros n fuel Hn Hf. apply factorial_pos; lia.
  - intros n fuel. revert n. induction fuel as [ | fuel IH]; intros n Hn Hf; [lia | ].
    cbn [factorial]. destruct (n =? 1) eqn:E; zbool; [lia | ]. cbn [negb].
    rewrite cint_ok, obind_ok by int_bounds. destruct (decide (n = 13)) as [-> | ].
    + rewrite factorial_pos, obind_ok by lia. done.
    + rewrite IH by lia. done.
  - intros n fuel. revert n. induction fuel as [ | fuel IH]; intros n r Hn; cbn [factorial];
      (destruct (n =? 1) eqn:E; zbool; [lia | ]); cbn [negb]; [done | ].
    intros H. run_inv H. apply cint_inv in E0 as [-> _]. run_inv H. by apply IH in E0; [ | lia].
Qed.

Lemma factorial_range_witness : factorial 13 13 = Ub.
Proof. apply factorial_range; unfold INT_MAX; lia. Defined.

(** A million calls of [func2] leave what one call leaves: 1022 letters, a
    byte that is never written (the string function was meant to fill
    [size - 1] bytes) and the terminating zero, for the heap and for the stack
    variant. *)
Theorem profiling_buffers junk1 junk2 :
  len junk1 = BUFSIZE -> len junk2 = BUFSIZE ->
  profiling_main junk1 junk2 =
    Ok (replicate 1022 99 ++ take 1 (drop 1022 junk1) ++ [0], replicate 1022 99 ++ take 1 (drop 1022 junk2) ++ [0]).
Proof.
  intros H1 H2.
  assert (forall junk t, len junk = BUFSIZE -> repeat_func2 (S t) junk BUFSIZE =
    Ok (replicate 1022 99 ++ take 1 (drop 1022 junk) ++ [0])) as H.
  { unfold BUFSIZE. intros junk t Hl. cbn [repeat_func2]. change 1024 with (1022 + 2).
    rewrite (func2_ok junk 1022), obind_ok by (unfold INT_MAX; lia).
    change (Z.to_nat 1022) with 1022%nat. destruct (drop 1022 junk) as [ | x r] eqn:E.
    - apply (f_equal length) in E. rewrite length_drop in E. simpl in E. lia.
    - cbn [take app]. rewrite take_0. apply (repeat_func2_ok 1022 x t); unfold INT_MAX; lia. }
  unfold profiling_main, heap_allocation, stack_allocation.
  assert (TIMES = S (pred TIMES)) as -> by (unfold TIMES; lia).
  rewrite H, obind_ok, H, obind_ok by done. done.
Qed.

Lemma profiling_buffers_witness :
  profiling_main (replicate 1024 7) (replicate 1024 8) = Ok (replicate 1022 99 ++ [7; 0], replicate 1022 99 ++ [8; 0]).
Proof. apply (profiling_buffers (replicate 1024 7) (replicate 1024 8)); reflexivity. Defined.

(** A thread writes one line for every time it reads the flag as zero and stops at
    the first time it does not. *)
Theorem yesThread_stops k f v ans fuel :
  f <> 0 -> v <> 0 -> (k < fuel)%nat ->
  yesThread fuel (ok f :: replicate k (ok 0) ++ ok v :: ans) =
    (Call "freopen" [] (lit "/dev/null") ::
     concat (replicate k [Call "stopped" [] []; Call "fprintf" [] (lit "y" ++ [10])]) ++ [Call "stopped" [] []],
     Ok (tt, ans)).
Proof.
  intros Hf Hv Hk. unfold yesThread. erewrite ibind_ok by reflexivity. cbn [ret ok].
  rewrite (proj2 (Z.eqb_neq f 0) Hf).
  assert (forall k fuel, (k < fuel)%nat -> yes_loop fuel (replicate k (ok 0) ++ ok v :: ans) =
    (concat (replicate k [Call "stopped" [] []; Call "fprintf" [] (lit "y" ++ [10])]) ++ [Call "stopped" [] []],
     Ok (tt, ans))) as E.
  { clear -Hv. induction k as [ | k IH]; intros fuel Hk; (destruct fuel as [ | fuel]; [lia | ]); cbn [yes_loop replicate app].
    - erewrite ibind_ok by reflexivity. cbn [ret ok]. by rewrite (proj2 (Z.eqb_neq v 0) Hv).
    - erewrite ibind_ok by reflexivity. cbn [ret ok Z.eqb]. erewrite ibind_ok by reflexivity. by rewrite IH by lia. }
  by rewrite E by lia.
Qed.
End Small.
