(* ===== verification/Sniffer.v ===== *)
(** * The packet sniffer [libpcap/sniffex.c]

    The dissection and printing of captured packets, and [main] over the answers
    of libpcap.  A packet is the list of its captured bytes: reading behind them
    is undefined. *)
From S2P Require Import Prelude CLib Bytes Sys.

Module Sniffer.

Definition SNAP_LEN : Z := 1518.
Definition SIZE_ETHERNET : Z := 14.
Definition IPPROTO_IP : Z := 0.
Definition IPPROTO_ICMP : Z := 1.
Definition IPPROTO_TCP : Z := 6.
Definition IPPROTO_UDP : Z := 17.
Definition DLT_EN10MB : Z := 1.

Definition print_app_banner : list bytes :=
  [lit "sniffex - Sniffer example using libpcap"; lit "Copyright (c) 2005 The Tcpdump Group";
   lit "THERE IS ABSOLUTELY NO WARRANTY FOR THIS PROGRAM."; []].
Definition print_app_usage : list bytes :=
  [lit "Usage: sniffex [interface]"; []; lit "Options:";
   lit "    interface    Listen on <interface> for packets."; []].

(** The hex loop of [print_hex_ascii_line]. *)
Fixpoint hex_loop (payload : bytes) (off : Z) (n : nat) (i : Z) : outcome bytes :=
  match n with
  | O => Ok []
  | S n =>
      let! c := rd payload (off + i) in
      let! rest := hex_loop payload off n (i + 1) in
      Ok (hex2 c ++ [32] ++ (if i =? 7 then [32] else []) ++ rest)
  end.
Fixpoint ascii_loop (payload : bytes) (off : Z) (n : nat) (i : Z) : outcome bytes :=
  match n with
  | O => Ok []
  | S n =>
      let! c := rd payload (off + i) in
      let! rest := ascii_loop payload off n (i + 1) in
      Ok ((if isprint c then c else 46) :: rest)
  end.
(** [print_hex_ascii_line(payload + off, len, offset)] *)
Definition print_hex_ascii_line (payload : bytes) (off n offset : Z) : outcome bytes :=
  let! hex := hex_loop payload off (Z.to_nat n) 0 in
  let! ascii := ascii_loop payload off (Z.to_nat n) 0 in
  Ok (dec_pad 5 offset ++ lit "   " ++ hex ++ (if n <? 8 then [32] else []) ++
      (if n <? 16 then concat (replicate (Z.to_nat (16 - n)) (lit "   ")) else []) ++ lit "   " ++ ascii).

(** The loop of [print_payload]; [ch] is an offset. *)
Fixpoint payload_loop (payload : bytes) (fuel : nat) (ch len_rem offset : Z) : outcome (list bytes) :=
  match fuel with
  | O => NoFuel
  | S fuel =>
      let! line_len := crem 16 len_rem in
      let! l := print_hex_ascii_line payload ch line_len offset in
      let! len_rem := cint (len_rem - line_len) in
      let ch := ch + line_len in
      let! offset := cint (offset + 16) in
      if len_rem <=? 16 then
        let! last := print_hex_ascii_line payload ch len_rem offset in
        Ok [l; last]
      else
        let! rest := payload_loop payload fuel ch len_rem offset in
        Ok (l :: rest)
  end.
Definition print_payload (payload : bytes) (off n : Z) : outcome (list bytes) :=
  if n <=? 0 then Ok []
  else if n <=? 16 then let! l := print_hex_ascii_line payload off n 0 in Ok [l]
  else payload_loop payload (Z.to_nat n) off n 0.

(** [inet_ntoa] of the address at an offset of the packet. *)
Definition ntoa_at (packet : bytes) (off : Z) : outcome bytes :=
  let! l := load packet off 4 in
  match l with
  | [a; b; c; d] => Ok (dec a ++ lit "." ++ dec b ++ lit "." ++ dec c ++ lit "." ++ dec d)
  | _ => Ub
  end.

(** The header lengths in words, from the first byte of the IP header and the byte of the
    data offset in the TCP header. *)
Definition IP_HL (ip_vhl : Z) : Z := Z.land ip_vhl 15.
Definition TH_OFF (th_offx2 : Z) : Z := Z.shiftr (Z.land th_offx2 240) 4.

(** The part of [got_packet] for TCP. *)
Definition got_tcp (packet : bytes) (size_ip : Z) : outcome (list bytes) :=
  let tcp := SIZE_ETHERNET + size_ip in
  let! o := get8 packet (tcp + 12) in
  let size_tcp := TH_OFF o * 4 in
  if size_tcp <? 20 then Ok [lit "   * Invalid TCP header length: " ++ dec size_tcp ++ lit " bytes"]
  else
    let! sport := get16 packet tcp in
    let! dport := get16 packet (tcp + 2) in
    let ports := [lit "   Src port: " ++ dec (ntohs sport); lit "   Dst port: " ++ dec (ntohs dport)] in
    let! ip_len := get16 packet (SIZE_ETHERNET + 2) in
    let size_payload := ntohs ip_len - (size_ip + size_tcp) in
    if size_payload >? 0 then
      let! lines := print_payload packet (tcp + size_tcp) size_payload in
      Ok (ports ++ [lit "   Payload (" ++ dec size_payload ++ lit " bytes):"] ++ lines)
    else Ok ports.

(** [got_packet]: the printed lines and the packet counter. *)
Definition got_packet (count : Z) (packet : bytes) : outcome (list bytes * Z) :=
  let head := [[]; lit "Packet number " ++ dec count ++ lit ":"] in
  let! count := cint (count + 1) in
  let! vhl := get8 packet SIZE_ETHERNET in
  let size_ip := IP_HL vhl * 4 in
  if size_ip <? 20 then
    Ok (head ++ [lit "   * Invalid IP header length: " ++ dec size_ip ++ lit " bytes"], count)
  else
    let! src := ntoa_at packet (SIZE_ETHERNET + 12) in
    let! dst := ntoa_at packet (SIZE_ETHERNET + 16) in
    let head := head ++ [lit "       From: " ++ src; lit "         To: " ++ dst] in
    let! p := get8 packet (SIZE_ETHERNET + 9) in
    if p =? IPPROTO_TCP then
      let! rest := got_tcp packet size_ip in
      Ok (head ++ [lit "   Protocol: TCP"] ++ rest, count)
    else if p =? IPPROTO_UDP then Ok (head ++ [lit "   Protocol: UDP"], count)
    else if p =? IPPROTO_ICMP then Ok (head ++ [lit "   Protocol: ICMP"], count)
    else if p =? IPPROTO_IP then Ok (head ++ [lit "   Protocol: IP"], count)
    else Ok (head ++ [lit "   Protocol: unknown"], count).

(** [pcap_loop]: the callback on each packet. *)
Fixpoint packet_loop (count : Z) (packets : list bytes) : io Z :=
  match packets with
  | [] => iret count
  | p :: packets =>
      let? '(lines, count) := lift (got_packet count p) in
      let? _ := ifor (fun l => tell (Out l)) lines in
      packet_loop count packets
  end.

(** [main]; a pointer result is an answer with [ret] 0 for NULL, and [filled]
    holds a returned string or [errbuf]; [captured] are the packets [pcap_loop]
    will see. *)
Definition main (argv : list bytes) (captured : list bytes) : io Z :=
  let filter_exp := lit "ip" in
  let num_packets := 10 in
  let? _ := ifor (fun l => tell (Out l)) print_app_banner in
  let? dev :=
    match argv with
    | [_; dev] => iret dev
    | _ :: _ :: _ :: _ =>
        let? _ := tell (Err (lit "error: unrecognized command-line options")) in
        let? _ := ifor (fun l => tell (Out l)) print_app_usage in
        stop 1
    | _ =>
        let? a := ask "pcap_lookupdev" [] [] in
        if ret a =? 0 then die (lit "Couldn't find default device: " ++ filled a) else iret (filled a)
    end in
  let? a := ask "pcap_lookupnet" [] dev in
  let? net :=
    if ret a =? -1 then
      let? _ := tell (Err (lit "Couldn't get netmask for device " ++ dev ++ lit ": " ++ filled a)) in iret 0
    else iret (le_val (filled a)) in
  let? _ := tell (Out (lit "Device: " ++ dev)) in
  let? _ := tell (Out (lit "Number of packets: " ++ dec num_packets)) in
  let? _ := tell (Out (lit "Filter expression: " ++ filter_exp)) in
  let? h := ask "pcap_open_live" [SNAP_LEN; 1; 1000] dev in
  if ret h =? 0 then die (lit "Couldn't open device " ++ dev ++ lit ": " ++ filled h)
  else
    let? d := ask "pcap_datalink" [ret h] [] in
    if negb (ret d =? DLT_EN10MB) then die (dev ++ lit " is not an Ethernet")
    else
      let? c := ask "pcap_compile" [ret h; 0; net] filter_exp in
      if ret c =? -1 then die (lit "Couldn't parse filter " ++ filter_exp ++ lit ": " ++ filled c)
      else
        let? f := ask "pcap_setfilter" [ret h] [] in
        if ret f =? -1 then die (lit "Couldn't install filter " ++ filter_exp ++ lit ": " ++ filled f)
        else
          let? _ := packet_loop 1 (take (Z.to_nat num_packets) captured) in
          let? _ := tell (Out []) in
          let? _ := tell (Out (lit "Capture complete.")) in
          iret 0.

(** ** Reference: a hex dump in rows of 16 bytes *)
Definition hex_cell (i : Z) (c : Z) : bytes := hex2 c ++ [32] ++ (if i =? 7 then [32] else []).
Definition row (offset : Z) (bs : bytes) : bytes :=
  let n := len bs in
  dec_pad 5 offset ++ lit "   " ++ concat (imap (fun i c => hex_cell (Z.of_nat i) c) bs) ++
  (if n <? 8 then [32] else []) ++
  (if n <? 16 then concat (replicate (Z.to_nat (16 - n)) (lit "   ")) else []) ++ lit "   " ++
  map (fun c => if isprint c then c else 46) bs.
Fixpoint dump (fuel : nat) (offset : Z) (bs : bytes) : list bytes :=
  match fuel, bs with
  | S fuel, _ :: _ => row offset (take 16 bs) :: dump fuel (offset + 16) (drop 16 bs)
  | _, _ => []
  end.

Lemma hex_loop_ok P l Q i :
  hex_loop (P ++ l ++ Q) (len P - Z.of_nat i) (length l) (Z.of_nat i) =
  Ok (concat (imap (fun j c => hex_cell (Z.of_nat (i + j)) c) l)).
Proof.
  revert P i. induction l as [ | c l IH]; intros P i; [done | ]. cbn [length hex_loop app].
  rewrite rd_app, obind_ok by lia.
  replace (P ++ c :: l ++ Q) with ((P ++ [c]) ++ l ++ Q) by (rewrite <- app_assoc; done).
  replace (len P - Z.of_nat i) with (len (P ++ [c]) - Z.of_nat (S i)) by (rewrite length_app; simpl; lia).
  replace (Z.of_nat i + 1) with (Z.of_nat (S i)) by lia. rewrite IH, obind_ok.
  rewrite imap_cons. cbn [concat]. unfold hex_cell at 2. rewrite Nat.add_0_r, <- !app_assoc.
  do 4 f_equal. f_equal. apply imap_ext. intros j x _. simpl. f_equal. lia.
Qed.

Lemma ascii_loop_ok P l Q i :
  ascii_loop (P ++ l ++ Q) (len P - Z.of_nat i) (length l) (Z.of_nat i) =
  Ok (map (fun c => if isprint c then c else 46) l).
Proof.
  revert P i. induction l as [ | c l IH]; intros P i; [done | ]. cbn [length ascii_loop app].
  rewrite rd_app, obind_ok by lia.
  replace (P ++ c :: l ++ Q) with ((P ++ [c]) ++ l ++ Q) by (rewrite <- app_assoc; done).
  replace (len P - Z.of_nat i) with (len (P ++ [c]) - Z.of_nat (S i)) by (rewrite length_app; simpl; lia).
  replace (Z.of_nat i + 1) with (Z.of_nat (S i)) by lia. by rewrite IH, obind_ok.
Qed.

Lemma print_line_ok P l Q offset :
  print_hex_ascii_line (P ++ l ++ Q) (len P) (len l) offset = Ok (row offset l).
Proof.
  unfold print_hex_ascii_line. rewrite Nat2Z.id.
  pose proof (hex_loop_ok P l Q 0) as E1. pose proof (ascii_loop_ok P l Q 0) as E2.
  change (Z.of_nat 0) with 0 in *. rewrite Z.sub_0_r in *. by rewrite E1, obind_ok, E2, obind_ok.
Qed.

Lemma payload_loop_ok P l Q fuel offset :
  16 < len l -> (length l <= fuel)%nat -> 0 <= offset -> offset + len l + 32 <= INT_MAX ->
  payload_loop (P ++ l ++ Q) fuel (len P) (len l) offset = Ok (dump (length l) offset l).
Proof.
  revert P l offset. induction fuel as [ | fuel IH]; intros P l offset Hl Hf Ho Hmax; [lia | ].
  cbn [payload_loop]. assert (crem 16 (len l) = Ok 16) as -> by (rewrite crem_ok, Z.mod_small by int_bounds; done).
  rewrite obind_ok. set (a := take 16 l). set (b := drop 16 l).
  assert (length a = 16%nat) as Ha by (unfold a; rewrite length_take; lia).
  assert (length b = (length l - 16)%nat) as Hlb by (unfold b; apply length_drop).
  assert (l = a ++ b) as El by (unfold a, b; by rewrite take_drop).
  assert (P ++ l ++ Q = P ++ a ++ (b ++ Q)) as E1 by (rewrite El; by rewrite <- !app_assoc).
  assert (P ++ l ++ Q = (P ++ a) ++ b ++ Q) as E2 by (rewrite El; by rewrite <- !app_assoc).
  assert (print_hex_ascii_line (P ++ l ++ Q) (len P) 16 offset = Ok (row offset a)) as ->.
  { rewrite E1. replace 16 with (len a) by lia. apply print_line_ok. }
  rewrite obind_ok. rewrite !cint_ok, obind_ok by int_bounds. rewrite ?obind_ok.
  replace (len l - 16) with (len b) by lia.
  replace (len P + 16) with (len (P ++ a)) by (rewrite length_app; lia). rewrite E2.
  assert (dump (length l) offset l = row offset a :: dump (length b) (offset + 16) b) as ->.
  { assert (forall n m o x, (length x <= n)%nat -> (length x <= m)%nat -> dump n o x = dump m o x) as Hd.
    { clear. induction n as [ | n IH]; intros [ | m] o x H1 H2; destruct x as [ | y x]; try done; try (simpl in *; lia).
      cbn [dump]. f_equal. apply IH; rewrite length_drop; simpl in *; lia. }
    destruct l as [ | y l]; [simpl in Hl; lia | ]. cbn [length dump]. f_equal. apply Hd; simpl length in *; lia. }
  destruct (len b <=? 16) eqn:E.
  - zbool. rewrite print_line_ok, obind_ok. destruct b as [ | y b]; [simpl in *; lia | ].
    cbn [length dump]. rewrite take_ge by (simpl in *; lia). rewrite (drop_ge (y :: b)) by (simpl in *; lia). by destruct (length b).
  - zbool. rewrite IH, obind_ok by lia. done.
Qed.

Lemma print_payload_ok P l Q :
  len l + 32 <= INT_MAX -> print_payload (P ++ l ++ Q) (len P) (len l) = Ok (dump (length l) 0 l).
Proof.
  intros Hmax. unfold print_payload. destruct (len l <=? 0) eqn:E0; zbool.
  { by destruct l; [ | simpl in *; lia]. }
  destruct (len l <=? 16) eqn:E1; zbool.
  - rewrite print_line_ok, obind_ok. destruct l as [ | y l]; [simpl in *; lia | ].
    cbn [length dump]. rewrite take_ge by (simpl in *; lia). rewrite (drop_ge (y :: l)) by (simpl in *; lia).
    by destruct (length l).
  - rewrite Nat2Z.id. apply payload_loop_ok; lia.
Qed.

Lemma ntoa_ok packet off : 0 <= off -> off + 4 <= len packet -> exists t, ntoa_at packet off = Ok t.
Proof.
  intros H1 H2. unfold ntoa_at. rewrite load_ok, obind_ok by lia.
  pose proof (length_slice packet off 4 H1 ltac:(lia) H2) as Hl.
  destruct (slice packet off 4) as [ | a [ | b [ | c [ | d [ | ]]]]]; simpl in Hl; try lia. eauto.
Qed.

(** A stretch of the packet as a list of its own. *)
Lemma split_slice (packet : bytes) off n :
  0 <= off -> 0 <= n -> off + n <= len packet ->
  exists P l Q, packet = P ++ l ++ Q /\ off = len P /\ n = len l.
Proof.
  intros H1 H2 H3. exists (take (Z.to_nat off) packet), (slice packet off n), (drop (Z.to_nat off + Z.to_nat n) packet).
  rewrite (length_slice packet off n) by lia. rewrite length_take. split; [ | lia].
  unfold slice. rewrite <- drop_drop, take_drop, take_drop. done.
Qed.
Lemma print_line_at packet off n offset :
  0 <= off -> 0 <= n -> off + n <= len packet -> exists l, print_hex_ascii_line packet off n offset = Ok l.
Proof.
  intros H1 H2 H3. destruct (split_slice packet off n H1 H2 H3) as (P & l & Q & -> & -> & ->).
  exists (row offset l). apply print_line_ok.
Qed.
Lemma print_payload_at packet off n :
  0 <= off -> 0 <= n <= 65535 -> off + n <= len packet -> exists ls, print_payload packet off n = Ok ls.
Proof.
  intros H1 [H2 H2'] H3. destruct (split_slice packet off n H1 H2 H3) as (P & l & Q & -> & -> & ->).
  exists (dump (length l) 0 l). apply print_payload_ok. int_bounds.
Qed.

Lemma rd_past {A} (l : list A) i : len l <= i -> rd l i = Ub.
Proof. intros H. unfold rd. rewrite lookup_ge_None_2 by lia. by destruct (i <? 0). Qed.
(** Printing a payload that was not captured to its end reads behind the packet. *)
Lemma hex_loop_oob packet off n i :
  0 <= off + i -> (0 < n)%nat -> len packet < off + i + Z.of_nat n -> hex_loop packet off n i = Ub.
Proof.
  revert i. induction n as [ | n IH]; intros i Hi Hn Hl; [lia | ]. cbn [hex_loop].
  destruct (decide (off + i < len packet)).
  - destruct (get8_ok packet (off + i)) as [c Hc]; [lia | ]. unfold get8 in Hc. rewrite Hc, obind_ok.
    by rewrite IH by lia.
  - by rewrite rd_past by lia.
Qed.
Lemma print_line_oob packet off n offset :
  0 <= off -> 0 < n -> len packet < off + n -> print_hex_ascii_line packet off n offset = Ub.
Proof. intros. unfold print_hex_ascii_line. by rewrite hex_loop_oob by lia. Qed.
Lemma payload_loop_oob packet fuel ch n offset :
  0 <= ch -> 16 < n -> n <= Z.of_nat fuel -> 0 <= offset -> offset + n + 32 <= INT_MAX -> len packet < ch + n ->
  payload_loop packet fuel ch n offset = Ub.
Proof.
  revert ch n offset. induction fuel as [ | fuel IH]; intros ch n offset Hc Hn Hf Ho Hmax Hl; [lia | ].
  cbn [payload_loop]. assert (crem 16 n = Ok 16) as -> by (rewrite crem_ok, Z.mod_small by int_bounds; done).
  rewrite obind_ok. destruct (decide (ch + 16 <= len packet)); [ | by rewrite print_line_oob by lia].
  destruct (print_line_at packet ch 16 offset) as [t ->]; [lia | lia | lia | ].
  rewrite obind_ok, !cint_ok, obind_ok by int_bounds. rewrite ?obind_ok.
  destruct (n - 16 <=? 16) eqn:E; zbool; [by rewrite print_line_oob by lia | by rewrite IH by lia].
Qed.
Lemma print_payload_oob packet off n :
  0 <= off -> 0 < n <= 65535 -> len packet < off + n -> print_payload packet off n = Ub.
Proof.
  intros H1 H2 H3. unfold print_payload. rewrite (proj2 (Z.leb_gt n 0)) by lia.
  destruct (n <=? 16) eqn:E; zbool; [by rewrite print_line_oob by lia | ]. apply payload_loop_oob; int_bounds.
Qed.

Lemma land_240 o : is_byte o -> 0 <= Z.shiftr (Z.land o 240) 4 <= 15.
Proof.
  unfold is_byte. intros Ho. rewrite Z.shiftr_land. change (Z.shiftr 240 4) with (Z.ones 4).
  rewrite Z.land_ones by lia. pose proof (Z.mod_pos_bound (Z.shiftr o 4) (2 ^ 4)). lia.
Qed.

Lemma get16_in_packet packet off : 0 <= off -> off + 2 <= len packet -> exists v, get16 packet off = Ok v.
Proof. intros H1 H2. unfold get16, get_le. rewrite load_ok, obind_ok by lia. eauto. Qed.

(** The TCP part on a packet with the data offset of the TCP header captured: [a] and [b]
    are the bytes of the total length, [o] the one of the data offset. *)
Lemma got_tcp_cases packet size_ip a b o :
  Forall is_byte packet -> 20 <= size_ip -> packet !! 16%nat = Some a -> packet !! 17%nat = Some b ->
  packet !! Z.to_nat (14 + size_ip + 12) = Some o ->
  (TH_OFF o < 5 \/ 256 * a + b <= size_ip + TH_OFF o * 4 \/ 14 + (256 * a + b) <= len packet ->
     exists ls, got_tcp packet size_ip = Ok ls) /\
  (5 <= TH_OFF o -> size_ip + TH_OFF o * 4 < 256 * a + b -> len packet < 14 + (256 * a + b) ->
     got_tcp packet size_ip = Ub).
Proof.
  intros Hb Hs Ha Hb' Ho. pose proof (lookup_lt_Some _ _ _ Ho) as Hl.
  assert (is_byte a /\ is_byte b) as [Hba Hbb] by (split; [apply (Forall_lookup_1 _ _ _ _ Hb Ha) | apply (Forall_lookup_1 _ _ _ _ Hb Hb')]).
  pose proof (land_240 o (Forall_lookup_1 _ _ _ _ Hb Ho)) as Hr. fold (TH_OFF o) in Hr.
  destruct (get16_in_packet packet (14 + size_ip)) as [v1 E1]; [lia | lia | ].
  destruct (get16_in_packet packet (14 + size_ip + 2)) as [v2 E2]; [lia | lia | ].
  assert (got_tcp packet size_ip =
    if TH_OFF o * 4 <? 20 then Ok [lit "   * Invalid TCP header length: " ++ dec (TH_OFF o * 4) ++ lit " bytes"]
    else
      let ports := [lit "   Src port: " ++ dec (ntohs v1); lit "   Dst port: " ++ dec (ntohs v2)] in
      let n := 256 * a + b - (size_ip + TH_OFF o * 4) in
      if n >? 0 then
        let! lines := print_payload packet (14 + size_ip + TH_OFF o * 4) n in
        Ok (ports ++ [lit "   Payload (" ++ dec n ++ lit " bytes):"] ++ lines)
      else Ok ports) as ->.
  { unfold got_tcp, SIZE_ETHERNET. cbv zeta. unfold get8. rewrite (rd_ok _ _ o), obind_ok by (done || lia).
    by rewrite E1, obind_ok, E2, obind_ok, (get16_at packet (14 + 2) a b), obind_ok, ntohs_pair by done. }
  cbv zeta.
  unfold is_byte in *. split.
  - intros Hcase. destruct (_ <? 20) eqn:E; zbool; [eauto | ]. destruct (_ >? 0) eqn:E0; zbool; [ | eauto].
    destruct (print_payload_at packet (14 + size_ip + TH_OFF o * 4) (256 * a + b - (size_ip + TH_OFF o * 4))) as [ls ->];
      [lia | lia | lia | ]. rewrite obind_ok. eauto.
  - intros H5 Hn Hcut. rewrite (proj2 (Z.ltb_ge _ 20)), (proj2 (Z.gtb_lt _ 0)) by lia.
    by rewrite print_payload_oob by lia.
Qed.

(** ** Properties *)

(** C22. [print_payload] prints the classic hex dump: rows of sixteen bytes (the
    last one shorter), each with its offset, the bytes in hexadecimal with an
    extra space after the eighth, padding, and the printable characters; no
    byte outside the payload is read. *)
Theorem print_payload_dump P payload Q :
  len payload <= 65535 ->
  print_payload (P ++ payload ++ Q) (len P) (len payload) = Ok (dump (length payload) 0 payload).
Proof. intros H. apply print_payload_ok. int_bounds. Qed.

Lemma print_payload_dump_witness :
  print_payload ([1; 2] ++ lit "GET / HTTP/1.1 and more" ++ [3]) (len [1; 2]) (len (lit "GET / HTTP/1.1 and more")) =
    Ok [lit "00000   47 45 54 20 2f 20 48 54  54 50 2f 31 2e 31 20 61    GET / HTTP/1.1 a";
        lit "00016   6e 64 20 6d 6f 72 65                                nd more"].
Proof.
  rewrite (print_payload_dump [1; 2] (lit "GET / HTTP/1.1 and more") [3]); [vm_compute; reflexivity | simpl; lia].
Defined.

(** C29. Which captures [got_packet] can dissect, of packets of which the Ethernet and the
    20 bytes of the IP header are captured: one whose IP header length is below five words
    or that is not TCP is always dissected and counted; of a TCP packet the byte of the
    data offset must be captured, else the dissection reads behind the packet; with it, a
    packet with an invalid TCP header length, with no payload or captured to the end of
    the [ip_len] bytes it announces is dissected and counted, and any other, cut off in its
    payload as the snap length allows, is read behind its end. *)
Theorem got_packet_bounds count packet vhl a b p :
  0 <= count < INT_MAX -> Forall is_byte packet -> 34 <= len packet ->
  packet !! 14%nat = Some vhl -> packet !! 16%nat = Some a -> packet !! 17%nat = Some b -> packet !! 23%nat = Some p ->
  let size_ip := IP_HL vhl * 4 in
  (IP_HL vhl < 5 \/ p <> IPPROTO_TCP -> exists lines, got_packet count packet = Ok (lines, count + 1)) /\
  (5 <= IP_HL vhl -> p = IPPROTO_TCP -> len packet <= 14 + size_ip + 12 -> got_packet count packet = Ub) /\
  (5 <= IP_HL vhl -> p = IPPROTO_TCP -> forall o, packet !! Z.to_nat (14 + size_ip + 12) = Some o ->
     (TH_OFF o < 5 \/ 256 * a + b <= size_ip + TH_OFF o * 4 \/ 14 + (256 * a + b) <= len packet ->
        exists lines, got_packet count packet = Ok (lines, count + 1)) /\
     (5 <= TH_OFF o -> size_ip + TH_OFF o * 4 < 256 * a + b -> len packet < 14 + (256 * a + b) ->
        got_packet count packet = Ub)).
Proof.
  intros Hc Hb Hl Hv Ha Hb' Hp size_ip.
  destruct (ntoa_ok packet (14 + 12)) as [t1 E1]; [lia | lia | ]. destruct (ntoa_ok packet (14 + 16)) as [t2 E2]; [lia | lia | ].
  set (head := [[]; lit "Packet number " ++ dec count ++ lit ":"; lit "       From: " ++ t1; lit "         To: " ++ t2]).
  assert (forall ls, IP_HL vhl >= 5 -> p = IPPROTO_TCP -> got_tcp packet size_ip = ls ->
    got_packet count packet = let! rest := ls in Ok (head ++ [lit "   Protocol: TCP"] ++ rest, count + 1)) as Htcp.
  { intros ls Hhl -> <-. unfold got_packet, SIZE_ETHERNET. cbv zeta. rewrite cint_ok, obind_ok by int_bounds.
    unfold get8. rewrite (rd_ok _ _ vhl), obind_ok by (done || lia). fold size_ip. rewrite (proj2 (Z.ltb_ge size_ip 20)) by lia.
    by rewrite E1, obind_ok, E2, obind_ok, (rd_ok _ _ IPPROTO_TCP), obind_ok by (done || lia). }
  split; [ | split].
  - clear Htcp. intros Hcase. unfold got_packet, SIZE_ETHERNET. cbv zeta. rewrite cint_ok, obind_ok by int_bounds.
    unfold get8. rewrite (rd_ok _ _ vhl), obind_ok by (done || lia). fold size_ip.
    destruct (size_ip <? 20) eqn:E; [eauto | ]. zbool.
    rewrite E1, obind_ok, E2, obind_ok, (rd_ok _ _ p), obind_ok by (done || lia).
    rewrite (proj2 (Z.eqb_neq p IPPROTO_TCP)) by (destruct Hcase; [lia | done]).
    destruct (p =? IPPROTO_UDP), (p =? IPPROTO_ICMP), (p =? IPPROTO_IP); eauto.
  - intros H5 Hpp Hcut. rewrite (Htcp Ub); [done | lia | done | ]. unfold got_tcp, get8, SIZE_ETHERNET.
    by rewrite rd_past by lia.
  - intros H5 Hpp o Ho. destruct (got_tcp_cases packet size_ip a b o) as [Hok Hub]; try done; [lia | ]. split.
    + intros Hcase. destruct (Hok Hcase) as [ls Els]. rewrite (Htcp (Ok ls)) by (lia || done). eauto.
    + intros H1 H2 H3. by rewrite (Htcp Ub) by (lia || done || auto).
Qed.

(** A whole TCP packet, the same announcing 256 bytes with 100 captured, and a UDP packet
    cut off behind its IP header. *)
Lemma got_packet_bounds_witness :
  let packet p hi lo body := replicate 14 0 ++ [69; 0; hi; lo; 0; 0; 0; 0; 64; p; 0; 0; 10; 0; 0; 1; 10; 0; 0; 2] ++ body in
  let tcp := [0; 80; 31; 144; 0; 0; 0; 0; 0; 0; 0; 0; 80; 16; 0; 0; 0; 0; 0; 0] in
  (exists lines, got_packet 1 (packet 6 0 40 tcp) = Ok (lines, 1 + 1)) /\
  got_packet 1 (packet 6 1 0 (tcp ++ replicate 60 65)) = Ub /\
  (exists lines, got_packet 1 (packet 17 0 60 []) = Ok (lines, 1 + 1)).
Proof.
  intros packet tcp. split; [ | split].
  - eapply (got_packet_bounds 1 (packet 6 0 40 tcp) 69 0 40 6); try reflexivity; try (unfold INT_MAX; lia); try (vm_compute; discriminate).
    + repeat (constructor; [unfold is_byte; lia | ]). constructor.
    + right. right. vm_compute. discriminate.
  - eapply (got_packet_bounds 1 (packet 6 1 0 (tcp ++ replicate 60 65)) 69 1 0 6); try reflexivity; try (unfold INT_MAX; lia); try (vm_compute; discriminate).
    repeat (constructor; [unfold is_byte; lia | ]). constructor.
  - apply (got_packet_bounds 1 (packet 17 0 60 []) 69 0 60 17); try reflexivity; try (unfold INT_MAX; lia); try (vm_compute; discriminate).
    + repeat (constructor; [unfold is_byte; lia | ]). constructor.
    + right. discriminate.
Defined.
End Sniffer.
