(* ===== verification/SnifferSpec.v ===== *)
(** * What the sniffer prints of a packet: [libpcap/sniffex.c]

    The headers as records with their layout in memory, and the dissection of a packet that
    is put together from an Ethernet header, an IP header with options, a TCP header with
    options, a payload and whatever follows. *)
From S2P Require Import Prelude CLib Bytes Sniffer.

Module SnifferSpec.
Import Sniffer.

Record sniff_ethernet := MkEther { ether_dhost : bytes; ether_shost : bytes; ether_type : Z }.
Record in_addr := MkAddr { s_b1 : Z; s_b2 : Z; s_b3 : Z; s_b4 : Z }.
Record sniff_ip := MkIp {
  ip_vhl : Z; ip_tos : Z; ip_len : Z; ip_id : Z; ip_off : Z; ip_ttl : Z; ip_p : Z; ip_sum : Z;
  ip_src : in_addr; ip_dst : in_addr }.
Record sniff_tcp := MkTcp {
  th_sport : Z; th_dport : Z; th_seq : Z; th_ack : Z; th_offx2 : Z; th_flags : Z; th_win : Z; th_sum : Z; th_urp : Z }.
Definition IP_V (vhl : Z) : Z := Z.shiftr vhl 4.

(** The structures in memory; a member of two or four bytes is the number the host reads. *)
Definition addr_bytes (a : in_addr) : bytes := [s_b1 a; s_b2 a; s_b3 a; s_b4 a].
Definition ether_bytes (e : sniff_ethernet) : bytes := ether_dhost e ++ ether_shost e ++ le_bytes 2 (ether_type e).
Definition ip_bytes (h : sniff_ip) : bytes :=
  [ip_vhl h; ip_tos h] ++ le_bytes 2 (ip_len h) ++ le_bytes 2 (ip_id h) ++ le_bytes 2 (ip_off h) ++
  [ip_ttl h; ip_p h] ++ le_bytes 2 (ip_sum h) ++ addr_bytes (ip_src h) ++ addr_bytes (ip_dst h).
Definition tcp_bytes (h : sniff_tcp) : bytes :=
  le_bytes 2 (th_sport h) ++ le_bytes 2 (th_dport h) ++ le_bytes 4 (th_seq h) ++ le_bytes 4 (th_ack h) ++
  [th_offx2 h; th_flags h] ++ le_bytes 2 (th_win h) ++ le_bytes 2 (th_sum h) ++ le_bytes 2 (th_urp h).
Definition dotted (a : in_addr) : bytes :=
  dec (s_b1 a) ++ lit "." ++ dec (s_b2 a) ++ lit "." ++ dec (s_b3 a) ++ lit "." ++ dec (s_b4 a).
Definition u16_ok (v : Z) : Prop := 0 <= v < 65536.

(** Fields of a packet that is given as prefix, field, rest. *)
Lemma get8_in P x R pkt off : pkt = P ++ [x] ++ R -> off = len P -> get8 pkt off = Ok x.
Proof. intros -> ->. by apply rd_app. Qed.
Lemma get16_in P v R pkt off : pkt = P ++ le_bytes 2 v ++ R -> off = len P -> u16_ok v -> get16 pkt off = Ok v.
Proof. intros -> -> Hv. unfold get16. rewrite get_le_mid by done. by rewrite Z.mod_small. Qed.
Lemma ntoa_in P a R pkt off : pkt = P ++ addr_bytes a ++ R -> off = len P -> ntoa_at pkt off = Ok (dotted a).
Proof. intros -> ->. unfold ntoa_at. by rewrite load_mid. Qed.
Ltac split_packet := unfold ip_bytes, tcp_bytes; rewrite <- ?app_assoc; reflexivity.
Ltac field_offset := unfold ip_bytes, tcp_bytes, addr_bytes; rewrite ?length_app, ?length_le_bytes; cbn [length]; lia.

Section Packet.
Context (eth : sniff_ethernet) (ip : sniff_ip) (opts : bytes).
Hypotheses (Hd : length (ether_dhost eth) = 6%nat) (Hs : length (ether_shost eth) = 6%nat) (Hip : u16_ok (ip_len ip)).
Lemma length_ether : length (ether_bytes eth) = 14%nat.
Proof. unfold ether_bytes. rewrite !length_app, length_le_bytes. lia. Qed.

(** The TCP part, for headers of any length. *)
Lemma got_tcp_fields (tcp : sniff_tcp) topts payload trailer :
  u16_ok (th_sport tcp) -> u16_ok (th_dport tcp) ->
  len opts = IP_HL (ip_vhl ip) * 4 - 20 -> len topts = TH_OFF (th_offx2 tcp) * 4 - 20 ->
  ntohs (ip_len ip) = IP_HL (ip_vhl ip) * 4 + TH_OFF (th_offx2 tcp) * 4 + len payload ->
  got_tcp (ether_bytes eth ++ ip_bytes ip ++ opts ++ tcp_bytes tcp ++ topts ++ payload ++ trailer) (IP_HL (ip_vhl ip) * 4) =
  Ok ([lit "   Src port: " ++ dec (ntohs (th_sport tcp)); lit "   Dst port: " ++ dec (ntohs (th_dport tcp))] ++
      (if len payload >? 0 then [lit "   Payload (" ++ dec (len payload) ++ lit " bytes):"] ++ dump (length payload) 0 payload else [])).
Proof.
  intros Hsp Hdp Ho Hto Hlen. pose proof length_ether as He. set (pkt := ether_bytes eth ++ _).
  set (P := ether_bytes eth ++ ip_bytes ip ++ opts).
  assert (len P = 14 + IP_HL (ip_vhl ip) * 4) as HP by (unfold P; field_offset).
  unfold got_tcp, SIZE_ETHERNET. cbv zeta. rewrite <- HP.
  rewrite (get8_in (P ++ le_bytes 2 (th_sport tcp) ++ le_bytes 2 (th_dport tcp) ++ le_bytes 4 (th_seq tcp) ++ le_bytes 4 (th_ack tcp))
    (th_offx2 tcp) ([th_flags tcp] ++ le_bytes 2 (th_win tcp) ++ le_bytes 2 (th_sum tcp) ++ le_bytes 2 (th_urp tcp) ++ topts ++ payload ++ trailer)),
    obind_ok by (unfold pkt, P; (split_packet || field_offset)).
  rewrite (proj2 (Z.ltb_ge _ 20)) by lia.
  rewrite (get16_in P (th_sport tcp) (drop 2 (tcp_bytes tcp) ++ topts ++ payload ++ trailer)), obind_ok
    by (try done; unfold pkt, P; split_packet).
  rewrite (get16_in (P ++ le_bytes 2 (th_sport tcp)) (th_dport tcp) (drop 4 (tcp_bytes tcp) ++ topts ++ payload ++ trailer)), obind_ok
    by (try done; unfold pkt, P; (split_packet || field_offset)).
  rewrite (get16_in (ether_bytes eth ++ [ip_vhl ip; ip_tos ip]) (ip_len ip) (drop 4 (ip_bytes ip) ++ opts ++ tcp_bytes tcp ++ topts ++ payload ++ trailer)),
    obind_ok by (try done; unfold pkt; (split_packet || field_offset)).
  replace (ntohs (ip_len ip) - _) with (len payload) by lia.
  destruct (len payload >? 0) eqn:Ep; [ | by rewrite app_nil_r].
  assert (pkt = (P ++ tcp_bytes tcp ++ topts) ++ payload ++ trailer) as -> by (unfold pkt, P; by rewrite <- !app_assoc).
  replace (len P + TH_OFF (th_offx2 tcp) * 4) with (len (P ++ tcp_bytes tcp ++ topts)) by field_offset.
  rewrite print_payload_ok, obind_ok; [done | ]. pose proof (htons_bound (ip_len ip)). change (htons (ip_len ip)) with (ntohs (ip_len ip)) in *.
  assert (0 <= IP_HL (ip_vhl ip)) by lia. int_bounds.
Qed.
(** The IP part, whatever follows it. *)
Lemma got_packet_fields count rest : 0 <= count < INT_MAX ->
  got_packet count (ether_bytes eth ++ ip_bytes ip ++ rest) =
  let head := [[]; lit "Packet number " ++ dec count ++ lit ":"] in
  if IP_HL (ip_vhl ip) * 4 <? 20 then
    Ok (head ++ [lit "   * Invalid IP header length: " ++ dec (IP_HL (ip_vhl ip) * 4) ++ lit " bytes"], count + 1)
  else
    let head := head ++ [lit "       From: " ++ dotted (ip_src ip); lit "         To: " ++ dotted (ip_dst ip)] in
    if ip_p ip =? IPPROTO_TCP then
      let! ls := got_tcp (ether_bytes eth ++ ip_bytes ip ++ rest) (IP_HL (ip_vhl ip) * 4) in
      Ok (head ++ [lit "   Protocol: TCP"] ++ ls, count + 1)
    else Ok (head ++ [if ip_p ip =? IPPROTO_UDP then lit "   Protocol: UDP" else if ip_p ip =? IPPROTO_ICMP then lit "   Protocol: ICMP"
                      else if ip_p ip =? IPPROTO_IP then lit "   Protocol: IP" else lit "   Protocol: unknown"], count + 1).
Proof.
  intros Hc. pose proof length_ether as He. set (pkt := ether_bytes eth ++ _). unfold got_packet, SIZE_ETHERNET. cbv zeta.
  rewrite cint_ok, obind_ok by int_bounds.
  rewrite (get8_in (ether_bytes eth) (ip_vhl ip) (drop 1 (ip_bytes ip) ++ rest)), obind_ok by (try done; unfold pkt; (split_packet || field_offset)).
  destruct (_ <? 20); [done | ].
  rewrite (ntoa_in (ether_bytes eth ++ take 12 (ip_bytes ip)) (ip_src ip) (addr_bytes (ip_dst ip) ++ rest)), obind_ok
    by (unfold pkt; first [split_packet | rewrite length_app, He; done]).
  rewrite (ntoa_in (ether_bytes eth ++ take 16 (ip_bytes ip)) (ip_dst ip) rest), obind_ok
    by (unfold pkt; first [split_packet | rewrite length_app, He; done]).
  rewrite (get8_in (ether_bytes eth ++ take 9 (ip_bytes ip)) (ip_p ip) (drop 10 (ip_bytes ip) ++ rest)), obind_ok
    by (unfold pkt; first [split_packet | rewrite length_app, He; done]).
  destruct (ip_p ip =? IPPROTO_TCP); [done | ]. destruct (ip_p ip =? IPPROTO_UDP), (ip_p ip =? IPPROTO_ICMP), (ip_p ip =? IPPROTO_IP); done.
Qed.
End Packet.

(** C23. The sniffer dissects packets: of a packet put together from headers with their
    options, a payload and trailing bytes, got_packet prints the addresses and the
    protocol (TCP, UDP, ICMP, IP or unknown, by the protocol field), for TCP also the ports
    and, if there is one, the hex dump of exactly the payload; an IP header length below
    five words is reported; in every case the packet is counted. *)
Theorem packet_dissected (count : Z) (eth : sniff_ethernet) (ip : sniff_ip) (opts : bytes) (tcp : sniff_tcp) (topts payload trailer : bytes) :
  0 <= count < INT_MAX -> length (ether_dhost eth) = 6%nat -> length (ether_shost eth) = 6%nat -> u16_ok (ip_len ip) ->
  (5 <= IP_HL (ip_vhl ip) -> ip_p ip = IPPROTO_TCP -> u16_ok (th_sport tcp) -> u16_ok (th_dport tcp) ->
   len opts = IP_HL (ip_vhl ip) * 4 - 20 -> len topts = TH_OFF (th_offx2 tcp) * 4 - 20 ->
   ntohs (ip_len ip) = IP_HL (ip_vhl ip) * 4 + TH_OFF (th_offx2 tcp) * 4 + len payload ->
   got_packet count (ether_bytes eth ++ ip_bytes ip ++ opts ++ tcp_bytes tcp ++ topts ++ payload ++ trailer) =
   Ok ([[]; lit "Packet number " ++ dec count ++ lit ":";
        lit "       From: " ++ dotted (ip_src ip); lit "         To: " ++ dotted (ip_dst ip); lit "   Protocol: TCP";
        lit "   Src port: " ++ dec (ntohs (th_sport tcp)); lit "   Dst port: " ++ dec (ntohs (th_dport tcp))] ++
       (if len payload >? 0 then [lit "   Payload (" ++ dec (len payload) ++ lit " bytes):"] ++ dump (length payload) 0 payload else []),
       count + 1)) /\
  (5 <= IP_HL (ip_vhl ip) -> ip_p ip <> IPPROTO_TCP -> forall rest,
   got_packet count (ether_bytes eth ++ ip_bytes ip ++ rest) =
   Ok ([[]; lit "Packet number " ++ dec count ++ lit ":";
        lit "       From: " ++ dotted (ip_src ip); lit "         To: " ++ dotted (ip_dst ip);
        if ip_p ip =? IPPROTO_UDP then lit "   Protocol: UDP" else if ip_p ip =? IPPROTO_ICMP then lit "   Protocol: ICMP"
        else if ip_p ip =? IPPROTO_IP then lit "   Protocol: IP" else lit "   Protocol: unknown"], count + 1)) /\
  (IP_HL (ip_vhl ip) < 5 -> forall rest,
   got_packet count (ether_bytes eth ++ ip_bytes ip ++ rest) =
   Ok ([[]; lit "Packet number " ++ dec count ++ lit ":";
        lit "   * Invalid IP header length: " ++ dec (IP_HL (ip_vhl ip) * 4) ++ lit " bytes"], count + 1)).
Proof.
  intros Hc Hd Hs Hip. split; [ | split].
  - intros Hhl Hp Hsp Hdp Ho Hto Hlen. rewrite got_packet_fields by done. cbv zeta.
    rewrite (proj2 (Z.ltb_ge _ 20)), Hp, Z.eqb_refl by lia. by rewrite got_tcp_fields, obind_ok by done.
  - intros Hhl Hp rest. rewrite got_packet_fields by done. cbv zeta.
    rewrite (proj2 (Z.ltb_ge _ 20)), (proj2 (Z.eqb_neq _ _) Hp) by lia. done.
  - intros Hhl rest. rewrite got_packet_fields by done. cbv zeta. by rewrite (proj2 (Z.ltb_lt _ 20)) by lia.
Qed.
Lemma packet_dissected_witness :
  got_packet 1 (ether_bytes (MkEther (replicate 6 1) (replicate 6 2) 8) ++
    ip_bytes (MkIp 69 0 (htons 42) 0 0 64 6 0 (MkAddr 10 0 0 1) (MkAddr 10 0 0 2)) ++ [] ++
    tcp_bytes (MkTcp (htons 80) (htons 8080) 0 0 80 16 0 0 0) ++ [] ++ lit "hi" ++ [0]) =
  Ok ([[]; lit "Packet number 1:"; lit "       From: 10.0.0.1"; lit "         To: 10.0.0.2"; lit "   Protocol: TCP";
       lit "   Src port: 80"; lit "   Dst port: 8080"; lit "   Payload (2 bytes):";
       lit "00000   68 69                                               hi"], 2).
Proof.
  rewrite (proj1 (packet_dissected 1 (MkEther (replicate 6 1) (replicate 6 2) 8)
    (MkIp 69 0 (htons 42) 0 0 64 6 0 (MkAddr 10 0 0 1) (MkAddr 10 0 0 2)) []
    (MkTcp (htons 80) (htons 8080) 0 0 80 16 0 0 0) [] (lit "hi") [0] ltac:(unfold INT_MAX; lia) eq_refl eq_refl ltac:(vm_compute; split; (discriminate || done))));
    vm_compute; first [reflexivity | discriminate | split; [discriminate | reflexivity]].
Defined.
End SnifferSpec.
