(* ===== verification/Dpdk.v ===== *)
(** * The DPDK programs: [client_server/dpdk/src/basicfwd.c] and [dpdk/gen_packet/main.c]

    The handling of ARP and ICMP packets and the forwarding loop of the first,
    the crafting of packets and the sending loop of the second.  DPDK is not part
    of the repository: the port's MAC address, the pseudo-header checksum and the
    offload flags are parameters, the calls on ports and pools are answered from
    outside.  Header layouts are those of Ethernet, IPv4, UDP, ARP and ICMP. *)
From S2P Require Import Prelude CLib Bytes Sys Checksum.

Module Dpdk.

Definition BURST_SIZE : Z := 32.
Definition ETHER_TYPE_ARP : Z := 2054.
Definition ETHER_TYPE_IPv4 : Z := 2048.
Definition ARP_OP_REQUEST : Z := 1.
Definition ARP_OP_REPLY : Z := 2.
Definition IPPROTO_ICMP : Z := 1.
Definition IPPROTO_UDP : Z := 17.
Definition IP_ICMP_ECHO_REQUEST : Z := 8.
Definition IP_ICMP_ECHO_REPLY : Z := 0.
(** The macro [IPv4(a, b, c, d)]: host order. *)
Definition IPv4 (a b c d : Z) : Z :=
  Z.lor (Z.lor (Z.shiftl (Z.land a 255) 24) (Z.shiftl (Z.land b 255) 16))
        (Z.lor (Z.shiftl (Z.land c 255) 8) (Z.land d 255)).

(** ** [basicfwd.c] *)
Section BasicFwd.
(** [rte_eth_macaddr_get]: the six bytes of a port's address. *)
Context (mac : Z -> bytes).

Definition my_ip : Z := IPv4 192 168 10 97.

(** [ether_addr_copy] inside the packet. *)
Definition ether_addr_copy (pkt : bytes) (src dst : Z) : outcome bytes :=
  let! a := load pkt src 6 in store pkt dst a.

(** The ARP reply: offsets of Ethernet (0, 6, 12) and of ARP from 14 on:
    operation 20, sender 22 and 28, target 32 and 38. *)
Definition arp_reply (pkt : bytes) (port : Z) : outcome bytes :=
  let! pkt := set16 pkt 20 (htons ARP_OP_REPLY) in
  let! pkt := ether_addr_copy pkt 6 0 in
  let! pkt := store pkt 6 (mac port) in
  let! pkt := ether_addr_copy pkt 22 32 in
  let! sip := get32 pkt 28 in
  let! pkt := set32 pkt 38 sip in
  let! pkt := store pkt 22 (mac port) in
  set32 pkt 28 my_ip.

(** The part of [packet_handler] behind the dump: a packet is the data room of its buffer
    from the first byte of the frame on, and the handler never looks at the length of the
    frame in it. *)
Definition handle_headers (pkt : bytes) (port : Z) : outcome bytes :=
  let! et := get16 pkt 12 in
  if ntohs et =? ETHER_TYPE_ARP then
    let! tip := get32 pkt 38 in
    if tip =? my_ip then
      let! op := get16 pkt 20 in
      if op =? htons ARP_OP_REQUEST then arp_reply pkt port else Ok pkt
    else Ok pkt
  else if ntohs et =? ETHER_TYPE_IPv4 then
    let! p := get8 pkt 23 in
    if p =? IPPROTO_ICMP then
      let! ty := get8 pkt 34 in
      if ty =? IP_ICMP_ECHO_REQUEST then
        let! pkt := set8 pkt 34 IP_ICMP_ECHO_REPLY in
        let! ck := get16 pkt 36 in
        set16 pkt 36 (u16 (ck + Z.shiftl IP_ICMP_ECHO_REQUEST 8 + Z.lnot (Z.shiftl IP_ICMP_ECHO_REPLY 8)))
      else Ok pkt
    else Ok pkt
  else Ok pkt.

(** What the forwarder does to the outside: [rte_hexdump] of a header, and what happens to
    a packet buffer. *)
Inductive action :=
  | Dumped (title header : bytes)
  | Transmitted (port : Z) (pkt : bytes)
  | Freed (pkt : bytes).

Definition packet_handler (pkt : bytes) (port : Z) : outcome (action * bytes) :=
  let! header := load pkt 0 14 in
  let! pkt := handle_headers pkt port in
  Ok (Dumped (lit "struct ether") header, pkt).

(** [rx_handler]: [for (i = 0; i < nb_rx; i++) packet_handler(bufs[i], port);] *)
Fixpoint rx_loop (fuel : nat) (bufs : list bytes) (i nb_rx port : Z) : outcome (list action * list bytes) :=
  if i <? nb_rx then
    match fuel with
    | O => NoFuel
    | S fuel =>
        let! b := rd bufs i in
        let! '(dump, b) := packet_handler b port in
        let! bufs := wr bufs i b in
        let! '(dumps, bufs) := rx_loop fuel bufs (u16 (i + 1)) nb_rx port in
        Ok (dump :: dumps, bufs)
    end
  else Ok ([], bufs).
Definition rx_handler (bufs : list bytes) (nb_rx port : Z) : outcome (list action * list bytes) :=
  rx_loop (Z.to_nat nb_rx) bufs 0 nb_rx port.

(** [for (buf = nb_tx; buf < nb_rx; buf++) rte_pktmbuf_free(bufs[buf]);] *)
Fixpoint free_loop (bufs : list bytes) (fuel : nat) (buf nb_rx : Z) : outcome (list action) :=
  if buf <? nb_rx then
    match fuel with
    | O => NoFuel
    | S fuel =>
        let! p := rd bufs buf in
        let! rest := free_loop bufs fuel (u16 (buf + 1)) nb_rx in
        Ok (Freed p :: rest)
    end
  else Ok [].

(** One port in a round of [lcore_main]: [rte_eth_rx_burst] fills [bufs] with the packets
    [rx] and returns their number, [nb_tx] is the result of [rte_eth_tx_burst]. *)
Definition forward (port : Z) (rx : list bytes) (nb_tx : Z) : outcome (list action) :=
  let nb_rx := len rx in
  let! '(dumps, bufs) := rx_handler rx nb_rx port in
  if nb_rx =? 0 then Ok dumps
  else
    let sent := Transmitted port <$> take (Z.to_nat nb_tx) bufs in
    if nb_tx <? nb_rx then
      let! freed := free_loop bufs (Z.to_nat nb_rx) nb_tx nb_rx in
      Ok (dumps ++ sent ++ freed)
    else Ok (dumps ++ sent).

(** [lcore_main]: [ports] are the ports [RTE_ETH_FOREACH_DEV] goes through, [socket_of] and
    [me] the NUMA nodes of the ports and of the core; a port on another node than the
    core's is reported. *)
Definition numa_warning (socket_of : Z -> Z) (me port : Z) : list bytes :=
  if (socket_of port >? 0) && negb (socket_of port =? me) then
    [lit "WARNING, port " ++ dec port ++ lit " is on remote NUMA node to polling thread.";
     9 :: lit "Performance will not be optimal."]
  else [].
(** The endless loop on the bursts, one after the other: [round] are the ports left in
    the round.  Without ports it spins. *)
Fixpoint lcore_rounds (ports : list Z) (bursts : list (list bytes * Z)) (round : list Z) : outcome (list action) :=
  match bursts with
  | [] => Ok []
  | (rx, nb_tx) :: bursts =>
      match (match round with [] => ports | _ => round end) with
      | [] => NoFuel
      | port :: round =>
          let! done_ := forward port rx nb_tx in
          let! rest := lcore_rounds ports bursts round in
          Ok (done_ ++ rest)
      end
  end.
Definition lcore_main (ports : list Z) (socket_of : Z -> Z) (me core : Z) (bursts : list (list bytes * Z)) :
    outcome (list bytes * list action) :=
  let warnings := concat (map (numa_warning socket_of me) ports) in
  let! actions := lcore_rounds ports bursts [] in
  Ok (warnings ++ [[]; lit "Core " ++ dec core ++ lit " forwarding packets. [Ctrl+C to quit]"], actions).

(** [port_init], over the answers of DPDK: [ret] of [rte_eth_dev_info_get] is the
    field [tx_offload_capa], [filled] of [rte_eth_dev_adjust_nb_rx_tx_desc] the
    two descriptor numbers it writes back. *)
Context (DEV_TX_OFFLOAD_MBUF_FAST_FREE : Z).
Definition port_init (port : Z) : io Z :=
  let? v := ask "rte_eth_dev_is_valid_port" [port] [] in
  if ret v =? 0 then iret (-1)
  else
    let? info := ask "rte_eth_dev_info_get" [port] [] in
    let offloads :=
      if negb (Z.land (ret info) DEV_TX_OFFLOAD_MBUF_FAST_FREE =? 0)
      then DEV_TX_OFFLOAD_MBUF_FAST_FREE else 0 in
    let? r := ask "rte_eth_dev_configure" [port; 1; 1; offloads] [] in
    if negb (ret r =? 0) then iret (ret r)
    else
      let? r := ask "rte_eth_dev_adjust_nb_rx_tx_desc" [port; 1024; 1024] [] in
      if negb (ret r =? 0) then iret (ret r)
      else
        let? nb_rxd := lift (get16 (filled r) 0) in
        let? nb_txd := lift (get16 (filled r) 2) in
        let? sid := ask "rte_eth_dev_socket_id" [port] [] in
        let? r := ask "rte_eth_rx_queue_setup" [port; 0; nb_rxd; ret sid] [] in
        if ret r <? 0 then iret (ret r)
        else
          let? sid := ask "rte_eth_dev_socket_id" [port] [] in
          let? r := ask "rte_eth_tx_queue_setup" [port; 0; nb_txd; ret sid; offloads] [] in
          if ret r <? 0 then iret (ret r)
          else
            let? r := ask "rte_eth_dev_start" [port] [] in
            if ret r <? 0 then iret (ret r)
            else
              let addr := mac port in
              let? _ := tell (Out (lit "Port " ++ dec port ++ lit " MAC:" ++
                                   concat (map (fun b => 32 :: hex2 b) addr))) in
              let? _ := tell (Call "rte_eth_promiscuous_enable" [port] []) in
              iret 0.

(** [main] up to the endless [lcore_main]; [ports] are those of [RTE_ETH_FOREACH_DEV]. *)
Fixpoint init_ports (ports : list Z) : io unit :=
  match ports with
  | [] => iret tt
  | port :: ports =>
      let? r := port_init port in
      if negb (r =? 0) then die (lit "Cannot init port " ++ dec port) else init_ports ports
  end.
Definition basicfwd_main (ports : list Z) : io unit :=
  let? r := ask "rte_eal_init" [] [] in
  if ret r <? 0 then die (lit "Error with EAL initialization")
  else
    let? n := ask "rte_eth_dev_count_avail" [] [] in
    let nb_ports := ret n in
    if nb_ports <? 1 then die (lit "Error: number of ports must be greater than 0")
    else
      let? sid := ask "rte_socket_id" [] [] in
      let? p := ask "rte_pktmbuf_pool_create" [u32 (8191 * nb_ports); 250; 0; ret sid] [] in
      if ret p =? 0 then die (lit "Cannot create mbuf pool")
      else
        let? _ := init_ports ports in
        let? c := ask "rte_lcore_count" [] [] in
        if ret c >? 1 then
          let? _ := tell (Out []) in
          tell (Out (lit "WARNING: Too many lcores enabled. Only 1 used."))
        else iret tt.
End BasicFwd.

(** ** [gen_packet/main.c] *)
Section GenPacket.
Context (mac : Z -> bytes) (rte_ipv4_phdr_cksum rte_ipv6_phdr_cksum : bytes -> Z -> Z)
        (PKT_TX_IPV4 PKT_TX_IP_CKSUM PKT_TX_UDP_CKSUM : Z).

(** [struct paxos_message] with its padding. *)
Definition SIZEOF_PAXOS : Z := 8.
Definition paxos_message (msgtype inst : Z) (pad : bytes) : bytes :=
  le_bytes 2 msgtype ++ take 2 pad ++ le_bytes 4 inst.

(** The fields of [struct rte_mbuf] the program sets. *)
Record mbuf := mk_mbuf {
  data : bytes;
  data_len : Z; pkt_len : Z;
  l2_len : Z; l3_len : Z; l4_len : Z;
  ol_flags : Z
}.

Definition get_psd_sum (l3_hdr : bytes) (ethertype ol_flags : Z) : Z :=
  if ethertype =? ETHER_TYPE_IPv4 then rte_ipv4_phdr_cksum l3_hdr ol_flags else rte_ipv6_phdr_cksum l3_hdr ol_flags.

Definition craft_new_packet (d : bytes) (srcIP dstIP sport dport data_size output_port : Z) :
    outcome (bytes * Z * Z) :=
  let pkt_size := 14 + 20 + 8 + data_size in
  let! d := store d 6 (mac output_port) in
  let! d := set16 d 12 (htons ETHER_TYPE_IPv4) in
  let! d := set32 d 26 (htonl srcIP) in
  let! d := set32 d 30 (htonl dstIP) in
  let! d := set8 d 14 69 in
  let! d := set16 d 24 0 in
  let flags := Z.lor (Z.lor 0 PKT_TX_IPV4) PKT_TX_IP_CKSUM in
  let! d := set16 d 16 (htons (20 + 8 + SIZEOF_PAXOS)) in
  let! d := set8 d 23 IPPROTO_UDP in
  let! d := set16 d 34 (htons sport) in
  let! d := set16 d 36 (htons dport) in
  let flags := Z.lor flags PKT_TX_UDP_CKSUM in
  let! iph := load d 14 20 in
  let! d := set16 d 40 (get_psd_sum iph ETHER_TYPE_IPv4 flags) in
  let! d := set16 d 38 (htons (u16 data_size)) in
  Ok (d, pkt_size, flags).

Definition add_paxos_message (pm : bytes) (m : mbuf) : outcome mbuf :=
  let! '(d, size, flags) :=
    craft_new_packet (data m) (IPv4 192 168 4 95) (IPv4 239 3 29 73) 34567 45678 SIZEOF_PAXOS 0 in
  let! d := store d 42 pm in
  Ok (mk_mbuf d size size 14 20 (8 + SIZEOF_PAXOS) flags).

(** [send_batch]: it sends the same buffers again as long as all are taken; the
    result is the atomic counter.  [rte_log] is a call. *)
Fixpoint send_batch (fuel : nat) (count port_id counter : Z) : io Z :=
  match fuel with
  | O => lift NoFuel
  | S fuel =>
      let? r := ask "rte_eth_tx_burst" [port_id; 0; count] [] in
      let nb_tx := u16 (ret r) in
      let? _ := tell (Call "rte_log" [nb_tx] (lit "Send")) in
      let counter := i32 (counter + nb_tx) in
      if nb_tx =? count then send_batch fuel count port_id counter else iret counter
  end.

(** [for (i = 0; i < BURST_SIZE; i++) add_paxos_message(&pm, bufs[i]);] *)
Fixpoint fill_batch (pm : bytes) (bufs : list mbuf) : outcome (list mbuf) :=
  match bufs with
  | [] => Ok []
  | m :: bufs =>
      let! m := add_paxos_message pm m in
      let! bufs := fill_batch pm bufs in
      Ok (m :: bufs)
  end.

(** [generate_packets]: endless rounds over the buffers allocated once; the
    result of the allocation is not looked at. *)
Fixpoint generate_rounds (fuel : nat) (pm : bytes) (bufs : list mbuf) (counter : Z) : io (list mbuf * Z) :=
  match fuel with
  | O => lift NoFuel
  | S fuel =>
      let? bufs := lift (fill_batch pm bufs) in
      let? counter := send_batch (S fuel) BURST_SIZE 0 counter in
      generate_rounds fuel pm bufs counter
  end.
Definition generate_packets (fuel : nat) (bufs : list mbuf) (pad : bytes) (counter : Z) : io (list mbuf * Z) :=
  let? lcore_id := ask "rte_lcore_id" [] [] in
  let? _ := tell (Out (lit "generate_packets on core " ++ dec (ret lcore_id))) in
  let? _ := ask "rte_pktmbuf_alloc_bulk" [BURST_SIZE] [] in
  generate_rounds fuel (paxos_message 1 1 pad) bufs counter.

Definition gen_port_init (port : Z) : io Z :=
  let? n := ask "rte_eth_dev_count" [] [] in
  if port >=? ret n then iret (-1)
  else
    let? r := ask "rte_eth_dev_configure" [port; 1; 1] [] in
    if negb (ret r =? 0) then iret (ret r)
    else
      let? sid := ask "rte_eth_dev_socket_id" [port] [] in
      let? r := ask "rte_eth_rx_queue_setup" [port; 0; 128; ret sid] [] in
      if ret r <? 0 then iret (ret r)
      else
        let? sid := ask "rte_eth_dev_socket_id" [port] [] in
        let? r := ask "rte_eth_tx_queue_setup" [port; 0; 512; ret sid] [] in
        if ret r <? 0 then iret (ret r)
        else
          let? r := ask "rte_eth_dev_start" [port] [] in
          if ret r <? 0 then iret (ret r)
          else
            let? _ := tell (Call "rte_eth_promiscuous_enable" [port] []) in
            iret 0.

(** [report_stat]: prints and resets the counter; [%8] pads with spaces. *)
Definition report_stat (counter : Z) (force_quit : bool) : io Z :=
  let? core := ask "rte_lcore_id" [] [] in
  let? _ := tell (Out (lit "report_stat on core " ++ dec (ret core))) in
  let n := dec (u32 counter) in
  let? _ := tell (Out (lit "Tput: " ++ replicate (8 - length n) 32 ++ n)) in
  let? _ := if force_quit then tell (Call "rte_timer_stop" [] []) else iret tt in
  iret 0.

(** One turn of the loop of [lcore_mainloop]. *)
Definition timer_turn (prev_tsc : Z) : io Z :=
  let? r := ask "rte_rdtsc" [] [] in
  let cur_tsc := u64 (ret r) in
  if u64 (cur_tsc - prev_tsc) >? 20000000 then
    let? _ := tell (Call "rte_timer_manage" [] []) in
    iret cur_tsc
  else iret prev_tsc.
(** [lcore_mainloop]: [while (1)], with the turns as fuel. *)
Fixpoint timer_loop (fuel : nat) (prev_tsc : Z) : io unit :=
  match fuel with
  | O => lift NoFuel
  | S fuel => let? prev_tsc := timer_turn prev_tsc in timer_loop fuel prev_tsc
  end.
Definition lcore_mainloop (fuel : nat) : io unit :=
  let? lcore_id := ask "rte_lcore_id" [] [] in
  let? _ := tell (Call "rte_log" [ret lcore_id] (lit "Starting mainloop on core")) in
  timer_loop fuel 0.

Definition signal_handler (force_quit : bool) (signum : Z) : bool :=
  if (signum =? 2) || (signum =? 15) then true else force_quit.

(** [lcore_main]: bursts of port 0 until [force_quit], which a signal sets at any
    time, reads true; everything received is freed. *)
Fixpoint gen_free (i : Z) (n : nat) : io unit :=
  match n with
  | O => iret tt
  | S n => let? _ := tell (Call "rte_pktmbuf_free" [i] []) in gen_free (i + 1) n
  end.
Fixpoint gen_loop (fuel : nat) : io unit :=
  match fuel with
  | O => lift NoFuel
  | S fuel =>
      let? q := ask "force_quit" [] [] in
      if negb (ret q =? 0) then iret tt
      else
        let? r := ask "rte_eth_rx_burst" [0; 0; BURST_SIZE] [] in
        let nb_rx := u16 (ret r) in
        if nb_rx =? 0 then gen_loop fuel
        else
          let? _ := gen_free 0 (Z.to_nat nb_rx) in
          gen_loop fuel
  end.
Definition gen_lcore_main (fuel : nat) : io unit :=
  let? a := ask "rte_eth_dev_socket_id" [0] [] in
  let? remote :=
    if ret a >? 0 then
      let? b := ask "rte_eth_dev_socket_id" [0] [] in
      let? c := ask "rte_socket_id" [] [] in
      iret (negb (ret b =? i32 (ret c)))
    else iret false in
  let? _ :=
    if (remote : bool) then
      let? _ := tell (Out (lit "WARNING, port 0 is on remote NUMA node to polling thread.")) in
      tell (Out (9 :: lit "Performance will not be optimal."))
    else iret tt in
  let? core := ask "rte_lcore_id" [] [] in
  let? _ := tell (Out []) in
  let? _ := tell (Out (lit "Core " ++ dec (ret core) ++ lit " forwarding packets. [Ctrl+C to quit]")) in
  gen_loop fuel.

(** [main]: the functions launched on the other cores are arguments of
    [rte_eal_remote_launch]. *)
Definition gen_main (fuel : nat) : io Z :=
  let? r := ask "rte_eal_init" [] [] in
  if ret r <? 0 then die (lit "Error with EAL initialization")
  else
    let? _ := tell (Call "rte_timer_init" [] []) in
    let? hz := ask "rte_get_timer_hz" [] [] in
    let? _ := tell (Call "signal" [2] (lit "signal_handler")) in
    let? _ := tell (Call "signal" [15] (lit "signal_handler")) in
    let? sid := ask "rte_socket_id" [] [] in
    let? p := ask "rte_pktmbuf_pool_create" [8191; 250; 0; ret sid] [] in
    if ret p =? 0 then die (lit "Cannot create mbuf pool")
    else
      let? r := gen_port_init 0 in
      if negb (r =? 0) then die (lit "Cannot init port 0")
      else
        let? master := ask "rte_lcore_id" [] [] in
        let? c1 := ask "rte_get_next_lcore" [ret master; 0; 1] [] in
        let? _ := tell (Call "rte_timer_reset" [ret hz; ret c1] (lit "report_stat")) in
        let? _ := tell (Call "rte_timer_subsystem_init" [] []) in
        let? _ := tell (Call "rte_eal_remote_launch" [ret c1] (lit "lcore_mainloop")) in
        let? c2 := ask "rte_get_next_lcore" [ret c1; 0; 1] [] in
        let? _ := tell (Call "rte_eal_remote_launch" [ret c2] (lit "generate_packets")) in
        let? _ := gen_lcore_main fuel in
        iret 0.
End GenPacket.

(** Addresses for concrete runs. *)
Definition mac0 (port : Z) : bytes := [2; 0; 0; 0; 0; port].

(** ** Lemmas *)
Lemma free_loop_ok bufs fuel i :
  0 <= i <= len bufs -> len bufs <= 32 -> len bufs - i <= Z.of_nat fuel ->
  free_loop bufs fuel i (len bufs) = Ok (Freed <$> drop (Z.to_nat i) bufs).
Proof.
  revert i. induction fuel as [ | fuel IH]; intros i Hi Hmax Hf.
  - cbn [free_loop]. rewrite (proj2 (Z.ltb_ge _ _)) by lia. by rewrite drop_ge by lia.
  - cbn [free_loop]. destruct (i <? len bufs) eqn:E; zbool; [ | by rewrite drop_ge by lia].
    destruct (lookup_lt_is_Some_2 bufs (Z.to_nat i)) as [p Hp]; [lia | ].
    rewrite (rd_ok _ _ p), obind_ok by (done || lia). rewrite u16_small, IH, obind_ok by lia.
    rewrite (drop_S bufs p (Z.to_nat i)) by done. by replace (Z.to_nat (i + 1)) with (S (Z.to_nat i)) by lia.
Qed.

(** The change of the ICMP word sum when the type goes from request to reply and
    the checksum is replaced. *)
Lemma icmp_sum code ck0 ck1 ck0' ck1' rest :
  Checksum.words_sum (0 :: code :: ck0' :: ck1' :: rest) =
  Checksum.words_sum (8 :: code :: ck0 :: ck1 :: rest) - 8 + (le_val [ck0'; ck1'] - le_val [ck0; ck1]).
Proof. cbn [Checksum.words_sum le_val]. lia. Qed.

(** Field accesses inside a room of [n] bytes: each is defined, and a write keeps the room. *)
Definition in_room (n : nat) (o : outcome bytes) : Prop := exists q, o = Ok q /\ length q = n.
Lemma in_room_ret n pkt : length pkt = n -> in_room n (Ok pkt).
Proof. by exists pkt. Qed.
Lemma in_room_store n pkt off l : length pkt = n -> 0 <= off -> off + len l <= Z.of_nat n -> in_room n (store pkt off l).
Proof. intros Hn H1 H2. exists (splice pkt off l). rewrite store_ok, length_splice by lia. done. Qed.
Lemma in_room_set n k pkt off v :
  length pkt = n -> 0 <= off -> off + Z.of_nat k <= Z.of_nat n -> in_room n (set_le k pkt off v).
Proof. intros. apply in_room_store; rewrite ?length_le_bytes; done || lia. Qed.
Lemma in_room_set8 n pkt off v : length pkt = n -> 0 <= off -> off + 1 <= Z.of_nat n -> in_room n (set8 pkt off v).
Proof. intros. by apply in_room_store. Qed.
Lemma in_room_bind n o f : in_room n o -> (forall q, length q = n -> in_room n (f q)) -> in_room n (obind o f).
Proof. intros (q & -> & Hq) Hf. rewrite obind_ok. by apply Hf. Qed.
Lemma in_room_get n k pkt off f :
  length pkt = n -> 0 <= off -> off + Z.of_nat k <= Z.of_nat n -> (forall v, in_room n (f v)) -> in_room n (obind (get_le k pkt off) f).
Proof. intros. unfold get_le. rewrite load_ok, !obind_ok by lia. done. Qed.
Lemma in_room_get8 n pkt off f :
  length pkt = n -> 0 <= off < Z.of_nat n -> (forall v, in_room n (f v)) -> in_room n (obind (get8 pkt off) f).
Proof. intros. destruct (get8_ok pkt off) as [c ->]; [lia | ]. by rewrite obind_ok. Qed.
Lemma in_room_load n pkt off k f :
  length pkt = n -> 0 <= off -> 0 <= k -> off + k <= Z.of_nat n -> (forall l, len l = k -> in_room n (f l)) ->
  in_room n (obind (load pkt off k) f).
Proof. intros ? ? ? ? Hf. rewrite load_ok, obind_ok by lia. apply Hf. apply length_slice; lia. Qed.
Ltac inside_room :=
  repeat (case_if || (apply in_room_ret; done) ||
    (apply in_room_get; [done | lia | simpl; lia | intros ?]) || (apply in_room_get8; [done | lia | intros ?]) ||
    (apply in_room_load; [done | lia | lia | lia | intros ? ?]) ||
    (apply in_room_set; [done | lia | simpl; lia]) || (apply in_room_set8; [done | lia | lia]) ||
    (apply in_room_store; [done | lia | lia]) || (apply in_room_bind; [ | intros ? ?])).

(** ** Properties *)
Section Props.
Context (mac : Z -> bytes).

(** Echo requests: [packet_handler] turns the ICMP type of a request into
    that of a reply and changes nothing else but the checksum field, and it
    always makes a valid checksum invalid: it adds 2047 to the little-endian
    field, where the change of the type calls for 8. *)
Theorem icmp_reply_invalid eth ip1 ip2 code ck0 ck1 rest port :
  length eth = 12%nat -> length ip1 = 9%nat -> length ip2 = 10%nat ->
  is_byte ck0 -> is_byte ck1 ->
  let request := 8 :: code :: ck0 :: ck1 :: rest in
  let frame icmp := eth ++ [8; 0] ++ ip1 ++ [IPPROTO_ICMP] ++ ip2 ++ icmp in
  exists ck0' ck1', let reply := 0 :: code :: ck0' :: ck1' :: rest in
    handle_headers mac (frame request) port = Ok (frame reply) /\
    (Checksum.words_sum request mod 65535 = 0 -> Checksum.words_sum reply mod 65535 <> 0).
Proof.
  intros H1 H2 H3 Hc0 Hc1 request frame.
  set (ck := u16 (le_val [ck0; ck1] + 2047)). exists (ck mod 256), (ck / 256 mod 256). intros reply. split.
  - unfold frame, request, reply.
    do 12 (destruct eth as [ | ? eth]; [done | ]). destruct eth; [ | done].
    do 9 (destruct ip1 as [ | ? ip1]; [done | ]). destruct ip1; [ | done].
    do 10 (destruct ip2 as [ | ? ip2]; [done | ]). destruct ip2; [ | done]. cbn [app].
    match goal with |- handle_headers _ ?p port = _ =>
      let h := constr:(take 38 p) in let h := eval cbn [take] in h in change p with (h ++ rest) end.
    unfold handle_headers, get16, set16. hstep. change (ntohs (le_val [8; 0]) =? ETHER_TYPE_ARP) with false.
    change (ntohs (le_val [8; 0]) =? ETHER_TYPE_IPv4) with true. cbv iota.
    hstep. change (1 =? IPPROTO_ICMP) with true. cbv iota. hstep. change (8 =? IP_ICMP_ECHO_REQUEST) with true. cbv iota.
    hstep. hstep. rewrite set_le_app by (simpl; lia). 
    change (Z.lnot (Z.shiftl IP_ICMP_ECHO_REPLY 8)) with (-1). change (Z.shiftl IP_ICMP_ECHO_REQUEST 8) with 2048.
    replace (u16 (_ + 2048 + -1)) with ck by (unfold ck; f_equal; cbn [le_val]; lia).
    reflexivity.
  - intros Hv. unfold reply. rewrite (icmp_sum code ck0 ck1). fold request.
    assert (le_val [ck mod 256; ck / 256 mod 256] = ck) as ->.
    { change [ck mod 256; ck / 256 mod 256] with (le_bytes 2 ck). rewrite le_val_bytes. apply Z.mod_small.
      unfold ck, u16, uwrap. apply Z.mod_pos_bound. lia. }
    unfold is_byte in *. assert (0 <= le_val [ck0; ck1] < 65536) as Hk by (cbn [le_val]; lia).
    set (k := le_val [ck0; ck1]) in *. set (S := Checksum.words_sum request) in *.
    apply Z.mod_divide in Hv as [q Hq]; [ | lia]. intros Hr. apply Z.mod_divide in Hr as [r Hr]; [ | lia].
    unfold ck, u16, uwrap in Hr. change (2 ^ 16) with 65536 in Hr.
    pose proof (Z.div_mod (k + 2047) 65536 ltac:(lia)). pose proof (Z.mod_pos_bound (k + 2047) 65536 ltac:(lia)).
    assert (0 <= (k + 2047) / 65536 <= 1) by (split; [apply Z.div_pos; lia | apply Z.lt_succ_r, Z.div_lt_upper_bound; lia]).
    lia.
Qed.

(** ARP: a request for 192.168.10.97 is forwarded unchanged, because the
    address is compared in host order; for the address with its bytes reversed
    the packet becomes a reply with sender and target exchanged and the port's
    address filled in. *)
Theorem arp_byte_order port dst src ty sha sip tha m rest :
  length dst = 6%nat -> length src = 6%nat -> length ty = 6%nat -> length sha = 6%nat ->
  length sip = 4%nat -> length tha = 6%nat -> mac port = m -> length m = 6%nat -> Forall is_byte sip ->
  let arp op s1 s2 t1 t2 := [8; 6] ++ ty ++ [0; op] ++ s1 ++ s2 ++ t1 ++ t2 ++ rest in
  handle_headers mac (dst ++ src ++ arp 1 sha sip tha [192; 168; 10; 97]) port =
    Ok (dst ++ src ++ arp 1 sha sip tha [192; 168; 10; 97]) /\
  handle_headers mac (dst ++ src ++ arp 1 sha sip tha [97; 10; 168; 192]) port =
    Ok (src ++ m ++ arp 2 m [97; 10; 168; 192] sha sip).
Proof.
  intros H1 H2 H3 H4 H5 H6 Hm H7 Hb arp.
  do 6 (destruct dst as [ | ? dst]; [done | ]). destruct dst; [ | done].
  do 6 (destruct src as [ | ? src]; [done | ]). destruct src; [ | done].
  do 6 (destruct ty as [ | ? ty]; [done | ]). destruct ty; [ | done].
  do 6 (destruct sha as [ | ? sha]; [done | ]). destruct sha; [ | done].
  do 4 (destruct sip as [ | ? sip]; [done | ]). destruct sip; [ | done].
  do 6 (destruct tha as [ | ? tha]; [done | ]). destruct tha; [ | done].
  do 6 (destruct m as [ | ? m]; [done | ]). destruct m; [ | done].
  unfold arp. cbn [app]. split.
  - match goal with |- handle_headers _ ?p port = _ =>
      let h := constr:(take 42 p) in let h := eval cbn [take] in h in change p with (h ++ rest) end.
    unfold handle_headers, get16, get32. hstep. change (ntohs (le_val [8; 6]) =? ETHER_TYPE_ARP) with true. cbv iota.
    hstep. reflexivity.
  - match goal with |- handle_headers _ ?p port = _ =>
      let h := constr:(take 42 p) in let h := eval cbn [take] in h in change p with (h ++ rest) end.
    unfold handle_headers, get16, get32. hstep. change (ntohs (le_val [8; 6]) =? ETHER_TYPE_ARP) with true. cbv iota.
    hstep. change (le_val [97; 10; 168; 192] =? my_ip) with true. cbv iota.
    hstep. change (le_val [0; 1] =? htons ARP_OP_REQUEST) with true. cbv iota.
    unfold arp_reply, ether_addr_copy, set16, get32. rewrite Hm, ?obind_assoc.
    repeat (rewrite ?obind_assoc; hstep).
    pose proof (le_bytes_val _ Hb) as Eb. cbn [length] in Eb. unfold set32 at 1, set_le. rewrite Eb.
    repeat (rewrite ?obind_assoc; hstep). unfold set32. rewrite set_le_app by (simpl; lia).
    reflexivity.
Qed.

(** The handler inside a data room of 42 bytes: it always returns, and keeps the room. *)
Context (mac6 : forall port, length (mac port) = 6%nat).

Lemma packet_handler_ok pkt port :
  42 <= len pkt ->
  exists q, handle_headers mac pkt port = Ok q /\ length q = length pkt /\
    packet_handler mac pkt port = Ok (Dumped (lit "struct ether") (take 14 pkt), q).
Proof.
  intros Hl. assert (in_room (length pkt) (handle_headers mac pkt port)) as (q & E & Hq).
  { pose proof (mac6 port). unfold handle_headers, arp_reply, ether_addr_copy, get16, get32, set16, set32. inside_room. }
  exists q. split; [done | ]. split; [done | ]. unfold packet_handler. rewrite load_ok, obind_ok by lia. by rewrite E.
Qed.

(** The packets of a burst, each as the handler leaves it. *)
Abbreviation handled port rx bufs := (Forall2 (fun p q => handle_headers mac p port = Ok q) rx bufs).
Abbreviation roomy := (Forall (fun p : bytes => 42 <= len p)).
Definition dumps_of (rx : list bytes) : list action := (fun p => Dumped (lit "struct ether") (take 14 p)) <$> rx.

Lemma rx_loop_ok port fuel rx pre :
  roomy rx -> (length rx <= fuel)%nat -> len pre + len rx <= BURST_SIZE ->
  exists bufs, handled port rx bufs /\
    rx_loop mac fuel (pre ++ rx) (len pre) (len (pre ++ rx)) port = Ok (dumps_of rx, pre ++ bufs).
Proof.
  unfold BURST_SIZE. revert rx pre. induction fuel as [ | fuel IH]; intros rx pre Hr Hf Hmax;
    (destruct rx as [ | p rx]; [exists []; split; [constructor | ] | ]).
  - cbn [rx_loop]. by rewrite (proj2 (Z.ltb_ge _ _)) by (rewrite app_nil_r; lia).
  - cbn [length] in Hf. lia.
  - cbn [rx_loop]. by rewrite (proj2 (Z.ltb_ge _ _)) by (rewrite app_nil_r; lia).
  - apply Forall_cons in Hr as [Hp Hr]. destruct (packet_handler_ok p port Hp) as (q & E & _ & Eh).
    destruct (IH rx (pre ++ [q]) Hr) as (bufs & Hb & El); [simpl in Hf; lia | rewrite length_app; simpl in *; lia | ].
    exists (q :: bufs). split; [by constructor | ]. cbn [rx_loop].
    rewrite (proj2 (Z.ltb_lt _ _)) by (rewrite length_app; cbn [length]; lia).
    rewrite rd_app, obind_ok, Eh, obind_ok by done. rewrite wr_app by done. rewrite obind_ok.
    rewrite u16_small by (cbn [length] in Hmax; lia).
    replace (len pre + 1) with (len (pre ++ [q])) by (rewrite length_app; simpl; lia).
    replace (len (pre ++ p :: rx)) with (len ((pre ++ [q]) ++ rx)) by (rewrite !length_app; simpl; lia).
    replace (pre ++ q :: rx) with ((pre ++ [q]) ++ rx) by (by rewrite <- app_assoc).
    rewrite El, obind_ok, <- app_assoc. done.
Qed.

(** What becomes of the handled packets of a burst. *)
Definition fates_of (port : Z) (bufs : list bytes) (nb_tx : Z) : list action :=
  (Transmitted port <$> take (Z.to_nat nb_tx) bufs) ++ (Freed <$> drop (Z.to_nat nb_tx) bufs).

(** One port of a round: what is not transmitted is freed. *)
Lemma forward_ok port rx nb_tx :
  roomy rx -> len rx <= BURST_SIZE -> 0 <= nb_tx <= len rx ->
  exists bufs, handled port rx bufs /\ forward mac port rx nb_tx = Ok (dumps_of rx ++ fates_of port bufs nb_tx).
Proof.
  intros Hr Hmax Hn. destruct (rx_loop_ok port (length rx) rx [] Hr) as (bufs & Hb & E); [lia | simpl; lia | ].
  exists bufs. split; [done | ]. cbn [app] in E. unfold forward, rx_handler. rewrite Nat2Z.id.
  change (len []) with 0 in E. rewrite E, obind_ok. apply Forall2_length in Hb as Hlb. unfold BURST_SIZE, fates_of in *.
  destruct (len rx =? 0) eqn:E0; zbool.
  { destruct bufs; [ | simpl in *; lia]. by rewrite take_nil, drop_nil, app_nil_r. }
  destruct (nb_tx <? len rx) eqn:E1; zbool.
  - rewrite Hlb in *. rewrite free_loop_ok, obind_ok by lia. done.
  - rewrite (drop_ge bufs) by lia. by rewrite app_nil_r.
Qed.

(** What the bursts of a run lead to: the ports take turns, and the packets of a burst are
    all dumped, handled, and transmitted or freed. *)
Inductive round_robin (ports : list Z) : list Z -> list (list bytes * Z) -> list action -> Prop :=
| rr_end round : round_robin ports round [] []
| rr_again bursts acts : round_robin ports ports bursts acts -> round_robin ports [] bursts acts
| rr_burst port round rx nb_tx bufs bursts acts :
    handled port rx bufs -> round_robin ports round bursts acts ->
    round_robin ports (port :: round) ((rx, nb_tx) :: bursts) (dumps_of rx ++ fates_of port bufs nb_tx ++ acts).

(** What the documentation of DPDK says of a burst: at most [BURST_SIZE] packets arrive, in
    buffers with more data room than the headers need, and at most as many are taken. *)
Definition burst_ok (burst : list bytes * Z) : Prop :=
  len burst.1 <= BURST_SIZE /\ roomy burst.1 /\ 0 <= burst.2 <= len burst.1.

Lemma lcore_rounds_ok ports bursts round :
  ports <> [] -> Forall burst_ok bursts ->
  exists acts, lcore_rounds mac ports bursts round = Ok acts /\ round_robin ports round bursts acts.
Proof.
  intros Hp Hb. revert round. induction Hb as [ | [rx nb_tx] bursts (H1 & H2 & H3) _ IH]; intros round.
  { exists []. split; [done | constructor]. }
  assert (forall port r, exists acts, (let! done_ := forward mac port rx nb_tx in
    let! rest := lcore_rounds mac ports bursts r in Ok (done_ ++ rest)) = Ok acts /\
    round_robin ports (port :: r) ((rx, nb_tx) :: bursts) acts) as H.
  { intros port r. destruct (forward_ok port rx nb_tx H2 H1 H3) as (bufs & Hbufs & ->).
    destruct (IH r) as (acts & -> & Hr). rewrite !obind_ok. eexists. split; [done | ].
    rewrite <- app_assoc. by constructor. }
  destruct round as [ | port r]; [ | apply H]. destruct ports as [ | port r]; [done | ].
  destruct (H port r) as (acts & E & Hr). exists acts. split; [exact E | by apply rr_again].
Qed.

(** The packet of an action that ends the ownership of its buffer. *)
Definition gone (a : action) : list bytes := match a with Dumped _ _ => [] | Transmitted _ p => [p] | Freed p => [p] end.
Lemma gone_dumps rx : concat (map gone (dumps_of rx)) = [].
Proof. unfold dumps_of. induction rx as [ | p rx IH]; [done | ]. exact IH. Qed.
Lemma gone_fates port bufs nb_tx : concat (map gone (fates_of port bufs nb_tx)) = bufs.
Proof.
  unfold fates_of. rewrite map_app, concat_app. etransitivity; [ | apply (take_drop (Z.to_nat nb_tx))]. f_equal.
  - generalize (take (Z.to_nat nb_tx) bufs) as l. induction l as [ | p l IH]; [done | ]. cbn. by rewrite IH.
  - generalize (drop (Z.to_nat nb_tx) bufs) as l. induction l as [ | p l IH]; [done | ]. cbn. by rewrite IH.
Qed.
Lemma round_robin_gone ports round bursts acts :
  round_robin ports round bursts acts ->
  Forall2 (fun p q => exists port, handle_headers mac p port = Ok q) (concat (map fst bursts)) (concat (map gone acts)).
Proof.
  induction 1 as [ | | port round rx nb_tx bufs bursts acts Hb _ IH]; [constructor | done | ].
  rewrite !map_app, !concat_app, gone_dumps, gone_fates. cbn [app map concat fst]. apply Forall2_app; [ | done].
  eapply Forall2_impl; [exact Hb | ]. cbn beta. eauto.
Qed.

(** C30. Forwarding loses no packet buffer.  Whatever the ports receive, burst after burst,
    and however many packets the devices take, the run of lcore_main is defined; the ports
    take turns in their order; of each burst every received packet's Ethernet header is
    dumped and the packet is handled, the first packets are transmitted on the port they
    came from and the others freed.  So the packets transmitted or freed in the run are
    exactly the received ones, each once, in order, as the handler left them. *)
Theorem forward_no_leak ports socket_of me core bursts :
  ports <> [] -> Forall burst_ok bursts ->
  exists lines acts, lcore_main mac ports socket_of me core bursts = Ok (lines, acts) /\
    round_robin ports [] bursts acts /\
    Forall2 (fun p q => exists port, handle_headers mac p port = Ok q) (concat (map fst bursts)) (concat (map gone acts)).
Proof.
  intros Hp Hb. destruct (lcore_rounds_ok ports bursts [] Hp Hb) as (acts & E & Hr).
  eexists _, acts. split; [unfold lcore_main; by rewrite E, obind_ok | ]. split; [done | by eapply round_robin_gone].
Qed.
End Props.

(** The generated packet: in a buffer with room for its 50 bytes, the program
    sets the source MAC, the Ethernet type, addresses, ports, total length 36 and
    the message; the UDP length field is 8 (the message without the UDP header),
    and the destination MAC, type of service, identification, fragment field and
    time to live keep what the buffer held before. *)
Theorem crafted_packet mac cksum cksum6 f1 f2 f3 old msg m dmac x1 v tos x2 idfrag ttl x3 rest :
  length msg = 8%nat -> mac 0 = m -> length m = 6%nat ->
  data old = dmac ++ x1 ++ [v; tos] ++ x2 ++ idfrag ++ [ttl] ++ x3 ++ rest ->
  length dmac = 6%nat -> length x1 = 8%nat -> length x2 = 2%nat -> length idfrag = 4%nat -> length x3 = 27%nat ->
  let iph := [69; tos; 0; 36] ++ idfrag ++ [ttl; 17; 0; 0; 192; 168; 4; 95; 239; 3; 29; 73] in
  let flags := Z.lor (Z.lor (Z.lor 0 f1) f2) f3 in
  exists b, add_paxos_message mac cksum cksum6 f1 f2 f3 msg old = Ok b /\ data_len b = 50 /\ pkt_len b = 50 /\
    l2_len b = 14 /\ l3_len b = 20 /\ l4_len b = 16 /\ ol_flags b = flags /\
    data b = dmac ++ m ++ [8; 0] ++ iph ++ [135; 7; 178; 110; 0; 8] ++ le_bytes 2 (cksum iph flags) ++ msg ++ rest.
Proof.
  intros H1 Hm H2 Hd H3 H4 H5 H6 H7 iph flags.
  do 8 (destruct msg as [ | ? msg]; [done | ]). destruct msg; [ | done].
  do 6 (destruct m as [ | ? m]; [done | ]). destruct m; [ | done].
  do 6 (destruct dmac as [ | ? dmac]; [done | ]). destruct dmac; [ | done].
  do 8 (destruct x1 as [ | ? x1]; [done | ]). destruct x1; [ | done].
  do 2 (destruct x2 as [ | ? x2]; [done | ]). destruct x2; [ | done].
  do 4 (destruct idfrag as [ | ? idfrag]; [done | ]). destruct idfrag; [ | done].
  do 27 (destruct x3 as [ | ? x3]; [done | ]). destruct x3; [ | done].
  eexists (mk_mbuf _ 50 50 14 20 16 flags). split; [ | done].
  unfold add_paxos_message. rewrite Hd. cbn [app].
  match goal with |- obind (craft_new_packet _ _ _ _ _ _ ?p _ _ _ _ _ _) _ = _ =>
    let h := constr:(take 50 p) in let h := eval cbn [take] in h in change p with (h ++ rest) end.
  unfold craft_new_packet, get_psd_sum, set16, set32. rewrite Z.eqb_refl, Hm. cbv zeta.
  repeat (rewrite ?obind_assoc; hstep).
  rewrite ?obind_ok. cbv beta iota.
  reflexivity.
Qed.
(** The sending loop repeats as long as everything is taken: when the device
    takes all [count] packets [k] times and then [n] fewer than all, the same
    batch has been handed to the device [k + 1] times, the rest of the last batch
    is not sent, and the counter grows by [k * count + n] (modulo 2^32). *)
Theorem send_batch_resends k count port n c ans fuel :
  0 <= n < count -> count <= 65535 -> (k < fuel)%nat ->
  let burst x := [Call "rte_eth_tx_burst" [port; 0; count] []; Call "rte_log" [x] (lit "Send")] in
  send_batch fuel count port c (replicate k (ok count) ++ ok n :: ans) =
    (concat (replicate k (burst count)) ++ burst n, Ok (i32 (c + Z.of_nat k * count + n), ans)).
Proof.
  intros Hn Hc Hf burst. revert c fuel Hf. induction k as [ | k IH]; intros c fuel Hf;
    (destruct fuel as [ | fuel]; [lia | ]); cbn [replicate app concat send_batch].
  - unfold ibind, ask, tell, ok, ret. rewrite u16_small by lia.
    rewrite (proj2 (Z.eqb_neq n count)) by lia. cbn. do 3 f_equal. f_equal. lia.
  - unfold ibind at 1, ask, ok at 1. unfold ibind, tell. change (ret _) with count at 1.
    cbn [ret ok]. rewrite u16_small, Z.eqb_refl by lia.
    rewrite IH by lia. cbn. do 3 f_equal. rewrite Nat2Z.inj_succ.
    rewrite <- !Z.add_assoc, i32_add_l. f_equal. lia.
Qed.

(** ** The timer loop *)

(** The times at which the timers are looked at when the counter is read at the times
    [ts]: the specification counts in unbounded time, the code reads a counter of 64 bits. *)
Fixpoint managed (prev : Z) (ts : list Z) : list (Z * bool) :=
  match ts with
  | [] => []
  | t :: ts => if t - prev >? 20000000 then (t, true) :: managed t ts else (t, false) :: managed prev ts
  end.
Definition turn_trace (x : Z * bool) : list event :=
  Call "rte_rdtsc" [] [] :: if x.2 then [Call "rte_timer_manage" [] []] else [].
(** The clock does not run backwards and is read at least once in 2^63 cycles. *)
Fixpoint read_often (prev : Z) (ts : list Z) : Prop :=
  match ts with
  | [] => True
  | t :: ts => prev <= t < prev + 2 ^ 63 /\ read_often t ts
  end.
Lemma u64_diff a b : 0 <= a - b < 2 ^ 64 -> u64 (u64 a - u64 b) = a - b.
Proof. intros H. unfold u64, uwrap. rewrite <- Zminus_mod. by apply Z.mod_small. Qed.
Lemma u64_idem a : u64 (u64 a) = u64 a.
Proof. apply Z.mod_mod. done. Qed.
Lemma timer_loop_managed ts : forall prev last, last - prev <= 20000000 -> prev <= last -> read_often last ts ->
  timer_loop (length ts) (u64 prev) (map (fun t => ok (u64 t)) ts) = (concat (map turn_trace (managed prev ts)), NoFuel).
Proof.
  induction ts as [ | t ts IH]; intros prev last Hp Hl Hr; [done | ]. destruct Hr as [Ht Hr].
  cbn [length map timer_loop managed]. unfold timer_turn at 1. unfold ibind at 1 2, ask at 1. cbn [ret ok].
  rewrite u64_idem, u64_diff by lia. destruct (t - prev >? 20000000) eqn:E; zbool.
  - unfold ibind, tell, iret. rewrite (IH t t) by (lia || done). done.
  - unfold iret. rewrite (IH prev t) by (lia || done). done.
Qed.
(** In [managed] the timers are looked at again as soon as, and only when, more than the
    resolution has passed since the last time. *)
Lemma managed_spacing ts : forall prev i t b, managed prev ts !! i = Some (t, b) ->
  ts !! i = Some t /\ b = (t - List.last (map fst (List.filter snd (take i (managed prev ts)))) prev >? 20000000).
Proof.
  induction ts as [ | u ts IH]; intros prev i t b Hi; [done | ]. cbn [managed] in *.
  destruct (u - prev >? 20000000) eqn:E; (destruct i as [ | i]; [injection Hi as <- <-; done | ]); cbn [take List.filter snd map fst lookup list_lookup] in *;
    destruct (IH _ _ _ _ Hi) as [H1 ->]; (split; [done | ]); [ | done].
  do 2 f_equal. destruct (map fst _) as [ | x l]; [done | ]. cbn [List.last]. apply last_default.
Qed.
(** The loop of the timer core looks at the timers at the first reading of the counter
    more than [TIMER_RESOLUTION_CYCLES] after the last time and at no other, also when the
    counter of 64 bits wraps around. *)
Theorem mainloop_manages core ts :
  read_often 0 ts ->
  lcore_mainloop (length ts) (ok core :: map (fun t => ok (u64 t)) ts) =
    (Call "rte_lcore_id" [] [] :: Call "rte_log" [core] (lit "Starting mainloop on core") :: concat (map turn_trace (managed 0 ts)), NoFuel) /\
  forall i t b, managed 0 ts !! i = Some (t, b) ->
    ts !! i = Some t /\ b = (t - List.last (map fst (List.filter snd (take i (managed 0 ts)))) 0 >? 20000000).
Proof.
  intros Hr. split; [ | intros i t b; apply managed_spacing].
  unfold lcore_mainloop. erewrite ibind_ok by reflexivity. erewrite ibind_ok by reflexivity.
  pose proof (timer_loop_managed ts 0 0 ltac:(lia) ltac:(lia) Hr) as E. change (u64 0) with 0 in E. by rewrite E.
Qed.

(** ** Witnesses *)
(** The counter wraps between the second and the third reading. *)
Lemma mainloop_manages_witness :
  fst (lcore_mainloop 3 [ok 1; ok (2 ^ 63 - 1); ok (2 ^ 64 - 2); ok 20000000]) =
    [Call "rte_lcore_id" [] []; Call "rte_log" [1] (lit "Starting mainloop on core"); Call "rte_rdtsc" [] [];
     Call "rte_timer_manage" [] []; Call "rte_rdtsc" [] []; Call "rte_timer_manage" [] []; Call "rte_rdtsc" [] [];
     Call "rte_timer_manage" [] []].
Proof.
  pose proof (mainloop_manages 1 [2 ^ 63 - 1; 2 ^ 64 - 2; 2 ^ 64 + 20000000] ltac:(cbn; lia)) as [E _].
  change [ok 1; ok (2 ^ 63 - 1); ok (2 ^ 64 - 2); ok 20000000]
    with (ok 1 :: map (fun t => ok (u64 t)) [2 ^ 63 - 1; 2 ^ 64 - 2; 2 ^ 64 + 20000000]).
  change 3%nat with (length [2 ^ 63 - 1; 2 ^ 64 - 2; 2 ^ 64 + 20000000]). rewrite E. reflexivity.
Defined.
Lemma icmp_reply_invalid_witness :
  let request := [8; 0; 247; 255] in
  let frame icmp := replicate 12 1 ++ [8; 0] ++ replicate 9 2 ++ [IPPROTO_ICMP] ++ replicate 10 3 ++ icmp in
  exists ck0' ck1', let reply := [0; 0; ck0'; ck1'] in
    handle_headers mac0 (frame request) 0 = Ok (frame reply) /\ Checksum.words_sum reply mod 65535 <> 0.
Proof.
  intros request frame.
  destruct (icmp_reply_invalid mac0 (replicate 12 1) (replicate 9 2) (replicate 10 3) 0 247 255 [] 0)
    as (c0 & c1 & E & Hi); [reflexivity | reflexivity | reflexivity | split; lia | split; lia | ].
  exists c0, c1. split; [exact E | apply Hi; reflexivity].
Defined.

Lemma arp_byte_order_witness :
  let arp ip := replicate 6 255 ++ replicate 6 7 ++ [8; 6; 0; 1; 8; 0; 6; 4; 0; 1] ++ replicate 6 7 ++
                [192; 168; 10; 1] ++ replicate 6 0 ++ ip in
  handle_headers mac0 (arp [192; 168; 10; 97]) 3 = Ok (arp [192; 168; 10; 97]) /\
  handle_headers mac0 (arp [97; 10; 168; 192]) 3 =
    Ok (replicate 6 7 ++ mac0 3 ++ [8; 6; 0; 1; 8; 0; 6; 4; 0; 2] ++ mac0 3 ++ [97; 10; 168; 192] ++
        replicate 6 7 ++ [192; 168; 10; 1]).
Proof.
  apply (arp_byte_order mac0 3 (replicate 6 255) (replicate 6 7) [0; 1; 8; 0; 6; 4] (replicate 6 7)
           [192; 168; 10; 1] (replicate 6 0) (mac0 3) []); try reflexivity.
  repeat constructor; unfold is_byte; lia.
Defined.

(** Two ports; three packets arrive and the device takes one, then one packet on port 5. *)
Lemma forward_no_leak_witness :
  let p b := replicate 60 b in
  exists lines acts, lcore_main mac0 [3; 5] (fun _ => 0) 0 1 [([p 1; p 2; p 3], 1); ([p 4], 1)] = Ok (lines, acts) /\
    round_robin mac0 [3; 5] [] [([p 1; p 2; p 3], 1); ([p 4], 1)] acts /\
    Forall2 (fun p q => exists port, handle_headers mac0 p port = Ok q) ([p 1; p 2; p 3] ++ [p 4]) (concat (map gone acts)).
Proof.
  intros p. apply (forward_no_leak mac0 (fun _ => eq_refl) [3; 5] (fun _ => 0) 0 1 [([p 1; p 2; p 3], 1); ([p 4], 1)]).
  - discriminate.
  - repeat constructor; vm_compute; discriminate.
Defined.
(** The actions of that run. *)
Example forward_run :
  let p b := replicate 60 b in
  snd <$> (match lcore_main mac0 [3; 5] (fun _ => 0) 0 1 [([p 1; p 2; p 3], 1); ([p 4], 1)] with Ok x => Some x | _ => None end) =
  Some [Dumped (lit "struct ether") (replicate 14 1); Dumped (lit "struct ether") (replicate 14 2); Dumped (lit "struct ether") (replicate 14 3);
        Transmitted 3 (p 1); Freed (p 2); Freed (p 3); Dumped (lit "struct ether") (replicate 14 4); Transmitted 5 (p 4)].
Proof. vm_compute. reflexivity. Qed.

Lemma crafted_packet_witness :
  let cksum (iph : bytes) (_ : Z) := le_val (take 2 iph) in
  exists b, add_paxos_message mac0 cksum cksum 1 2 4 [1; 0; 9; 9; 5; 0; 0; 0]
      (mk_mbuf (replicate 64 9) 0 0 0 0 0 0) = Ok b /\ data_len b = 50 /\ ol_flags b = 7 /\
    take 8 (drop 34 (data b)) = [135; 7; 178; 110; 0; 8; 69; 9].
Proof.
  intros cksum.
  destruct (crafted_packet mac0 cksum cksum 1 2 4 (mk_mbuf (replicate 64 9) 0 0 0 0 0 0) [1; 0; 9; 9; 5; 0; 0; 0]
    (mac0 0) (replicate 6 9) (replicate 8 9) 9 9 (replicate 2 9) (replicate 4 9) 9 (replicate 27 9) (replicate 14 9))
    as (b & E & H1 & _ & _ & _ & _ & H2 & H3); try reflexivity.
  exists b. split; [exact E | ]. rewrite H1, H2, H3. split; [reflexivity | split; reflexivity].
Defined.

(** Two full batches, then seven packets. *)
Lemma send_batch_resends_witness :
  snd (send_batch 5 BURST_SIZE 0 0 [ok 32; ok 32; ok 7]) = Ok (71, []).
Proof.
  pose proof (send_batch_resends 2 32 0 7 0 [] 5 ltac:(lia) ltac:(lia) ltac:(lia)) as E.
  cbn zeta in E. change (replicate 2 (ok 32) ++ [ok 7]) with [ok 32; ok 32; ok 7] in E.
  unfold BURST_SIZE. rewrite E. reflexivity.
Defined.
End Dpdk.
