(* ===== verification/Clients.v ===== *)
(** * The latency clients of [client_server]: [tcp], [uthash], [udp] and [msg_hdr]

    A client sends the time, waits for the echo and prints the difference.  The
    event loop of libevent is not part of the repository: which callbacks it runs,
    in which order, is an argument; sockets, buffers and the clock are answered
    from outside. *)
From S2P Require Import Prelude CLib Bytes Sys.

Module Clients.

(** ** Times *)
Record timespec := mk_ts { tv_sec : Z; tv_nsec : Z }.
#[global] Instance timespec_eq_dec : EqDecision timespec.
Proof. solve_decision. Defined.
Definition BILLION : Z := 1000000000.

(** [long] arithmetic: overflow is undefined. *)
Definition LONG_MAX : Z := 9223372036854775807.
Definition clong (z : Z) : outcome Z :=
  if (- LONG_MAX - 1 <=? z) && (z <=? LONG_MAX) then Ok z else Ub.

Definition timespec_diff (end_ start : timespec) : outcome (timespec * Z) :=
  let! result :=
    if tv_nsec end_ <? tv_nsec start then
      let! a := clong (BILLION + tv_nsec end_) in
      let! n := clong (a - tv_nsec start) in
      let! b := clong (tv_sec end_ - tv_sec start) in
      let! s := clong (b - 1) in
      Ok (mk_ts s n)
    else
      let! n := clong (tv_nsec end_ - tv_nsec start) in
      let! s := clong (tv_sec end_ - tv_sec start) in
      Ok (mk_ts s n) in
  Ok (result, if tv_sec end_ <? tv_sec start then 1 else 0).

(** [struct timespec] in memory: two 64-bit integers. *)
Definition i64 : Z -> Z := swrap 64.
Definition SIZEOF_TS : Z := 16.
Definition ts_bytes (t : timespec) : bytes := le_bytes 8 (tv_sec t) ++ le_bytes 8 (tv_nsec t).
Definition ts_at (buf : bytes) (off : Z) : outcome timespec :=
  let! s := get64 buf off in
  let! n := get64 buf (off + 8) in
  Ok (mk_ts (i64 s) (i64 n)).

(** [%ld] (20 digits are enough), [%.9ld] and, for what is not negative, [%09ld]. *)
Definition dec_long (n : Z) : bytes :=
  (if n <? 0 then [45] else []) ++ dec_digits 20 (Z.abs n) [].
Definition dec_prec9 (n : Z) : bytes :=
  let ds := dec_digits 20 (Z.abs n) [] in
  (if n <? 0 then [45] else []) ++ replicate (9 - length ds) 48 ++ ds.
Definition dec_pad9 (n : Z) : bytes :=
  let ds := dec_digits 20 (Z.abs n) [] in
  (if n <? 0 then [45] else []) ++ replicate ((if n <? 0 then 8 else 9) - length ds) 48 ++ ds.

(** [clock_gettime(CLOCK_REALTIME, &t)] *)
Definition clock : io timespec :=
  let? r := ask "clock_gettime" [0] [] in lift (ts_at (filled r) 0).

(** ** The callbacks libevent runs *)
Inductive callback := CbRead | CbEvent (events : Z) | CbPerf | CbSignal.
Definition SIGINT : Z := 2.
Definition SIGTERM : Z := 15.
Definition BEV_EVENT_EOF : Z := 16.
Definition BEV_EVENT_ERROR : Z := 32.
Definition BEV_EVENT_CONNECTED : Z := 128.
Definition flag (events bits : Z) : bool := negb (Z.land events bits =? 0).

(** ** [client_server/tcp/src/client.c] (the same file as [uthash/src/client.c]) *)
Definition send_request : io unit :=
  let? ts := clock in
  tell (Call "bufferevent_write" [SIZEOF_TS] (ts_bytes ts)).

(** [filled] holds the bytes [evbuffer_remove] moved; a short reply leaves the rest
    of [response] indeterminate. *)
Definition readcb : io unit :=
  let? r := ask "evbuffer_remove" [SIZEOF_TS] [] in
  if ret r <? 0 then iret tt
  else
    let? end_ := clock in
    let? start := lift (ts_at (filled r) 0) in
    let? '(result, _) := lift (timespec_diff end_ start) in
    let? _ := tell (Out (dec_long (tv_sec result) ++ lit "." ++ dec_prec9 (tv_nsec result))) in
    send_request.

(** The result says whether the loop is told to exit. *)
Definition eventcb (events : Z) : io bool :=
  if flag events BEV_EVENT_CONNECTED then iret false
  else if flag events (Z.lor BEV_EVENT_ERROR BEV_EVENT_EOF) then
    let? _ :=
      if flag events BEV_EVENT_ERROR then
        let? err := ask "bufferevent_socket_get_dns_error" [] [] in
        if negb (ret err =? 0) then
          let? m := ask "evutil_gai_strerror" [ret err] [] in
          tell (Out (lit "DNS error: " ++ filled m))
        else iret tt
      else iret tt in
    let? _ := tell (Call "bufferevent_free" [] []) in
    let? _ := tell (Call "event_base_loopexit" [] []) in
    iret true
  else iret false.

(** [event_base_dispatch]: [loopexit] lets the callbacks that are already active
    run, [loopbreak] does not; without either the loop waits. *)
Fixpoint dispatch (readcb : io unit) (cbs : list callback) (exiting : bool) : io unit :=
  match cbs with
  | [] => if exiting then iret tt else lift NoFuel
  | CbRead :: cbs => let? _ := readcb in dispatch readcb cbs exiting
  | CbEvent e :: cbs => let? x := eventcb e in dispatch readcb cbs (exiting || x)
  | CbPerf :: cbs => dispatch readcb cbs exiting
  | CbSignal :: _ => tell (Call "event_base_loopbreak" [] [])
  end.

(** [main], with the two functions in which the clients on a [bufferevent] differ. *)
Definition bev_main (send_request readcb : io unit) (argv : list bytes) (cbs : list callback) : io Z :=
  match argv with
  | [_; host; port] =>
      let? base := ask "event_base_new" [] [] in
      let? dns := ask "evdns_base_new" [ret base; 1] [] in
      let? ev := ask "evsignal_new" [ret base; Z.lor SIGINT SIGTERM] (lit "handle_signal") in
      let? _ := tell (Call "evsignal_add" [ret ev] []) in
      let? bev := ask "bufferevent_socket_new" [ret base; -1] [] in
      let? _ := tell (Call "bufferevent_setcb" [ret bev] []) in
      let? _ := tell (Call "bufferevent_enable" [ret bev] []) in
      let? _ := send_request in
      let? p := lift (atoi port) in
      let? _ := tell (Call "bufferevent_socket_connect_hostname" [ret bev; ret dns; 2; p] host) in
      let? _ := dispatch readcb cbs false in
      let? _ := tell (Call "event_free" [ret ev] []) in
      let? _ := tell (Call "evdns_base_free" [ret dns; 1] []) in
      let? _ := tell (Call "event_base_free" [ret base] []) in
      iret 0
  | name :: _ =>
      let? _ := tell (Out (lit "Syntax: " ++ name ++ lit " [hostname] [port]")) in
      let? _ := tell (Out (lit "Example: " ++ name ++ lit " 192.168.1.110 9876")) in
      iret 1
  | [] => lift Ub
  end.
Definition tcp_client_main : list bytes -> list callback -> io Z := bev_main send_request readcb.
Definition uthash_client_main : list bytes -> list callback -> io Z := bev_main send_request readcb.

(** ** [client_server/udp/src/client.c] and [client_server/msg_hdr/src/client.c] *)

(** [send_to_addr]; the address is the 16 bytes of [ctx->server_addr]. *)
Definition send_to_addr (fd : Z) (server_addr : bytes) : io unit :=
  let? ts := clock in
  let? r := ask "sendto" (fd :: SIZEOF_TS :: server_addr) (ts_bytes ts) in
  if ret r <? 0 then tell (Err (lit "sendto")) else iret tt.

(** [on_read] of [udp]: after a failed [recvfrom] it goes on with [start]
    indeterminate. *)
Definition udp_on_read (fd : Z) (server_addr : bytes) : io unit :=
  let? r := ask "recvfrom" [fd; SIZEOF_TS] [] in
  let? _ := if ret r <? 0 then tell (Err (lit "recvfrom")) else iret tt in
  let? end_ := clock in
  let? start := lift (ts_at (filled r) 0) in
  let? '(result, neg) := lift (timespec_diff end_ start) in
  let? _ := if neg <? 1 then tell (Out (dec_long (tv_sec result) ++ lit "." ++ dec_pad9 (tv_nsec result)))
            else iret tt in
  send_to_addr fd server_addr.

(** The statistics of [msg_hdr]. *)
Record mstat := mk_mstat { nb_packets : Z; latency : Z }.
Definition mmsg_on_read (fd : Z) (server_addr : bytes) (s : mstat) : io mstat :=
  let? r := ask "recvfrom" [fd; SIZEOF_TS] [] in
  let? _ := if ret r <? 0 then tell (Err (lit "recvfrom")) else iret tt in
  let? end_ := clock in
  let? start := lift (ts_at (filled r) 0) in
  let? '(result, neg) := lift (timespec_diff end_ start) in
  let? s :=
    if neg <? 1 then
      let? a := lift (clong (tv_sec result * BILLION)) in
      let? d := lift (clong (a + tv_nsec result)) in
      iret (mk_mstat (u64 (nb_packets s + 1)) (u64 (latency s + u64 d)))
    else iret s in
  let? _ := send_to_addr fd server_addr in
  iret s.
(** The quotient [latency / nb_packets / 1000] in floating point is left to the
    call that prints it. *)
Definition mmsg_on_perf (s : mstat) : io mstat :=
  let? _ := tell (Call "printf" [latency s; nb_packets s] (lit "%6.2f")) in
  iret (mk_mstat 0 0).

Definition new_dgram_socket : io Z :=
  let? s := ask "socket" [2; 2; 0] [] in
  if ret s <? 0 then let? _ := tell (Err (lit "New DGRAM socket")) in iret (-1) else iret (ret s).

(** The loops, with the state of the callbacks. *)
Fixpoint udp_dispatch {S} (on_read on_perf : S -> io S) (cbs : list callback) (s : S) : io S :=
  match cbs with
  | [] => lift NoFuel
  | CbRead :: cbs => let? s := on_read s in udp_dispatch on_read on_perf cbs s
  | CbPerf :: cbs => let? s := on_perf s in udp_dispatch on_read on_perf cbs s
  | CbEvent _ :: cbs => udp_dispatch on_read on_perf cbs s
  | CbSignal :: _ => let? _ := tell (Call "event_base_loopbreak" [] []) in iret s
  end.

(** [ctx.server_addr]: family, port and the address copied from [h_addr]. *)
Definition server_address (h_addr : bytes) : outcome bytes :=
  let! a := set16 (replicate 16 0) 0 2 in
  let! a := store a 4 h_addr in
  set16 a 2 (htons 12345).

(** [gethostbyname(argv[1])]: [filled] is [h_addr] with [h_length] bytes. *)
Definition lookup_server (argv : list bytes) (k : bytes -> io Z) : io Z :=
  match argv with
  | _ :: host :: _ =>
      let? server := ask "gethostbyname" [] host in
      if ret server =? 0 then
        let? _ := tell (Err (lit "ERROR, no such host as " ++ host)) in iret 1
      else
        let? a := lift (server_address (filled server)) in k a
  | _ => lift Ub
  end.
Definition udp_client_main (argv : list bytes) (cbs : list callback) : io Z :=
  lookup_server argv (fun a =>
    let? base := ask "event_base_new" [] [] in
    let? sock := new_dgram_socket in
    let? _ := tell (Call "evutil_make_socket_nonblocking" [sock] []) in
    let? ev_read := ask "event_new" [ret base; sock] (lit "on_read") in
    let? _ := tell (Call "event_add" [ret ev_read] []) in
    let? ev_signal := ask "evsignal_new" [ret base; Z.lor SIGINT SIGTERM] (lit "handle_signal") in
    let? _ := tell (Call "evsignal_add" [ret ev_signal] []) in
    let? _ := send_to_addr sock a in
    let? _ := udp_dispatch (fun _ => udp_on_read sock a) (fun _ => iret tt) cbs tt in
    let? _ := tell (Call "event_free" [ret ev_read] []) in
    let? _ := tell (Call "event_free" [ret ev_signal] []) in
    let? _ := tell (Call "event_base_free" [ret base] []) in
    iret 0).
Definition mmsg_client_main (argv : list bytes) (cbs : list callback) : io Z :=
  lookup_server argv (fun a =>
    let? base := ask "event_base_new" [] [] in
    let? sock := new_dgram_socket in
    let? _ := tell (Call "evutil_make_socket_nonblocking" [sock] []) in
    let? ev_read := ask "event_new" [ret base; sock] (lit "on_read") in
    let? _ := tell (Call "event_add" [ret ev_read] []) in
    let? ev_perf := ask "event_new" [ret base; -1] (lit "on_perf") in
    let? _ := tell (Call "event_add" [ret ev_perf; 1; 0] []) in
    let? ev_signal := ask "evsignal_new" [ret base; Z.lor SIGINT SIGTERM] (lit "handle_signal") in
    let? _ := tell (Call "evsignal_add" [ret ev_signal] []) in
    let? _ := send_to_addr sock a in
    let? _ := udp_dispatch (mmsg_on_read sock a) mmsg_on_perf cbs (mk_mstat 0 0) in
    let? _ := tell (Call "event_free" [ret ev_read] []) in
    let? _ := tell (Call "event_free" [ret ev_signal] []) in
    let? _ := tell (Call "event_free" [ret ev_perf] []) in
    let? _ := tell (Call "event_base_free" [ret base] []) in
    iret 0).

(** ** Specification *)

(** A time in nanoseconds; a normalised time in the range of [long]. *)
Definition ns (t : timespec) : Z := tv_sec t * BILLION + tv_nsec t.
Definition ts_norm (t : timespec) : Prop :=
  - 2 ^ 62 <= tv_sec t < 2 ^ 62 /\ 0 <= tv_nsec t < BILLION.
(** A time between 1970 and 2242: differences in nanoseconds fit a [long]. *)
Definition ts_clock (t : timespec) : Prop := 0 <= tv_sec t < 2 ^ 33 /\ 0 <= tv_nsec t < BILLION.

(** [d] nanoseconds as the client prints them: the whole seconds, rounded down,
    and nine digits. *)
Definition show_ns (d : Z) : bytes := dec_long (d / BILLION) ++ lit "." ++ dec_prec9 (d mod BILLION).

(** A round: the time the reply is read and the time of the next request. *)
Definition stamp (t : timespec) : answer := mk_answer 0 0 (ts_bytes t).
Fixpoint echo_answers (sent : timespec) (rounds : list (timespec * timespec)) : list answer :=
  match rounds with
  | [] => []
  | (e, t) :: rounds => mk_answer 16 0 (ts_bytes sent) :: stamp e :: stamp t :: echo_answers t rounds
  end.
Fixpoint echo_trace (sent : timespec) (rounds : list (timespec * timespec)) : list event :=
  match rounds with
  | [] => []
  | (e, t) :: rounds =>
      [Call "evbuffer_remove" [16] []; Call "clock_gettime" [0] []; Out (show_ns (ns e - ns sent));
       Call "clock_gettime" [0] []; Call "bufferevent_write" [16] (ts_bytes t)] ++ echo_trace t rounds
  end.
Definition round_clock (r : timespec * timespec) : Prop := ts_clock r.1 /\ ts_clock r.2.

(** ** Lemmas *)
Lemma clong_ok z : - LONG_MAX - 1 <= z <= LONG_MAX -> clong z = Ok z.
Proof. intros H. unfold clong. rewrite !(proj2 (Z.leb_le _ _)) by lia. done. Qed.

Ltac longs := repeat (rewrite clong_ok by (unfold LONG_MAX; lia); rewrite ?obind_ok).

Lemma clock_norm t : ts_clock t -> ts_norm t.
Proof. unfold ts_clock, ts_norm. lia. Qed.

(** The borrow: seconds and nanoseconds of a difference. *)
Definition diff_of (e s : timespec) : timespec :=
  mk_ts ((ns e - ns s) / BILLION) ((ns e - ns s) mod BILLION).
Lemma timespec_diff_ok e s :
  ts_norm e -> ts_norm s ->
  timespec_diff e s = Ok (diff_of e s, if tv_sec e <? tv_sec s then 1 else 0).
Proof.
  intros [He1 He2] [Hs1 Hs2]. unfold timespec_diff, diff_of, ns, BILLION in *.
  destruct e as [es en], s as [ss sn]. cbn [tv_sec tv_nsec] in *.
  destruct (en <? sn) eqn:E; zbool.
  - longs.
    do 3 f_equal; [apply (Z.div_unique _ _ _ (1000000000 + en - sn)) | apply (Z.mod_unique _ _ (es - ss - 1))]; lia.
  - longs. do 3 f_equal; [apply (Z.div_unique _ _ _ (en - sn)) | apply (Z.mod_unique _ _ (es - ss))]; lia.
Qed.

Lemma i64_small z : - 2 ^ 63 <= z < 2 ^ 63 -> i64 (z mod 256 ^ Z.of_nat 8) = z.
Proof.
  intros H. unfold i64, swrap. change (256 ^ Z.of_nat 8) with (2 ^ 64).
  rewrite Zplus_mod_idemp_l, Z.mod_small by lia. lia.
Qed.

Lemma length_stamp t : length (ts_bytes t) = 16%nat.
Proof. unfold ts_bytes. by rewrite length_app, !length_le_bytes. Qed.
Lemma ts_at_bytes t : ts_norm t -> ts_at (ts_bytes t) 0 = Ok t.
Proof.
  intros [H1 H2]. unfold ts_at, ts_bytes, get64, get_le, BILLION in *.
  pose proof (length_le_bytes 8 (tv_sec t)) as L1. pose proof (length_le_bytes 8 (tv_nsec t)) as L2.
  rewrite load_ok by (rewrite ?length_app; lia). rewrite obind_ok.
  rewrite load_ok by (rewrite ?length_app; lia). rewrite !obind_ok.
  unfold slice. change (Z.to_nat (0 + 8)) with 8%nat. change (drop (Z.to_nat 0) ?l) with l.
  rewrite take_app_length' by lia. rewrite drop_app_length' by lia. rewrite (take_ge (le_bytes 8 (tv_nsec t))) by lia.
  rewrite !le_val_bytes, !i64_small by lia. by destruct t.
Qed.

Lemma clock_stamp t ans : ts_norm t -> clock (stamp t :: ans) = ([Call "clock_gettime" [0] []], Ok (t, ans)).
Proof. intros H. unfold clock, ibind, ask, stamp, lift. cbn [filled]. by rewrite ts_at_bytes, obind_ok. Qed.

Lemma send_request_stamp t ans :
  ts_norm t ->
  send_request (stamp t :: ans) =
    ([Call "clock_gettime" [0] []; Call "bufferevent_write" [16] (ts_bytes t)], Ok (tt, ans)).
Proof. intros H. unfold send_request. by rewrite (ibind_ok _ _ _ _ _ _ (clock_stamp t ans H)). Qed.

Lemma readcb_echo sent e t ans :
  ts_clock sent -> ts_clock e -> ts_clock t ->
  readcb (mk_answer 16 0 (ts_bytes sent) :: stamp e :: stamp t :: ans) =
    (echo_trace sent [(e, t)], Ok (tt, ans)).
Proof.
  intros Hs%clock_norm He%clock_norm Ht%clock_norm. unfold readcb.
  erewrite ibind_ok by reflexivity. cbn [ret filled Z.ltb Z.compare].
  erewrite ibind_ok by apply (clock_stamp e _ He).
  erewrite ibind_lift by apply (ts_at_bytes _ Hs). erewrite ibind_lift by apply (timespec_diff_ok _ _ He Hs).
  cbv beta iota. erewrite ibind_ok by reflexivity. rewrite (send_request_stamp t ans Ht). done.
Qed.

Lemma dispatch_echo rounds sent ans :
  ts_clock sent -> Forall round_clock rounds ->
  dispatch readcb (replicate (length rounds) CbRead ++ [CbSignal]) false (echo_answers sent rounds ++ ans) =
    (echo_trace sent rounds ++ [Call "event_base_loopbreak" [] []], Ok (tt, ans)).
Proof.
  revert sent. induction rounds as [ | [e t] rounds IH]; intros sent Hs Hr; [done | ].
  apply Forall_cons in Hr as [[He Ht] Hr]. cbn [fst snd] in *.
  cbn [length replicate app dispatch echo_answers].
  erewrite ibind_ok by apply (readcb_echo _ _ _ _ Hs He Ht). by rewrite IH.
Qed.

(** A round of the [msg_hdr] client with an echoed stamp. *)
Definition round_stat (sent e : timespec) (s : mstat) : mstat :=
  if tv_sec e <? tv_sec sent then s
  else mk_mstat (u64 (nb_packets s + 1)) (u64 (latency s + (ns e - ns sent))).

(** [send_to_addr], whatever the result of [sendto]. *)
Lemma send_to_addr_sent fd addr t a ans :
  ts_norm t ->
  send_to_addr fd addr (stamp t :: a :: ans) =
    ([Call "clock_gettime" [0] []; Call "sendto" (fd :: 16 :: addr) (ts_bytes t)] ++
     (if ret a <? 0 then [Err (lit "sendto")] else []), Ok (tt, ans)).
Proof.
  intros H. unfold send_to_addr. rewrite (ibind_ok _ _ _ _ _ _ (clock_stamp t _ H)).
  unfold ibind, ask. by destruct (ret a <? 0).
Qed.
Lemma send_to_addr_ok fd addr t n ans :
  ts_norm t -> 0 <= n ->
  send_to_addr fd addr (stamp t :: ok n :: ans) =
    ([Call "clock_gettime" [0] []; Call "sendto" (fd :: 16 :: addr) (ts_bytes t)], Ok (tt, ans)).
Proof. intros H Hn. rewrite send_to_addr_sent by done. cbn [ok ret]. by rewrite (proj2 (Z.ltb_ge n 0)). Qed.

Lemma account_ok sent e s ans :
  ts_clock sent -> ts_clock e ->
  (let? a := lift (clong (tv_sec (diff_of e sent) * BILLION)) in
   let? d := lift (clong (a + tv_nsec (diff_of e sent))) in
   iret (mk_mstat (u64 (nb_packets s + 1)) (u64 (latency s + u64 d)))) ans =
  ([], Ok (mk_mstat (u64 (nb_packets s + 1)) (u64 (latency s + (ns e - ns sent))), ans)).
Proof.
  intros Hs He. unfold ts_clock in *.
  assert (tv_sec (diff_of e sent) * BILLION + tv_nsec (diff_of e sent) = ns e - ns sent) as E.
  { unfold diff_of. cbn [tv_sec tv_nsec]. rewrite Z.mul_comm. symmetry. apply Z.div_mod. done. }
  assert (0 <= tv_nsec (diff_of e sent) < BILLION) by (apply Z.mod_pos_bound; done).
  assert (- LONG_MAX <= ns e - ns sent - BILLION /\ ns e - ns sent <= LONG_MAX)
    by (unfold ns, BILLION, LONG_MAX in *; lia).
  rewrite (ibind_lift _ _ _ _ (clong_ok (tv_sec (diff_of e sent) * BILLION) ltac:(lia))), E.
  rewrite (ibind_lift _ _ _ _ (clong_ok (ns e - ns sent) ltac:(unfold BILLION in *; lia))).
  unfold iret, u64, uwrap. by rewrite Zplus_mod_idemp_r.
Qed.

Lemma mmsg_round_sent fd addr sent e t a s ans :
  ts_clock sent -> ts_clock e -> ts_clock t ->
  mmsg_on_read fd addr s (mk_answer 16 0 (ts_bytes sent) :: stamp e :: stamp t :: a :: ans) =
    ([Call "recvfrom" [fd; 16] []; Call "clock_gettime" [0] []] ++
     [Call "clock_gettime" [0] []; Call "sendto" (fd :: 16 :: addr) (ts_bytes t)] ++
     (if ret a <? 0 then [Err (lit "sendto")] else []), Ok (round_stat sent e s, ans)).
Proof.
  intros Hs He Ht. pose proof (clock_norm _ Hs) as Ns. pose proof (clock_norm _ He) as Ne.
  pose proof (send_to_addr_sent fd addr t a ans (clock_norm _ Ht)) as Es.
  unfold mmsg_on_read.
  erewrite ibind_ok by reflexivity. cbn [ret filled Z.ltb Z.compare snd].
  erewrite ibind_ok by reflexivity. erewrite ibind_ok by apply (clock_stamp e _ Ne).
  erewrite ibind_lift by apply (ts_at_bytes _ Ns). erewrite ibind_lift by apply (timespec_diff_ok _ _ Ne Ns).
  cbv beta iota. unfold round_stat.
  destruct (tv_sec e <? tv_sec sent); cbn [Z.ltb Z.compare Pos.compare Pos.compare_cont].
  - erewrite ibind_ok by reflexivity. erewrite ibind_ok by apply Es. by rewrite app_nil_r.
  - erewrite ibind_ok by apply (account_ok sent e s _ Hs He). erewrite ibind_ok by apply Es. by rewrite app_nil_r.
Qed.
Lemma mmsg_round fd addr sent e t s ans :
  ts_clock sent -> ts_clock e -> ts_clock t ->
  snd (mmsg_on_read fd addr s (mk_answer 16 0 (ts_bytes sent) :: stamp e :: stamp t :: ok 16 :: ans)) =
    Ok (round_stat sent e s, ans).
Proof. intros Hs He Ht. by rewrite mmsg_round_sent. Qed.
(** The same for the [udp] client, which prints the time. *)
Definition udp_report (sent e : timespec) : list event :=
  if tv_sec e <? tv_sec sent then []
  else [Out (dec_long ((ns e - ns sent) / BILLION) ++ lit "." ++ dec_pad9 ((ns e - ns sent) mod BILLION))].
Lemma udp_round_sent fd addr sent e t a ans :
  ts_clock sent -> ts_clock e -> ts_clock t ->
  udp_on_read fd addr (mk_answer 16 0 (ts_bytes sent) :: stamp e :: stamp t :: a :: ans) =
    ([Call "recvfrom" [fd; 16] []; Call "clock_gettime" [0] []] ++ udp_report sent e ++
     [Call "clock_gettime" [0] []; Call "sendto" (fd :: 16 :: addr) (ts_bytes t)] ++
     (if ret a <? 0 then [Err (lit "sendto")] else []), Ok (tt, ans)).
Proof.
  intros Hs He Ht. pose proof (clock_norm _ Hs) as Ns. pose proof (clock_norm _ He) as Ne.
  pose proof (send_to_addr_sent fd addr t a ans (clock_norm _ Ht)) as Es.
  unfold udp_on_read.
  erewrite ibind_ok by reflexivity. cbn [ret filled Z.ltb Z.compare snd].
  erewrite ibind_ok by reflexivity. erewrite ibind_ok by apply (clock_stamp e _ Ne).
  erewrite ibind_lift by apply (ts_at_bytes _ Ns). erewrite ibind_lift by apply (timespec_diff_ok _ _ Ne Ns).
  cbv beta iota. unfold udp_report, diff_of. cbn [tv_sec tv_nsec].
  destruct (tv_sec e <? tv_sec sent); cbn [Z.ltb Z.compare Pos.compare Pos.compare_cont];
    (erewrite ibind_ok by reflexivity); by rewrite Es.
Qed.

(** The exchanges of a session: the stamp in a reply and the time it is read. *)
Fixpoint exchanges (sent : timespec) (rounds : list (timespec * timespec)) : list (timespec * timespec) :=
  match rounds with
  | [] => []
  | (e, t) :: rounds => (sent, e) :: exchanges t rounds
  end.
Fixpoint mmsg_answers (sent : timespec) (rounds : list (timespec * timespec)) : list answer :=
  match rounds with
  | [] => []
  | (e, t) :: rounds => mk_answer 16 0 (ts_bytes sent) :: stamp e :: stamp t :: ok 16 :: mmsg_answers t rounds
  end.
(** Those whose clock does not go back by a second or more. *)
Definition counted (xs : list (timespec * timespec)) : list (timespec * timespec) :=
  filter (fun x => tv_sec x.1 <= tv_sec x.2) xs.
Definition total_ns (xs : list (timespec * timespec)) : Z := foldr (fun x n => ns x.2 - ns x.1 + n) 0 xs.
Definition stat_ok (s : mstat) : Prop := 0 <= nb_packets s < 2 ^ 64 /\ 0 <= latency s < 2 ^ 64.

Lemma u64_add_assoc a b c : u64 (u64 (a + b) + c) = u64 (a + (b + c)).
Proof. unfold u64, uwrap. rewrite Zplus_mod_idemp_l. f_equal. lia. Qed.
Lemma u64_bound z : 0 <= u64 z < 2 ^ 64.
Proof. apply Z.mod_pos_bound. lia. Qed.

Lemma mmsg_rounds fd addr rounds : forall sent s ans,
  ts_clock sent -> Forall round_clock rounds -> stat_ok s ->
  exists s', snd (udp_dispatch (mmsg_on_read fd addr) mmsg_on_perf (replicate (length rounds) CbRead ++ [CbSignal]) s
                   (mmsg_answers sent rounds ++ ans)) = Ok (s', ans) /\
    nb_packets s' = u64 (nb_packets s + len (counted (exchanges sent rounds))) /\
    latency s' = u64 (latency s + total_ns (counted (exchanges sent rounds))).
Proof.
  induction rounds as [ | [e t] rounds IH]; intros sent s ans Hs Hr Hok.
  - exists s. destruct Hok. cbn. rewrite !Z.add_0_r. unfold u64, uwrap. by rewrite !Z.mod_small by done.
  - apply Forall_cons in Hr as [[He Ht] Hr]. cbn [fst snd] in *.
    cbn [length replicate app udp_dispatch mmsg_answers exchanges].
    pose proof (mmsg_round fd addr sent e t s (mmsg_answers t rounds ++ ans) Hs He Ht) as Er.
    destruct (mmsg_on_read _ _ _ _) as [tr o] eqn:Em. cbn [snd] in Er. subst o.
    erewrite ibind_ok by apply Em. cbn [snd].
    assert (stat_ok (round_stat sent e s)) as Hok'.
    { unfold round_stat, stat_ok. case_if; [done | ]. split; apply u64_bound. }
    destruct (IH t (round_stat sent e s) ans Ht Hr Hok') as (s' & E & H1 & H2).
    exists s'. split; [done | ]. rewrite H1, H2. unfold round_stat, counted. rewrite filter_cons.
    cbn [fst snd]. destruct (tv_sec e <? tv_sec sent) eqn:Elt; zbool; [by rewrite decide_False by lia | ].
    rewrite decide_True by lia. cbn [nb_packets latency length total_ns foldr fst snd]. rewrite !u64_add_assoc. split; f_equal; lia.
Qed.

(** ** Properties *)

(** [timespec_diff] on normalised times never overflows and gives the exact
    difference, normalised.  Its result is 1 when the second of [end] is earlier;
    contrary to its comment a negative difference inside one second gives 0. *)
Theorem timespec_diff_spec e s :
  ts_norm e -> ts_norm s ->
  exists r f, timespec_diff e s = Ok (r, f) /\ ns r = ns e - ns s /\ 0 <= tv_nsec r < BILLION /\
    (f = 1 <-> tv_sec e < tv_sec s) /\
    (f = 0 /\ ns r < 0 <-> tv_sec e = tv_sec s /\ tv_nsec e < tv_nsec s).
Proof.
  intros He Hs. eexists _, _. split; [by apply timespec_diff_ok | ].
  assert (ns (diff_of e s) = ns e - ns s) as En.
  { unfold diff_of, ns at 1. cbn [tv_sec tv_nsec]. rewrite Z.mul_comm. symmetry. apply Z.div_mod. done. }
  rewrite En. split; [done | ]. split; [apply Z.mod_pos_bound; done | ].
  destruct He as [_ He], Hs as [_ Hs]. unfold ns, BILLION in *.
  destruct (tv_sec e <? tv_sec s) eqn:E; zbool; split; split; intros; lia.
Qed.

(** A session of the TCP client against an echo: it writes one time stamp,
    then for each reply prints the exact time since the stamp it carries and
    writes the next one, until a signal breaks the loop; the handler is
    registered for signal 15 only ([SIGINT|SIGTERM]). *)
Theorem tcp_client_latencies name host p t0 rounds base dns ev bev :
  0 <= p <= INT_MAX -> ts_clock t0 -> Forall round_clock rounds ->
  tcp_client_main [name; host; dec p] (replicate (length rounds) CbRead ++ [CbSignal])
      (ok base :: ok dns :: ok ev :: ok bev :: stamp t0 :: echo_answers t0 rounds) =
    ([Call "event_base_new" [] []; Call "evdns_base_new" [base; 1] [];
      Call "evsignal_new" [base; 15] (lit "handle_signal"); Call "evsignal_add" [ev] [];
      Call "bufferevent_socket_new" [base; -1] []; Call "bufferevent_setcb" [bev] []; Call "bufferevent_enable" [bev] [];
      Call "clock_gettime" [0] []; Call "bufferevent_write" [16] (ts_bytes t0);
      Call "bufferevent_socket_connect_hostname" [bev; dns; 2; p] host] ++
     echo_trace t0 rounds ++
     [Call "event_base_loopbreak" [] []; Call "event_free" [ev] []; Call "evdns_base_free" [dns; 1] [];
      Call "event_base_free" [base] []], Ok (0, [])).
Proof.
  intros Hp H0 Hr. unfold tcp_client_main, bev_main.
  pose proof (dispatch_echo rounds t0 [] H0 Hr) as Ed. rewrite app_nil_r in Ed.
  do 3 (erewrite ibind_ok by reflexivity; cbv beta; cbn [ret ok]). erewrite ibind_ok by reflexivity.
  erewrite ibind_ok by reflexivity. cbn [ret]. do 2 (erewrite ibind_ok by reflexivity).
  erewrite ibind_ok by apply (send_request_stamp t0 _ (clock_norm _ H0)).
  erewrite ibind_lift by (apply atoi_dec; unfold INT_MIN, INT_MAX in *; lia).
  erewrite ibind_ok by reflexivity. erewrite ibind_ok by apply Ed.
  do 3 (erewrite ibind_ok by reflexivity). cbn [iret fst snd]. f_equal.
  rewrite <- !app_assoc. done.
Qed.

(** The statistics of the [msg_hdr] client against an echo: after any number
    of replies it has counted the exchanges whose clock did not go back by a
    second or more, and summed their latencies in nanoseconds, modulo 2^64. *)
Theorem mmsg_client_stats fd addr t0 rounds :
  ts_clock t0 -> Forall round_clock rounds ->
  let xs := counted (exchanges t0 rounds) in
  snd (udp_dispatch (mmsg_on_read fd addr) mmsg_on_perf (replicate (length rounds) CbRead ++ [CbSignal])
         (mk_mstat 0 0) (mmsg_answers t0 rounds)) =
    Ok (mk_mstat (u64 (len xs)) (u64 (total_ns xs)), []).
Proof.
  intros H0 Hr xs. destruct (mmsg_rounds fd addr rounds t0 (mk_mstat 0 0) [] H0 Hr) as (s' & E & H1 & H2).
  { split; cbn; lia. }
  rewrite app_nil_r in E. rewrite E. destruct s' as [n l]. cbn [nb_packets latency] in *. by subst.
Qed.

(** A failed receive: the UDP client reports it and then goes on to compute a
    latency from a stamp that was never written. *)
Theorem udp_on_read_uninitialised fd addr e err ans :
  ts_norm e ->
  udp_on_read fd addr (fails err :: stamp e :: ans) =
    ([Call "recvfrom" [fd; 16] []; Err (lit "recvfrom"); Call "clock_gettime" [0] []], Ub).
Proof.
  intros He. unfold udp_on_read. erewrite ibind_ok by reflexivity. cbn [ret fails Z.ltb Z.compare].
  erewrite ibind_ok by reflexivity. erewrite ibind_ok by apply (clock_stamp e _ He). done.
Qed.

(** ** Witnesses *)
Lemma timespec_diff_spec_witness :
  exists r, timespec_diff (mk_ts 5 100) (mk_ts 5 200) = Ok (r, 0) /\ ns r = -100.
Proof.
  destruct (timespec_diff_spec (mk_ts 5 100) (mk_ts 5 200)) as (r & f & E & Hn & _ & _ & Hneg);
    [repeat split; cbn; lia | repeat split; cbn; lia | ].
  exists r. destruct (proj2 Hneg) as [Hf _]; [split; cbn; lia | ]. rewrite E, Hf, Hn. split; reflexivity.
Defined.

Lemma tcp_client_latencies_witness :
  exists tr, snd (tcp_client_main [lit "client"; lit "host"; dec 9876] [CbRead; CbSignal] tr) = Ok (0, []) /\
    In (Out (lit "1.000000005")) (fst (tcp_client_main [lit "client"; lit "host"; dec 9876] [CbRead; CbSignal] tr)).
Proof.
  pose proof (tcp_client_latencies (lit "client") (lit "host") 9876 (mk_ts 7 2) [(mk_ts 8 7, mk_ts 8 9)] 1 2 3 4
    ltac:(unfold INT_MAX; lia) ltac:(repeat split; cbn; lia)
    ltac:(repeat constructor; cbn; lia)) as E.
  cbn [length replicate app] in E. eexists. rewrite E. split; [reflexivity | ].
  vm_compute. do 12 right. left. reflexivity.
Defined.

Lemma mmsg_client_stats_witness :
  snd (udp_dispatch (mmsg_on_read 3 []) mmsg_on_perf [CbRead; CbRead; CbSignal] (mk_mstat 0 0)
         (mmsg_answers (mk_ts 7 2) [(mk_ts 8 7, mk_ts 8 9); (mk_ts 6 0, mk_ts 6 1)])) =
    Ok (mk_mstat 1 1000000005, []).
Proof.
  apply (mmsg_client_stats 3 [] (mk_ts 7 2) [(mk_ts 8 7, mk_ts 8 9); (mk_ts 6 0, mk_ts 6 1)]);
    repeat constructor; cbn; lia.
Defined.

Lemma udp_on_read_uninitialised_witness :
  snd (udp_on_read 3 [] [fails 11; stamp (mk_ts 1 1)]) = Ub.
Proof.
  pose proof (udp_on_read_uninitialised 3 [] (mk_ts 1 1) 11 [] ltac:(repeat split; cbn; lia)) as E.
  rewrite E. reflexivity.
Defined.
End Clients.
