(* ===== verification/UtHashFn.v ===== *)
(** * The hash functions of [client_server/uthash/src/uthash.h]

    Jenkins' function, which the table uses, and the alternatives a program can
    select.  Keys are byte buffers; every byte is read with a bounds check.
    [unsigned] arithmetic wraps at 32 bits.  The table takes the bucket as the
    low bits of the hash value ([HASH_TO_BKT]). *)
From S2P Require Import Prelude CLib Bytes.

Module UtHashFn.

(** Shifts and sums of [unsigned] values. *)
Definition shl (x n : Z) : Z := u32 (Z.shiftl x n).
Definition shr (x n : Z) : Z := Z.shiftr x n.
Definition add (x y : Z) : Z := u32 (x + y).
Definition sub (x y : Z) : Z := u32 (x - y).
Definition mul (x y : Z) : Z := u32 (x * y).

(** The macro HASH_TO_BKT: [bkt = hashv & (num_bkts - 1U)]. *)
Definition HASH_TO_BKT (hashv num_bkts : Z) : Z := Z.land hashv (u32 (num_bkts - 1)).

(** A pass over the bytes of the key. *)
Fixpoint key_loop (step : Z -> Z -> Z) (key : bytes) (fuel : nat) (i keylen hashv : Z) : outcome Z :=
  if i <? keylen then
    match fuel with
    | O => NoFuel
    | S fuel => let! k := rd key i in key_loop step key fuel (i + 1) keylen (step hashv k)
    end
  else Ok hashv.

(** ** Bernstein, SAX, FNV-1a, one at a time *)
Definition HASH_BER (key : bytes) (keylen : Z) : outcome Z :=
  key_loop (fun h k => add (add (shl h 5) h) k) key (Z.to_nat keylen) 0 keylen 0.

Definition HASH_SAX (key : bytes) (keylen : Z) : outcome Z :=
  key_loop (fun h k => Z.lxor h (add (add (shl h 5) (shr h 2)) k)) key (Z.to_nat keylen) 0 keylen 0.

Definition HASH_FNV (key : bytes) (keylen : Z) : outcome Z :=
  key_loop (fun h k => mul (Z.lxor h k) 16777619) key (Z.to_nat keylen) 0 keylen 2166136261.

Definition oat_step (h k : Z) : Z :=
  let h := add h k in
  let h := add h (shl h 10) in
  Z.lxor h (shr h 6).
Definition HASH_OAT (key : bytes) (keylen : Z) : outcome Z :=
  let! h := key_loop oat_step key (Z.to_nat keylen) 0 keylen 0 in
  let h := add h (shl h 3) in
  let h := Z.lxor h (shr h 11) in
  Ok (add h (shl h 15)).

(** ** Jenkins *)
Definition HASH_JEN_MIX (a b c : Z) : Z * Z * Z :=
  let a := sub a b in let a := sub a c in let a := Z.lxor a (shr c 13) in
  let b := sub b c in let b := sub b a in let b := Z.lxor b (shl a 8) in
  let c := sub c a in let c := sub c b in let c := Z.lxor c (shr b 13) in
  let a := sub a b in let a := sub a c in let a := Z.lxor a (shr c 12) in
  let b := sub b c in let b := sub b a in let b := Z.lxor b (shl a 16) in
  let c := sub c a in let c := sub c b in let c := Z.lxor c (shr b 5) in
  let a := sub a b in let a := sub a c in let a := Z.lxor a (shr c 3) in
  let b := sub b c in let b := sub b a in let b := Z.lxor b (shl a 10) in
  let c := sub c a in let c := sub c b in let c := Z.lxor c (shr b 15) in
  (a, b, c).

(** Four bytes as the macro adds them up. *)
Definition jen_word (key : bytes) (o : Z) : outcome Z :=
  let! k0 := rd key o in
  let! k1 := rd key (o + 1) in
  let! k2 := rd key (o + 2) in
  let! k3 := rd key (o + 3) in
  Ok (add (add (add k0 (shl k1 8)) (shl k2 16)) (shl k3 24)).

(** [while (_hj_k >= 12U)]; the position of [_hj_key] in the key is [o]. *)
Fixpoint jen_loop (key : bytes) (fuel : nat) (o i j hashv k : Z) : outcome (Z * Z * Z * Z * Z) :=
  if k >=? 12 then
    match fuel with
    | O => NoFuel
    | S fuel =>
        let! w0 := jen_word key o in
        let! w1 := jen_word key (o + 4) in
        let! w2 := jen_word key (o + 8) in
        let '(i, j, hashv) := HASH_JEN_MIX (add i w0) (add j w1) (add hashv w2) in
        jen_loop key fuel (o + 12) i j hashv (k - 12)
    end
  else Ok (o, i, j, hashv, k).

(** A case of the final [switch]: executed for [k >= n], as the cases fall
    through. *)
Definition jen_case (key : bytes) (k n o s x : Z) : outcome Z :=
  if k >=? n then let! b := rd key (o + n - 1) in Ok (add x (shl b s)) else Ok x.

Definition HASH_JEN (key : bytes) (keylen : Z) : outcome Z :=
  let! '(o, i, j, hashv, k) :=
    jen_loop key (Z.to_nat keylen) 0 2654435769 2654435769 4276993775 (u32 keylen) in
  let hashv := add hashv (u32 keylen) in
  let! hashv := jen_case key k 11 o 24 hashv in
  let! hashv := jen_case key k 10 o 16 hashv in
  let! hashv := jen_case key k 9 o 8 hashv in
  let! j := jen_case key k 8 o 24 j in
  let! j := jen_case key k 7 o 16 j in
  let! j := jen_case key k 6 o 8 j in
  let! j := jen_case key k 5 o 0 j in
  let! i := jen_case key k 4 o 24 i in
  let! i := jen_case key k 3 o 16 i in
  let! i := jen_case key k 2 o 8 i in
  let! i := jen_case key k 1 o 0 i in
  let '(_, _, hashv) := HASH_JEN_MIX i j hashv in
  Ok hashv.

(** ** Paul Hsieh *)
Definition get16bits (key : bytes) (o : Z) : outcome Z :=
  let! b1 := rd key (o + 1) in
  let! b0 := rd key o in
  Ok (add (shl b1 8) b0).

Fixpoint sfh_loop (key : bytes) (n : nat) (o hashv : Z) : outcome (Z * Z) :=
  match n with
  | O => Ok (o, hashv)
  | S n =>
      let! a := get16bits key o in
      let hashv := add hashv a in
      let! b := get16bits key (o + 2) in
      let tmp := Z.lxor (shl b 11) hashv in
      let hashv := Z.lxor (shl hashv 16) tmp in
      let hashv := add hashv (shr hashv 11) in
      sfh_loop key n (o + 4) hashv
  end.

Definition sfh_rest (key : bytes) (rem o hashv : Z) : outcome Z :=
  if rem =? 3 then
    let! a := get16bits key o in
    let h := add hashv a in
    let h := Z.lxor h (shl h 16) in
    let! b := rd key (o + 2) in
    let h := Z.lxor h (shl b 18) in
    Ok (add h (shr h 11))
  else if rem =? 2 then
    let! a := get16bits key o in
    let h := add hashv a in
    let h := Z.lxor h (shl h 11) in
    Ok (add h (shr h 17))
  else if rem =? 1 then
    let! b := rd key o in
    let h := add hashv b in
    let h := Z.lxor h (shl h 10) in
    Ok (add h (shr h 1))
  else Ok hashv.

Definition HASH_SFH (key : bytes) (keylen : Z) : outcome Z :=
  let sfh_len := u32 keylen in
  let rem := Z.land sfh_len 3 in
  let! '(o, h) := sfh_loop key (Z.to_nat (shr sfh_len 2)) 0 3405691582 in
  let! h := sfh_rest key rem o h in
  let h := Z.lxor h (shl h 3) in
  let h := add h (shr h 5) in
  let h := Z.lxor h (shl h 4) in
  let h := add h (shr h 17) in
  let h := Z.lxor h (shl h 25) in
  Ok (add h (shr h 6)).

(** ** MurmurHash3 *)
Definition MUR_ROTL32 (x r : Z) : Z := Z.lor (shl x r) (shr x (32 - r)).
Definition MUR_FMIX (h : Z) : Z :=
  let h := Z.lxor h (shr h 16) in
  let h := mul h 2246822507 in
  let h := Z.lxor h (shr h 13) in
  let h := mul h 3266489909 in
  Z.lxor h (shr h 16).

Definition mur_c1 : Z := 3432918353.
Definition mur_c2 : Z := 461845907.

(** [for (_mur_i = -_mur_nblocks; _mur_i != 0; _mur_i++)]: block [i] before the
    end of the blocks. *)
Fixpoint mur_loop (key : bytes) (n : nat) (o h1 : Z) : outcome Z :=
  match n with
  | O => Ok h1
  | S n =>
      let! k1 := get32 key o in
      let k1 := mul k1 mur_c1 in
      let k1 := MUR_ROTL32 k1 15 in
      let k1 := mul k1 mur_c2 in
      let h1 := Z.lxor h1 k1 in
      let h1 := MUR_ROTL32 h1 13 in
      mur_loop key n (o + 4) (add (mul h1 5) 3864292196)
  end.

Definition mur_case (key : bytes) (rem n o s k1 : Z) : outcome Z :=
  if rem >=? n then let! b := rd key (o + n - 1) in Ok (Z.lxor k1 (shl b s)) else Ok k1.

Definition HASH_MUR (key : bytes) (keylen : Z) : outcome Z :=
  let nblocks := Z.quot (i32 keylen) 4 in
  let! h1 := mur_loop key (Z.to_nat nblocks) 0 4170011475 in
  let tail := nblocks * 4 in
  let rem := Z.land keylen 3 in
  let! k1 := mur_case key rem 3 tail 16 0 in
  let! k1 := mur_case key rem 2 tail 8 k1 in
  let! k1 := mur_case key rem 1 tail 0 k1 in
  let h1 :=
    if rem >=? 1 then
      let k1 := mul k1 mur_c1 in
      let k1 := MUR_ROTL32 k1 15 in
      let k1 := mul k1 mur_c2 in
      Z.lxor h1 k1
    else h1 in
  Ok (MUR_FMIX (Z.lxor h1 (u32 keylen))).

(** The inverse of a mixing round. *)
Definition jen_unmix (a b c : Z) : Z * Z * Z :=
  let c := Z.lxor c (shr b 15) in let c := add c b in let c := add c a in
  let b := Z.lxor b (shl a 10) in let b := add b a in let b := add b c in
  let a := Z.lxor a (shr c 3) in let a := add a c in let a := add a b in
  let c := Z.lxor c (shr b 5) in let c := add c b in let c := add c a in
  let b := Z.lxor b (shl a 16) in let b := add b a in let b := add b c in
  let a := Z.lxor a (shr c 12) in let a := add a c in let a := add a b in
  let c := Z.lxor c (shr b 13) in let c := add c b in let c := add c a in
  let b := Z.lxor b (shl a 8) in let b := add b a in let b := add b c in
  let a := Z.lxor a (shr c 13) in let a := add a c in let a := add a b in
  (a, b, c).

(** The seven functions, and the range of [unsigned]. *)
Definition hash_functions : list (bytes -> Z -> outcome Z) :=
  [HASH_JEN; HASH_BER; HASH_SAX; HASH_FNV; HASH_OAT; HASH_SFH; HASH_MUR].
Definition w32 (x : Z) : Prop := 0 <= x < 2 ^ 32.

(** ** Lemmas *)
Lemma w32_u32 x : w32 (u32 x).
Proof. apply Z.mod_pos_bound. lia. Qed.
Lemma w32_add x y : w32 (add x y).
Proof. apply w32_u32. Qed.
Lemma w32_sub x y : w32 (sub x y).
Proof. apply w32_u32. Qed.
Lemma w32_mul x y : w32 (mul x y).
Proof. apply w32_u32. Qed.
Lemma w32_shl x n : w32 (shl x n).
Proof. apply w32_u32. Qed.
Lemma w32_bits x : 0 <= x -> (forall n, 32 <= n -> Z.testbit x n = false) -> w32 x.
Proof.
  intros H0 Hb. split; [done | ]. destruct (Z.lt_ge_cases x (2 ^ 32)) as [ | H]; [done | ].
  assert (0 < x) as Hx by lia. pose proof (Z.bit_log2 x Hx) as Hl. rewrite Hb in Hl; [done | ].
  apply Z.log2_le_pow2; lia.
Qed.
Lemma w32_testbit x n : w32 x -> 32 <= n -> Z.testbit x n = false.
Proof.
  intros Hx Hn. destruct (Z.eq_dec x 0) as [-> | Hne]; [apply Z.bits_0 | ].
  apply Z.bits_above_log2; unfold w32 in Hx; [lia | ].
  apply Z.log2_lt_pow2; [lia | ]. apply Z.lt_le_trans with (2 ^ 32); [lia | apply Z.pow_le_mono_r; lia].
Qed.
Lemma w32_lxor x y : w32 x -> w32 y -> w32 (Z.lxor x y).
Proof.
  intros Hx Hy. apply w32_bits; [apply Z.lxor_nonneg; unfold w32 in *; lia | ].
  intros n Hn. by rewrite Z.lxor_spec, !w32_testbit.
Qed.
Lemma w32_lor x y : w32 x -> w32 y -> w32 (Z.lor x y).
Proof.
  intros Hx Hy. apply w32_bits; [apply Z.lor_nonneg; unfold w32 in *; lia | ].
  intros n Hn. by rewrite Z.lor_spec, !w32_testbit.
Qed.
Lemma w32_shr x n : 0 <= n -> w32 x -> w32 (shr x n).
Proof.
  intros Hn Hx. unfold shr, w32 in *. rewrite Z.shiftr_div_pow2 by lia.
  assert (0 < 2 ^ n) by (apply Z.pow_pos_nonneg; lia).
  split; [apply Z.div_pos; lia | ]. apply Z.div_lt_upper_bound; [lia | ]. nia.
Qed.
Lemma w32_byte x : is_byte x -> w32 x.
Proof. unfold is_byte, w32. lia. Qed.
#[export] Hint Resolve w32_u32 w32_add w32_sub w32_mul w32_shl w32_lxor w32_lor w32_byte : cdb.
#[export] Hint Extern 4 (w32 (shr _ _)) => apply w32_shr; [lia | ] : cdb.
#[export] Hint Extern 4 (w32 _) => solve [unfold w32; lia] : cdb.

(** The low bits of a hash value. *)
Lemma to_bkt_mod h k : 0 <= k <= 31 -> HASH_TO_BKT h (2 ^ k) = h mod 2 ^ k.
Proof.
  intros Hk. unfold HASH_TO_BKT, u32, uwrap.
  assert (0 < 2 ^ k <= 2 ^ 31) by (split; [apply Z.pow_pos_nonneg | apply Z.pow_le_mono_r]; lia).
  rewrite Z.mod_small by lia. replace (2 ^ k - 1) with (Z.ones k) by (rewrite Z.ones_equiv; lia).
  apply Z.land_ones. lia.
Qed.
Lemma to_bkt_bound h k : 0 <= k <= 31 -> 0 <= HASH_TO_BKT h (2 ^ k) < 2 ^ k.
Proof. intros Hk. rewrite to_bkt_mod by done. apply Z.mod_pos_bound. apply Z.pow_pos_nonneg; lia. Qed.

(** A pass over the key reads exactly its bytes. *)
Lemma key_loop_ok step key fuel : forall i h,
  0 <= i <= len key -> len key - i <= Z.of_nat fuel ->
  key_loop step key fuel i (len key) h = Ok (foldl step h (drop (Z.to_nat i) key)).
Proof.
  induction fuel as [ | fuel IH]; intros i h Hi Hf; cbn [key_loop].
  - rewrite (proj2 (Z.ltb_ge _ _)), drop_ge by lia. done.
  - destruct (i <? len key) eqn:E; zbool; [ | by rewrite drop_ge by lia].
    destruct (lookup_lt_is_Some_2 key (Z.to_nat i)) as [k Hk]; [lia | ].
    rewrite (rd_ok _ _ k), obind_ok, IH by (done || lia).
    rewrite (drop_S key k (Z.to_nat i)) by done. cbn [foldl].
    by replace (Z.to_nat (i + 1)) with (S (Z.to_nat i)) by lia.
Qed.
Lemma key_pass step key h : key_loop step key (Z.to_nat (len key)) 0 (len key) h = Ok (foldl step h key).
Proof. rewrite key_loop_ok by lia. done. Qed.

Lemma foldl_w32 step key h :
  w32 h -> Forall is_byte key -> (forall h k, w32 h -> is_byte k -> w32 (step h k)) -> w32 (foldl step h key).
Proof.
  intros Hh Hk Hs. revert h Hh. induction Hk as [ | k key Hk _ IH]; intros h Hh; cbn; [done | ]. apply IH. auto.
Qed.

Lemma rd_in (key : bytes) i : 0 <= i < len key -> exists b, rd key i = Ok b.
Proof.
  intros Hi. destruct (lookup_lt_is_Some_2 key (Z.to_nat i)) as [b Hb]; [lia | ].
  exists b. apply rd_ok; [lia | done].
Qed.
(** Read the next byte of a key inside its bounds. *)
Ltac rd_step :=
  match goal with
  | |- context [rd ?key ?i] =>
      let b := fresh "b" in let E := fresh "E" in
      destruct (rd_in key i) as [b E]; [lia | rewrite E, ?obind_ok; clear E]
  end.

Lemma jen_word_ok key o : 0 <= o -> o + 4 <= len key -> exists w, jen_word key o = Ok w /\ w32 w.
Proof. intros H1 H2. unfold jen_word. do 4 rd_step. eexists. split; [done | apply w32_add]. Qed.

Lemma jen_mix_w32 a b c : w32 a -> w32 b -> w32 c ->
  exists a' b' c', HASH_JEN_MIX a b c = (a', b', c') /\ w32 a' /\ w32 b' /\ w32 c'.
Proof. intros Ha Hb Hc. unfold HASH_JEN_MIX. cbv zeta. eexists _, _, _. split; [done | ]. auto 20 with cdb. Qed.

Lemma jen_loop_ok key fuel : forall o i j h,
  w32 i -> w32 j -> w32 h -> 0 <= o <= len key -> len key - o <= 12 * Z.of_nat fuel + 11 ->
  exists o' i' j' h', jen_loop key fuel o i j h (len key - o) = Ok (o', i', j', h', len key - o') /\
    w32 i' /\ w32 j' /\ w32 h' /\ 0 <= o' /\ 0 <= len key - o' <= 11.
Proof.
  induction fuel as [ | fuel IH]; intros o i j h Hi Hj Hh Ho Hf; cbn [jen_loop].
  - rewrite Z.geb_leb, (proj2 (Z.leb_gt _ _)) by lia. exists o, i, j, h. repeat split; unfold w32 in *; lia.
  - destruct (len key - o >=? 12) eqn:E; rewrite Z.geb_leb in E; zbool.
    + destruct (jen_word_ok key o) as (w0 & -> & H0); [lia | lia | ].
      destruct (jen_word_ok key (o + 4)) as (w1 & -> & H1); [lia | lia | ].
      destruct (jen_word_ok key (o + 8)) as (w2 & -> & H2); [lia | lia | ]. rewrite !obind_ok.
      destruct (jen_mix_w32 (add i w0) (add j w1) (add h w2)) as (a & b & c & -> & Ha & Hb & Hc); auto with cdb.
      replace (len key - o - 12) with (len key - (o + 12)) by lia. apply IH; auto; lia.
    + exists o, i, j, h. repeat split; unfold w32 in *; lia.
Qed.

Lemma jen_case_ok key k n o s x : 0 <= o -> 1 <= n -> k = len key - o -> w32 x ->
  exists y, jen_case key k n o s x = Ok y /\ w32 y.
Proof.
  intros Ho Hn -> Hx. unfold jen_case. rewrite Z.geb_leb. destruct (n <=? len key - o) eqn:E; zbool; [ | by exists x].
  rd_step. eexists. split; [done | apply w32_add].
Qed.

Lemma HASH_JEN_ok key : len key < 2 ^ 32 -> exists h, HASH_JEN key (len key) = Ok h /\ w32 h.
Proof.
  intros Hl. unfold HASH_JEN. assert (u32 (len key) = len key) as -> by (apply Z.mod_small; lia).
  destruct (jen_loop_ok key (Z.to_nat (len key)) 0 2654435769 2654435769 4276993775)
    as (o & i & j & h & E & Hi & Hj & Hh & Ho & Hk); auto with cdb; [lia | lia | ].
  rewrite Z.sub_0_r in E. rewrite E, obind_ok. cbv zeta.
  repeat match goal with
  | |- context [jen_case key ?k ?n ?o ?s ?x] =>
      destruct (jen_case_ok key k n o s x) as (? & -> & ?); [lia | lia | done | auto with cdb | rewrite obind_ok]
  end.
  match goal with |- context [HASH_JEN_MIX ?a ?b ?c] =>
    destruct (jen_mix_w32 a b c) as (? & ? & c' & -> & _ & _ & Hc); [done | done | done | ] end.
  by exists c'.
Qed.

Lemma get16_ok key o : 0 <= o -> o + 2 <= len key -> exists w, get16bits key o = Ok w.
Proof. intros H1 H2. unfold get16bits. do 2 rd_step. eauto. Qed.

Lemma sfh_loop_ok key n : forall o h,
  w32 h -> 0 <= o -> o + 4 * Z.of_nat n <= len key ->
  exists h', sfh_loop key n o h = Ok (o + 4 * Z.of_nat n, h') /\ w32 h'.
Proof.
  induction n as [ | n IH]; intros o h Hh Ho Hl; cbn [sfh_loop].
  - exists h. by rewrite Z.add_0_r.
  - replace (o + 4 * Z.of_nat (S n)) with (o + 4 + 4 * Z.of_nat n) by lia.
    destruct (get16_ok key o) as [a ->]; [lia | lia | ]. rewrite obind_ok.
    destruct (get16_ok key (o + 2)) as [b ->]; [lia | lia | ]. rewrite obind_ok. cbv zeta.
    match goal with |- context [sfh_loop key n (o + 4) ?h'] => destruct (IH (o + 4) h') as (h2 & -> & H2) end;
      [auto with cdb | lia | lia | ]. by exists h2.
Qed.

Lemma sfh_rest_ok key rem o h :
  w32 h -> 0 <= o -> 0 <= rem <= 3 -> o + rem <= len key -> exists h', sfh_rest key rem o h = Ok h' /\ w32 h'.
Proof.
  intros Hh Ho Hr Hl. unfold sfh_rest.
  repeat case_if; subst; repeat (match goal with
    | |- context [get16bits key ?i] => destruct (get16_ok key i) as [? ->]; [lia | lia | ]; rewrite obind_ok
    | |- context [rd key ?i] => rd_step end);
    eexists; (split; [reflexivity | auto with cdb]).
Qed.

Lemma len4 n : 0 <= n -> n = 4 * Z.of_nat (Z.to_nat (Z.shiftr n 2)) + Z.land n 3.
Proof.
  intros Hn. change 3 with (Z.ones 2). rewrite Z.land_ones, Z.shiftr_div_pow2 by lia.
  rewrite Z2Nat.id by (apply Z.div_pos; lia). apply Z.div_mod. lia.
Qed.

Lemma land3_bound n : 0 <= Z.land n 3 <= 3.
Proof. change 3 with (Z.ones 2) at 1 2. rewrite Z.land_ones by lia. pose proof (Z.mod_pos_bound n (2 ^ 2)). lia. Qed.

Lemma HASH_SFH_ok key : len key < 2 ^ 32 -> exists h, HASH_SFH key (len key) = Ok h /\ w32 h.
Proof.
  intros Hl. unfold HASH_SFH. assert (u32 (len key) = len key) as -> by (apply Z.mod_small; lia). cbv zeta.
  pose proof (len4 (len key) ltac:(lia)) as H4. pose proof (land3_bound (len key)). unfold shr at 1.
  destruct (sfh_loop_ok key (Z.to_nat (Z.shiftr (len key) 2)) 0 3405691582) as (h1 & -> & H1); [auto with cdb | lia | lia | ].
  rewrite obind_ok.
  destruct (sfh_rest_ok key (Z.land (len key) 3) (0 + 4 * Z.of_nat (Z.to_nat (Z.shiftr (len key) 2))) h1)
    as (h2 & -> & H2); [done | lia | lia | lia | ].
  rewrite obind_ok. eexists. split; [done | auto with cdb].
Qed.

Lemma rotl_w32 x r : 0 <= r <= 32 -> w32 x -> w32 (MUR_ROTL32 x r).
Proof. intros Hr Hx. unfold MUR_ROTL32. apply w32_lor; [apply w32_shl | apply w32_shr; [lia | done]]. Qed.
#[local] Hint Extern 4 (w32 (MUR_ROTL32 _ _)) => apply rotl_w32; [lia | ] : cdb.

Lemma mur_loop_ok key n : forall o h, w32 h -> 0 <= o -> o + 4 * Z.of_nat n <= len key ->
  exists h', mur_loop key n o h = Ok h' /\ w32 h'.
Proof.
  induction n as [ | n IH]; intros o h Hh Ho Hl; cbn [mur_loop]; [by exists h | ].
  unfold get32, get_le. rewrite load_ok, !obind_ok by lia. cbv zeta. apply IH; [auto with cdb | lia | lia].
Qed.

Lemma mur_case_ok key rem n o s x : w32 x -> 0 <= o -> 1 <= n -> o + rem <= len key ->
  exists y, mur_case key rem n o s x = Ok y /\ w32 y.
Proof.
  intros Hx Ho Hn Hl. unfold mur_case. rewrite Z.geb_leb. destruct (n <=? rem) eqn:E; zbool; [ | by exists x].
  rd_step. eexists. split; [done | auto with cdb].
Qed.

Lemma HASH_MUR_ok key : len key < 2 ^ 31 -> exists h, HASH_MUR key (len key) = Ok h /\ w32 h.
Proof.
  intros Hl. unfold HASH_MUR.
  assert (i32 (len key) = len key) as -> by (unfold i32, swrap; rewrite Z.mod_small; lia). cbv zeta.
  pose proof (len4 (len key) ltac:(lia)) as H4. pose proof (land3_bound (len key)).
  assert (Z.quot (len key) 4 = Z.shiftr (len key) 2) as ->
    by (rewrite Z.quot_div_nonneg, Z.shiftr_div_pow2 by lia; done).
  assert (0 <= Z.shiftr (len key) 2) by (apply Z.shiftr_nonneg; lia).
  destruct (mur_loop_ok key (Z.to_nat (Z.shiftr (len key) 2)) 0 4170011475) as (h1 & -> & H1); [auto with cdb | lia | lia | ].
  rewrite obind_ok.
  repeat match goal with
  | |- context [mur_case key ?r ?n ?o ?s ?x] =>
      destruct (mur_case_ok key r n o s x) as (? & -> & ?); [auto with cdb | lia | lia | lia | rewrite obind_ok]
  end.
  eexists. split; [done | ]. unfold MUR_FMIX. destruct (_ >=? 1); auto 8 with cdb.
Qed.

(** Undoing an addition or a subtraction. *)
Lemma sub_add x y : w32 x -> add (sub x y) y = x.
Proof.
  intros Hx. unfold add, sub, u32, uwrap. rewrite Zplus_mod_idemp_l. replace (x - y + y) with x by lia.
  by apply Z.mod_small.
Qed.
Lemma lxor_cancel x y : Z.lxor (Z.lxor x y) y = x.
Proof. by rewrite Z.lxor_assoc, Z.lxor_nilpotent, Z.lxor_0_r. Qed.

(** A line of the mixing and the way back. *)
Lemma unmix_line x y z t r :
  w32 x -> r = Z.lxor (sub (sub x y) z) t -> add (add (Z.lxor r t) z) y = x.
Proof. intros Hx ->. rewrite lxor_cancel, sub_add by apply w32_sub. by apply sub_add. Qed.
Lemma jen_mix_lines a b c : exists a1 b1 c1 a2 b2 c2 a3 b3 c3,
  a1 = Z.lxor (sub (sub a b) c) (shr c 13) /\
  b1 = Z.lxor (sub (sub b c) a1) (shl a1 8) /\
  c1 = Z.lxor (sub (sub c a1) b1) (shr b1 13) /\
  a2 = Z.lxor (sub (sub a1 b1) c1) (shr c1 12) /\
  b2 = Z.lxor (sub (sub b1 c1) a2) (shl a2 16) /\
  c2 = Z.lxor (sub (sub c1 a2) b2) (shr b2 5) /\
  a3 = Z.lxor (sub (sub a2 b2) c2) (shr c2 3) /\
  b3 = Z.lxor (sub (sub b2 c2) a3) (shl a3 10) /\
  c3 = Z.lxor (sub (sub c2 a3) b3) (shr b3 15) /\
  HASH_JEN_MIX a b c = (a3, b3, c3).
Proof. do 9 eexists. repeat (split; [reflexivity | ]). reflexivity. Qed.
Lemma jen_unmix_mix a b c : w32 a -> w32 b -> w32 c ->
  (let '(a', b', c') := HASH_JEN_MIX a b c in jen_unmix a' b' c') = (a, b, c).
Proof.
  intros Ha Hb Hc.
  destruct (jen_mix_lines a b c) as (a1 & b1 & c1 & a2 & b2 & c2 & a3 & b3 & c3 &
    Ea1 & Eb1 & Ec1 & Ea2 & Eb2 & Ec2 & Ea3 & Eb3 & Ec3 & ->).
  assert (w32 a1) as Wa1 by (rewrite Ea1; auto with cdb).
  assert (w32 b1) as Wb1 by (rewrite Eb1; auto with cdb).
  assert (w32 c1) as Wc1 by (rewrite Ec1; auto with cdb).
  assert (w32 a2) as Wa2 by (rewrite Ea2; auto with cdb).
  assert (w32 b2) as Wb2 by (rewrite Eb2; auto with cdb).
  assert (w32 c2) as Wc2 by (rewrite Ec2; auto with cdb).
  unfold jen_unmix. cbv zeta.
  rewrite !(unmix_line _ _ _ _ _ Wc2 Ec3), !(unmix_line _ _ _ _ _ Wb2 Eb3), !(unmix_line _ _ _ _ _ Wa2 Ea3).
  rewrite !(unmix_line _ _ _ _ _ Wc1 Ec2), !(unmix_line _ _ _ _ _ Wb1 Eb2), !(unmix_line _ _ _ _ _ Wa1 Ea2).
  rewrite !(unmix_line _ _ _ _ _ Hc Ec1), !(unmix_line _ _ _ _ _ Hb Eb1), !(unmix_line _ _ _ _ _ Ha Ea1).
  done.
Qed.

(** Bernstein's function as a polynomial. *)
Lemma ber_fold key h :
  foldl (fun h k => add (add (shl h 5) h) k) (u32 h) key =
  u32 (foldl (fun h k => 33 * h + k) h key).
Proof.
  revert h. induction key as [ | k key IH]; intros h; cbn [foldl]; [done | ]. rewrite <- IH. f_equal.
  unfold add, shl, u32, uwrap. rewrite Z.shiftl_mul_pow2, !Zplus_mod_idemp_l by lia.
  set (M := 2 ^ 32). set (x := h mod M * 2 ^ 5).
  assert (x mod M + h mod M + k = 33 * h + k + (- (x / M) - 33 * (h / M)) * M) as ->; [ | apply Z_mod_plus_full].
  rewrite (Z.mod_eq x), (Z.mod_eq h) by done. unfold x. rewrite (Z.mod_eq h) by done. lia.
Qed.

(** ** Properties *)

(** C34. Every hash function of the header is total on keys of up to 2^31 - 1 bytes: it
    reads inside the key only, its value is a 32-bit word, and its bucket in a
    table with a power of two of buckets is one of them. *)
Theorem hash_functions_typed f key k :
  f ∈ hash_functions -> Forall is_byte key -> len key < 2 ^ 31 -> 0 <= k <= 31 ->
  exists h, f key (len key) = Ok h /\ 0 <= h < 2 ^ 32 /\ 0 <= HASH_TO_BKT h (2 ^ k) < 2 ^ k.
Proof.
  intros Hf Hb Hl Hk. assert (exists h, f key (len key) = Ok h /\ w32 h) as (h & E & Hh).
  { unfold hash_functions in Hf. rewrite !elem_of_cons, elem_of_nil in Hf.
    destruct Hf as [-> | [-> | [-> | [-> | [-> | [-> | [-> | []]]]]]]].
    - apply HASH_JEN_ok. lia.
    - unfold HASH_BER. rewrite key_pass. eexists. split; [done | ]. apply foldl_w32; auto with cdb.
    - unfold HASH_SAX. rewrite key_pass. eexists. split; [done | ]. apply foldl_w32; auto with cdb.
    - unfold HASH_FNV. rewrite key_pass. eexists. split; [done | ]. apply foldl_w32; auto with cdb.
    - unfold HASH_OAT. rewrite key_pass, obind_ok. eexists. split; [done | ]. auto with cdb.
    - apply HASH_SFH_ok. lia.
    - apply HASH_MUR_ok. lia. }
  exists h. split; [done | ]. split; [done | by apply to_bkt_bound].
Qed.

(** Jenkins' mixing loses nothing: it is undone by running its steps backwards, so
    different triples of words stay different; and Bernstein's function is the
    polynomial in 33 with the bytes as coefficients, modulo 2^32. *)
Theorem hash_mixing a b c key :
  0 <= a < 2 ^ 32 -> 0 <= b < 2 ^ 32 -> 0 <= c < 2 ^ 32 ->
  (let '(a', b', c') := HASH_JEN_MIX a b c in jen_unmix a' b' c') = (a, b, c) /\
  HASH_BER key (len key) = Ok (foldl (fun h k => 33 * h + k) 0 key mod 2 ^ 32).
Proof.
  intros Ha Hb Hc. change (w32 a) in Ha. change (w32 b) in Hb. change (w32 c) in Hc. split.
  - by apply jen_unmix_mix.
  - unfold HASH_BER. rewrite key_pass. f_equal. apply (ber_fold key 0).
Qed.

(** ** Witnesses *)
Lemma hash_functions_typed_witness :
  exists h, HASH_JEN [1; 0; 0; 0] 4 = Ok h /\ 0 <= HASH_TO_BKT h 32 < 32.
Proof.
  destruct (hash_functions_typed HASH_JEN [1; 0; 0; 0] 5) as (h & E & _ & Hb);
    [left | repeat constructor; unfold is_byte; lia | cbn; lia | lia | ].
  exists h. split; [exact E | exact Hb].
Defined.
Lemma hash_mixing_witness :
  (let '(a', b', c') := HASH_JEN_MIX 1 2 3 in jen_unmix a' b' c') = (1, 2, 3) /\
  HASH_BER (lit "ab") 2 = Ok 3299.
Proof. apply (hash_mixing 1 2 3 (lit "ab")); lia. Defined.
End UtHashFn.
