(* ===== verification/UtMurmur.v ===== *)
(** * Murmur hashing where words must be aligned: [client_server/uthash/src/uthash.h]

    On processors other than Intel's [HASH_MUR] reads its blocks through [MUR_GETBLOCK],
    which assembles a word at an unaligned address from the two aligned words around
    it, in either byte order.  Memory is a byte list that starts at an aligned address;
    the key is at an address in it. *)
From S2P Require Import Prelude CLib Bytes UtHashFn.

Module UtMurmur.
Import UtHashFn.

Section Portable.
Context (big : bool) (mem : bytes).
(** A word in the byte order of the host; an unaligned one is undefined. *)
Definition word_val (l : bytes) : Z := le_val (if big then rev l else l).
Definition load_word (a : Z) : outcome Z :=
  if Z.land a 3 =? 0 then let! l := load mem a 4 in Ok (word_val l) else Ub.
Definition WP (p : Z) : Z := Z.land p (Z.lnot 3).
Definition MUR_THREE_ONE (p : Z) : outcome Z :=
  let! w0 := load_word (WP p) in
  let! w1 := load_word (WP p + 4) in
  Ok (if big then Z.lor (shl (Z.land w0 16777215) 8) (shr (Z.land w1 4278190080) 24)
      else Z.lor (shr (Z.land w0 4294967040) 8) (shl (Z.land w1 255) 24)).
Definition MUR_TWO_TWO (p : Z) : outcome Z :=
  let! w0 := load_word (WP p) in
  let! w1 := load_word (WP p + 4) in
  Ok (if big then Z.lor (shl (Z.land w0 65535) 16) (shr (Z.land w1 4294901760) 16)
      else Z.lor (shr (Z.land w0 4294901760) 16) (shl (Z.land w1 65535) 16)).
Definition MUR_ONE_THREE (p : Z) : outcome Z :=
  let! w0 := load_word (WP p) in
  let! w1 := load_word (WP p + 4) in
  Ok (if big then Z.lor (shl (Z.land w0 255) 24) (shr (Z.land w1 4294967040) 8)
      else Z.lor (shr (Z.land w0 4278190080) 24) (shl (Z.land w1 16777215) 8)).
(** Only the aligned case looks at the index. *)
Definition MUR_GETBLOCK (p i : Z) : outcome Z :=
  if Z.land p 3 =? 0 then load_word (p + 4 * i)
  else if Z.land p 3 =? 1 then MUR_THREE_ONE p
  else if Z.land p 3 =? 2 then MUR_TWO_TWO p
  else MUR_ONE_THREE p.

(** [HASH_MUR] of the key at address [key]. *)
Definition mur_mix (k1 h1 : Z) : Z :=
  add (mul (MUR_ROTL32 (Z.lxor h1 (mul (MUR_ROTL32 (mul k1 mur_c1) 15) mur_c2)) 13) 5) 3864292196.
Fixpoint mur_blocks (blocks : Z) (n : nat) (i h1 : Z) : outcome Z :=
  match n with
  | O => Ok h1
  | S n => let! k1 := MUR_GETBLOCK blocks i in mur_blocks blocks n (i + 1) (mur_mix k1 h1)
  end.
Definition HASH_MUR_at (key keylen : Z) : outcome Z :=
  let nblocks := Z.quot (i32 keylen) 4 in
  let blocks := key + nblocks * 4 in
  let! h1 := mur_blocks blocks (Z.to_nat nblocks) (- nblocks) 4170011475 in
  let rem := Z.land keylen 3 in
  let! k1 := mur_case mem rem 3 blocks 16 0 in
  let! k1 := mur_case mem rem 2 blocks 8 k1 in
  let! k1 := mur_case mem rem 1 blocks 0 k1 in
  let h1 := if rem >=? 1 then Z.lxor h1 (mul (MUR_ROTL32 (mul k1 mur_c1) 15) mur_c2) else h1 in
  Ok (MUR_FMIX (Z.lxor h1 (u32 keylen))).
End Portable.

Lemma land_3 a : Z.land a 3 = a mod 4.
Proof. apply (Z.land_ones a 2). lia. Qed.
Lemma WP_spec p : WP p = p - p mod 4.
Proof.
  unfold WP. rewrite <- Z.ldiff_land. change 3 with (Z.ones 2).
  rewrite Z.ldiff_ones_r, Z.shiftl_mul_pow2, Z.shiftr_div_pow2 by lia. change (2 ^ 2) with 4. pose proof (Z.div_mod p 4). lia.
Qed.
(** The masked shifts: the high bytes of a word moved down, the low ones moved up. *)
Lemma high_down w m k : 0 <= k <= 32 -> m = Z.shiftl (Z.ones (32 - k)) k -> 0 <= w < 2 ^ 32 -> shr (Z.land w m) k = w / 2 ^ k.
Proof.
  intros Hk -> Hw. unfold shr. rewrite Z.shiftr_land, Z.shiftr_shiftl_l, Z.sub_diag, Z.shiftl_0_r by lia.
  rewrite Z.land_ones, Z.shiftr_div_pow2 by lia. apply Z.mod_small. split; [apply Z.div_pos; lia | ].
  apply Z.div_lt_upper_bound; [lia | ]. rewrite <- Z.pow_add_r by lia. replace (k + (32 - k)) with 32 by lia. apply Hw.
Qed.
Lemma low_up w m k : 0 <= k <= 32 -> m = Z.ones (32 - k) -> shl (Z.land w m) k = w mod 2 ^ (32 - k) * 2 ^ k.
Proof.
  intros Hk ->. unfold shl, u32, uwrap. rewrite Z.land_ones, Z.shiftl_mul_pow2 by lia.
  apply Z.mod_small. pose proof (Z.mod_pos_bound w (2 ^ (32 - k))) as Hb. specialize (Hb ltac:(apply Z.pow_pos_nonneg; lia)).
  pose proof (Z.pow_pos_nonneg 2 k ltac:(lia) ltac:(lia)) as Hp. split; [nia | ].
  replace (2 ^ 32) with (2 ^ (32 - k) * 2 ^ k) by (rewrite <- Z.pow_add_r by lia; f_equal; lia). nia.
Qed.
Lemma lor_up_down a b k : 0 <= k -> 0 <= b < 2 ^ k -> Z.lor (a * 2 ^ k) b = a * 2 ^ k + b /\ Z.lor b (a * 2 ^ k) = a * 2 ^ k + b.
Proof. intros Hk Hb. rewrite (Z.lor_comm b). by rewrite lor_disjoint. Qed.

(** The two aligned words at a block: eight bytes. *)
Lemma two_words mem q : 0 <= q -> q mod 4 = 0 -> q + 8 <= len mem -> Forall is_byte mem ->
  exists pre b0 b1 b2 b3 b4 b5 b6 b7 post, mem = pre ++ [b0; b1; b2; b3; b4; b5; b6; b7] ++ post /\ len pre = q /\
  Forall is_byte [b0; b1; b2; b3; b4; b5; b6; b7].
Proof.
  intros Hq Hm Hl Hb. pose proof (take_drop (Z.to_nat q) mem) as E. apply Forall_drop with (n := Z.to_nat q) in Hb.
  assert (length (drop (Z.to_nat q) mem) = (length mem - Z.to_nat q)%nat) as Hd by apply length_drop.
  destruct (drop (Z.to_nat q) mem) as [ | b0 [ | b1 [ | b2 [ | b3 [ | b4 [ | b5 [ | b6 [ | b7 post]]]]]]]] eqn:Ed;
    cbn [length] in Hd; try lia.
  exists (take (Z.to_nat q) mem), b0, b1, b2, b3, b4, b5, b6, b7, post.
  split; [done | ]. split; [rewrite length_take; lia | ].
  do 8 (apply Forall_cons in Hb as [? Hb]). repeat (apply Forall_cons_2; [done | ]). apply Forall_nil_2.
Qed.
(** Both assemblies in arithmetic. *)
Lemma assemble_le w0 w1 k mh ml : 0 < k < 32 -> mh = Z.shiftl (Z.ones (32 - k)) k -> ml = Z.ones k -> 0 <= w0 < 2 ^ 32 ->
  Z.lor (shr (Z.land w0 mh) k) (shl (Z.land w1 ml) (32 - k)) = w1 mod 2 ^ k * 2 ^ (32 - k) + w0 / 2 ^ k.
Proof.
  intros Hk Hh Hl Hw. rewrite (high_down w0 mh k), (low_up w1 ml (32 - k)) by (done || lia || (rewrite Hl; f_equal; lia)).
  replace (32 - (32 - k)) with k by lia. apply lor_up_down; [lia | ]. split; [apply Z.div_pos; lia | ].
  apply Z.div_lt_upper_bound; [lia | ]. rewrite <- Z.pow_add_r by lia. replace (k + (32 - k)) with 32 by lia. apply Hw.
Qed.
Lemma assemble_be w0 w1 k mh ml : 0 < k < 32 -> ml = Z.ones (32 - k) -> mh = Z.shiftl (Z.ones k) (32 - k) -> 0 <= w1 < 2 ^ 32 ->
  Z.lor (shl (Z.land w0 ml) k) (shr (Z.land w1 mh) (32 - k)) = w0 mod 2 ^ (32 - k) * 2 ^ k + w1 / 2 ^ (32 - k).
Proof.
  intros Hk Hl Hh Hw. rewrite (low_up w0 ml k), (high_down w1 mh (32 - k)) by (done || lia || (rewrite Hh; repeat f_equal; lia)).
  apply lor_up_down; [lia | ]. split; [apply Z.div_pos; lia | ].
  apply Z.div_lt_upper_bound; [lia | ]. rewrite <- Z.pow_add_r by lia. replace (32 - k + k) with 32 by lia. apply Hw.
Qed.

(** Quotients and remainders of words written by their bytes. *)
Ltac word_arith :=
  change (32 - 8) with 24; change (32 - 16) with 16; change (32 - 24) with 8;
  change (2 ^ 8) with 256; change (2 ^ 16) with 65536; change (2 ^ 24) with 16777216;
  Z.to_euclidean_division_equations; lia.
Section Blocks.
Context (big : bool) (mem : bytes) (Hmem : Forall is_byte mem).
Lemma load_word_at pre l post a : mem = pre ++ l ++ post -> length l = 4%nat -> a = len pre -> a mod 4 = 0 ->
  load_word big mem a = Ok (word_val big l).
Proof.
  intros E Hl -> Ha. unfold load_word. rewrite land_3, Ha. cbn [Z.eqb]. rewrite E, load_mid by (done || by rewrite Hl). done.
Qed.
(** Assembling the word from its neighbours is the unaligned load. *)
Lemma getblock_unaligned p i : 0 <= p -> p mod 4 <> 0 -> WP p + 8 <= len mem ->
  MUR_GETBLOCK big mem p i = let! l := load mem p 4 in Ok (word_val big l).
Proof.
  intros Hp Hmod Hl. rewrite WP_spec in Hl. pose proof (Z.mod_pos_bound p 4 ltac:(lia)) as Hb. pose proof (Z.mod_le p 4).
  assert ((p - p mod 4) mod 4 = 0) as Hq by (by rewrite Zminus_mod_idemp_r, Z.sub_diag).
  destruct (two_words mem (p - p mod 4)) as (pre & b0 & b1 & b2 & b3 & b4 & b5 & b6 & b7 & post & E & Hpre & Hby);
    [lia | done | done | done | ].
  assert (load_word big mem (WP p) = Ok (word_val big [b0; b1; b2; b3])) as W0.
  { apply (load_word_at pre _ ([b4; b5; b6; b7] ++ post)); rewrite ?WP_spec; done. }
  assert (load_word big mem (WP p + 4) = Ok (word_val big [b4; b5; b6; b7])) as W1.
  { apply (load_word_at (pre ++ [b0; b1; b2; b3]) _ post); [by rewrite E, <- app_assoc | done | | ]; rewrite WP_spec.
    - rewrite length_app. cbn [length]. lia.
    - rewrite Z.add_mod, Hq by lia. done. }
  assert (forall h m r, [b0; b1; b2; b3; b4; b5; b6; b7] = h ++ m ++ r -> length m = 4%nat -> len h = p mod 4 -> load mem p 4 = Ok m) as Hload.
  { intros h m r Eh Hm Hh. rewrite E, Eh. rewrite <- !app_assoc, app_assoc. apply load_mid; [ | by rewrite Hm].
    rewrite length_app. lia. }
  unfold MUR_GETBLOCK, MUR_THREE_ONE, MUR_TWO_TWO, MUR_ONE_THREE. rewrite land_3, W0, W1, !obind_ok.
  rewrite !Forall_cons in Hby. unfold is_byte in Hby. clear W0 W1 E Hmem.
  assert (p mod 4 = 1 \/ p mod 4 = 2 \/ p mod 4 = 3) as [Hj | [Hj | Hj]] by lia; rewrite Hj in *; cbn [Z.eqb Pos.eqb].
  - rewrite (Hload [b0] [b1; b2; b3; b4] [b5; b6; b7]), obind_ok by done. f_equal. destruct big; unfold word_val; cbn [rev app le_val].
    + rewrite (assemble_be _ _ 8) by (done || lia). word_arith.
    + rewrite (assemble_le _ _ 8) by (done || lia). word_arith.
  - rewrite (Hload [b0; b1] [b2; b3; b4; b5] [b6; b7]), obind_ok by done. f_equal. destruct big; unfold word_val; cbn [rev app le_val].
    + rewrite (assemble_be _ _ 16) by (done || lia). word_arith.
    + rewrite (assemble_le _ _ 16) by (done || lia). word_arith.
  - rewrite (Hload [b0; b1; b2] [b3; b4; b5; b6] [b7]), obind_ok by done. f_equal. destruct big; unfold word_val; cbn [rev app le_val].
    + rewrite (assemble_be _ _ 24) by (done || lia). word_arith.
    + rewrite (assemble_le _ _ 24) by (done || lia). word_arith.
Qed.
End Blocks.

(** ** Aligned keys *)

(** A key as the processor sees its words: on a big-endian one the bytes of each block are
    in reverse order. *)
Fixpoint swap_blocks (l : bytes) : bytes :=
  match l with
  | a :: b :: c :: d :: l => d :: c :: b :: a :: swap_blocks l
  | _ => l
  end.
Definition host_order (big : bool) (l : bytes) : bytes := if big then swap_blocks l else l.
Lemma swap_drop k l : (4 * k <= length l)%nat ->
  length (swap_blocks l) = length l /\ drop (4 * k) (swap_blocks l) = swap_blocks (drop (4 * k) l).
Proof.
  revert l. induction k as [ | k IH]; intros l Hl.
  - split; [ | done]. clear Hl. revert l. fix F 1. intros [ | a [ | b [ | c [ | d l]]]]; [done.. | ]. cbn. by rewrite F.
  - destruct l as [ | a [ | b [ | c [ | d l]]]]; cbn [length] in Hl; try lia.
    destruct (IH l ltac:(lia)) as [E1 E2]. replace (4 * S k)%nat with (S (S (S (S (4 * k))))) by lia.
    cbn [swap_blocks length drop]. by rewrite E1.
Qed.
Lemma length_host big l : length (host_order big l) = length l.
Proof. destruct big; [ | done]. apply (swap_drop 0). lia. Qed.
(** The word of a block in the host's order. *)
Lemma host_block big l k : 0 <= k -> 4 * k + 4 <= len l ->
  get32 (host_order big l) (4 * k) = let! w := load l (4 * k) 4 in Ok (word_val big w).
Proof.
  intros Hk Hl. unfold get32, get_le. change (Z.of_nat 4) with 4. rewrite !load_ok by (rewrite ?length_host; lia). rewrite !obind_ok.
  unfold word_val, host_order. destruct big; [ | done]. f_equal. unfold slice.
  replace (Z.to_nat (4 * k)) with (4 * Z.to_nat k)%nat by lia. rewrite (proj2 (swap_drop (Z.to_nat k) l ltac:(lia))).
  assert (4 <= length (drop (4 * Z.to_nat k) l))%nat as Hd by (rewrite length_drop; lia).
  destruct (drop (4 * Z.to_nat k) l) as [ | a [ | b [ | c [ | d r]]]]; cbn [length] in Hd; try lia. done.
Qed.
(** The bytes behind the blocks are where they were. *)
Lemma host_tail big l a : len l / 4 * 4 <= a -> rd (host_order big l) a = rd l a.
Proof.
  intros Ha. destruct big; [ | done]. unfold rd, host_order. pose proof (Z.div_pos (len l) 4). pose proof (Z.div_mod (len l) 4). pose proof (Z.mod_pos_bound (len l) 4).
  destruct (a <? 0); [done | ]. set (k := Z.to_nat (len l / 4)). assert (4 * k <= length l)%nat as Hk by lia.
  replace (Z.to_nat a) with (4 * k + (Z.to_nat a - 4 * k))%nat by lia. rewrite <- !lookup_drop, (proj2 (swap_drop k l Hk)).
  assert (length (drop (4 * k) l) < 4)%nat as Hd by (rewrite length_drop; lia).
  destruct (drop (4 * k) l) as [ | x [ | y [ | z [ | w r]]]]; cbn [length] in Hd; done || lia.
Qed.
Lemma load_slice mem key n a : 0 <= key -> key <= a -> a + 4 <= key + n -> key + n <= len mem ->
  load mem a 4 = load (slice mem key n) (a - key) 4.
Proof.
  intros H1 H2 H3 H4. rewrite !load_ok by (rewrite ?length_slice; lia). f_equal. unfold slice.
  rewrite skipn_firstn_comm, take_take, drop_drop.
  f_equal; [lia | ]. f_equal. lia.
Qed.
Lemma rd_slice mem key n a : 0 <= key -> key <= a < key + n -> key + n <= len mem -> rd mem a = rd (slice mem key n) (a - key).
Proof.
  intros H1 H2 H3. unfold rd. rewrite (proj2 (Z.ltb_ge a 0)), (proj2 (Z.ltb_ge (a - key) 0)) by lia.
  unfold slice. rewrite lookup_take_lt by lia. rewrite lookup_drop.
  by replace (Z.to_nat key + Z.to_nat (a - key))%nat with (Z.to_nat a) by lia.
Qed.
Lemma mur_blocks_aligned big mem key keylen blocks n : 0 <= key -> key + keylen <= len mem -> key mod 4 = 0 -> blocks mod 4 = 0 ->
  forall i h, key <= blocks + 4 * i -> blocks + 4 * (i + Z.of_nat n) <= key + keylen ->
  mur_blocks big mem blocks n i h = mur_loop (host_order big (slice mem key keylen)) n (blocks + 4 * i - key) h.
Proof.
  intros Hk Hl Hka Hb. induction n as [ | n IH]; intros i h H1 H2; [done | ]. cbn [mur_blocks mur_loop].
  unfold MUR_GETBLOCK, load_word. rewrite !land_3, Hb. cbn [Z.eqb].
  replace ((blocks + 4 * i) mod 4) with 0 by (rewrite Z.mul_comm, Z_mod_plus_full; done). cbn [Z.eqb].
  assert (blocks + 4 * i - key = 4 * ((blocks + 4 * i - key) / 4)) as Eo.
  { apply Z.div_exact; [lia | ]. rewrite Zminus_mod, Hka, (Z.mul_comm 4), Z_mod_plus_full, Hb. done. }
  rewrite Eo at 1. rewrite host_block, <- Eo by (rewrite ?length_slice; try lia; apply Z.div_pos; lia).
  rewrite <- (load_slice mem key keylen) by lia. rewrite !load_ok by lia. rewrite !obind_ok. rewrite IH by lia.
  replace (blocks + 4 * (i + 1) - key) with (blocks + 4 * i - key + 4) by lia. done.
Qed.
Lemma mur_case_slice big mem key keylen rem n o s k1 : 0 <= key -> 0 <= keylen -> key + keylen <= len mem ->
  o = key + keylen / 4 * 4 -> 1 <= n -> o + rem <= key + keylen ->
  mur_case mem rem n o s k1 = mur_case (host_order big (slice mem key keylen)) rem n (o - key) s k1.
Proof.
  intros H1 H0 H2 Ho H4 H5. pose proof (Z.div_pos keylen 4). unfold mur_case. rewrite host_tail by (rewrite length_slice; lia). rewrite Z.geb_leb. destruct (Z.leb_spec n rem); [ | done].
  rewrite (rd_slice mem key keylen) by lia. by replace (o - key + n - 1) with (o + n - 1 - key) by lia.
Qed.
Lemma key_parts keylen : 0 <= keylen < 2 ^ 31 -> Z.quot (i32 keylen) 4 = keylen / 4 /\ Z.land keylen 3 = keylen - keylen / 4 * 4 /\
  0 <= keylen / 4 /\ 0 <= Z.land keylen 3 <= 3.
Proof.
  intros Hk. assert (i32 keylen = keylen) as ->.
  { unfold i32, swrap. rewrite Z.mod_small; lia. }
  rewrite Z.quot_div_nonneg, land_3 by lia. pose proof (Z.div_mod keylen 4). pose proof (Z.mod_pos_bound keylen 4).
  pose proof (Z.div_pos keylen 4). lia.
Qed.
Lemma hash_mur_aligned big mem key keylen : 0 <= key -> 0 <= keylen < 2 ^ 31 -> key + keylen <= len mem -> key mod 4 = 0 ->
  HASH_MUR_at big mem key keylen = HASH_MUR (host_order big (slice mem key keylen)) keylen.
Proof.
  intros H1 H2 H3 H4. destruct (key_parts keylen H2) as (E1 & E2 & E3 & E4). unfold HASH_MUR_at, HASH_MUR. rewrite E1.
  rewrite (mur_blocks_aligned big mem key keylen) by (try lia; rewrite Z_mod_plus_full; done).
  replace (key + keylen / 4 * 4 + 4 * - (keylen / 4) - key) with 0 by lia.
  destruct (mur_loop _ _ _ _) as [h1 | | | ]; [ | done..]. rewrite !obind_ok.
  rewrite !(mur_case_slice big mem key keylen) by lia. replace (key + keylen / 4 * 4 - key) with (keylen / 4 * 4) by lia.
  destruct (mur_case _ _ 3 _ _ _) as [k1 | | | ]; [ | done..]. rewrite !obind_ok. rewrite !(mur_case_slice big mem key keylen) by lia.
  replace (key + keylen / 4 * 4 - key) with (keylen / 4 * 4) by lia.
  destruct (mur_case _ _ 2 _ _ _) as [k2 | | | ]; [ | done..]. rewrite !obind_ok. rewrite !(mur_case_slice big mem key keylen) by lia.
  by replace (key + keylen / 4 * 4 - key) with (keylen / 4 * 4) by lia.
Qed.

(** ** Unaligned keys *)
Lemma rd_drop_eq (m m' : bytes) k a : 0 <= k <= a -> drop (Z.to_nat k) m = drop (Z.to_nat k) m' -> rd m a = rd m' a.
Proof.
  intros Ha E. unfold rd. replace (Z.to_nat a) with (Z.to_nat k + Z.to_nat (a - k))%nat by lia.
  by rewrite <- !lookup_drop, E.
Qed.
Lemma load_drop_eq (m m' : bytes) k a n : 0 <= k <= a -> length m = length m' ->
  drop (Z.to_nat k) m = drop (Z.to_nat k) m' -> load m a n = load m' a n.
Proof.
  intros Ha Hl E. unfold load, in_buf, slice. rewrite Hl. replace (Z.to_nat a) with (Z.to_nat k + Z.to_nat (a - k))%nat by lia.
  by rewrite <- !drop_drop, E.
Qed.
Section Unaligned.
Context (big : bool) (mem mem' : bytes) (Hmem : Forall is_byte mem) (Hmem' : Forall is_byte mem').
Context (blocks : Z) (Hb : 0 <= blocks) (Hmod : blocks mod 4 <> 0) (Hl : length mem = length mem').
Context (E : drop (Z.to_nat blocks) mem = drop (Z.to_nat blocks) mem').
Lemma mur_blocks_agree n : WP blocks + 8 <= len mem ->
  forall i h, mur_blocks big mem blocks n i h = mur_blocks big mem' blocks n i h.
Proof.
  intros Hw. induction n as [ | n IH]; intros i h; [done | ]. cbn [mur_blocks].
  rewrite !getblock_unaligned by (done || by rewrite <- Hl). rewrite (load_drop_eq mem mem' blocks) by (done || lia).
  destruct (load _ _ _); cbn [obind]; [apply IH | done..].
Qed.
Lemma mur_case_agree rem n s k1 : 1 <= n -> mur_case mem rem n blocks s k1 = mur_case mem' rem n blocks s k1.
Proof. intros Hn. unfold mur_case. by rewrite (rd_drop_eq mem mem' blocks) by (done || lia). Qed.
End Unaligned.
Lemma hash_mur_unaligned big mem mem' key keylen :
  Forall is_byte mem -> Forall is_byte mem' -> 0 <= key -> 0 <= keylen < 2 ^ 31 -> key mod 4 <> 0 -> length mem = length mem' ->
  WP (key + keylen / 4 * 4) + 8 <= len mem ->
  drop (Z.to_nat (key + keylen / 4 * 4)) mem = drop (Z.to_nat (key + keylen / 4 * 4)) mem' ->
  HASH_MUR_at big mem key keylen = HASH_MUR_at big mem' key keylen.
Proof.
  intros Hm Hm' Hk Hlen Hmod Hl Hw E. destruct (key_parts keylen Hlen) as (E1 & _ & E3 & _). unfold HASH_MUR_at. rewrite E1.
  rewrite (mur_blocks_agree big mem mem') by (try done; try lia; by rewrite Z_mod_plus_full).
  destruct (mur_blocks _ _ _ _ _ _) as [h1 | | | ]; [ | done..]. rewrite !obind_ok.
  rewrite !(mur_case_agree mem mem') by (try done; lia).
  destruct (mur_case _ _ 3 _ _ _) as [k1 | | | ]; [ | done..]. rewrite !obind_ok. rewrite !(mur_case_agree mem mem') by (try done; lia).
  destruct (mur_case _ _ 2 _ _ _) as [k2 | | | ]; [ | done..]. rewrite !obind_ok. by rewrite !(mur_case_agree mem mem') by (try done; lia).
Qed.
Lemma load_word_cases big mem a : load_word big mem a = Ub \/ exists w, load_word big mem a = Ok w.
Proof.
  unfold load_word, load. destruct (Z.land a 3 =? 0); [ | by left]. destruct (in_buf mem a 4); [ | by left]. right. by eexists.
Qed.
(** A key at the end of memory: the word behind its blocks is not there. *)
Lemma getblock_overread big mem p i : p mod 4 <> 0 -> len mem < WP p + 8 -> MUR_GETBLOCK big mem p i = Ub.
Proof.
  intros Hmod Hl. assert (load_word big mem (WP p + 4) = Ub) as W1.
  { unfold load_word. destruct (Z.land _ 3 =? 0); [ | done]. unfold load, in_buf.
    rewrite (proj2 (Z.leb_gt _ (len mem))), andb_false_r by lia. done. }
  unfold MUR_GETBLOCK, MUR_THREE_ONE, MUR_TWO_TWO, MUR_ONE_THREE. rewrite land_3, (proj2 (Z.eqb_neq _ 0) Hmod), W1.
  destruct (load_word_cases big mem (WP p)) as [-> | [w ->]]; by destruct (p mod 4 =? 1), (p mod 4 =? 2).
Qed.
(** The word behind the blocks of an unaligned key ends behind the key. *)
Lemma word_behind key keylen : 0 <= keylen -> key mod 4 <> 0 -> key + keylen < WP (key + keylen / 4 * 4) + 8 /\ key + keylen / 4 * 4 + 4 < WP (key + keylen / 4 * 4) + 8.
Proof.
  intros Hl Hmod. rewrite WP_spec, Z_mod_plus_full. pose proof (Z.mod_pos_bound key 4). pose proof (Z.div_mod keylen 4). pose proof (Z.mod_pos_bound keylen 4). lia.
Qed.
Lemma hash_mur_overread big mem key keylen : 4 <= keylen < 2 ^ 31 -> key mod 4 <> 0 -> len mem < WP (key + keylen / 4 * 4) + 8 ->
  HASH_MUR_at big mem key keylen = Ub.
Proof.
  intros Hlen Hmod Hend. destruct (key_parts keylen) as (E1 & E2 & E3 & E4); [lia | ]. unfold HASH_MUR_at. rewrite E1.
  pose proof (Z.div_le_mono 4 keylen 4 ltac:(lia) ltac:(lia)) as Hq. change (4 / 4) with 1 in Hq.
  destruct (Z.to_nat (keylen / 4)) as [ | n] eqn:En; [lia | ]. cbn [mur_blocks].
  by rewrite getblock_overread by (done || by rewrite Z_mod_plus_full).
Qed.
Lemma mur_blocks_defined big mem blocks n : Forall is_byte mem -> 0 <= blocks -> blocks mod 4 <> 0 -> WP blocks + 8 <= len mem -> blocks + 4 <= len mem ->
  forall i h, exists h', mur_blocks big mem blocks n i h = Ok h'.
Proof.
  intros Hm Hb Hmod Hw Hl. induction n as [ | n IH]; intros i h; [by eexists | ]. cbn [mur_blocks].
  rewrite getblock_unaligned by done. rewrite load_ok, !obind_ok by lia. apply IH.
Qed.
Lemma mur_case_defined mem rem n o s k1 : 0 <= o -> 1 <= n -> o + rem <= len mem -> exists k, mur_case mem rem n o s k1 = Ok k.
Proof.
  intros Ho Hn Hl. unfold mur_case. rewrite Z.geb_leb. destruct (Z.leb_spec n rem); [ | by eexists].
  destruct (get8_ok mem (o + n - 1)) as [c Hc]; [lia | ]. unfold get8 in Hc. rewrite Hc, obind_ok. by eexists.
Qed.
Lemma hash_mur_defined big mem key keylen : Forall is_byte mem -> 0 <= key -> 0 <= keylen < 2 ^ 31 -> key mod 4 <> 0 ->
  key + keylen <= len mem -> WP (key + keylen / 4 * 4) + 8 <= len mem -> exists h, HASH_MUR_at big mem key keylen = Ok h.
Proof.
  intros Hm Hk Hlen Hmod Hin Hw. destruct (key_parts keylen Hlen) as (E1 & E2 & E3 & E4). unfold HASH_MUR_at. rewrite E1.
  pose proof (word_behind key keylen ltac:(lia) Hmod) as [_ Hwb].
  destruct (mur_blocks_defined big mem (key + keylen / 4 * 4) (Z.to_nat (keylen / 4)) Hm ltac:(lia)
    ltac:(by rewrite Z_mod_plus_full) Hw ltac:(lia) (- (keylen / 4)) 4170011475) as [h ->]. rewrite obind_ok.
  set (o := key + keylen / 4 * 4) in *. set (rem := Z.land keylen 3) in *. assert (o + rem <= len mem) as Hr by lia.
  destruct (mur_case_defined mem rem 3 o 16 0) as [k3 ->]; [lia | lia | done | ]. rewrite obind_ok.
  destruct (mur_case_defined mem rem 2 o 8 k3) as [k2 ->]; [lia | lia | done | ]. rewrite obind_ok.
  destruct (mur_case_defined mem rem 1 o 0 k2) as [k1 ->]; [lia | lia | done | ]. rewrite obind_ok. by eexists.
Qed.

(** C40. Murmur hashing with aligned word reads, in both byte orders of the processor.  A
    key at an aligned address hashes as the reference function on its bytes, those of each
    block in reverse order on a big-endian processor.  At an unaligned address the
    assembly of a word from its two neighbours is the word there; but since the index is
    not used then, the hash of a key at an unaligned address does not depend on its blocks
    at all, only on the bytes behind them (so keys that differ in their blocks collide),
    and with at least one block it reads a word that ends behind the key: it is defined
    exactly if memory goes on that far. *)
Theorem mur_portable (big : bool) (mem : bytes) (key keylen : Z) :
  Forall is_byte mem -> 0 <= key -> 0 <= keylen < 2 ^ 31 -> key + keylen <= len mem ->
  let blocks := key + keylen / 4 * 4 in
  (key mod 4 = 0 -> HASH_MUR_at big mem key keylen = HASH_MUR (host_order big (slice mem key keylen)) keylen) /\
  (key mod 4 <> 0 ->
     (forall i, WP key + 8 <= len mem -> MUR_GETBLOCK big mem key i = let! l := load mem key 4 in Ok (word_val big l)) /\
     (forall mem', Forall is_byte mem' -> length mem = length mem' -> WP blocks + 8 <= len mem ->
        drop (Z.to_nat blocks) mem = drop (Z.to_nat blocks) mem' ->
        HASH_MUR_at big mem key keylen = HASH_MUR_at big mem' key keylen) /\
     (4 <= keylen -> key + keylen < WP blocks + 8 /\
        (len mem < WP blocks + 8 -> HASH_MUR_at big mem key keylen = Ub) /\
        (WP blocks + 8 <= len mem -> exists h, HASH_MUR_at big mem key keylen = Ok h))).
Proof.
  intros Hm Hk Hlen Hin blocks. split; [by apply hash_mur_aligned | ]. intros Hmod. split; [ | split].
  - intros i Hw. by apply getblock_unaligned.
  - intros mem' Hm' Hl Hw E. by apply hash_mur_unaligned.
  - intros H4. split; [apply word_behind; (done || lia) | ]. split; intros Hw.
    + apply hash_mur_overread; (done || lia).
    + by apply hash_mur_defined.
Qed.
Lemma mur_portable_witness :
  HASH_MUR_at true ([0; 0; 0; 0; 1; 2; 3; 4; 5] ++ replicate 7 9) 4 5 = HASH_MUR [4; 3; 2; 1; 5] 5 /\
  HASH_MUR_at false ([0; 1; 2; 3; 4] ++ replicate 11 9) 1 4 = HASH_MUR_at false ([0; 5; 6; 7; 8] ++ replicate 11 9) 1 4 /\
  HASH_MUR_at false ([0; 1; 2; 3; 4] ++ replicate 6 9) 1 4 = Ub.
Proof.
  assert (forall l, forallb (fun b => (0 <=? b) && (b <? 256)) l = true -> Forall is_byte l) as Hby.
  { intros l H. apply Forall_forall. intros x Hx. rewrite forallb_forall in H. specialize (H x (proj1 (list_elem_of_In l x) Hx)). unfold is_byte. lia. }
  split; [ | split].
  - apply (mur_portable true ([0; 0; 0; 0; 1; 2; 3; 4; 5] ++ replicate 7 9) 4 5); [by apply Hby | simpl; lia.. | done].
  - apply (mur_portable false ([0; 1; 2; 3; 4] ++ replicate 11 9) 1 4); first [by apply Hby | reflexivity | simpl; lia | done].
  - apply (mur_portable false ([0; 1; 2; 3; 4] ++ replicate 6 9) 1 4); first [by apply Hby | reflexivity | simpl; lia | done].
Defined.
End UtMurmur.
