(* ===== verification/UtHash.v ===== *)
(** * The hash table of [client_server/uthash/src/uthash.h]

    An intrusive table: each element of the application embeds a handle with the
    links of two doubly linked lists, the list of all elements in the order of
    insertion and the chain of its bucket.  The heap maps the address of an
    element to its handle (the handle of a table is at a fixed offset of the
    element, [hho], so one address stands for both); the bytes the key pointer
    refers to are kept in the handle.  The macros work on one table, which every
    handle's [tbl] points to.  [malloc] is a parameter: the answer to the [n]-th
    request for a number of bytes; a failed request ends the program
    ([uthash_fatal]).  The macros are compiled without HASH_BLOOM and
    HASH_EMIT_KEYS; the Bloom filter is modelled on its own below. *)
From S2P Require Import Prelude CLib Bytes UtHashFn.

Module UtHash.
Import UtHashFn.

(** ** Data *)
Record handle := Handle {
  prev : option Z; next : option Z;
  hh_prev : option Z; hh_next : option Z;
  hkey : bytes; keylen : Z; hashv : Z }.
Record bucket := Bucket { hh_head : option Z; count : Z; expand_mult : Z }.
Record table := Table {
  buckets : list bucket; num_buckets : Z; log2_num_buckets : Z; num_items : Z;
  tbl_tail : option Z;
  ideal_chain_maxlen : Z; nonideal_items : Z; ineff_expands : Z; noexpand : Z }.
(** The head pointer of the application, the table it leads to, the handles, and
    the number of allocations so far. *)
Record ut := Ut { ut_head : option Z; ut_tbl : option table; ut_hs : gmap Z handle; ut_calls : nat }.

Definition HASH_INITIAL_NUM_BUCKETS : Z := 32.
Definition HASH_INITIAL_NUM_BUCKETS_LOG2 : Z := 5.
Definition HASH_BKT_CAPACITY_THRESH : Z := 10.
Definition sizeof_table : Z := 64.
Definition sizeof_bucket : Z := 16.
Definition sizeof_handle : Z := 56.

(** Assignments to single fields. *)
Definition set_prev (p : option Z) (h : handle) : handle :=
  Handle p (next h) (hh_prev h) (hh_next h) (hkey h) (keylen h) (hashv h).
Definition set_next (p : option Z) (h : handle) : handle :=
  Handle (prev h) p (hh_prev h) (hh_next h) (hkey h) (keylen h) (hashv h).
Definition set_hh_prev (p : option Z) (h : handle) : handle :=
  Handle (prev h) (next h) p (hh_next h) (hkey h) (keylen h) (hashv h).
Definition set_hh_next (p : option Z) (h : handle) : handle :=
  Handle (prev h) (next h) (hh_prev h) p (hkey h) (keylen h) (hashv h).
Definition set_key (k : bytes) (n : Z) (h : handle) : handle :=
  Handle (prev h) (next h) (hh_prev h) (hh_next h) k n (hashv h).
Definition set_hashv (v : Z) (h : handle) : handle :=
  Handle (prev h) (next h) (hh_prev h) (hh_next h) (hkey h) (keylen h) v.
Definition set_hh_head (p : option Z) (b : bucket) : bucket := Bucket p (count b) (expand_mult b).
Definition set_count (n : Z) (b : bucket) : bucket := Bucket (hh_head b) n (expand_mult b).
Definition set_tail (p : option Z) (t : table) : table :=
  Table (buckets t) (num_buckets t) (log2_num_buckets t) (num_items t) p
    (ideal_chain_maxlen t) (nonideal_items t) (ineff_expands t) (noexpand t).
Definition set_num_items (n : Z) (t : table) : table :=
  Table (buckets t) (num_buckets t) (log2_num_buckets t) n (tbl_tail t)
    (ideal_chain_maxlen t) (nonideal_items t) (ineff_expands t) (noexpand t).
Definition set_buckets (bs : list bucket) (t : table) : table :=
  Table bs (num_buckets t) (log2_num_buckets t) (num_items t) (tbl_tail t)
    (ideal_chain_maxlen t) (nonideal_items t) (ineff_expands t) (noexpand t).
Definition set_head (p : option Z) (s : ut) : ut := Ut p (ut_tbl s) (ut_hs s) (ut_calls s).
Definition set_tbl (t : option table) (s : ut) : ut := Ut (ut_head s) t (ut_hs s) (ut_calls s).
Definition set_hs (m : gmap Z handle) (s : ut) : ut := Ut (ut_head s) (ut_tbl s) m (ut_calls s).

(** Accesses through pointers. *)
Definition hget (m : gmap Z handle) (l : Z) : outcome handle :=
  match m !! l with Some h => Ok h | None => Ub end.
Definition hupd (m : gmap Z handle) (l : Z) (g : handle -> handle) : outcome (gmap Z handle) :=
  let! h := hget m l in Ok (<[l := g h]> m).
(** [if (p != NULL) { p->... = ...; }] *)
Definition hupd_opt (m : gmap Z handle) (p : option Z) (g : handle -> handle) : outcome (gmap Z handle) :=
  match p with Some l => hupd m l g | None => Ok m end.
Definition upd (s : ut) (l : Z) (g : handle -> handle) : outcome ut :=
  let! m := hupd (ut_hs s) l g in Ok (set_hs m s).
Definition upd_opt (s : ut) (p : option Z) (g : handle -> handle) : outcome ut :=
  let! m := hupd_opt (ut_hs s) p g in Ok (set_hs m s).
(** [(head)->hh.tbl] *)
Definition the_tbl (s : ut) : outcome table :=
  match ut_head s with
  | None => Ub
  | Some l => let! _ := hget (ut_hs s) l in match ut_tbl s with Some t => Ok t | None => Ub end
  end.
Definition upd_tbl (s : ut) (g : table -> table) : outcome ut :=
  let! t := the_tbl s in Ok (set_tbl (Some (g t)) s).
Definition upd_bkt (s : ut) (i : Z) (g : bucket -> bucket) : outcome ut :=
  let! t := the_tbl s in
  let! b := rd (buckets t) i in
  let! bs := wr (buckets t) i (g b) in
  Ok (set_tbl (Some (set_buckets bs t)) s).
Definition get_bkt (s : ut) (i : Z) : outcome bucket :=
  let! t := the_tbl s in rd (buckets t) i.

(** ** Lookup *)

(** The macro HASH_KEYCMP: whether [memcmp] of the first [n] bytes gives 0. *)
Definition HASH_KEYCMP (a b : bytes) (n : Z) : outcome bool :=
  let! x := load a 0 n in
  let! y := load b 0 n in
  Ok (bool_decide (x = y)).

Fixpoint HASH_FIND_IN_BKT (m : gmap Z handle) (fuel : nat) (out : option Z) (key : bytes) (keylen_in : Z)
  : outcome (option Z) :=
  match out with
  | None => Ok None
  | Some l =>
      match fuel with
      | O => NoFuel
      | S fuel =>
          let! h := hget m l in
          let! same := if keylen h =? keylen_in then HASH_KEYCMP (hkey h) key keylen_in else Ok false in
          if same : bool then Ok (Some l) else HASH_FIND_IN_BKT m fuel (hh_next h) key keylen_in
      end
  end.

Definition HASH_FIND (s : ut) (key : bytes) (keylen_in : Z) : outcome (option Z) :=
  match ut_head s with
  | None => Ok None
  | Some _ =>
      let! t := the_tbl s in
      let! v := HASH_JEN key keylen_in in
      let! b := rd (buckets t) (HASH_TO_BKT v (num_buckets t)) in
      HASH_FIND_IN_BKT (ut_hs s) (size (ut_hs s)) (hh_head b) key keylen_in
  end.

Section Alloc.
(** The answers of [malloc]. *)
Context (malloc : nat -> Z -> bool).

Definition alloc (s : ut) (size : Z) : outcome ut :=
  if malloc (ut_calls s) size then Ok (Ut (ut_head s) (ut_tbl s) (ut_hs s) (S (ut_calls s)))
  else Exit (-1).

(** ** The table *)
Definition zero_bucket : bucket := Bucket None 0 0.

Definition HASH_MAKE_TABLE (s : ut) : outcome ut :=
  let! s := alloc s sizeof_table in
  let! s := alloc s (HASH_INITIAL_NUM_BUCKETS * sizeof_bucket) in
  Ok (set_tbl (Some (Table (replicate (Z.to_nat HASH_INITIAL_NUM_BUCKETS) zero_bucket)
        HASH_INITIAL_NUM_BUCKETS HASH_INITIAL_NUM_BUCKETS_LOG2 0 (ut_head s) 0 0 0 0)) s).

(** One step of the inner loop of HASH_EXPAND_BUCKETS: [thh] moves to the front of
    its new bucket. *)
Definition he_move (m : gmap Z handle) (newb : list bucket) (nonideal thh nb ideal : Z)
  : outcome (gmap Z handle * list bucket * Z) :=
  let! h := hget m thh in
  let bkt := HASH_TO_BKT (hashv h) (u32 (nb * 2)) in
  let! b := rd newb bkt in
  let c := u32 (count b + 1) in
  let! '(nonideal, mult) :=
    if c >? ideal then (if ideal =? 0 then Ub else Ok (u32 (nonideal + 1), c / ideal))
    else Ok (nonideal, expand_mult b) in
  let! m := hupd m thh (set_hh_prev None) in
  let! m := hupd m thh (set_hh_next (hh_head b)) in
  let! m := hupd_opt m (hh_head b) (set_hh_prev (Some thh)) in
  let! newb := wr newb bkt (Bucket (Some thh) c mult) in
  Ok (m, newb, nonideal).

(** [while (_he_thh != NULL)] *)
Fixpoint he_chain (m : gmap Z handle) (fuel : nat) (thh : option Z) (newb : list bucket) (nonideal nb ideal : Z)
  : outcome (gmap Z handle * list bucket * Z) :=
  match thh with
  | None => Ok (m, newb, nonideal)
  | Some l =>
      match fuel with
      | O => NoFuel
      | S fuel =>
          let! h := hget m l in
          let nxt := hh_next h in
          let! '(m, newb, nonideal) := he_move m newb nonideal l nb ideal in
          he_chain m fuel nxt newb nonideal nb ideal
      end
  end.

(** [for (_he_bkt_i = 0; _he_bkt_i < tbl->num_buckets; _he_bkt_i++)] *)
Fixpoint he_loop (m : gmap Z handle) (n : nat) (i : Z) (old newb : list bucket) (nonideal nb ideal : Z)
  : outcome (gmap Z handle * list bucket * Z) :=
  match n with
  | O => Ok (m, newb, nonideal)
  | S n =>
      let! b := rd old i in
      let! '(m, newb, nonideal) := he_chain m (size m) (hh_head b) newb nonideal nb ideal in
      he_loop m n (i + 1) old newb nonideal nb ideal
  end.

Definition HASH_EXPAND_BUCKETS (s : ut) : outcome ut :=
  let! t := the_tbl s in
  let! s := alloc s (2 * num_buckets t * sizeof_bucket) in
  let newb := replicate (Z.to_nat (2 * num_buckets t)) zero_bucket in
  let lb := u32 (log2_num_buckets t + 1) in
  let! q := if lb <? 32 then Ok (shr (num_items t) lb) else Ub in
  let ideal := u32 (q +
    (if Z.land (num_items t) (u32 (u32 (num_buckets t * 2) - 1)) =? 0 then 0 else 1)) in
  let! '(m, newb, nonideal) :=
    he_loop (ut_hs s) (Z.to_nat (num_buckets t)) 0 (buckets t) newb 0 (num_buckets t) ideal in
  let ineff := if nonideal >? shr (num_items t) 1 then u32 (ineff_expands t + 1) else 0 in
  Ok (set_tbl (Some (Table newb (u32 (num_buckets t * 2)) (u32 (log2_num_buckets t + 1)) (num_items t)
        (tbl_tail t) ideal nonideal ineff (if ineff >? 1 then 1 else noexpand t))) (set_hs m s)).

Definition HASH_ADD_TO_BKT (s : ut) (bkt addhh : Z) : outcome ut :=
  let! s := upd_bkt s bkt (fun b => set_count (u32 (count b + 1)) b) in
  let! b := get_bkt s bkt in
  let! s := upd s addhh (set_hh_next (hh_head b)) in
  let! s := upd s addhh (set_hh_prev None) in
  let! s := upd_opt s (hh_head b) (set_hh_prev (Some addhh)) in
  let! s := upd_bkt s bkt (set_hh_head (Some addhh)) in
  let! b := get_bkt s bkt in
  let! t := the_tbl s in
  if (count b >=? u32 (u32 (expand_mult b + 1) * HASH_BKT_CAPACITY_THRESH)) && negb (noexpand t =? 1)
  then HASH_EXPAND_BUCKETS s
  else Ok s.

(** ** Insertion

    The handles of one table all hold the same [tbl] pointer, which is set when they are
    added and only used to reach the table; the model keeps the table once, in the state,
    and the macros reach it there. *)
Definition HASH_ADD_KEYPTR (s : ut) (key : bytes) (keylen_in : Z) (add : Z) : outcome ut :=
  let! s := upd s add (set_next None) in
  let! s := upd s add (set_key key (u32 keylen_in)) in
  let! s :=
    match ut_head s with
    | None =>
        let s := set_head (Some add) s in
        let! s := upd s add (set_prev None) in
        HASH_MAKE_TABLE s
    | Some _ =>
        let! t := the_tbl s in
        let! tl := match tbl_tail t with Some l => Ok l | None => Ub end in
        let! s := upd s tl (set_next (Some add)) in
        let! s := upd s add (set_prev (Some tl)) in
        upd_tbl s (set_tail (Some add))
    end in
  let! s := upd_tbl s (fun t => set_num_items (u32 (num_items t + 1)) t) in
  let! t := the_tbl s in
  let! v := HASH_JEN key keylen_in in
  let! s := upd s add (set_hashv v) in
  HASH_ADD_TO_BKT s (HASH_TO_BKT v (num_buckets t)) add.

(** ** Removal *)
Definition HASH_DEL_IN_BKT (s : ut) (bkt hh_del : Z) : outcome ut :=
  let! s := upd_bkt s bkt (fun b => set_count (u32 (count b - 1)) b) in
  let! b := get_bkt s bkt in
  let! d := hget (ut_hs s) hh_del in
  let! s := if bool_decide (hh_head b = Some hh_del) then upd_bkt s bkt (set_hh_head (hh_next d)) else Ok s in
  let! s := upd_opt s (hh_prev d) (set_hh_next (hh_next d)) in
  upd_opt s (hh_next d) (set_hh_prev (hh_prev d)).

Definition HASH_DELETE (s : ut) (delptr : Z) : outcome ut :=
  let! d := hget (ut_hs s) delptr in
  match prev d, next d with
  | None, None =>
      let! _ := the_tbl s in
      Ok (set_tbl None (set_head None s))
  | _, _ =>
      let! t := the_tbl s in
      let! s := if bool_decide (tbl_tail t = Some delptr) then upd_tbl s (set_tail (prev d)) else Ok s in
      let! s := match prev d with
                | Some p => upd s p (set_next (next d))
                | None => Ok (set_head (next d) s)
                end in
      let! s := upd_opt s (next d) (set_prev (prev d)) in
      let! t := the_tbl s in
      let! s := HASH_DEL_IN_BKT s (HASH_TO_BKT (hashv d) (num_buckets t)) delptr in
      upd_tbl s (fun t => set_num_items (u32 (num_items t - 1)) t)
  end.

Definition HASH_REPLACE (s : ut) (key : bytes) (keylen_in add : Z) : outcome (ut * option Z) :=
  let! replaced := HASH_FIND s key keylen_in in
  let! s := match replaced with Some l => HASH_DELETE s l | None => Ok s end in
  let! s := HASH_ADD_KEYPTR s key keylen_in add in
  Ok (s, replaced).

(** ** Whole table *)
Definition HASH_CLEAR (s : ut) : outcome ut :=
  match ut_head s with
  | None => Ok s
  | Some _ => let! _ := the_tbl s in Ok (set_tbl None (set_head None s))
  end.

Definition HASH_CNT (s : ut) : outcome Z :=
  match ut_head s with
  | None => Ok 0
  | Some _ => let! t := the_tbl s in Ok (num_items t)
  end.

Definition HASH_OVERHEAD (s : ut) : outcome Z :=
  match ut_head s with
  | None => Ok 0
  | Some _ =>
      let! t := the_tbl s in
      Ok (u64 (num_items t * sizeof_handle + num_buckets t * sizeof_bucket + sizeof_table + 0))
  end.
End Alloc.

(** The loop header HASH_ITER with a body: [tmp] is read before the body runs, so
    that the body may remove [el]. *)
Section Iter.
Context {St : Type} (heap_of : St -> gmap Z handle) (body : St -> Z -> outcome St).
Fixpoint iter_loop (s : St) (fuel : nat) (el tmp : option Z) : outcome St :=
  match el with
  | None => Ok s
  | Some l =>
      match fuel with
      | O => NoFuel
      | S fuel =>
          let! s := body s l in
          let! tmp' := match tmp with
                       | Some t => let! h := hget (heap_of s) t in Ok (next h)
                       | None => Ok None
                       end in
          iter_loop s fuel tmp tmp'
      end
  end.
Definition HASH_ITER (s : St) (head : option Z) : outcome St :=
  let! tmp := match head with
              | Some l => let! h := hget (heap_of s) l in Ok (next h)
              | None => Ok None
              end in
  iter_loop s (size (heap_of s)) head tmp.
End Iter.

(** ** The consistency check HASH_FSCK; HASH_OOPS ends the program *)
Fixpoint fsck_chain (m : gmap Z handle) (fuel : nat) (thh prv : option Z) (n : Z) : outcome Z :=
  match thh with
  | None => Ok n
  | Some l =>
      match fuel with
      | O => NoFuel
      | S fuel =>
          let! h := hget m l in
          if bool_decide (prv = hh_prev h) then fsck_chain m fuel (hh_next h) (Some l) (u32 (n + 1))
          else Exit (-1)
      end
  end.
Fixpoint fsck_buckets (m : gmap Z handle) (n : nat) (i : Z) (bs : list bucket) (cnt : Z) : outcome Z :=
  match n with
  | O => Ok cnt
  | S n =>
      let! b := rd bs i in
      let! c := fsck_chain m (size m) (hh_head b) None 0 in
      if count b =? c then fsck_buckets m n (i + 1) bs (u32 (cnt + c)) else Exit (-1)
  end.
Fixpoint fsck_list (m : gmap Z handle) (fuel : nat) (thh prv : option Z) (n : Z) : outcome Z :=
  match thh with
  | None => Ok n
  | Some l =>
      match fuel with
      | O => NoFuel
      | S fuel =>
          let! h := hget m l in
          if bool_decide (prv = prev h) then fsck_list m fuel (next h) (Some l) (u32 (n + 1))
          else Exit (-1)
      end
  end.
Definition HASH_FSCK (s : ut) : outcome unit :=
  match ut_head s with
  | None => Ok tt
  | Some l =>
      let! t := the_tbl s in
      let! c := fsck_buckets (ut_hs s) (Z.to_nat (num_buckets t)) 0 (buckets t) 0 in
      if negb (c =? num_items t) then Exit (-1) else
      let! c := fsck_list (ut_hs s) (size (ut_hs s)) (Some l) None 0 in
      if negb (c =? num_items t) then Exit (-1) else Ok tt
  end.

(** ** Convenience forms *)

(** The bytes of an [int] and of a pointer in memory. *)
Definition int_key (z : Z) : bytes := le_bytes 4 (u32 z).
Definition ptr_key (p : Z) : bytes := le_bytes 8 (u64 p).
(** The characters of a string in memory in front of its NUL; [strlen] is their
    number, and no byte behind them is read. *)
Definition str_key (s : bytes) : outcome bytes :=
  match until_nul s with Some s => Ok s | None => Ub end.

Definition HASH_FIND_INT (s : ut) (findint : Z) : outcome (option Z) := HASH_FIND s (int_key findint) 4.
Definition HASH_FIND_PTR (s : ut) (findptr : Z) : outcome (option Z) := HASH_FIND s (ptr_key findptr) 8.
Definition HASH_FIND_STR (s : ut) (findstr : bytes) : outcome (option Z) :=
  let! k := str_key findstr in HASH_FIND s k (u32 (len k)).
Section Forms.
Context (malloc : nat -> Z -> bool).
Definition HASH_ADD_INT (s : ut) (i add : Z) : outcome ut := HASH_ADD_KEYPTR malloc s (int_key i) 4 add.
Definition HASH_ADD_PTR (s : ut) (p add : Z) : outcome ut := HASH_ADD_KEYPTR malloc s (ptr_key p) 8 add.
Definition HASH_ADD_STR (s : ut) (str : bytes) (add : Z) : outcome ut :=
  let! k := str_key str in HASH_ADD_KEYPTR malloc s k (u32 (len k)) add.
Definition HASH_REPLACE_INT (s : ut) (i add : Z) : outcome (ut * option Z) :=
  HASH_REPLACE malloc s (int_key i) 4 add.
Definition HASH_REPLACE_PTR (s : ut) (p add : Z) : outcome (ut * option Z) :=
  HASH_REPLACE malloc s (ptr_key p) 8 add.
Definition HASH_REPLACE_STR (s : ut) (str : bytes) (add : Z) : outcome (ut * option Z) :=
  let! k := str_key str in HASH_REPLACE malloc s k (u32 (len k)) add.
End Forms.
Definition HASH_DEL : ut -> Z -> outcome ut := HASH_DELETE.
Definition HASH_COUNT : ut -> outcome Z := HASH_CNT.
End UtHash.
