(* ===== verification/UtHashProof.v ===== *)
(** * Doubly linked lists in the heap and the invariant of the uthash table

    [dseg f p ls n]: the locations [ls] are linked by [f] (the previous and next
    link of a location), the first one back to [p] and the last one on to [n].
    The lists of the table are two instances, one per pair of links.  The second
    half states the invariant of a table and shows that every macro keeps it. *)
From S2P Require Import Prelude CLib Bytes UtHashFn UtHash.

Module UtHashProof.
Import UtHashFn UtHash.

Lemma NoDup_snoc (ls : list Z) x : NoDup ls -> x ∉ ls -> NoDup (ls ++ [x]).
Proof.
  intros Hn Hx. apply NoDup_app. split; [done | ]. split; [ | apply NoDup_singleton].
  by intros l Hl ->%list_elem_of_singleton.
Qed.

(** ** Linked segments *)
Definition links := Z -> option (option Z * option Z).
Definition first (ls : list Z) (n : option Z) : option Z :=
  match ls with [] => n | l :: _ => Some l end.
Definition final (p : option Z) (ls : list Z) : option Z :=
  match last ls with Some l => Some l | None => p end.
Fixpoint dseg (f : links) (p : option Z) (ls : list Z) (n : option Z) : Prop :=
  match ls with
  | [] => True
  | l :: ls => f l = Some (p, first ls n) /\ dseg f (Some l) ls n
  end.

(** Changes of one link. *)
Definition upd_nx (f : links) (l : Z) (q : option Z) : links :=
  fun x => if decide (x = l) then (fun '(p, _) => (p, q)) <$> f x else f x.
Definition upd_pv (f : links) (l : Z) (q : option Z) : links :=
  fun x => if decide (x = l) then (fun '(_, n) => (q, n)) <$> f x else f x.
Definition upd_nx_opt (f : links) (p q : option Z) : links :=
  match p with Some l => upd_nx f l q | None => f end.
Definition upd_pv_opt (f : links) (p q : option Z) : links :=
  match p with Some l => upd_pv f l q | None => f end.

Lemma first_app a b n : first (a ++ b) n = first a (first b n).
Proof. by destruct a. Qed.
Lemma final_cons p l ls : final p (l :: ls) = final (Some l) ls.
Proof. unfold final. rewrite last_cons. by destruct (last ls). Qed.
Lemma final_snoc p ls l : final p (ls ++ [l]) = Some l.
Proof. unfold final. by rewrite last_snoc. Qed.
Lemma first_elem ls l : first ls None = Some l -> l ∈ ls.
Proof. destruct ls; [done | ]. intros [= ->]. left. Qed.
Lemma final_elem ls l : final None ls = Some l -> l ∈ ls.
Proof. unfold final. destruct (last ls) eqn:E; [ | done]. intros [= ->]. by apply last_Some_elem_of. Qed.

Lemma upd_nx_opt_other f p q x : p <> Some x -> upd_nx_opt f p q x = f x.
Proof. destruct p as [l | ]; [ | done]. intros Hx. cbn. unfold upd_nx. by rewrite decide_False by congruence. Qed.
Lemma upd_pv_opt_other f p q x : p <> Some x -> upd_pv_opt f p q x = f x.
Proof. destruct p as [l | ]; [ | done]. intros Hx. cbn. unfold upd_pv. by rewrite decide_False by congruence. Qed.
Lemma upd_nx_opt_ext f g p q x : f x = g x -> upd_nx_opt f p q x = upd_nx_opt g p q x.
Proof. intros H. destruct p; cbn; [ | done]. unfold upd_nx. by rewrite H. Qed.
Lemma upd_pv_opt_ext f g p q x : f x = g x -> upd_pv_opt f p q x = upd_pv_opt g p q x.
Proof. intros H. destruct p; cbn; [ | done]. unfold upd_pv. by rewrite H. Qed.

Lemma dseg_ext f g p ls n : (forall l, l ∈ ls -> g l = f l) -> dseg f p ls n -> dseg g p ls n.
Proof.
  revert p. induction ls as [ | l ls IH]; intros p He Hd; [done | ]. destruct Hd as [H1 H2]. split.
  - rewrite He by left. done.
  - apply IH; [ | done]. intros x Hx. apply He. by right.
Qed.
Lemma dseg_app f p a b n : dseg f p (a ++ b) n <-> dseg f p a (first b n) /\ dseg f (final p a) b n.
Proof.
  revert p. induction a as [ | l a IH]; intros p; [split; [done | by intros []] | ].
  rewrite final_cons. cbn [app dseg]. rewrite IH, first_app. tauto.
Qed.

(** The next link of the last, the previous link of the first location. *)
Lemma dseg_retail f p a n n' : NoDup a -> dseg f p a n -> dseg (upd_nx_opt f (final None a) n') p a n'.
Proof.
  destruct a as [ | l a _] using rev_ind; [done | ]. intros Hnd.
  rewrite final_snoc, !dseg_app. intros [H1 [H2 _]]. apply NoDup_app in Hnd as (_ & Hl & _). split.
  - eapply dseg_ext; [ | exact H1]. intros x Hx. apply upd_nx_opt_other. intros [= ->]. apply (Hl x Hx). left.
  - split; [ | done]. cbn. unfold upd_nx. by rewrite decide_True, H2.
Qed.
Lemma dseg_rehead f p p' b n : NoDup b -> dseg f p b n -> dseg (upd_pv_opt f (first b None) p') p' b n.
Proof.
  destruct b as [ | l b]; [done | ]. intros Hnd [H1 H2]. apply NoDup_cons in Hnd as [Hl _]. split.
  - cbn. unfold upd_pv. by rewrite decide_True, H1.
  - eapply dseg_ext; [ | exact H2]. intros x Hx. apply upd_pv_opt_other. intros [= ->]. done.
Qed.

(** Taking a location out, as HASH_DELETE and HASH_DEL_IN_BKT do. *)
Lemma dseg_unlink f a x b :
  NoDup (a ++ x :: b) -> dseg f None (a ++ x :: b) None ->
  f x = Some (final None a, first b None) /\
  dseg (upd_pv_opt (upd_nx_opt f (final None a) (first b None)) (first b None) (final None a)) None (a ++ b) None.
Proof.
  intros Hnd. rewrite !dseg_app. cbn [dseg]. intros (Ha & Hx & Hb). split; [done | ].
  apply NoDup_app in Hnd as (Hna & Hab & Hnb). apply NoDup_cons in Hnb as [Hxb Hnb]. split.
  - apply (dseg_ext (upd_nx_opt f (final None a) (first b None))); [ | by eapply dseg_retail].
    intros y Hy. apply upd_pv_opt_other. intros E%first_elem. apply (Hab y Hy). by right.
  - apply dseg_rehead with (p := Some x); [done | ]. eapply dseg_ext; [ | exact Hb].
    intros y Hy. apply upd_nx_opt_other. intros E%final_elem. apply (Hab y E). by right.
Qed.

(** A new first location, as HASH_ADD_TO_BKT and HASH_EXPAND_BUCKETS link it. *)
Lemma dseg_push f g x c :
  NoDup (x :: c) -> dseg f None c None -> g x = Some (None, first c None) ->
  (forall y, y <> x -> g y = upd_pv_opt f (first c None) (Some x) y) -> dseg g None (x :: c) None.
Proof.
  intros Hnd Hd Hx Hy. apply NoDup_cons in Hnd as [Hxc Hnd]. split; [done | ].
  apply (dseg_ext (upd_pv_opt f (first c None) (Some x))); [ | by apply dseg_rehead with (p := None)].
  intros y Hyc. apply Hy. by intros ->.
Qed.

(** A new last location. *)
Lemma dseg_snoc f g ls x :
  NoDup (ls ++ [x]) -> dseg f None ls None -> g x = Some (final None ls, None) ->
  (forall y, y <> x -> g y = upd_nx_opt f (final None ls) (Some x) y) -> dseg g None (ls ++ [x]) None.
Proof.
  intros Hnd Hd Hx Hy. apply NoDup_app in Hnd as (Hnd & Hxl & _). rewrite dseg_app. split; [ | by split].
  apply (dseg_ext (upd_nx_opt f (final None ls) (Some x))); [ | by apply dseg_retail with (n := None)].
  intros y Hyl. apply Hy. intros ->. apply (Hxl x Hyl). left.
Qed.

(** ** Views of the heap *)
Definition app_links (m : gmap Z handle) : links := fun l => (fun h => (prev h, next h)) <$> m !! l.
Definition bkt_links (m : gmap Z handle) : links := fun l => (fun h => (hh_prev h, hh_next h)) <$> m !! l.
Definition stat (m : gmap Z handle) (l : Z) : option (bytes * Z * Z) :=
  (fun h => (hkey h, keylen h, hashv h)) <$> m !! l.

Lemma hget_some m l h : m !! l = Some h -> hget m l = Ok h.
Proof. intros H. unfold hget. by rewrite H. Qed.

(** The heap [m'] has the locations of [m] and the given views. *)
Definition view (m m' : gmap Z handle) (fa fb : links) (st : Z -> option (bytes * Z * Z)) : Prop :=
  dom m' = dom m /\ (forall x, app_links m' x = fa x) /\ (forall x, bkt_links m' x = fb x) /\
  (forall x, stat m' x = st x).
Definition upd_stat (st : Z -> option (bytes * Z * Z)) (l : Z) (g : bytes * Z * Z -> bytes * Z * Z) :=
  fun x => if decide (x = l) then g <$> st x else st x.

(** What an assignment changes. *)
Ltac view_tac :=
  let h := fresh "h" in let Hh := fresh "Hh" in
  intros [h Hh]; unfold hupd; rewrite (hget_some _ _ _ Hh), obind_ok; eexists; split; [reflexivity | ];
  split; [by apply dom_insert_lookup_L | ];
  unfold app_links, bkt_links, stat, upd_nx, upd_pv, upd_stat;
  split; [ | split]; intros x;
  match goal with |- context [<[?l := _]> _] => destruct (decide (x = l)) as [-> | ?] end;
  rewrite ?lookup_insert_eq, ?lookup_insert_ne by done; rewrite ?Hh; reflexivity.
Lemma set_next_view m l q : is_Some (m !! l) -> exists m', hupd m l (set_next q) = Ok m' /\
  view m m' (upd_nx (app_links m) l q) (bkt_links m) (stat m).
Proof. view_tac. Qed.
Lemma set_prev_view m l q : is_Some (m !! l) -> exists m', hupd m l (set_prev q) = Ok m' /\
  view m m' (upd_pv (app_links m) l q) (bkt_links m) (stat m).
Proof. view_tac. Qed.
Lemma set_hh_next_view m l q : is_Some (m !! l) -> exists m', hupd m l (set_hh_next q) = Ok m' /\
  view m m' (app_links m) (upd_nx (bkt_links m) l q) (stat m).
Proof. view_tac. Qed.
Lemma set_hh_prev_view m l q : is_Some (m !! l) -> exists m', hupd m l (set_hh_prev q) = Ok m' /\
  view m m' (app_links m) (upd_pv (bkt_links m) l q) (stat m).
Proof. view_tac. Qed.
Lemma set_key_view m l k n : is_Some (m !! l) -> exists m', hupd m l (set_key k n) = Ok m' /\
  view m m' (app_links m) (bkt_links m) (upd_stat (stat m) l (fun '(_, _, v) => (k, n, v))).
Proof. view_tac. Qed.
Lemma set_hashv_view m l v : is_Some (m !! l) -> exists m', hupd m l (set_hashv v) = Ok m' /\
  view m m' (app_links m) (bkt_links m) (upd_stat (stat m) l (fun '(k, n, _) => (k, n, v))).
Proof. view_tac. Qed.

Lemma view_refl m : view m m (app_links m) (bkt_links m) (stat m).
Proof. done. Qed.
Lemma set_next_opt_view m p q : (forall l, p = Some l -> is_Some (m !! l)) -> exists m',
  hupd_opt m p (set_next q) = Ok m' /\ view m m' (upd_nx_opt (app_links m) p q) (bkt_links m) (stat m).
Proof. destruct p as [l | ]; intros H; [apply set_next_view; by apply H | by exists m]. Qed.
Lemma set_prev_opt_view m p q : (forall l, p = Some l -> is_Some (m !! l)) -> exists m',
  hupd_opt m p (set_prev q) = Ok m' /\ view m m' (upd_pv_opt (app_links m) p q) (bkt_links m) (stat m).
Proof. destruct p as [l | ]; intros H; [apply set_prev_view; by apply H | by exists m]. Qed.
Lemma set_hh_next_opt_view m p q : (forall l, p = Some l -> is_Some (m !! l)) -> exists m',
  hupd_opt m p (set_hh_next q) = Ok m' /\ view m m' (app_links m) (upd_nx_opt (bkt_links m) p q) (stat m).
Proof. destruct p as [l | ]; intros H; [apply set_hh_next_view; by apply H | by exists m]. Qed.
Lemma set_hh_prev_opt_view m p q : (forall l, p = Some l -> is_Some (m !! l)) -> exists m',
  hupd_opt m p (set_hh_prev q) = Ok m' /\ view m m' (app_links m) (upd_pv_opt (bkt_links m) p q) (stat m).
Proof. destruct p as [l | ]; intros H; [apply set_hh_prev_view; by apply H | by exists m]. Qed.

(** Locations of the heap. *)
Lemma dom_alive (m m' : gmap Z handle) l : dom m' = dom m -> is_Some (m !! l) -> is_Some (m' !! l).
Proof. intros Hd. rewrite <- !elem_of_dom, Hd. done. Qed.
Lemma dom_size (m m' : gmap Z handle) : dom m' = dom m -> size m' = size m.
Proof. intros Hd. by rewrite <- !size_dom, Hd. Qed.
Lemma links_alive m l p : app_links m l = Some p -> is_Some (m !! l).
Proof. unfold app_links. destruct (m !! l); [eauto | done]. Qed.
Lemma bkt_links_alive m l p : bkt_links m l = Some p -> is_Some (m !! l).
Proof. unfold bkt_links. destruct (m !! l); [eauto | done]. Qed.
Lemma stat_alive m l p : stat m l = Some p -> is_Some (m !! l).
Proof. unfold stat. destruct (m !! l); [eauto | done]. Qed.
Lemma dseg_links f p ls n l : dseg f p ls n -> l ∈ ls -> exists q, f l = Some q.
Proof.
  revert p. induction ls as [ | x ls IH]; intros p; [by intros _ ?%elem_of_nil | ].
  intros [H1 H2] [-> | Hl]%elem_of_cons; eauto.
Qed.
(** A duplicate-free list of locations fits in the heap. *)
Lemma alive_length (m : gmap Z handle) ls :
  NoDup ls -> (forall l, l ∈ ls -> is_Some (m !! l)) -> (length ls <= size m)%nat.
Proof.
  intros Hnd Hl. rewrite <- (size_list_to_set (C := gset Z) ls) by done.
  rewrite <- size_dom. apply subseteq_size. intros x Hx%elem_of_list_to_set. apply elem_of_dom. auto.
Qed.

(** ** Buckets *)
Lemma elem_of_concat (bs : list (list Z)) l : l ∈ concat bs <-> exists c, l ∈ c /\ c ∈ bs.
Proof.
  rewrite list_elem_of_In, in_concat. split; intros (c & H1 & H2); exists c.
  - by rewrite !list_elem_of_In.
  - rewrite !list_elem_of_In in *. done.
Qed.
Definition bucket_ok (m : gmap Z handle) (k : Z) (i : nat) (b : bucket) (c : list Z) : Prop :=
  hh_head b = first c None /\ count b = len c /\ dseg (bkt_links m) None c None /\
  forall l, l ∈ c -> exists q v, stat m l = Some (q, v) /\ HASH_TO_BKT v (2 ^ k) = Z.of_nat i.
Definition buckets_ok (m : gmap Z handle) (k : Z) (nb : list bucket) (bs : list (list Z)) : Prop :=
  length nb = length bs /\
  forall i b c, nb !! i = Some b -> bs !! i = Some c -> bucket_ok m k i b c.

Lemma bucket_ok_ext m m' k i b c :
  (forall l, l ∈ c -> bkt_links m' l = bkt_links m l) -> (forall l, l ∈ c -> stat m' l = stat m l) ->
  bucket_ok m k i b c -> bucket_ok m' k i b c.
Proof.
  intros Hb Hs (H1 & H2 & H3 & H4). repeat split; [done | done | by eapply dseg_ext | ].
  intros l Hl. rewrite Hs by done. auto.
Qed.
Lemma buckets_ok_ext m m' k nb bs :
  (forall l, l ∈ concat bs -> bkt_links m' l = bkt_links m l) -> (forall l, l ∈ concat bs -> stat m' l = stat m l) ->
  buckets_ok m k nb bs -> buckets_ok m' k nb bs.
Proof.
  intros Hb Hs [H1 H2]. split; [done | ]. intros i b c Hi Hc.
  assert (forall l, l ∈ c -> l ∈ concat bs) as Hin.
  { intros l Hl. apply elem_of_concat. exists c. split; [done | by eapply list_elem_of_lookup_2]. }
  apply (bucket_ok_ext m); auto.
Qed.

(** Replacing one chain in a list of chains. *)
Lemma concat_split (bs : list (list Z)) i c c' :
  bs !! i = Some c -> exists p q, concat bs = p ++ c ++ q /\ concat (<[i := c']> bs) = p ++ c' ++ q /\
    forall j d l, j <> i -> bs !! j = Some d -> l ∈ d -> l ∈ p ++ q.
Proof.
  intros Hi. exists (concat (take i bs)), (concat (drop (S i) bs)).
  rewrite (insert_take_drop bs i c') by (by eapply lookup_lt_Some).
  rewrite <- (take_drop_middle bs i c Hi) at 1. rewrite !concat_app. cbn [concat]. split; [done | ]. split; [done | ].
  intros j d l Hj Hd Hl. rewrite <- concat_app. apply elem_of_concat. exists d. split; [done | ].
  apply list_elem_of_lookup. destruct (decide (j < i)%nat).
  - exists j. rewrite lookup_app_l by (rewrite length_take; apply lookup_lt_Some in Hi; lia). by rewrite lookup_take_lt.
  - exists (j - 1)%nat. rewrite lookup_app_r by (rewrite length_take; lia).
    rewrite length_take, lookup_drop. rewrite <- Hd. f_equal. apply lookup_lt_Some in Hi. lia.
Qed.

(** A chain [c] becomes [c'], the other chains are not touched. *)
Lemma buckets_set m m' k nb bs i c b' c' :
  buckets_ok m k nb bs -> NoDup (concat bs) -> bs !! i = Some c ->
  (forall l, l ∈ concat bs -> l ∉ c -> bkt_links m' l = bkt_links m l) ->
  (forall l, stat m' l = stat m l) -> bucket_ok m' k i b' c' ->
  buckets_ok m' k (<[i := b']> nb) (<[i := c']> bs).
Proof.
  intros [H1 H2] Hnd Hi Hb Hs Hok. split; [by rewrite !length_insert | ].
  destruct (concat_split bs i c c' Hi) as (p & q & E & _ & Hpq).
  intros j b d Hj Hd. destruct (decide (j = i)) as [-> | Hji].
  - apply lookup_lt_Some in Hi as Hlt. rewrite list_lookup_insert_eq in Hj by lia.
    rewrite list_lookup_insert_eq in Hd by lia. by simplify_eq.
  - rewrite list_lookup_insert_ne in Hj by done. rewrite list_lookup_insert_ne in Hd by done.
    apply (bucket_ok_ext m); [ | auto | by apply H2]. intros l Hl. specialize (Hpq j d l Hji Hd Hl).
    rewrite E in Hnd, Hb. apply Hb; [set_solver | ]. intros Hc.
    apply NoDup_app in Hnd as (_ & Hp & (_ & Hcq & _)%NoDup_app). apply elem_of_app in Hpq as [Hp' | Hq'].
    + apply (Hp l Hp'). set_solver.
    + by apply (Hcq l Hc).
Qed.

Lemma zero_buckets_ok m k n : buckets_ok m k (replicate n zero_bucket) (replicate n []).
Proof.
  split; [by rewrite !length_replicate | ]. intros i b c Hb Hc.
  apply lookup_replicate_1 in Hb as [-> _]. apply lookup_replicate_1 in Hc as [-> _].
  repeat split. by intros l ?%elem_of_nil.
Qed.
Lemma concat_nils n : concat (replicate n ([] : list Z)) = [].
Proof. induction n; [done | ]. cbn. done. Qed.

Lemma chain_len (bs : list (list Z)) i c : bs !! i = Some c -> (length c <= length (concat bs))%nat.
Proof. intros Hi. destruct (concat_split bs i c c Hi) as (p & q & -> & _). rewrite !length_app. lia. Qed.

(** Pushing a location on a chain. *)
Lemma buckets_push m m' k nb bs i c b' x q v :
  buckets_ok m k nb bs -> NoDup (x :: concat bs) -> bs !! i = Some c ->
  stat m x = Some (q, v) -> HASH_TO_BKT v (2 ^ k) = Z.of_nat i ->
  (forall l, stat m' l = stat m l) -> bkt_links m' x = Some (None, first c None) ->
  (forall y, y <> x -> bkt_links m' y = upd_pv_opt (bkt_links m) (first c None) (Some x) y) ->
  hh_head b' = Some x -> count b' = len c + 1 ->
  buckets_ok m' k (<[i := b']> nb) (<[i := x :: c]> bs) /\ concat (<[i := x :: c]> bs) ≡ₚ x :: concat bs.
Proof.
  intros Hok Hnd Hi Hst Hv Hs Hx Hy Hh Hc. apply NoDup_cons in Hnd as [Hxb Hnd].
  destruct (concat_split bs i c (x :: c) Hi) as (p & r & E1 & E2 & _). split.
  2:{ rewrite E1, E2. cbn [app]. symmetry. apply Permutation_middle. }
  assert (NoDup (x :: c)) as Hxc.
  { apply NoDup_cons. split; [intros H; apply Hxb; rewrite E1; set_solver | ].
    rewrite E1 in Hnd. apply NoDup_app in Hnd as (_ & _ & Hnd). by apply NoDup_app in Hnd as [? _]. }
  apply (buckets_set m m' k nb bs i c b' (x :: c)); try done.
  - intros l Hl Hlc. rewrite Hy by (by intros ->). apply upd_pv_opt_other. by intros ?%first_elem.
  - destruct Hok as [Hlen Hok]. destruct (lookup_lt_is_Some_2 nb i) as [b Hb].
    { rewrite Hlen. by eapply lookup_lt_Some. }
    destruct (Hok i b c Hb Hi) as (_ & _ & Hd & Hm). split; [done | ]. split; [cbn [length]; lia | ].
    split; [by apply (dseg_push (bkt_links m)) | ]. intros l [-> | Hl]%elem_of_cons; [ | rewrite Hs; auto].
    rewrite Hs. eauto.
Qed.

(** The three assignments that link a location in front of the chain [c], in the
    order of HASH_EXPAND_BUCKETS and in that of HASH_ADD_TO_BKT. *)
Definition front_linked (m m' : gmap Z handle) (x : Z) (c : list Z) : Prop :=
  dom m' = dom m /\ (forall l, app_links m' l = app_links m l) /\ (forall l, stat m' l = stat m l) /\
  bkt_links m' x = Some (None, first c None) /\
  (forall y, y <> x -> bkt_links m' y = upd_pv_opt (bkt_links m) (first c None) (Some x) y).

Lemma chain_alive m p c n l : dseg (bkt_links m) p c n -> l ∈ c -> is_Some (m !! l).
Proof. intros Hd Hl. destruct (dseg_links _ _ _ _ _ Hd Hl) as [r Hr]. by eapply bkt_links_alive. Qed.

Lemma expand_links m x c :
  is_Some (m !! x) -> x ∉ c -> dseg (bkt_links m) None c None ->
  exists m1 m2 m3, hupd m x (set_hh_prev None) = Ok m1 /\ hupd m1 x (set_hh_next (first c None)) = Ok m2 /\
    hupd_opt m2 (first c None) (set_hh_prev (Some x)) = Ok m3 /\ front_linked m m3 x c.
Proof.
  intros Hx Hxc Hds.
  destruct (set_hh_prev_view m x None Hx) as (m1 & E1 & D1 & A1 & B1 & S1).
  destruct (set_hh_next_view m1 x (first c None)) as (m2 & E2 & D2 & A2 & B2 & S2); [by apply (dom_alive m) | ].
  destruct (set_hh_prev_opt_view m2 (first c None) (Some x)) as (m3 & E3 & D3 & A3 & B3 & S3).
  { intros l Hlc%first_elem. apply (dom_alive m); [congruence | by eapply chain_alive]. }
  exists m1, m2, m3. repeat (split; [done | ]). split; [congruence | ].
  split; [intros l; by rewrite A3, A2, A1 | ]. split; [intros l; by rewrite S3, S2, S1 | ]. split.
  - rewrite B3, upd_pv_opt_other by (by intros ?%first_elem). rewrite B2. unfold upd_nx. rewrite decide_True by done.
    rewrite B1. destruct Hx as [h Hh]. unfold upd_pv, bkt_links. by rewrite decide_True, Hh.
  - intros y Hyx. rewrite B3. apply upd_pv_opt_ext. rewrite B2. unfold upd_nx. rewrite decide_False by done.
    rewrite B1. unfold upd_pv. by rewrite decide_False.
Qed.
Lemma bucket_links m x c :
  is_Some (m !! x) -> x ∉ c -> dseg (bkt_links m) None c None ->
  exists m1 m2 m3, hupd m x (set_hh_next (first c None)) = Ok m1 /\ hupd m1 x (set_hh_prev None) = Ok m2 /\
    hupd_opt m2 (first c None) (set_hh_prev (Some x)) = Ok m3 /\ front_linked m m3 x c.
Proof.
  intros Hx Hxc Hds.
  destruct (set_hh_next_view m x (first c None) Hx) as (m1 & E1 & D1 & A1 & B1 & S1).
  destruct (set_hh_prev_view m1 x None) as (m2 & E2 & D2 & A2 & B2 & S2); [by apply (dom_alive m) | ].
  destruct (set_hh_prev_opt_view m2 (first c None) (Some x)) as (m3 & E3 & D3 & A3 & B3 & S3).
  { intros l Hlc%first_elem. apply (dom_alive m); [congruence | by eapply chain_alive]. }
  exists m1, m2, m3. repeat (split; [done | ]). split; [congruence | ].
  split; [intros l; by rewrite A3, A2, A1 | ]. split; [intros l; by rewrite S3, S2, S1 | ]. split.
  - rewrite B3, upd_pv_opt_other by (by intros ?%first_elem). rewrite B2. unfold upd_pv. rewrite decide_True by done.
    rewrite B1. destruct Hx as [h Hh]. unfold upd_nx, bkt_links. by rewrite decide_True, Hh.
  - intros y Hyx. rewrite B3. apply upd_pv_opt_ext. rewrite B2. unfold upd_pv. rewrite decide_False by done.
    rewrite B1. unfold upd_nx. by rewrite decide_False.
Qed.

(** ** Expansion *)
Lemma pow2_double k : 0 <= k <= 30 -> u32 (2 ^ k * 2) = 2 ^ (k + 1).
Proof.
  intros Hk. rewrite Z.pow_add_r by lia. apply Z.mod_small. split; [lia | ].
  assert (2 ^ k <= 2 ^ 30) by (apply Z.pow_le_mono_r; lia). lia.
Qed.
Lemma stat_get m x q v : stat m x = Some (q, v) -> exists h, m !! x = Some h /\ hashv h = v /\ q = (hkey h, keylen h).
Proof. unfold stat. destruct (m !! x) as [h | ]; [ | done]. intros [= <- <-]. eauto. Qed.

(** [m'] differs from [m] in the chain links of the locations [ls] only. *)
Definition relinked (m m' : gmap Z handle) (ls : list Z) : Prop :=
  dom m' = dom m /\ (forall l, app_links m' l = app_links m l) /\ (forall l, stat m' l = stat m l) /\
  (forall l, l ∉ ls -> bkt_links m' l = bkt_links m l).

Lemma he_move_ok m newb ns nonideal x k ideal q v :
  0 <= k <= 30 -> buckets_ok m (k + 1) newb ns -> len ns = 2 ^ (k + 1) -> NoDup (x :: concat ns) ->
  len (x :: concat ns) < 2 ^ 32 -> 1 <= ideal -> stat m x = Some (q, v) ->
  exists m' newb' ns' nonideal', he_move m newb nonideal x (2 ^ k) ideal = Ok (m', newb', nonideal') /\
    relinked m m' (x :: concat ns) /\
    buckets_ok m' (k + 1) newb' ns' /\ length ns' = length ns /\ concat ns' ≡ₚ x :: concat ns.
Proof.
  intros Hk Hok Hlen Hnd Hsm Hid Hst. unfold he_move.
  destruct (stat_get _ _ _ _ Hst) as (h & Hh & Hv & _). rewrite (hget_some _ _ _ Hh), obind_ok, Hv, pow2_double by done.
  pose proof (to_bkt_bound v (k + 1) ltac:(lia)) as Hb. set (i := HASH_TO_BKT v (2 ^ (k + 1))) in *. cbv zeta.
  destruct (lookup_lt_is_Some_2 ns (Z.to_nat i)) as [c Hc]; [lia | ].
  destruct (lookup_lt_is_Some_2 newb (Z.to_nat i)) as [b Hbk]; [destruct Hok; lia | ].
  destruct (proj2 Hok _ _ _ Hbk Hc) as (Hhd & Hcnt & Hds & _). rewrite (rd_ok _ _ b), obind_ok by (done || lia).
  assert (u32 (count b + 1) = len c + 1) as Hcount.
  { rewrite Hcnt. apply Z.mod_small. pose proof (chain_len _ _ _ Hc). cbn [length] in Hsm. lia. }
  rewrite Hcount.
  assert (exists ni mult, (if len c + 1 >? ideal then if ideal =? 0 then Ub else Ok (u32 (nonideal + 1), (len c + 1) / ideal)
    else Ok (nonideal, expand_mult b)) = Ok (ni, mult)) as (ni & mult & ->).
  { destruct (_ >? _); [ | eauto]. rewrite (proj2 (Z.eqb_neq _ _)) by lia. eauto. }
  rewrite obind_ok, Hhd.
  assert (forall l, l ∈ c -> l ∈ concat ns) as Hcn.
  { intros l Hl. apply elem_of_concat. exists c. split; [done | by eapply list_elem_of_lookup_2]. }
  apply NoDup_cons in Hnd as Hnd'. destruct (expand_links m x c) as (m1 & m2 & m3 & -> & E2 & E3 & D & A & S & Hx & Hy);
    [eauto | naive_solver | done | ].
  rewrite obind_ok, E2, obind_ok, E3, obind_ok. rewrite wr_ok by (destruct Hok; lia). rewrite obind_ok.
  destruct (buckets_push m m3 (k + 1) newb ns (Z.to_nat i) c (Bucket (Some x) (len c + 1) mult) x q v)
    as [Hok' Hperm]; try done; [fold i; lia | ].
  eexists _, _, _, _. split; [reflexivity | ]. split; [ | split; [exact Hok' | split; [by rewrite length_insert | done]]].
  repeat (split; [done | ]). intros l Hl. rewrite Hy by set_solver. apply upd_pv_opt_other.
  intros H%first_elem. apply Hl. right. auto.
Qed.

(** The rest of an old chain is followed by its next links. *)
Fixpoint sseg (f : links) (ls : list Z) : Prop :=
  match ls with
  | [] => True
  | l :: ls => (exists p, f l = Some (p, first ls None)) /\ sseg f ls
  end.
Lemma dseg_sseg f p ls : dseg f p ls None -> sseg f ls.
Proof. revert p. induction ls as [ | l ls IH]; intros p; [done | ]. intros [H1 H2]. split; eauto. Qed.
Lemma sseg_ext f g ls : (forall l, l ∈ ls -> g l = f l) -> sseg f ls -> sseg g ls.
Proof.
  induction ls as [ | l ls IH]; intros He Hs; [done | ]. destruct Hs as [[p Hp] Hs]. split.
  - exists p. rewrite He by left. done.
  - apply IH; [ | done]. intros x Hx. apply He. by right.
Qed.

Lemma relinked_refl m ls : relinked m m ls.
Proof. by repeat split. Qed.
Lemma relinked_trans m1 m2 m3 ls1 ls2 ls :
  relinked m1 m2 ls1 -> relinked m2 m3 ls2 -> (forall l, l ∈ ls1 \/ l ∈ ls2 -> l ∈ ls) -> relinked m1 m3 ls.
Proof.
  intros (D1 & A1 & S1 & B1) (D2 & A2 & S2 & B2) Hl. split; [congruence | ].
  split; [intros l; by rewrite A2, A1 | ]. split; [intros l; by rewrite S2, S1 | ].
  intros l Hn. rewrite B2, B1; [done | | ]; intros H; apply Hn; auto.
Qed.

Lemma he_chain_ok c : forall m fuel newb ns nonideal k ideal,
  (length c <= fuel)%nat -> 0 <= k <= 30 -> buckets_ok m (k + 1) newb ns -> len ns = 2 ^ (k + 1) ->
  NoDup (c ++ concat ns) -> len (c ++ concat ns) < 2 ^ 32 -> 1 <= ideal ->
  (forall l, l ∈ c -> is_Some (stat m l)) -> sseg (bkt_links m) c ->
  exists m' newb' ns' nonideal',
    he_chain m fuel (first c None) newb nonideal (2 ^ k) ideal = Ok (m', newb', nonideal') /\
    relinked m m' (c ++ concat ns) /\
    buckets_ok m' (k + 1) newb' ns' /\ length ns' = length ns /\ concat ns' ≡ₚ c ++ concat ns.
Proof.
  induction c as [ | x c IH]; intros m fuel newb ns nonideal k ideal Hf Hk Hok Hlen Hnd Hsm Hid Hst Hs.
  - destruct fuel; (exists m, newb, ns, nonideal; split; [done | split; [by apply relinked_refl | done]]).
  - destruct fuel as [ | fuel]; [cbn in Hf; lia | ]. destruct Hs as [[p Hp] Hs]. cbn [first he_chain].
    destruct (Hst x ltac:(left)) as [[q v] Hx]. destruct (stat_get _ _ _ _ Hx) as (h & Hh & _).
    assert (hh_next h = first c None) as Hnx by (unfold bkt_links in Hp; rewrite Hh in Hp; by injection Hp).
    rewrite (hget_some _ _ _ Hh), obind_ok, Hnx. cbv zeta. cbn [app] in Hnd. apply NoDup_cons in Hnd as Hnd'.
    destruct Hnd' as [Hxc (_ & Hcn & Hndn)%NoDup_app]. cbn [app length] in Hsm. rewrite length_app in Hsm.
    destruct (he_move_ok m newb ns nonideal x k ideal q v) as (m1 & nb1 & ns1 & ni1 & -> & R1 & Hok1 & Hl1 & P1);
      try done; [apply NoDup_cons; set_solver | cbn [length]; lia | ].
    rewrite obind_ok. destruct (IH m1 fuel nb1 ns1 ni1 k ideal) as (m2 & nb2 & ns2 & ni2 & -> & R2 & Hok2 & Hl2 & P2); try done.
    + cbn in Hf. lia.
    + by rewrite Hl1.
    + rewrite P1. by rewrite <- Permutation_middle.
    + rewrite P1, length_app. cbn [length]. lia.
    + intros l Hl. destruct R1 as (_ & _ & -> & _). apply Hst. by right.
    + eapply sseg_ext; [ | exact Hs]. intros l Hl. apply R1. intros [-> | H]%elem_of_cons; [ | by apply (Hcn l)].
      apply Hxc. set_solver.
    + exists m2, nb2, ns2, ni2. split; [done | ]. split.
      * eapply relinked_trans; [exact R1 | exact R2 | ]. intros l. rewrite P1. set_solver.
      * split; [done | ]. split; [congruence | ]. rewrite P2, P1. by rewrite <- Permutation_middle.
Qed.

Lemma he_loop_ok rb : forall m i ob newb ns nonideal k ideal,
  0 <= k <= 30 -> buckets_ok m (k + 1) newb ns -> len ns = 2 ^ (k + 1) ->
  NoDup (concat rb ++ concat ns) -> len (concat rb ++ concat ns) < 2 ^ 32 -> 1 <= ideal ->
  (forall l, l ∈ concat rb -> is_Some (stat m l)) ->
  (forall j c, rb !! j = Some c ->
     dseg (bkt_links m) None c None /\ exists b, ob !! (i + j)%nat = Some b /\ hh_head b = first c None) ->
  exists m' newb' ns' nonideal',
    he_loop m (length rb) (Z.of_nat i) ob newb nonideal (2 ^ k) ideal = Ok (m', newb', nonideal') /\
    relinked m m' (concat rb ++ concat ns) /\
    buckets_ok m' (k + 1) newb' ns' /\ length ns' = length ns /\ concat ns' ≡ₚ concat rb ++ concat ns.
Proof.
  induction rb as [ | c rb IH]; intros m i ob newb ns nonideal k ideal Hk Hok Hlen Hnd Hsm Hid Hst Hob.
  - exists m, newb, ns, nonideal. split; [done | split; [by apply relinked_refl | done]].
  - cbn [length he_loop concat] in *. rewrite <- app_assoc in Hnd. rewrite <- app_assoc, length_app in Hsm.
    destruct (Hob 0%nat c eq_refl) as (Hd & b & Hb & Hhd). rewrite Nat.add_0_r in Hb.
    rewrite (rd_ok _ _ b), obind_ok, Hhd by (rewrite ?Nat2Z.id; done || lia).
    apply NoDup_app in Hnd as Hnd'. destruct Hnd' as (Hndc & Hcr & Hndr). apply NoDup_app in Hndr as (Hndrb & Hrn & Hndn).
    destruct (he_chain_ok c m (size m) newb ns nonideal k ideal) as (m1 & nb1 & ns1 & ni1 & -> & R1 & Hok1 & Hl1 & P1); try done.
    + apply alive_length; [done | ]. intros l Hl. by eapply chain_alive.
    + apply NoDup_app. set_solver.
    + rewrite length_app. rewrite length_app in Hsm. lia.
    + intros l Hl. apply Hst. set_solver.
    + by eapply dseg_sseg.
    + rewrite obind_ok. replace (Z.of_nat i + 1) with (Z.of_nat (S i)) by lia.
      destruct (IH m1 (S i) ob nb1 ns1 ni1 k ideal) as (m2 & nb2 & ns2 & ni2 & -> & R2 & Hok2 & Hl2 & P2); try done.
      * by rewrite Hl1.
      * rewrite P1, (Permutation_app_swap_app (concat rb) c (concat ns)). done.
      * rewrite P1, (Permutation_app_swap_app (concat rb) c (concat ns)), length_app. lia.
      * intros l Hl. destruct R1 as (_ & _ & -> & _). apply Hst. set_solver.
      * intros j d Hj. destruct (Hob (S j) d Hj) as (Hd' & b' & Hb' & Hh'). split.
        -- eapply dseg_ext; [ | exact Hd']. intros l Hl. apply R1.
           assert (l ∈ concat rb) by (apply elem_of_concat; exists d; split; [done | by eapply list_elem_of_lookup_2]).
           set_solver.
        -- exists b'. by replace (S i + j)%nat with (i + S j)%nat by lia.
      * exists m2, nb2, ns2, ni2. split; [done | ]. split.
        -- eapply relinked_trans; [exact R1 | exact R2 | ]. intros l. rewrite P1. set_solver.
        -- split; [done | ]. split; [congruence | ].
           rewrite P2, P1, (Permutation_app_swap_app (concat rb) c (concat ns)). by rewrite <- app_assoc.
Qed.

(** The table and the chains of its buckets. *)
Definition tbl_ok (m : gmap Z handle) (t : table) (bs : list (list Z)) (k : Z) : Prop :=
  num_buckets t = 2 ^ k /\ log2_num_buckets t = k /\ 5 <= k <= 31 /\
  buckets_ok m k (buckets t) bs /\ len bs = 2 ^ k /\ NoDup (concat bs).

(** No bucket delays its expansion: the state of a table before its first
    expansion. *)
Definition young (t : table) : Prop := Forall (fun b => expand_mult b = 0) (buckets t).

Lemma tbl_alive m t bs k l : tbl_ok m t bs k -> l ∈ concat bs -> is_Some (m !! l) /\ is_Some (stat m l).
Proof.
  intros (_ & _ & _ & [Hl Hok] & _ & _) (c & Hlc & (i & Hi)%list_elem_of_lookup)%elem_of_concat.
  destruct (lookup_lt_is_Some_2 (buckets t) i) as [b Hb]; [rewrite Hl; by eapply lookup_lt_Some | ].
  destruct (Hok _ _ _ Hb Hi) as (_ & _ & Hd & Hs). split; [by eapply chain_alive | ].
  destruct (Hs l Hlc) as (q & v & E & _). eauto.
Qed.

(** The ideal length of a chain is positive. *)
Lemma ideal_pos n k : 1 <= n < 2 ^ 32 -> 1 <= k <= 31 ->
  1 <= u32 (shr n k + (if Z.land n (u32 (2 ^ k - 1)) =? 0 then 0 else 1)).
Proof.
  intros Hn Hk. assert (0 < 2 ^ k) by (apply Z.pow_pos_nonneg; lia).
  assert (2 ^ 1 <= 2 ^ k <= 2 ^ 31) by (split; apply Z.pow_le_mono_r; lia).
  change (Z.land n (u32 (2 ^ k - 1))) with (HASH_TO_BKT n (2 ^ k)). rewrite to_bkt_mod by lia.
  unfold shr. rewrite Z.shiftr_div_pow2 by lia. pose proof (Z.div_mod n (2 ^ k) ltac:(lia)).
  assert (0 <= n / 2 ^ k) by (apply Z.div_pos; lia).
  assert (n / 2 ^ k < 2 ^ 32) by (apply Z.div_lt_upper_bound; nia).
  assert (n / 2 ^ k <= n / 2) by (apply Z.div_le_compat_l; lia).
  assert (n / 2 < 2 ^ 31) by (apply Z.div_lt_upper_bound; lia).
  destruct (_ =? 0) eqn:E; zbool; unfold u32, uwrap; rewrite Z.mod_small by lia; nia.
Qed.

(** One more element in bucket [i] makes HASH_ADD_TO_BKT double the buckets. *)
Definition must_expand (t : table) (i : Z) : bool :=
  match buckets t !! Z.to_nat i with
  | Some b =>
      (u32 (count b + 1) >=? u32 (u32 (expand_mult b + 1) * HASH_BKT_CAPACITY_THRESH)) && negb (noexpand t =? 1)
  | None => false
  end.

Section Ops.
Context (malloc : nat -> Z -> bool).

Lemma alloc_cases s sz :
  (malloc (ut_calls s) sz = true /\ alloc malloc s sz = Ok (Ut (ut_head s) (ut_tbl s) (ut_hs s) (S (ut_calls s)))) \/
  (malloc (ut_calls s) sz = false /\ alloc malloc s sz = Exit (-1)).
Proof. unfold alloc. destruct (malloc _ _); auto. Qed.

Lemma expand_ok s t bs k :
  the_tbl s = Ok t -> tbl_ok (ut_hs s) t bs k -> len (concat bs) < 2 ^ 32 -> 1 <= num_items t < 2 ^ 32 ->
  (malloc (ut_calls s) (2 * 2 ^ k * sizeof_bucket) = false /\ HASH_EXPAND_BUCKETS malloc s = Exit (-1)) \/
  (k = 31 /\ malloc (ut_calls s) (2 * 2 ^ k * sizeof_bucket) = true /\ HASH_EXPAND_BUCKETS malloc s = Ub) \/
  exists s' t' bs', HASH_EXPAND_BUCKETS malloc s = Ok s' /\ ut_head s' = ut_head s /\ ut_tbl s' = Some t' /\
    tbl_ok (ut_hs s') t' bs' (k + 1) /\ relinked (ut_hs s) (ut_hs s') (concat bs) /\ concat bs' ≡ₚ concat bs /\
    num_items t' = num_items t /\ tbl_tail t' = tbl_tail t.
Proof.
  intros Ht Htok Hsm Hni. pose proof Htok as (Hnb & Hlb & Hk & Hok & Hbs & Hnd). unfold HASH_EXPAND_BUCKETS.
  rewrite Ht, obind_ok, Hnb, Hlb.
  destruct (alloc_cases s (2 * 2 ^ k * sizeof_bucket)) as [[Hm ->] | [Hm ->]]; [right | by left].
  destruct (decide (k = 31)) as [-> | Hk31]; [by left | right]. assert (k <= 30) as Hk30 by lia.
  rewrite obind_ok. cbv zeta. rewrite pow2_double by lia.
  assert (u32 (k + 1) = k + 1) as -> by (apply Z.mod_small; lia).
  rewrite (proj2 (Z.ltb_lt _ _)), obind_ok by lia.
  pose proof (ideal_pos (num_items t) (k + 1) Hni ltac:(lia)) as Hid. set (ideal := u32 (shr _ _ + _)) in *.
  assert (2 * 2 ^ k = 2 ^ (k + 1)) as E2 by (rewrite Z.pow_add_r by lia; lia). rewrite E2.
  cbn [ut_hs ut_head ut_tbl]. set (ns := replicate (Z.to_nat (2 ^ (k + 1))) ([] : list Z)).
  assert (concat ns = []) as Ens by apply concat_nils.
  destruct (he_loop_ok bs (ut_hs s) 0 (buckets t) (replicate (Z.to_nat (2 ^ (k + 1))) zero_bucket) ns 0 k ideal)
    as (m' & nb' & ns' & ni' & E & R & Hok' & Hl' & P'); rewrite ?Ens, ?app_nil_r; try done.
  - lia.
  - apply zero_buckets_ok.
  - unfold ns. rewrite length_replicate. lia.
  - intros l Hl. by apply (tbl_alive _ _ _ _ _ Htok).
  - intros j c Hj. destruct (lookup_lt_is_Some_2 (buckets t) j) as [b Hb].
    { rewrite (proj1 Hok). by eapply lookup_lt_Some. }
    destruct (proj2 Hok _ _ _ Hb Hj) as (Hh & _ & Hd & _). eauto.
  - rewrite Ens, app_nil_r in R, P'. replace (length bs) with (Z.to_nat (2 ^ k)) in E by lia.
    change (Z.of_nat 0) with 0 in E. rewrite E, obind_ok. eexists _, _, ns'. split; [reflexivity | ]. cbn.
    split; [done | ]. split; [done | ]. split; [ | done].
    split; [done | ]. split; [done | ]. split; [lia | ]. split; [done | ].
    split; [rewrite Hl'; unfold ns; rewrite length_replicate; lia | ]. by rewrite P'.
Qed.

(** Compute a state that is given by its parts. *)
Ltac ut_simpl := unfold set_tbl, set_hs, set_head; cbn [ut_head ut_tbl ut_hs ut_calls].

(** Accesses of a state with a table. *)
Lemma the_tbl_mk l t m n : is_Some (m !! l) -> the_tbl (Ut (Some l) (Some t) m n) = Ok t.
Proof. intros [h Hh]. unfold the_tbl. cbn. by rewrite (hget_some _ _ _ Hh). Qed.
Lemma upd_tbl_mk l t m n g : is_Some (m !! l) -> upd_tbl (Ut (Some l) (Some t) m n) g = Ok (Ut (Some l) (Some (g t)) m n).
Proof. intros Hl. unfold upd_tbl. by rewrite the_tbl_mk. Qed.
Lemma upd_bkt_mk l t m n i b g : is_Some (m !! l) -> 0 <= i -> buckets t !! Z.to_nat i = Some b ->
  upd_bkt (Ut (Some l) (Some t) m n) i g = Ok (Ut (Some l) (Some (set_buckets (<[Z.to_nat i := g b]> (buckets t)) t)) m n).
Proof.
  intros Hl Hi Hb. unfold upd_bkt. rewrite the_tbl_mk, obind_ok, (rd_ok _ _ b), obind_ok by done.
  rewrite wr_ok; [done | ]. apply lookup_lt_Some in Hb. lia.
Qed.
Lemma get_bkt_mk l t m n i b : is_Some (m !! l) -> 0 <= i -> buckets t !! Z.to_nat i = Some b ->
  get_bkt (Ut (Some l) (Some t) m n) i = Ok b.
Proof. intros Hl Hi Hb. unfold get_bkt. by rewrite the_tbl_mk, obind_ok, (rd_ok _ _ b). Qed.

(** HASH_ADD_TO_BKT up to the expansion. *)
Lemma add_to_bkt_links l0 t m n bs k x q v :
  is_Some (m !! l0) -> tbl_ok m t bs k -> x ∉ concat bs -> stat m x = Some (q, v) ->
  len (x :: concat bs) < 2 ^ 32 ->
  exists t' m' bs',
    HASH_ADD_TO_BKT malloc (Ut (Some l0) (Some t) m n) (HASH_TO_BKT v (2 ^ k)) x =
      (if must_expand t (HASH_TO_BKT v (2 ^ k)) then HASH_EXPAND_BUCKETS malloc (Ut (Some l0) (Some t') m' n) else Ok (Ut (Some l0) (Some t') m' n)) /\
    tbl_ok m' t' bs' k /\ relinked m m' (x :: concat bs) /\ concat bs' ≡ₚ x :: concat bs /\
    num_items t' = num_items t /\ tbl_tail t' = tbl_tail t /\
    (young t -> young t').
Proof.
  intros Hl0 Htok Hx Hst Hsm. pose proof Htok as (Hnb & Hlb & Hk & Hok & Hbs & Hnd).
  pose proof (to_bkt_bound v k ltac:(lia)) as Hb. set (i := HASH_TO_BKT v (2 ^ k)) in *.
  destruct (lookup_lt_is_Some_2 bs (Z.to_nat i)) as [c Hc]; [lia | ].
  destruct (lookup_lt_is_Some_2 (buckets t) (Z.to_nat i)) as [b Hbk]; [destruct Hok; lia | ].
  destruct (proj2 Hok _ _ _ Hbk Hc) as (Hhd & Hcnt & Hds & _).
  assert (forall l, l ∈ c -> l ∈ concat bs) as Hcn.
  { intros l Hl. apply elem_of_concat. exists c. split; [done | by eapply list_elem_of_lookup_2]. }
  apply lookup_lt_Some in Hbk as Hlt. unfold HASH_ADD_TO_BKT.
  rewrite (upd_bkt_mk l0 t m n i b) by (done || lia). rewrite obind_ok.
  rewrite (get_bkt_mk l0 _ m n i (set_count (u32 (count b + 1)) b)), obind_ok by (done || lia || by apply list_lookup_insert_eq).
  assert (u32 (count b + 1) = len c + 1) as Hcount.
  { rewrite Hcnt. apply Z.mod_small. pose proof (chain_len _ _ _ Hc). cbn [length] in Hsm. lia. }
  rewrite Hcount.
  destruct (bucket_links m x c) as (m1 & m2 & m3 & E1 & E2 & E3 & D & A & S & Hx3 & Hy);
    [by eapply stat_alive | naive_solver | done | ].
  unfold upd, upd_opt. cbn [ut_hs hh_head set_count]. rewrite Hhd.
  rewrite E1, !obind_ok. ut_simpl.
  rewrite E2, !obind_ok. ut_simpl.
  rewrite E3, !obind_ok. ut_simpl.
  set (t1 := set_buckets _ t). assert (is_Some (m3 !! l0)) as Hl3 by (by apply (dom_alive m)).
  rewrite (upd_bkt_mk l0 t1 m3 n i (set_count (len c + 1) b)) by (done || lia || by apply list_lookup_insert_eq).
  rewrite obind_ok. set (b2 := set_hh_head (Some x) (set_count (len c + 1) b)).
  set (t2 := set_buckets _ t1). assert (buckets t2 = <[Z.to_nat i := b2]> (buckets t)) as Eb.
  { unfold t2, t1. cbn. by rewrite list_insert_insert_eq. }
  rewrite (get_bkt_mk l0 t2 m3 n i b2), obind_ok by (done || lia || (rewrite Eb; by apply list_lookup_insert_eq)).
  rewrite the_tbl_mk, obind_ok by done.
  destruct (buckets_push m m3 k (buckets t) bs (Z.to_nat i) c b2 x q v) as [Hok' Hperm]; try done.
  { by apply NoDup_cons. } { fold i. lia. }
  set (bs2 := <[Z.to_nat i := x :: c]> bs) in *.
  assert (tbl_ok m3 t2 bs2 k) as Htok2.
  { split; [done | ]. split; [done | ]. split; [done | ]. rewrite Eb. split; [done | ].
    unfold bs2 at 1. rewrite length_insert. split; [done | ]. rewrite Hperm. by apply NoDup_cons. }
  assert (relinked m m3 (x :: concat bs)) as R.
  { repeat (split; [done | ]). intros l Hl. rewrite Hy by set_solver. apply upd_pv_opt_other.
    intros H%first_elem. apply Hl. right. auto. }
  assert (must_expand t i = (count b2 >=? u32 (u32 (expand_mult b2 + 1) * HASH_BKT_CAPACITY_THRESH)) && negb (noexpand t2 =? 1)) as ->.
  { unfold must_expand. by rewrite Hbk, Hcount. }
  exists t2, m3, bs2. split; [reflexivity | ]. repeat (split; [done | ]). intros Hyg.
  assert (expand_mult b = 0) as Hb0 by exact (Forall_lookup_1 _ _ _ _ Hyg Hbk).
  unfold young. rewrite Eb. by apply Forall_insert.
Qed.

(** A table that never had an overfull chain and has few elements does not expand. *)
Lemma young_calm m t bs k v :
  tbl_ok m t bs k -> young t -> len (concat bs) < 9 -> must_expand t (HASH_TO_BKT v (2 ^ k)) = false.
Proof.
  intros (Hnb & Hlb & Hk & Hok & Hbs & Hnd) Hyg Hl. unfold must_expand.
  destruct (buckets t !! _) as [b | ] eqn:Hb; [ | done].
  destruct (lookup_lt_is_Some_2 bs (Z.to_nat (HASH_TO_BKT v (2 ^ k)))) as [c Hc].
  { destruct Hok as [Hlen _]. apply lookup_lt_Some in Hb. lia. }
  destruct (proj2 Hok _ _ _ Hb Hc) as (_ & Hcnt & _ & _). pose proof (chain_len _ _ _ Hc).
  rewrite (Forall_lookup_1 _ _ _ _ Hyg Hb : expand_mult b = 0), Hcnt.
  change (u32 (u32 (0 + 1) * HASH_BKT_CAPACITY_THRESH)) with 10. rewrite u32_small by lia.
  by rewrite Z.geb_leb, (proj2 (Z.leb_gt _ _)) by lia.
Qed.

Lemma add_to_bkt_ok l0 t m n bs k x q v :
  is_Some (m !! l0) -> tbl_ok m t bs k -> x ∉ concat bs -> stat m x = Some (q, v) ->
  len (x :: concat bs) < 2 ^ 32 -> (must_expand t (HASH_TO_BKT v (2 ^ k)) = true -> 1 <= num_items t < 2 ^ 32) ->
  let r := HASH_ADD_TO_BKT malloc (Ut (Some l0) (Some t) m n) (HASH_TO_BKT v (2 ^ k)) x in
  (must_expand t (HASH_TO_BKT v (2 ^ k)) = true /\ malloc n (2 * 2 ^ k * sizeof_bucket) = false /\ r = Exit (-1)) \/
  (must_expand t (HASH_TO_BKT v (2 ^ k)) = true /\ k = 31 /\ malloc n (2 * 2 ^ k * sizeof_bucket) = true /\ r = Ub) \/
  exists t' m' n' bs' k', r = Ok (Ut (Some l0) (Some t') m' n') /\
    tbl_ok m' t' bs' k' /\ relinked m m' (x :: concat bs) /\ concat bs' ≡ₚ x :: concat bs /\
    num_items t' = num_items t /\ tbl_tail t' = tbl_tail t /\
    (young t -> must_expand t (HASH_TO_BKT v (2 ^ k)) = false -> young t').
Proof.
  intros Hl0 Htok Hx Hst Hsm Hni. cbv zeta.
  destruct (add_to_bkt_links l0 t m n bs k x q v) as (t2 & m2 & bs2 & -> & Htok2 & R & Hperm & N2 & T2 & Y2); try done.
  destruct (must_expand t _) eqn:He; [ | right; right; exists t2, m2, n, bs2, k; repeat (split; [done | ]); intros Hyg _; by apply Y2].
  specialize (Hni eq_refl).
  destruct (expand_ok (Ut (Some l0) (Some t2) m2 n) t2 bs2 k) as [[Hm E] | [(Hk & Hm & E) | (s' & t' & bs' & E & Hh & Ht' & Htok' & R' & P' & N' & T')]].
  - rewrite the_tbl_mk; [done | ]. apply (dom_alive m); [by apply R | done].
  - done.
  - by rewrite Hperm.
  - by rewrite N2.
  - left. by rewrite E.
  - right. left. by rewrite E.
  - right. right. destruct s' as [h' o' m' n']. cbn in Hh, Ht', Htok', R'. subst h' o'.
    exists t', m', n', bs', (k + 1). split; [done | ]. split; [done | ].
    split; [ | split; [by rewrite P' | split; [congruence | split; [congruence | done]]]].
    eapply relinked_trans; [exact R | exact R' | ]. intros l. rewrite Hperm. set_solver.
Qed.

(** ** The invariant

    [ls] are the elements in the order of insertion. *)
Definition hashf (key : bytes) : Z := match HASH_JEN key (len key) with Ok v => v | _ => 0 end.
Definition elem_ok (m : gmap Z handle) (l : Z) : Prop :=
  exists key, stat m l = Some (key, len key, hashf key) /\ len key < 2 ^ 32.
Definition full (l0 : Z) (t : table) (m : gmap Z handle) (ls : list Z) : Prop :=
  exists bs k, tbl_ok m t bs k /\ concat bs ≡ₚ ls /\ dseg (app_links m) None ls None /\
    num_items t = len ls /\ tbl_tail t = final None ls /\ first ls None = Some l0.
Definition inv (s : ut) (ls : list Z) : Prop :=
  NoDup ls /\ len ls < 2 ^ 32 /\ (forall l, l ∈ ls -> elem_ok (ut_hs s) l) /\
  match ut_head s, ut_tbl s with
  | None, None => ls = []
  | Some l0, Some t => full l0 t (ut_hs s) ls
  | _, _ => False
  end.

Definition ut_young (s : ut) : Prop := match ut_tbl s with Some t => young t | None => True end.

Lemma jen_hashf key : len key < 2 ^ 32 -> HASH_JEN key (len key) = Ok (hashf key).
Proof. intros Hl. unfold hashf. by destruct (HASH_JEN_ok key Hl) as (h & -> & _). Qed.

(** The static part of HASH_ADD_KEYPTR behind the linking of the list. *)
Lemma add_finish l0 t m n bs k ls x key :
  tbl_ok m t bs k -> concat bs ≡ₚ ls -> dseg (app_links m) None (ls ++ [x]) None ->
  num_items t = len ls -> tbl_tail t = Some x -> first (ls ++ [x]) None = Some l0 ->
  NoDup (ls ++ [x]) -> len (ls ++ [x]) < 2 ^ 32 -> len key < 2 ^ 32 ->
  (forall l, l ∈ ls -> elem_ok m l) -> (exists v, stat m x = Some (key, len key, v)) ->
  let r := (let! s := upd_tbl (Ut (Some l0) (Some t) m n) (fun t => set_num_items (u32 (num_items t + 1)) t) in
            let! t := the_tbl s in
            let! v := HASH_JEN key (len key) in
            let! s := upd s x (set_hashv v) in
            HASH_ADD_TO_BKT malloc s (HASH_TO_BKT v (num_buckets t)) x) in
  (must_expand t (HASH_TO_BKT (hashf key) (2 ^ k)) = true /\ malloc n (2 * 2 ^ k * sizeof_bucket) = false /\ r = Exit (-1)) \/
  (must_expand t (HASH_TO_BKT (hashf key) (2 ^ k)) = true /\ k = 31 /\ malloc n (2 * 2 ^ k * sizeof_bucket) = true /\ r = Ub) \/
  exists s', r = Ok s' /\ inv s' (ls ++ [x]) /\ dom (ut_hs s') = dom m /\
    (young t /\ len ls < 9 -> ut_young s') /\ stat (ut_hs s') x = Some (key, len key, hashf key) /\ (forall l, l <> x -> stat (ut_hs s') l = stat m l).
Proof.
  intros Htok Hp Hds Hni Htl Hfi Hnd Hsm Hkl Hel [v0 Hx]. cbv zeta. pose proof Htok as (Hnb & _ & Hk & _).
  assert (is_Some (m !! l0)) as Hl0.
  { apply first_elem in Hfi. destruct (dseg_links _ _ _ _ _ Hds Hfi). by eapply links_alive. }
  rewrite upd_tbl_mk, obind_ok, the_tbl_mk, obind_ok, jen_hashf, obind_ok by done.
  unfold upd. cbn [ut_hs]. destruct (set_hashv_view m x (hashf key)) as (m1 & -> & D1 & A1 & B1 & S1); [by eapply stat_alive | ].
  rewrite !obind_ok. ut_simpl. cbn [num_buckets set_num_items]. rewrite Hnb.
  set (t1 := set_num_items _ t). apply NoDup_app in Hnd as Hnd'. destruct Hnd' as (_ & Hxl & _).
  assert (x ∉ ls) as Hxls by (intros H; apply (Hxl x H); left).
  assert (u32 (num_items t + 1) = len (ls ++ [x])) as En.
  { rewrite Hni. rewrite length_app in *. cbn [length] in *. unfold u32, uwrap. rewrite Z.mod_small by lia. lia. }
  assert (stat m1 x = Some (key, len key, hashf key)) as Hx1.
  { rewrite S1. unfold upd_stat. by rewrite decide_True, Hx. }
  assert (forall l, l <> x -> stat m1 l = stat m l) as Ho1.
  { intros l Hl. rewrite S1. unfold upd_stat. by rewrite decide_False. }
  assert (tbl_ok m1 t1 bs k) as Htok1.
  { destruct Htok as (T1 & T2 & T3 & T4 & T5 & T6). repeat (split; [done | ]). split; [ | done].
    apply (buckets_ok_ext m); [done | | done]. intros l Hl. apply Ho1. intros ->. by rewrite Hp in Hl. }
  destruct (add_to_bkt_ok l0 t1 m1 n bs k x (key, len key) (hashf key))
    as [(He & Hm & ->) | [(He & Hk31 & Hm & ->) | (t' & m' & n' & bs' & k' & -> & Htok' & R & P' & N' & T' & Y')]]; try done.
  - by apply (dom_alive m).
  - by rewrite Hp.
  - rewrite Hp. rewrite length_app in Hsm. cbn [length] in *. lia.
  - intros _. unfold t1. cbn [num_items set_num_items]. rewrite En. rewrite length_app in *. cbn [length] in *. lia.
  - left. by split.
  - right. left. by split.
  - right. right. eexists. split; [done | ]. destruct R as (D' & A' & S' & _). cbn [ut_hs].
    split; [ | split; [congruence | split; [ | split; [by rewrite S' | intros l Hl; rewrite S'; auto]]]].
    2:{ intros [Hyg Hlt]. apply Y'; [done | ]. apply (young_calm m1 t1 bs k); [done | done | ]. rewrite Hp. lia. }
    split; [done | ]. split; [done | ]. split; [ | cbn; exists bs', k'].
    + intros l [Hl | ->%list_elem_of_singleton]%elem_of_app; unfold elem_ok; cbn; rewrite S'; [ | eauto].
      rewrite Ho1 by (by intros ->). by apply Hel.
    + split; [done | ]. split; [rewrite P', Hp; apply Permutation_cons_append | ].
      split; [ | split; [by rewrite N' | by rewrite T', final_snoc]].
      eapply dseg_ext; [ | exact Hds]. intros l _. by rewrite A', A1.
Qed.

Lemma upd_mk h t m n l g m' : hupd m l g = Ok m' -> upd (Ut h t m n) l g = Ok (Ut h t m' n).
Proof. intros E. unfold upd. cbn [ut_hs]. by rewrite E. Qed.
Lemma upd_opt_mk h t m n p g m' : hupd_opt m p g = Ok m' -> upd_opt (Ut h t m n) p g = Ok (Ut h t m' n).
Proof. intros E. unfold upd_opt. cbn [ut_hs]. by rewrite E. Qed.

(** The first two assignments to an element that is added. *)
Lemma add_begin m x key : is_Some (m !! x) -> len key < 2 ^ 32 ->
  exists m1 m2, hupd m x (set_next None) = Ok m1 /\ hupd m1 x (set_key key (u32 (len key))) = Ok m2 /\
    dom m2 = dom m /\ (forall l, app_links m2 l = upd_nx (app_links m) x None l) /\
    (forall l, bkt_links m2 l = bkt_links m l) /\ (exists v, stat m2 x = Some (key, len key, v)) /\
    (forall l, l <> x -> stat m2 l = stat m l).
Proof.
  intros Hx Hk. destruct (set_next_view m x None Hx) as (m1 & E1 & D1 & A1 & B1 & S1).
  destruct (set_key_view m1 x key (u32 (len key))) as (m2 & E2 & D2 & A2 & B2 & S2); [by apply (dom_alive m) | ].
  exists m1, m2. split; [done | ]. split; [done | ]. split; [congruence | ].
  split; [intros l; by rewrite A2, A1 | ]. split; [intros l; by rewrite B2, B1 | ]. split.
  - destruct Hx as [h Hh]. exists (hashv h). rewrite S2. unfold upd_stat. rewrite decide_True, S1 by done.
    unfold stat. rewrite Hh. cbn. repeat f_equal. apply Z.mod_small. lia.
  - intros l Hl. rewrite S2. unfold upd_stat. by rewrite decide_False, S1.
Qed.

(** The allocations of the addition of [key]: the table and its first buckets, or twice
    the buckets if the chain of the key is full, or none. *)
Definition add_requests (s : ut) (key : bytes) : list Z :=
  match ut_tbl s with
  | None => [sizeof_table; HASH_INITIAL_NUM_BUCKETS * sizeof_bucket]
  | Some t =>
      if must_expand t (HASH_TO_BKT (hashf key) (num_buckets t)) then [2 * num_buckets t * sizeof_bucket] else []
  end.
(** One of them is refused. *)
Definition refused (s : ut) (key : bytes) : Prop :=
  exists i sz, add_requests s key !! i = Some sz /\ malloc (ut_calls s + i)%nat sz = false.
(** The request for 2^32 buckets (64 GB) is granted: doubling then shifts a 32-bit
    number by 32. *)
Definition overfull (s : ut) (key : bytes) : Prop :=
  add_requests s key = [2 ^ 36] /\ malloc (ut_calls s) (2 ^ 36) = true.
Definition add_post (s : ut) (ls : list Z) (x : Z) (key : bytes) (s' : ut) : Prop :=
  inv s' (ls ++ [x]) /\ dom (ut_hs s') = dom (ut_hs s) /\ (ut_young s /\ len ls < 9 -> ut_young s') /\
  stat (ut_hs s') x = Some (key, len key, hashf key) /\ (forall l, l <> x -> stat (ut_hs s') l = stat (ut_hs s) l).

Lemma add_first m n x key : is_Some (m !! x) -> len key < 2 ^ 32 ->
  (refused (Ut None None m n) key /\ HASH_ADD_KEYPTR malloc (Ut None None m n) key (len key) x = Exit (-1)) \/
  exists s', HASH_ADD_KEYPTR malloc (Ut None None m n) key (len key) x = Ok s' /\ add_post (Ut None None m n) [] x key s'.
Proof.
  intros Hx Hkl. destruct (add_begin m x key Hx Hkl) as (m1 & m2 & E1 & E2 & D2 & A2 & B2 & Hkx & Ho).
  unfold HASH_ADD_KEYPTR. rewrite (upd_mk _ _ _ _ _ _ _ E1), obind_ok, (upd_mk _ _ _ _ _ _ _ E2), obind_ok. ut_simpl.
  destruct (set_prev_view m2 x None) as (m3 & E3 & D3 & A3 & B3 & S3); [by apply (dom_alive m) | ].
  rewrite (upd_mk _ _ _ _ _ _ _ E3), obind_ok. unfold HASH_MAKE_TABLE.
  destruct (alloc_cases (Ut (Some x) None m3 n) sizeof_table) as [[Hm ->] | [Hm ->]];
    [rewrite obind_ok; ut_simpl | left; split; [ | done]; exists 0%nat, sizeof_table; split; [done | by rewrite Nat.add_0_r]].
  destruct (alloc_cases (Ut (Some x) None m3 (S n)) (HASH_INITIAL_NUM_BUCKETS * sizeof_bucket)) as [[Hm2 ->] | [Hm2 ->]];
    [rewrite obind_ok; ut_simpl | left; split; [ | done]; eexists 1%nat, _; split; [done | by rewrite Nat.add_1_r]].
  rewrite obind_ok.
  set (t := Table _ _ _ _ _ _ _ _ _).
  assert (tbl_ok m3 t (replicate 32 []) 5) as Htok.
  { repeat (split; [done | ]). split; [apply zero_buckets_ok | ]. split; [done | ]. rewrite concat_nils. constructor. }
  assert (young t) as Hyt by (by apply Forall_replicate).
  assert (must_expand t (HASH_TO_BKT (hashf key) (2 ^ 5)) = false) as Hcalm.
  { apply (young_calm m3 t (replicate 32 []) 5); [done | done | by rewrite concat_nils]. }
  destruct (add_finish x t m3 (S (S n)) (replicate 32 []) 5 [] x key)
    as [(He & _) | [(He & _) | (s' & E & Hi & Hd & Hy & Hs & Hos)]]; cbn [app]; try done.
  - split; [ | done]. cbn [first]. rewrite A3. unfold upd_pv. rewrite decide_True, A2 by done. unfold upd_nx, app_links.
    destruct Hx as [h ->]. by rewrite decide_True.
  - apply NoDup_singleton.
  - by intros l ?%elem_of_nil.
  - destruct Hkx as [v Hv]. exists v. by rewrite S3.
  - by rewrite Hcalm in He.
  - by rewrite Hcalm in He.
  - right. exists s'. split; [exact E | ]. split; [done | ]. split; [cbn; congruence | ].
    split; [intros _; by apply Hy | ]. split; [done | ].
    intros l Hl. rewrite Hos, S3 by done. by apply Ho.
Qed.

Lemma add_more l0 t m n ls x key :
  inv (Ut (Some l0) (Some t) m n) ls -> x ∉ ls -> is_Some (m !! x) -> len key < 2 ^ 32 -> len ls + 1 < 2 ^ 32 ->
  (refused (Ut (Some l0) (Some t) m n) key /\
   HASH_ADD_KEYPTR malloc (Ut (Some l0) (Some t) m n) key (len key) x = Exit (-1)) \/
  (overfull (Ut (Some l0) (Some t) m n) key /\
   HASH_ADD_KEYPTR malloc (Ut (Some l0) (Some t) m n) key (len key) x = Ub) \/
  exists s', HASH_ADD_KEYPTR malloc (Ut (Some l0) (Some t) m n) key (len key) x = Ok s' /\
    add_post (Ut (Some l0) (Some t) m n) ls x key s'.
Proof.
  intros (Hnd & Hsm & Hel & (bs & k & Htok & Hp & Hds & Hni & Htl & Hfi)) Hxl Hx Hkl Hsm1. cbn [ut_hs] in *.
  destruct (add_begin m x key Hx Hkl) as (m1 & m2 & E1 & E2 & D2 & A2 & B2 & Hkx & Ho).
  destruct ls as [ | tl ls' _] using rev_ind; [done | ]. set (ls := ls' ++ [tl]) in *.
  unfold ls in Htl at 1. rewrite final_snoc in Htl.
  assert (tl <> x) as Htx by (intros ->; apply Hxl; unfold ls; set_solver).
  assert (forall l, l ∈ ls -> is_Some (m !! l)) as Hal.
  { intros l Hl. destruct (dseg_links _ _ _ _ _ Hds Hl). by eapply links_alive. }
  unfold HASH_ADD_KEYPTR. rewrite (upd_mk _ _ _ _ _ _ _ E1), obind_ok, (upd_mk _ _ _ _ _ _ _ E2), obind_ok. ut_simpl.
  apply first_elem in Hfi as Hl0.
  rewrite the_tbl_mk, obind_ok, Htl, obind_ok by (apply (dom_alive m); auto).
  destruct (set_next_view m2 tl (Some x)) as (m3 & E3 & D3 & A3 & B3 & S3).
  { apply (dom_alive m); [done | ]. apply Hal. unfold ls. set_solver. }
  destruct (set_prev_view m3 x (Some tl)) as (m4 & E4 & D4 & A4 & B4 & S4); [apply (dom_alive m); [congruence | done] | ].
  rewrite (upd_mk _ _ _ _ _ _ _ E3), obind_ok, (upd_mk _ _ _ _ _ _ _ E4), obind_ok.
  rewrite (upd_tbl_mk l0 t m4 n (set_tail (Some x))), obind_ok by (apply (dom_alive m); [congruence | auto]).
  destruct (add_finish l0 (set_tail (Some x) t) m4 n bs k ls x key)
    as [(He & Hf & E) | [(He & -> & Hf & E) | (s' & E & Hi & Hd & Hy & Hs & Hos)]]; try done.
  - destruct Htok as (T1 & T2 & T3 & T4 & T5 & T6). repeat (split; [done | ]). split; [ | done].
    apply (buckets_ok_ext m); [ | | done]; intros l Hl.
    + by rewrite B4, B3, B2.
    + rewrite S4, S3. apply Ho. intros ->. by rewrite Hp in Hl.
  - apply (dseg_snoc (app_links m)); [by apply NoDup_snoc | done | | ].
    + rewrite A4. unfold upd_pv. rewrite decide_True, A3 by done. unfold upd_nx at 1. rewrite decide_False, A2 by done.
      unfold upd_nx, app_links, ls. rewrite final_snoc. destruct Hx as [h ->]. by rewrite decide_True.
    + intros y Hy. unfold ls. rewrite final_snoc, A4. unfold upd_pv. rewrite decide_False, A3 by done. cbn [upd_nx_opt].
      assert (app_links m2 y = app_links m y) as Ey by (rewrite A2; unfold upd_nx; by rewrite decide_False).
      unfold upd_nx. by rewrite Ey.
  - rewrite first_app. unfold ls in Hfi |- *. destruct ls'; done.
  - by apply NoDup_snoc.
  - rewrite length_app. cbn [length]. lia.
  - intros l Hl. unfold elem_ok. rewrite S4, S3, Ho by (by intros ->). by apply Hel.
  - destruct Hkx as [v Hv]. exists v. by rewrite S4, S3.
  - left. split; [ | exact E]. exists 0%nat, (2 * 2 ^ k * sizeof_bucket). unfold add_requests. cbn [ut_tbl ut_calls].
    rewrite (proj1 Htok). change (must_expand t (HASH_TO_BKT (hashf key) (2 ^ k)) = true) in He. rewrite He, Nat.add_0_r. done.
  - right. left. split; [ | exact E]. unfold overfull, add_requests. cbn [ut_tbl ut_calls].
    rewrite (proj1 Htok). change (must_expand t (HASH_TO_BKT (hashf key) (2 ^ 31)) = true) in He. by rewrite He.
  - right. right. exists s'. split; [exact E | ]. split; [done | ]. split; [cbn; congruence | ]. split; [done | ]. split; [done | ].
    intros l Hl. rewrite Hos, S4, S3 by done. by apply Ho.
Qed.

Lemma add_ok s ls x key :
  inv s ls -> x ∉ ls -> is_Some (ut_hs s !! x) -> len key < 2 ^ 32 -> len ls + 1 < 2 ^ 32 ->
  (refused s key /\ HASH_ADD_KEYPTR malloc s key (len key) x = Exit (-1)) \/
  (overfull s key /\ HASH_ADD_KEYPTR malloc s key (len key) x = Ub) \/
  exists s', HASH_ADD_KEYPTR malloc s key (len key) x = Ok s' /\ add_post s ls x key s'.
Proof.
  destruct s as [h t m n]. intros Hi Hx Hm Hk Hl. pose proof Hi as (_ & _ & _ & Hf). cbn in Hf.
  destruct h as [l0 | ], t as [t | ]; try done; [by apply add_more | ]. subst.
  destruct (add_first m n x key Hm Hk) as [? | ?]; [by left | by right; right].
Qed.

(** A small table asks for nothing but its first two blocks. *)
Lemma small_requests s ls key :
  inv s ls -> ut_young s -> len ls < 9 -> add_requests s key = [] \/ add_requests s key = [64; 512].
Proof.
  intros (_ & _ & _ & Hf) Hy Hl. unfold add_requests, ut_young in *.
  destruct (ut_head s), (ut_tbl s) as [t | ]; try done; [left | by right].
  destruct Hf as (bs & k & Htok & Hp & _). rewrite (proj1 Htok), (young_calm _ t bs k _ Htok Hy); [done | by rewrite Hp].
Qed.

End Ops.

(** ** Removal *)
Lemma final_none a : final None a = None -> a = [].
Proof. unfold final. destruct (last a) eqn:E; [done | ]. by apply last_None in E. Qed.
Lemma first_none b : first b None = None -> b = [].
Proof. by destruct b. Qed.
Lemma links_get m x p n : app_links m x = Some (p, n) -> exists h, m !! x = Some h /\ prev h = p /\ next h = n.
Proof. unfold app_links. destruct (m !! x) as [h | ]; [ | done]. intros [= <- <-]. eauto. Qed.
Lemma bkt_links_get m x p n : bkt_links m x = Some (p, n) -> exists h, m !! x = Some h /\ hh_prev h = p /\ hh_next h = n.
Proof. unfold bkt_links. destruct (m !! x) as [h | ]; [ | done]. intros [= <- <-]. eauto. Qed.

(** The chain an element is on. *)
Lemma chain_of m t bs k x q v : tbl_ok m t bs k -> x ∈ concat bs -> stat m x = Some (q, v) ->
  let i := Z.to_nat (HASH_TO_BKT v (2 ^ k)) in
  exists a b bk, bs !! i = Some (a ++ x :: b) /\ buckets t !! i = Some bk /\ bucket_ok m k i bk (a ++ x :: b) /\
    NoDup (a ++ x :: b).
Proof.
  intros (_ & _ & _ & [Hl Hok] & _ & Hnd) (c & Hxc & (j & Hj)%list_elem_of_lookup)%elem_of_concat Hst.
  destruct (lookup_lt_is_Some_2 (buckets t) j) as [bk Hb]; [rewrite Hl; by eapply lookup_lt_Some | ].
  pose proof (Hok _ _ _ Hb Hj) as Hbk. pose proof Hbk as (_ & _ & _ & Hv).
  destruct (Hv x Hxc) as (q' & v' & E & Hi). rewrite Hst in E. injection E as <- <-.
  destruct (list_elem_of_split _ _ Hxc) as (a & b & ->). cbv zeta. rewrite Hi, Nat2Z.id.
  exists a, b, bk. repeat (split; [done | ]). destruct (concat_split bs j _ [] Hj) as (p & r & E1 & _).
  rewrite E1 in Hnd. apply NoDup_app in Hnd as (_ & _ & Hnd). by apply NoDup_app in Hnd as [? _].
Qed.

Lemma concat_del (bs : list (list Z)) i a x b :
  bs !! i = Some (a ++ x :: b) -> concat bs ≡ₚ x :: concat (<[i := a ++ b]> bs).
Proof.
  intros Hc. destruct (concat_split bs _ _ (a ++ b) Hc) as (p & r & -> & -> & _).
  rewrite <- !app_assoc. cbn. solve_Permutation.
Qed.
(** The two assignments that take [x] out of its chain. *)
Lemma bucket_unlink m a x b : NoDup (a ++ x :: b) -> dseg (bkt_links m) None (a ++ x :: b) None ->
  exists d m1 m2, m !! x = Some d /\ hh_prev d = final None a /\ hh_next d = first b None /\
    hupd_opt m (final None a) (set_hh_next (first b None)) = Ok m1 /\
    hupd_opt m1 (first b None) (set_hh_prev (final None a)) = Ok m2 /\
    relinked m m2 (a ++ x :: b) /\ dseg (bkt_links m2) None (a ++ b) None.
Proof.
  intros Hnc Hds. destruct (dseg_unlink _ _ _ _ Hnc Hds) as [Hxl Hun].
  destruct (bkt_links_get _ _ _ _ Hxl) as (d & Hd & Hpv & Hnx).
  assert (forall l, l ∈ a ++ x :: b -> is_Some (m !! l)) as Hal by (intros; by eapply chain_alive).
  destruct (set_hh_next_opt_view m (final None a) (first b None)) as (m1 & E1 & D1 & A1 & B1 & S1).
  { intros l Hl%final_elem. apply Hal. set_solver. }
  destruct (set_hh_prev_opt_view m1 (first b None) (final None a)) as (m2 & E2 & D2 & A2 & B2 & S2).
  { intros l Hl%first_elem. apply (dom_alive m); [done | ]. apply Hal. set_solver. }
  exists d, m1, m2. repeat (split; [done | ]). split.
  - split; [congruence | ]. split; [intros l; by rewrite A2, A1 | ]. split; [intros l; by rewrite S2, S1 | ].
    intros l Hl. rewrite B2, upd_pv_opt_other by (intros ?%first_elem; set_solver).
    rewrite B1. apply upd_nx_opt_other. intros ?%final_elem. set_solver.
  - eapply dseg_ext; [ | exact Hun]. intros l _. rewrite B2. by apply upd_pv_opt_ext.
Qed.

Lemma del_in_bkt_ok l0 t m n bs k x q v :
  is_Some (m !! l0) -> tbl_ok m t bs k -> x ∈ concat bs -> stat m x = Some (q, v) -> len (concat bs) < 2 ^ 32 ->
  exists t' m' bs', HASH_DEL_IN_BKT (Ut (Some l0) (Some t) m n) (HASH_TO_BKT v (2 ^ k)) x = Ok (Ut (Some l0) (Some t') m' n) /\
    tbl_ok m' t' bs' k /\ relinked m m' (concat bs) /\ concat bs ≡ₚ x :: concat bs' /\
    num_items t' = num_items t /\ tbl_tail t' = tbl_tail t /\ (young t -> young t').
Proof.
  intros Hl0 Htok Hx Hst Hsm. pose proof Htok as (Hnb & Hlb & Hk & Hok & Hbs & Hnd).
  destruct (chain_of _ _ _ _ _ _ _ Htok Hx Hst) as (a & b & bk & Hc & Hbk & (Hhd & Hcnt & Hds & Hv) & Hnc).
  pose proof (to_bkt_bound v k ltac:(lia)) as Hb. set (i := HASH_TO_BKT v (2 ^ k)) in *.
  destruct (bucket_unlink m a x b Hnc Hds) as (d & m1 & m2 & Hd & Hpv & Hnx & E1 & E2 & R & Hun).
  pose proof (chain_len _ _ _ Hc) as Hcl. apply lookup_lt_Some in Hbk as Hlt.
  pose proof (concat_del _ _ _ _ _ Hc) as Hperm. assert (forall l, l ∈ a ++ x :: b -> l ∈ concat bs) as Hcn.
  { intros l Hl. apply elem_of_concat. eexists. split; [done | by eapply list_elem_of_lookup_2]. }
  set (b2 := Bucket (first (a ++ b) None) (len (a ++ b)) (expand_mult bk)).
  exists (set_buckets (<[Z.to_nat i := b2]> (buckets t)) t), m2, (<[Z.to_nat i := a ++ b]> bs).
  assert (u32 (count bk - 1) = len (a ++ b)) as Ec.
  { rewrite Hcnt, !length_app. cbn [length]. rewrite length_app in Hcl. cbn [length] in Hcl.
    unfold u32, uwrap. rewrite Z.mod_small by lia. lia. }
  split; [ | split; [ | split; [ | do 3 (split; [done | ]); intros Hyg]]].
  4:{ apply Forall_insert; [done | ]. exact (Forall_lookup_1 _ _ _ _ Hyg Hbk). }
  - unfold HASH_DEL_IN_BKT. rewrite (upd_bkt_mk l0 t m n i bk), obind_ok by (done || lia). rewrite Ec.
    set (b1 := set_count (len (a ++ b)) bk). set (t1 := set_buckets _ t).
    rewrite (get_bkt_mk l0 t1 m n i b1), obind_ok by (done || lia || by apply list_lookup_insert_eq).
    cbn [ut_hs]. rewrite (hget_some _ _ _ Hd), obind_ok, Hpv, Hnx. cbn [hh_head set_count b1]. rewrite Hhd.
    assert ((if bool_decide (first (a ++ x :: b) None = Some x)
      then upd_bkt (Ut (Some l0) (Some t1) m n) i (set_hh_head (first b None)) else Ok (Ut (Some l0) (Some t1) m n)) =
      Ok (Ut (Some l0) (Some (set_buckets (<[Z.to_nat i := b2]> (buckets t)) t)) m n)) as ->.
    { destruct a as [ | y a].
      - cbn [app first]. rewrite bool_decide_eq_true_2 by done.
        rewrite (upd_bkt_mk l0 t1 m n i b1) by (done || lia || by apply list_lookup_insert_eq).
        unfold t1, set_buckets. cbn. by rewrite list_insert_insert_eq.
      - rewrite bool_decide_eq_false_2. { unfold t1, b1, b2, set_count. by rewrite Hhd. }
        cbn. intros [= ->]. apply NoDup_cons in Hnc as [Hnc _]. set_solver. }
    rewrite obind_ok, (upd_opt_mk _ _ _ _ _ _ _ E1), obind_ok. by apply upd_opt_mk.
  - repeat (split; [done | ]). split; [ | split; [by rewrite length_insert | ]].
    + eapply (buckets_set m); [done | done | done | intros l _ Hl; by apply R | apply R | ].
      do 3 (split; [done | ]). intros l Hl. destruct R as (_ & _ & -> & _). apply Hv. set_solver.
    + rewrite Hperm in Hnd. by apply NoDup_cons in Hnd as [_ ?].
  - apply (relinked_trans m m2 m2 (a ++ x :: b) []); [done | apply relinked_refl | ].
    intros l [Hl | []%elem_of_nil]. auto.
Qed.

(** HASH_DELETE of an element of the list. *)
Definition del_post (s : ut) (ls : list Z) (s' : ut) : Prop :=
  inv s' ls /\ dom (ut_hs s') = dom (ut_hs s) /\ (ut_young s -> ut_young s') /\
  (forall l, stat (ut_hs s') l = stat (ut_hs s) l).

Lemma final_app p a b : final p (a ++ b) = final (final p a) b.
Proof. revert p. induction a as [ | y a IH]; intros p; [done | ]. cbn [app]. by rewrite !final_cons. Qed.
Lemma final_some p b : b <> [] -> final p b = final None b.
Proof. unfold final. destruct b using rev_ind; [done | ]. intros _. by rewrite last_snoc. Qed.

(** The list part of HASH_DELETE when other elements remain. *)
Lemma delete_links l0 t m n a x b :
  NoDup (a ++ x :: b) -> dseg (app_links m) None (a ++ x :: b) None -> a ++ b <> [] ->
  first (a ++ x :: b) None = Some l0 -> tbl_tail t = final None (a ++ x :: b) ->
  let t' := set_tail (final None (a ++ b)) t in
  exists m1 m',
    (if bool_decide (tbl_tail t = Some x) then upd_tbl (Ut (Some l0) (Some t) m n) (set_tail (final None a))
     else Ok (Ut (Some l0) (Some t) m n)) = Ok (Ut (Some l0) (Some t') m n) /\
    match final None a with
    | Some p => upd (Ut (Some l0) (Some t') m n) p (set_next (first b None))
    | None => Ok (set_head (first b None) (Ut (Some l0) (Some t') m n))
    end = Ok (Ut (first (a ++ b) None) (Some t') m1 n) /\
    upd_opt (Ut (first (a ++ b) None) (Some t') m1 n) (first b None) (set_prev (final None a)) =
      Ok (Ut (first (a ++ b) None) (Some t') m' n) /\
    view m m' (app_links m') (bkt_links m) (stat m) /\ dseg (app_links m') None (a ++ b) None.
Proof.
  intros Hnd Hds Hne Hfi Htl. destruct (dseg_unlink _ _ _ _ Hnd Hds) as [Hxl Hun].
  assert (forall l, l ∈ a ++ x :: b -> is_Some (m !! l)) as Hal.
  { intros l Hl. destruct (dseg_links _ _ _ _ _ Hds Hl). by eapply links_alive. }
  destruct (set_next_opt_view m (final None a) (first b None)) as (m1 & E1 & D1 & A1 & B1 & S1).
  { intros l Hl%final_elem. apply Hal. set_solver. }
  destruct (set_prev_opt_view m1 (first b None) (final None a)) as (m2 & E2 & D2 & A2 & B2 & S2).
  { intros l Hl%first_elem. apply (dom_alive m); [done | ]. apply Hal. set_solver. }
  apply first_elem in Hfi as Hl0. cbv zeta. exists m1, m2. split; [ | split; [ | split; [by apply upd_opt_mk | split]]].
  - rewrite final_app in Htl. rewrite final_cons in Htl. destruct b as [ | y b].
    + rewrite bool_decide_eq_true_2 by done. rewrite app_nil_r. by apply upd_tbl_mk; auto.
    + rewrite final_some in Htl by done. rewrite bool_decide_eq_false_2.
      * rewrite final_app, final_some, <- Htl by done. by destruct t.
      * rewrite Htl. intros H%final_elem. apply NoDup_app in Hnd as (_ & _ & [Hn _]%NoDup_cons). done.
  - destruct (final None a) as [p | ] eqn:Ea.
    + rewrite (upd_mk _ _ _ _ _ _ _ E1). destruct a; [done | ]. cbn in Hfi |- *. congruence.
    + apply final_none in Ea as ->. cbn in E1. injection E1 as <-. done.
  - split; [congruence | ]. split; [done | ]. split; intros l; [by rewrite B2, B1 | by rewrite S2, S1].
  - eapply dseg_ext; [ | exact Hun]. intros l _. rewrite A2. by apply upd_pv_opt_ext.
Qed.

Lemma delete_ok s a x b : inv s (a ++ x :: b) ->
  exists s', HASH_DELETE s x = Ok s' /\ del_post s (a ++ b) s'.
Proof.
  destruct s as [h o m n]. intros (Hnd & Hsm & Hel & Hf). cbn in Hf.
  destruct h as [l0 | ], o as [t | ]; try done; [ | by destruct a].
  destruct Hf as (bs & k & Htok & Hp & Hds & Hni & Htl & Hfi). cbn [ut_hs] in *.
  destruct (dseg_unlink _ _ _ _ Hnd Hds) as [Hxl _]. destruct (links_get _ _ _ _ Hxl) as (d & Hd & Hpv & Hnx).
  unfold HASH_DELETE. cbn [ut_hs]. rewrite (hget_some _ _ _ Hd), obind_ok, Hpv, Hnx.
  destruct (decide (a ++ b = [])) as [[-> ->]%app_nil | Hne].
  { cbn in Hfi. injection Hfi as ->. cbn [final last first]. rewrite the_tbl_mk, obind_ok by eauto.
    eexists. split; [done | ]. split; [ | done]. split; [constructor | ]. split; [done | ].
    split; [by intros l ?%elem_of_nil | done]. }
  destruct (delete_links l0 t m n a x b) as (m1 & m' & E1 & E2 & E3 & (D & _ & B & S) & Hds'); try done.
  set (t' := set_tail (final None (a ++ b)) t) in *.
  assert (forall u v : outcome ut, match final None a, first b None with None, None => u | _, _ => v end = v) as ->.
  { intros u v. destruct (final None a) eqn:Ea; [done | ]. destruct (first b None) eqn:Eb; [done | ].
    apply final_none in Ea. apply first_none in Eb. by subst. }
  rewrite the_tbl_mk, obind_ok by (destruct (dseg_links _ _ _ _ _ Hds (first_elem _ _ Hfi)); by eapply links_alive).
  rewrite E1, obind_ok, E2, obind_ok, E3, obind_ok. destruct (first (a ++ b) None) as [l1 | ] eqn:Ef; [ | by apply first_none in Ef].
  assert (is_Some (m' !! l1)) as Hl1.
  { apply first_elem in Ef. destruct (dseg_links _ _ _ _ _ Hds' Ef). by eapply links_alive. }
  rewrite the_tbl_mk, obind_ok by done. destruct (Hel x ltac:(set_solver)) as (key & Hst & Hkl).
  assert (hashv d = hashf key) as -> by (unfold stat in Hst; rewrite Hd in Hst; by injection Hst).
  assert (tbl_ok m' t' bs k) as Htok'.
  { destruct Htok as (T1 & T2 & T3 & T4 & T5 & T6). repeat (split; [done | ]). split; [ | done].
    apply (buckets_ok_ext m); auto. }
  pose proof Htok' as (-> & _).
  destruct (del_in_bkt_ok l1 t' m' n bs k x (key, len key) (hashf key))
    as (t2 & m2 & bs2 & -> & Htok2 & (D2 & A2 & S2 & _) & P2 & N2 & T2 & Y2); try done.
  { rewrite Hp. set_solver. } { by rewrite S. } { by rewrite Hp. }
  assert (num_items t2 = len (a ++ b) + 1) as En.
  { rewrite N2. unfold t'. cbn [num_items set_tail]. rewrite Hni, !length_app. cbn [length]. lia. }
  assert (a ++ x :: b ≡ₚ x :: a ++ b) as Pab by (by rewrite <- Permutation_middle).
  rewrite obind_ok, upd_tbl_mk by (by apply (dom_alive m')). eexists. split; [done | ].
  split; [ | split; [cbn; congruence | split; [exact Y2 | intros l; cbn; by rewrite S2, S]]].
  split; [rewrite Pab in Hnd; by apply NoDup_cons in Hnd as [_ ?] | ].
  assert (len (a ++ b) < 2 ^ 32) as Hsm2 by (rewrite Pab in Hsm; cbn [length] in Hsm; lia). split; [done | ].
  split; [intros l Hl; unfold elem_ok; cbn; rewrite S2, S; apply Hel; set_solver | ].
  exists bs2, k. split; [done | ]. split; [apply (Permutation_cons_inv (a := x)); by rewrite <- P2, Hp | ].
  split; [eapply dseg_ext; [ | exact Hds']; intros l _; apply A2 | ]. split.
  - cbn [num_items set_num_items]. rewrite En. unfold u32, uwrap. rewrite Z.mod_small by lia. lia.
  - split; [ | done]. cbn [tbl_tail set_num_items]. by rewrite T2.
Qed.
End UtHashProof.
