(* ===== verification/UtHashSpec.v ===== *)
(** * What the macros of uthash promise

    Lookup, iteration, counting and the consistency check under the invariant of
    [UtHashProof]; then sessions of operations on one table, which refine a
    dictionary that remembers the order of insertion. *)
From S2P Require Import Prelude CLib Bytes UtHashFn UtHash UtHashProof.

Module UtHashSpec.
Import UtHashFn UtHash UtHashProof.

Definition key_at (m : gmap Z handle) (l : Z) : option bytes := hkey <$> m !! l.

Lemma stat_key m l key n v : stat m l = Some (key, n, v) -> key_at m l = Some key.
Proof. unfold stat, key_at. destruct (m !! l); [ | done]. intros [= <- <- <-]. done. Qed.
Lemma elem_key m l key : elem_ok m l -> key_at m l = Some key ->
  exists h, m !! l = Some h /\ hkey h = key /\ keylen h = len key /\ hashv h = hashf key.
Proof.
  intros (key' & Hs & _) Hk. rewrite (stat_key _ _ _ _ _ Hs) in Hk. injection Hk as ->.
  unfold stat in Hs. destruct (m !! l) as [h | ]; [ | done]. injection Hs as <- E1 E2. eauto.
Qed.

(** ** Lookup *)
Lemma keycmp_ok a b : length a = length b -> HASH_KEYCMP a b (len b) = Ok (bool_decide (a = b)).
Proof.
  intros Hl. unfold HASH_KEYCMP. rewrite !load_ok, !obind_ok by lia. unfold slice.
  rewrite !drop_0, Nat2Z.id, !take_ge by lia. done.
Qed.

Definition found (m : gmap Z handle) (ls : list Z) (key : bytes) (r : option Z) : Prop :=
  match r with
  | Some l => l ∈ ls /\ key_at m l = Some key
  | None => forall l, l ∈ ls -> key_at m l <> Some key
  end.

Lemma find_in_bkt_ok m key c : forall fuel p,
  (length c <= fuel)%nat -> dseg (bkt_links m) p c None -> (forall l, l ∈ c -> elem_ok m l) ->
  exists r, HASH_FIND_IN_BKT m fuel (first c None) key (len key) = Ok r /\ found m c key r.
Proof.
  induction c as [ | l c IH]; intros fuel p Hf Hd He.
  { exists None. destruct fuel; (split; [done | ]; by intros l ?%elem_of_nil). }
  destruct fuel as [ | fuel]; [cbn in Hf; lia | ]. destruct Hd as [Hl Hd]. cbn [first HASH_FIND_IN_BKT].
  destruct (He l ltac:(left)) as (k & Hs & Hkl). pose proof (stat_key _ _ _ _ _ Hs) as Hk.
  destruct (elem_key m l k (He l ltac:(left)) Hk) as (h & Hh & Ehk & Ekl & _).
  rewrite (hget_some _ _ _ Hh), obind_ok, Ehk, Ekl.
  assert ((if len k =? len key then HASH_KEYCMP k key (len key) else Ok false) = Ok (bool_decide (k = key))) as ->.
  { destruct (len k =? len key) eqn:E; zbool; [apply keycmp_ok; lia | ].
    rewrite bool_decide_eq_false_2; [done | ]. by intros ->. }
  rewrite obind_ok. case_bool_decide as Hkk.
  - rewrite Hkk in Hk. exists (Some l). split; [done | ]. split; [left | done].
  - assert (hh_next h = first c None) as -> by (unfold bkt_links in Hl; rewrite Hh in Hl; by injection Hl).
    destruct (IH fuel (Some l)) as (r & -> & Hr); [cbn in Hf; lia | done | intros; apply He; by right | ].
    exists r. split; [done | ]. destruct r as [x | ]; cbn in *; [split; [right | ]; apply Hr | ].
    intros x [-> | Hx]%elem_of_cons; [rewrite Hk; congruence | by apply Hr].
Qed.

Lemma find_ok s ls key : inv s ls -> len key < 2 ^ 32 ->
  exists r, HASH_FIND s key (len key) = Ok r /\ found (ut_hs s) ls key r.
Proof.
  destruct s as [h o m n]. intros (Hnd & Hsm & Hel & Hf) Hk. cbn in Hf. unfold HASH_FIND. cbn [ut_head].
  destruct h as [l0 | ], o as [t | ]; try done.
  2:{ subst ls. exists None. split; [done | ]. by intros l ?%elem_of_nil. }
  destruct Hf as (bs & k & Htok & Hp & Hds & Hni & Htl & Hfi). pose proof Htok as (Hnb & _ & Hk31 & Hok & Hbs & Hndb).
  rewrite the_tbl_mk, obind_ok by (destruct (dseg_links _ _ _ _ _ Hds (first_elem _ _ Hfi)); by eapply links_alive).
  rewrite jen_hashf, obind_ok, Hnb by done. pose proof (to_bkt_bound (hashf key) k ltac:(lia)) as Hb.
  set (i := HASH_TO_BKT (hashf key) (2 ^ k)) in *.
  destruct (lookup_lt_is_Some_2 bs (Z.to_nat i)) as [c Hc]; [lia | ].
  destruct (lookup_lt_is_Some_2 (buckets t) (Z.to_nat i)) as [b Hbk]; [destruct Hok; lia | ].
  destruct (proj2 Hok _ _ _ Hbk Hc) as (Hhd & _ & Hdc & _). rewrite (rd_ok _ _ b), obind_ok, Hhd by (done || lia).
  assert (forall l, l ∈ c -> l ∈ ls) as Hcl.
  { intros l Hl. rewrite <- Hp. apply elem_of_concat. exists c. split; [done | by eapply list_elem_of_lookup_2]. }
  cbn [ut_hs]. destruct (find_in_bkt_ok m key c (size m) None) as (r & -> & Hr); auto.
  { apply alive_length; [ | intros; by eapply chain_alive].
    destruct (concat_split bs _ _ [] Hc) as (p & q & E & _). rewrite E in Hndb.
    apply NoDup_app in Hndb as (_ & _ & Hndb). by apply NoDup_app in Hndb as [? _]. }
  exists r. split; [done | ]. destruct r as [l | ]; cbn in *; [split; [apply Hcl | ]; apply Hr | ].
  intros l Hl Hkl. apply (Hr l); [ | done]. destruct (elem_key _ _ _ (Hel l Hl) Hkl) as (h & Hh & E1 & E2 & E3).
  assert (stat m l = Some (key, len key, hashf key)) as Hs by (unfold stat; rewrite Hh; cbn; by rewrite E1, E2, E3).
  destruct (chain_of _ _ _ _ _ _ _ Htok ltac:(by rewrite Hp) Hs) as (a & b' & bk & Hc' & _). fold i in Hc'.
  rewrite Hc in Hc'. injection Hc' as ->. set_solver.
Qed.

(** ** Counting, clearing *)
Lemma count_ok s ls : inv s ls -> HASH_CNT s = Ok (len ls).
Proof.
  destruct s as [h o m n]. intros (_ & _ & _ & Hf). cbn in Hf. unfold HASH_CNT. cbn [ut_head].
  destruct h as [l0 | ], o as [t | ]; try done; [ | by subst].
  destruct Hf as (bs & k & _ & _ & Hds & <- & _ & Hfi).
  by rewrite the_tbl_mk by (destruct (dseg_links _ _ _ _ _ Hds (first_elem _ _ Hfi)); by eapply links_alive).
Qed.
Lemma clear_ok s ls : inv s ls -> exists s', HASH_CLEAR s = Ok s' /\ inv s' [] /\ ut_hs s' = ut_hs s /\ ut_young s'.
Proof.
  destruct s as [h o m n]. intros Hi. pose proof Hi as (_ & _ & _ & Hf). cbn in Hf. unfold HASH_CLEAR. cbn [ut_head].
  assert (inv (Ut None None m n) []) as H0.
  { split; [constructor | ]. split; [done | ]. split; [by intros l ?%elem_of_nil | done]. }
  destruct h as [l0 | ], o as [t | ]; try done; [ | by eexists].
  destruct Hf as (bs & k & _ & _ & Hds & _ & _ & Hfi).
  rewrite the_tbl_mk by (destruct (dseg_links _ _ _ _ _ Hds (first_elem _ _ Hfi)); by eapply links_alive). by eexists.
Qed.

(** ** The consistency check *)
Lemma fsck_chain_ok m c : forall fuel p n,
  (length c <= fuel)%nat -> dseg (bkt_links m) p c None -> 0 <= n -> n + len c < 2 ^ 32 ->
  fsck_chain m fuel (first c None) p n = Ok (n + len c).
Proof.
  induction c as [ | l c IH]; intros fuel p n Hf Hd Hn Hs.
  { destruct fuel; cbn; by rewrite Z.add_0_r. }
  destruct fuel as [ | fuel]; [cbn in Hf; lia | ]. destruct Hd as [Hl Hd]. cbn [first fsck_chain].
  destruct (bkt_links_get _ _ _ _ Hl) as (h & Hh & Hpv & Hnx). rewrite (hget_some _ _ _ Hh), obind_ok, Hpv, Hnx.
  rewrite bool_decide_eq_true_2 by done. cbn [length] in *.
  assert (u32 (n + 1) = n + 1) as -> by (apply Z.mod_small; lia). rewrite IH by (done || lia). f_equal. lia.
Qed.
Lemma fsck_list_ok m c : forall fuel p n,
  (length c <= fuel)%nat -> dseg (app_links m) p c None -> 0 <= n -> n + len c < 2 ^ 32 ->
  fsck_list m fuel (first c None) p n = Ok (n + len c).
Proof.
  induction c as [ | l c IH]; intros fuel p n Hf Hd Hn Hs.
  { destruct fuel; cbn; by rewrite Z.add_0_r. }
  destruct fuel as [ | fuel]; [cbn in Hf; lia | ]. destruct Hd as [Hl Hd]. cbn [first fsck_list].
  destruct (links_get _ _ _ _ Hl) as (h & Hh & Hpv & Hnx). rewrite (hget_some _ _ _ Hh), obind_ok, Hpv, Hnx.
  rewrite bool_decide_eq_true_2 by done. cbn [length] in *.
  assert (u32 (n + 1) = n + 1) as -> by (apply Z.mod_small; lia). rewrite IH by (done || lia). f_equal. lia.
Qed.
Lemma fsck_buckets_ok m rb : forall i nb n,
  NoDup (concat rb) ->
  (forall j c, rb !! j = Some c -> dseg (bkt_links m) None c None /\
     exists b, nb !! (i + j)%nat = Some b /\ hh_head b = first c None /\ count b = len c) ->
  0 <= n -> n + len (concat rb) < 2 ^ 32 ->
  fsck_buckets m (length rb) (Z.of_nat i) nb n = Ok (n + len (concat rb)).
Proof.
  induction rb as [ | c rb IH]; intros i nb n Hnd Hb Hn Hs; cbn [length fsck_buckets concat] in *.
  { by rewrite Z.add_0_r. }
  rewrite length_app in Hs. destruct (Hb 0%nat c eq_refl) as (Hd & b & Hi & Hh & Hc). rewrite Nat.add_0_r in Hi.
  apply NoDup_app in Hnd as (Hnc & _ & Hnr). rewrite (rd_ok _ _ b), obind_ok, Hh by (rewrite ?Nat2Z.id; done || lia).
  rewrite (fsck_chain_ok m c (size m) None 0), obind_ok, Hc, Z.add_0_l, Z.eqb_refl
    by (done || lia || (apply alive_length; [done | intros; by eapply chain_alive])).
  assert (u32 (n + len c) = n + len c) as -> by (apply Z.mod_small; lia).
  replace (Z.of_nat i + 1) with (Z.of_nat (S i)) by lia. rewrite IH.
  - rewrite length_app. f_equal. lia.
  - done.
  - intros j d Hj. destruct (Hb (S j) d Hj) as (Hd' & b' & Hi' & ?). split; [done | ]. exists b'.
    by replace (S i + j)%nat with (i + S j)%nat by lia.
  - lia.
  - lia.
Qed.

Lemma inv_fsck s ls : inv s ls -> HASH_FSCK s = Ok tt.
Proof.
  destruct s as [h o m n]. intros (Hnd & Hsm & Hel & Hf). cbn in Hf. unfold HASH_FSCK. cbn [ut_head].
  destruct h as [l0 | ], o as [t | ]; try done.
  destruct Hf as (bs & k & Htok & Hp & Hds & Hni & Htl & Hfi). pose proof Htok as (Hnb & _ & Hk31 & Hok & Hbs & Hndb).
  assert (forall l, l ∈ ls -> is_Some (m !! l)) as Hal.
  { intros l Hl. destruct (dseg_links _ _ _ _ _ Hds Hl). by eapply links_alive. }
  apply first_elem in Hfi as Hl0. rewrite the_tbl_mk, obind_ok, Hnb by auto. cbn [ut_hs].
  replace (Z.to_nat (2 ^ k)) with (length bs) by lia. change 0 with (Z.of_nat 0) at 1.
  rewrite fsck_buckets_ok, obind_ok, Z.add_0_l, Hp, Hni, Z.eqb_refl; [ | done | | lia | rewrite Hp; lia].
  2:{ intros j c Hj. destruct (lookup_lt_is_Some_2 (buckets t) j) as [b Hb].
      { rewrite (proj1 Hok). by eapply lookup_lt_Some. }
      destruct (proj2 Hok _ _ _ Hb Hj) as (Hh & Hc & Hd & _). eauto. }
  cbn [negb]. rewrite <- Hfi, (fsck_list_ok m ls), obind_ok, Z.add_0_l, Z.eqb_refl
    by (done || lia || (by apply alive_length)). done.
Qed.

(** ** Iteration

    The body may remove the element it is given: the elements that remain to be
    visited stay linked. *)
Lemma iter_ok {St} (heap_of : St -> gmap Z handle) body (I : list Z -> St -> Prop) :
  (forall s l rest, I (l :: rest) s -> exists s', body s l = Ok s' /\ I rest s') ->
  (forall s rest, I rest s -> exists p, dseg (app_links (heap_of s)) p rest None) ->
  forall ls s, I ls s -> NoDup ls -> exists s', HASH_ITER heap_of body s (first ls None) = Ok s' /\ I [] s'.
Proof.
  intros Hbody Hlink ls s HI Hnd.
  assert (forall s rest, I rest s -> match first rest None with
    | Some t => let! h := hget (heap_of s) t in Ok (next h) | None => Ok None end = Ok (first (tail rest) None)) as Hnx.
  { intros s' rest Hr. destruct (Hlink _ _ Hr) as [p Hd]. destruct rest as [ | l rest]; [done | ].
    destruct Hd as [Hl _]. destruct (links_get _ _ _ _ Hl) as (h & Hh & _ & Hn). cbn. by rewrite (hget_some _ _ _ Hh), obind_ok, Hn. }
  unfold HASH_ITER. rewrite (Hnx s ls HI), obind_ok.
  assert (length ls <= size (heap_of s))%nat as Hf.
  { destruct (Hlink _ _ HI) as [p Hd]. apply alive_length; [done | ]. intros l Hl.
    destruct (dseg_links _ _ _ _ _ Hd Hl). by eapply links_alive. }
  revert Hf. generalize (size (heap_of s)). intros fuel. clear Hnd. revert fuel s HI.
  induction ls as [ | l ls IH]; intros fuel s HI Hf.
  { exists s. by destruct fuel. }
  destruct fuel as [ | fuel]; [cbn in Hf; lia | ]. cbn [first tail iter_loop].
  destruct (Hbody _ _ _ HI) as (s1 & -> & HI1). rewrite obind_ok, (Hnx _ _ HI1), obind_ok.
  apply IH; [done | cbn in Hf; lia].
Qed.

(** ** Sessions *)
Inductive uop :=
  | UAdd (key : bytes) (x : Z)
  | UReplace (key : bytes) (x : Z)
  | UFind (key : bytes)
  | UDel (key : bytes)  (* HASH_FIND, and HASH_DEL of what it found *)
  | UCount
  | UIter  (* HASH_ITER, collecting the elements *)
  | UFsck
  | UClear.
Inductive ures := RUnit | RPtr (p : option Z) | RNum (n : Z) | RList (l : list Z).

Section Sessions.
Context (malloc : nat -> Z -> bool).
Definition run_op (op : uop) (s : ut) : outcome (ut * ures) :=
  match op with
  | UAdd key x => let! s := HASH_ADD_KEYPTR malloc s key (len key) x in Ok (s, RUnit)
  | UReplace key x => let! '(s, r) := HASH_REPLACE malloc s key (len key) x in Ok (s, RPtr r)
  | UFind key => let! r := HASH_FIND s key (len key) in Ok (s, RPtr r)
  | UDel key =>
      let! r := HASH_FIND s key (len key) in
      let! s := match r with Some l => HASH_DEL s l | None => Ok s end in Ok (s, RPtr r)
  | UCount => let! n := HASH_COUNT s in Ok (s, RNum n)
  | UIter =>
      let! '(_, l) := HASH_ITER (fun st => ut_hs (fst st)) (fun st l => Ok (fst st, snd st ++ [l])) (s, []) (ut_head s) in
      Ok (s, RList l)
  | UFsck => let! _ := HASH_FSCK s in Ok (s, RUnit)
  | UClear => let! s := HASH_CLEAR s in Ok (s, RUnit)
  end.
Fixpoint run (ops : list uop) (s : ut) : outcome (ut * list ures) :=
  match ops with
  | [] => Ok (s, [])
  | op :: ops => let! '(s, r) := run_op op s in let! '(s, rs) := run ops s in Ok (s, r :: rs)
  end.
End Sessions.

(** The dictionary: keys and elements in the order of insertion. *)
Abbreviation dict := (list (bytes * Z)) (only parsing).
Fixpoint dfind (d : dict) (key : bytes) : option Z :=
  match d with
  | [] => None
  | (k, x) :: d => if decide (k = key) then Some x else dfind d key
  end.
Definition dremove (d : dict) (key : bytes) : dict := filter (fun e => e.1 <> key) d.
Arguments dremove : simpl never.
(** [None]: the operation is a misuse: the key or the element is already there. *)
Definition spec_op (op : uop) (d : dict) : option (dict * ures) :=
  match op with
  | UAdd key x => if decide (key ∉ d.*1 /\ x ∉ d.*2) then Some (d ++ [(key, x)], RUnit) else None
  | UReplace key x =>
      if decide (x ∉ (dremove d key).*2) then Some (dremove d key ++ [(key, x)], RPtr (dfind d key)) else None
  | UFind key => Some (d, RPtr (dfind d key))
  | UDel key => Some (dremove d key, RPtr (dfind d key))
  | UCount => Some (d, RNum (len d))
  | UIter => Some (d, RList (d.*2))
  | UFsck => Some (d, RUnit)
  | UClear => Some ([], RUnit)
  end.
Fixpoint spec_run (ops : list uop) (d : dict) : option (dict * list ures) :=
  match ops with
  | [] => Some (d, [])
  | op :: ops =>
      match spec_op op d with
      | Some (d, r) => match spec_run ops d with Some (d, rs) => Some (d, r :: rs) | None => None end
      | None => None
      end
  end.
(** Keys have a 32-bit length, elements are allocated. *)
Definition op_ok (m : gmap Z handle) (op : uop) : Prop :=
  match op with
  | UAdd key x | UReplace key x => len key < 2 ^ 32 /\ is_Some (m !! x)
  | UFind key | UDel key => len key < 2 ^ 32
  | _ => True
  end.

(** The table holds the dictionary. *)
Definition rep (s : ut) (d : dict) : Prop :=
  inv s d.*2 /\ Forall (fun e => key_at (ut_hs s) e.2 = Some e.1) d /\ NoDup d.*1.

Lemma dfind_none d key : dfind d key = None -> key ∉ d.*1.
Proof.
  induction d as [ | [k x] d IH]; cbn; [intros _ ?%elem_of_nil; done | ]. case_decide; [done | ].
  intros E%IH. intros [-> | ?]%elem_of_cons; done.
Qed.
Lemma dremove_none d key : key ∉ d.*1 -> dremove d key = d.
Proof.
  unfold dremove. induction d as [ | [k x] d IH]; [done | ]. rewrite fmap_cons, not_elem_of_cons. intros [H1 H2].
  rewrite filter_cons_True by (cbn in *; congruence). f_equal. by apply IH.
Qed.
Lemma dfind_split d key x : NoDup d.*1 -> dfind d key = Some x ->
  exists a b, d = a ++ (key, x) :: b /\ dremove d key = a ++ b.
Proof.
  induction d as [ | [k y] d IH]; cbn; [done | ]. intros [Hk Hnd]%NoDup_cons. case_decide as E.
  - intros [= ->]. subst k. exists [], d. split; [done | ]. unfold dremove. rewrite filter_cons_False by (cbn; naive_solver).
    by apply dremove_none.
  - intros (a & b & -> & Er)%IH; [ | done]. exists ((k, y) :: a), b. split; [done | ].
    unfold dremove. rewrite filter_cons_True by (cbn in *; congruence). cbn. f_equal. exact Er.
Qed.
Lemma dfind_in d key x : NoDup d.*1 -> (key, x) ∈ d -> dfind d key = Some x.
Proof.
  induction d as [ | [k y] d IH]; cbn; [by intros _ ?%elem_of_nil | ]. intros [Hk Hnd]%NoDup_cons.
  intros [[= <- <-] | Hin]%elem_of_cons; [by rewrite decide_True | ].
  case_decide as E; [ | by apply IH]. subst k. destruct Hk. apply list_elem_of_fmap. by exists (key, x).
Qed.

Lemma rep_find s d key : rep s d -> len key < 2 ^ 32 -> HASH_FIND s key (len key) = Ok (dfind d key).
Proof.
  intros (Hi & Hk & Hnd) Hl. destruct (find_ok s _ key Hi Hl) as (r & -> & Hr). f_equal.
  rewrite Forall_forall in Hk. destruct r as [x | ]; cbn in Hr.
  - destruct Hr as [([k y] & -> & Hin)%list_elem_of_fmap Hx]. specialize (Hk _ Hin). cbn in Hk, Hx.
    rewrite Hk in Hx. injection Hx as ->. symmetry. by apply dfind_in.
  - destruct (dfind d key) as [x | ] eqn:E; [ | done]. destruct (dfind_split d key x Hnd E) as (a & b & -> & _).
    assert ((key, x) ∈ a ++ (key, x) :: b) as Hin by (apply elem_of_app; right; left).
    destruct (Hr x); [apply list_elem_of_fmap; by exists (key, x) | ]. exact (Hk (key, x) Hin).
Qed.

Lemma key_at_stat m m' l : stat m' l = stat m l -> key_at m' l = key_at m l.
Proof. unfold stat, key_at. destruct (m' !! l), (m !! l); cbn; congruence. Qed.

Lemma rep_delete s a k x b : rep s (a ++ (k, x) :: b) ->
  exists s', HASH_DELETE s x = Ok s' /\ rep s' (a ++ b) /\ dom (ut_hs s') = dom (ut_hs s) /\ (ut_young s -> ut_young s').
Proof.
  intros (Hi & Hk & Hnd). rewrite fmap_app in Hi. cbn in Hi.
  destruct (delete_ok s _ x _ Hi) as (s' & -> & Hi' & Hd & Hy & Hs). exists s'. split; [done | ].
  split; [ | done]. split; [by rewrite fmap_app | ]. split.
  - apply Forall_app in Hk as [Ha Hb%Forall_cons]. apply Forall_app.
    split; (eapply Forall_impl; [first [exact Ha | apply Hb] | ]; cbn; intros e He; by rewrite (key_at_stat (ut_hs s))).
  - rewrite fmap_app in *. cbn in Hnd. rewrite <- Permutation_middle in Hnd. by apply NoDup_cons in Hnd as [_ ?].
Qed.
Lemma rep_remove s d key : rep s d ->
  exists s', match dfind d key with Some l => HASH_DELETE s l | None => Ok s end = Ok s' /\
    rep s' (dremove d key) /\ dom (ut_hs s') = dom (ut_hs s) /\ (ut_young s -> ut_young s').
Proof.
  intros Hr. pose proof Hr as (_ & _ & Hnd). destruct (dfind d key) as [x | ] eqn:E.
  - destruct (dfind_split d key x Hnd E) as (a & b & -> & Er). rewrite Er. by apply (rep_delete s a key x b).
  - apply dfind_none in E. exists s. split; [done | ]. by rewrite dremove_none.
Qed.
Lemma rep_links s d : rep s d -> dseg (app_links (ut_hs s)) None d.*2 None /\ ut_head s = first d.*2 None.
Proof.
  intros ((_ & _ & _ & Hf) & _). destruct (ut_head s), (ut_tbl s); try done; [ | by rewrite Hf].
  destruct Hf as (bs & k & _ & _ & ? & _ & _ & Hfi). by rewrite Hfi.
Qed.

Section Refinement.
Context (malloc : nat -> Z -> bool).

Lemma rep_add s d key x : rep s d -> key ∉ d.*1 -> x ∉ d.*2 -> len key < 2 ^ 32 -> is_Some (ut_hs s !! x) ->
  len d + 1 < 2 ^ 32 ->
  (refused malloc s key /\ HASH_ADD_KEYPTR malloc s key (len key) x = Exit (-1)) \/
  (overfull malloc s key /\ HASH_ADD_KEYPTR malloc s key (len key) x = Ub) \/
  exists s', HASH_ADD_KEYPTR malloc s key (len key) x = Ok s' /\ rep s' (d ++ [(key, x)]) /\
    dom (ut_hs s') = dom (ut_hs s) /\ (ut_young s /\ len d < 9 -> ut_young s').
Proof.
  intros (Hi & Hk & Hnd) Hkey Hx Hl Ha Hsm.
  destruct (add_ok malloc s d.*2 x key Hi Hx Ha Hl) as [? | [? | (s' & E & Hi' & Hd & Hy & Hs & Ho)]];
    [rewrite length_fmap; done | by left | by right; left | right; right]. rewrite length_fmap in Hy.
  exists s'. split; [done | ]. split; [ | done]. split; [by rewrite fmap_app | ]. split.
  - apply Forall_app. split; [ | by apply Forall_singleton, (stat_key _ _ _ _ _ Hs)].
    rewrite Forall_forall in Hk |- *. intros e He. rewrite (key_at_stat (ut_hs s)); [by apply Hk | ].
    apply Ho. intros <-. apply Hx. by apply list_elem_of_fmap_2.
  - rewrite fmap_app. by apply NoDup_app; split; [done | split; [intros k Hin ->%list_elem_of_singleton; done | apply NoDup_singleton]].
Qed.

(** The table an operation adds a key to: HASH_REPLACE removes the old element first. *)
Definition before_add (op : uop) (s : ut) : outcome (option (ut * bytes)) :=
  match op with
  | UAdd key _ => Ok (Some (s, key))
  | UReplace key _ =>
      let! replaced := HASH_FIND s key (len key) in
      let! s := match replaced with Some l => HASH_DELETE s l | None => Ok s end in
      Ok (Some (s, key))
  | _ => Ok None
  end.
(** The addition to [s1] ends the program: an allocation it makes is refused, or the
    one for 2^32 buckets is granted. *)
Definition stops {A} (s1 : ut) (key : bytes) (o : outcome A) : Prop :=
  (refused malloc s1 key /\ o = Exit (-1)) \/ (overfull malloc s1 key /\ o = Ub).

(** The next operation. *)
Definition step_post (op : uop) (s : ut) (d : dict) (o : outcome (ut * ures)) (d' : dict) (r : ures) : Prop :=
  (exists s1 key d1, before_add op s = Ok (Some (s1, key)) /\ stops s1 key o /\ rep s1 d1 /\
     (ut_young s -> ut_young s1) /\ len d1 <= len d) \/
  exists s', o = Ok (s', r) /\ rep s' d' /\ dom (ut_hs s') = dom (ut_hs s) /\ (ut_young s /\ len d < 9 -> ut_young s').

Lemma dremove_len d key : len (dremove d key) <= len d.
Proof. unfold dremove. pose proof (length_filter (fun e : bytes * Z => e.1 <> key) d). lia. Qed.
Lemma dremove_keys d key : key ∉ (dremove d key).*1.
Proof. intros ([k x] & -> & [H _]%list_elem_of_filter)%list_elem_of_fmap. by cbn in H. Qed.

Lemma iter_collect s d : rep s d ->
  HASH_ITER (fun st => ut_hs (fst st)) (fun st l => Ok (fst st, snd st ++ [l])) (s, []) (ut_head s) = Ok (s, d.*2).
Proof.
  intros Hr. destruct (rep_links s d Hr) as [Hds ->]. destruct Hr as ((Hnd & _) & _).
  destruct (iter_ok (fun st : ut * list Z => ut_hs (fst st)) (fun st l => Ok (fst st, snd st ++ [l]))
    (fun rest st => fst st = s /\ snd st ++ rest = d.*2)) with (ls := d.*2) (s := (s, [] : list Z)) as ([s' l'] & E & Hs & Hl).
  - intros [s1 l1] l rest [-> <-]. eexists. split; [done | ]. cbn. by rewrite <- app_assoc.
  - intros [s1 l1] rest [-> Hl]. cbn in *. rewrite <- Hl in Hds. apply dseg_app in Hds as [_ ?]. eauto.
  - done.
  - done.
  - rewrite E. cbn in Hs, Hl. rewrite app_nil_r in Hl. by subst.
Qed.

Lemma op_refines op s d d' r : rep s d -> op_ok (ut_hs s) op -> len d + 1 < 2 ^ 32 ->
  spec_op op d = Some (d', r) -> step_post op s d (run_op malloc op s) d' r.
Proof.
  intros Hr Hok Hsm. destruct op as [key x | key x | key | key | | | | ]; cbn [spec_op run_op op_ok] in *.
  - case_decide as Hc; [ | done]. intros [= <- <-]. destruct Hc, Hok.
    destruct (rep_add s d key x) as [[? ->] | [[? ->] | (s' & -> & ? & ? & ?)]]; try done; [left.. | right; by eexists];
      exists s, key, d; (split; [done | ]); (split; [ | done]); [by left | by right].
  - case_decide as Hc; [ | done]. intros [= <- <-]. destruct Hok as [Hkl Hx]. unfold HASH_REPLACE.
    rewrite (rep_find s d key), obind_ok by done. destruct (rep_remove s d key Hr) as (s1 & E1 & Hr1 & Hd1 & Hy1).
    rewrite E1, obind_ok. pose proof (dremove_len d key). unfold step_post. cbn [before_add].
    rewrite (rep_find s d key), obind_ok, E1, obind_ok by done.
    destruct (rep_add s1 (dremove d key) key x) as [[Hf ->] | [[Hf ->] | (s' & -> & ? & ? & ?)]];
      try done; [apply dremove_keys | by apply (dom_alive (ut_hs s)) | lia | left | left | right].
    + exists s1, key, (dremove d key). split; [done | ]. split; [by left | done].
    + exists s1, key, (dremove d key). split; [done | ]. split; [by right | done].
    + eexists. split; [done | ]. split; [done | ]. split; [congruence | ]. intros [Hy Hl]. naive_solver lia.
  - intros [= <- <-]. rewrite (rep_find s d key) by done. right. eexists. split; [done | ]. naive_solver.
  - intros [= <- <-]. rewrite (rep_find s d key), obind_ok by done.
    destruct (rep_remove s d key Hr) as (s1 & E & Hr1 & Hd1 & Hy1). unfold HASH_DEL. rewrite E. right.
    eexists. split; [done | ]. naive_solver.
  - intros [= <- <-]. unfold HASH_COUNT. rewrite (count_ok s _ (proj1 Hr)), length_fmap. right. eexists. split; [done | ]. naive_solver.
  - intros [= <- <-]. rewrite (iter_collect s d Hr). right. eexists. split; [done | ]. naive_solver.
  - intros [= <- <-]. rewrite (inv_fsck s _ (proj1 Hr)). right. eexists. split; [done | ]. naive_solver.
  - intros [= <- <-]. destruct (clear_ok s _ (proj1 Hr)) as (s' & -> & Hi & Hh & Hy). right. eexists. split; [done | ].
    rewrite Hh. split; [ | done]. split; [done | ]. split; constructor.
Qed.
End Refinement.


Lemma spec_len op d d' r : spec_op op d = Some (d', r) -> len d' <= len d + 1.
Proof.
  pose proof (dremove_len d). destruct op; cbn; repeat case_decide; intros [= <- <-]; rewrite ?length_app; cbn [length];
    try match goal with |- context [dremove d ?k] => specialize (H k) end; lia.
Qed.
Lemma op_ok_dom m m' op : dom m' = dom m -> op_ok m op -> op_ok m' op.
Proof. intros Hd. destruct op; cbn; try done; intros [? ?]; (split; [done | by apply (dom_alive m)]). Qed.

Lemma empty_rep m n : rep (Ut None None m n) [].
Proof. split; [ | split; constructor]. split; [constructor | ]. split; [done | ]. split; [by intros l ?%elem_of_nil | done]. Qed.

(** The session [ops] from [s] ends in an addition: the operations before it give the
    dictionary's results, and the addition asks for memory it does not get, or for the
    64 GB it must not get. *)
Definition run_stops malloc (ops : list uop) (s : ut) (d0 : dict) : Prop :=
  exists ops1 op ops2 s1 rs1 d1 s2 key, ops = ops1 ++ op :: ops2 /\
    run malloc ops1 s = Ok (s1, rs1) /\ spec_run ops1 d0 = Some (d1, rs1) /\ rep s1 d1 /\
    before_add op s1 = Ok (Some (s2, key)) /\ stops malloc s2 key (run malloc ops s).

Lemma run_refines malloc : forall ops s d0 d rs,
  rep s d0 -> Forall (op_ok (ut_hs s)) ops -> len d0 + len ops < 2 ^ 32 - 1 -> spec_run ops d0 = Some (d, rs) ->
  (exists s', run malloc ops s = Ok (s', rs) /\ rep s' d) \/ run_stops malloc ops s d0.
Proof.
  induction ops as [ | op ops IH]; intros s d0 d rs Hr Hok Hl; cbn [spec_run run].
  { intros [= <- <-]. left. by eexists. }
  apply Forall_cons in Hok as [Ho Hok]. cbn [length] in Hl. destruct (spec_op op d0) as [[d1 r] | ] eqn:E1; [ | done].
  destruct (spec_run ops d1) as [[d2 rs2] | ] eqn:E2; [ | done]. intros [= -> <-].
  destruct (op_refines malloc op s d0 d1 r Hr Ho ltac:(lia) E1) as [(s1 & key & d1' & Hb & Hst & _) | (s1 & Es & Hr1 & Hd1 & _)].
  { right. exists [], op, ops, s, [], d0, s1, key. do 5 (split; [done | ]). cbn [run].
    destruct Hst as [[? ->] | [? ->]]; [by left | by right]. }
  rewrite Es, obind_ok. pose proof (spec_len _ _ _ _ E1).
  destruct (IH s1 d1 d rs2 Hr1) as [(s2 & -> & Hr2) | (ops1 & op' & ops2 & s2 & rs1 & d2 & s3 & key & -> & Er & Esp & Hr2 & Hb & Hst)];
    [ | lia | done | left; by eexists | right].
  - eapply Forall_impl; [exact Hok | ]. intros o. by apply op_ok_dom.
  - exists (op :: ops1), op', ops2, s2, (r :: rs1), d2, s3, key. cbn [run spec_run]. rewrite Es, E1, Esp, !obind_ok, Er, obind_ok.
    cbn [app]. split; [done | ]. do 4 (split; [done | ]).
    destruct Hst as [[? ->] | [? ->]]; [by left | by right].
Qed.

(** Sessions in which the dictionary has at most eight entries before each
    operation. *)
Fixpoint small (ops : list uop) (d : dict) : bool :=
  match ops with
  | [] => true
  | op :: ops => (len d <? 9) && match spec_op op d with Some (d, _) => small ops d | None => false end
  end.

Lemma run_small malloc : (forall j, malloc j 64 = true /\ malloc j 512 = true) ->
  forall ops s d0, rep s d0 -> ut_young s -> Forall (op_ok (ut_hs s)) ops -> small ops d0 = true ->
  exists s' d rs, spec_run ops d0 = Some (d, rs) /\ run malloc ops s = Ok (s', rs) /\ rep s' d.
Proof.
  intros Hm. induction ops as [ | op ops IH]; intros s d0 Hr Hy Hok; cbn [spec_run run small].
  { intros _. by eexists _, _, _. }
  apply Forall_cons in Hok as [Ho Hok]. intros [Hl Hsm]%andb_true_iff. zbool.
  destruct (spec_op op d0) as [[d1 r] | ] eqn:E1; [ | done].
  destruct (op_refines malloc op s d0 d1 r Hr Ho ltac:(lia) E1) as [(s1 & key & d1' & _ & Hst & [Hi _] & Hy' & Hle) | (s1 & -> & Hr1 & Hd1 & Hy1)].
  { destruct (small_requests s1 _ key Hi (Hy' Hy)) as [E | E]; [rewrite length_fmap; lia | | ];
      destruct Hst as [[(i & sz & Hi' & Hf) _] | [[Ho' _] _]]; rewrite E in *; try done.
    destruct i as [ | [ | i]]; try done; injection Hi' as <-; destruct (Hm (ut_calls s1 + 0)%nat), (Hm (ut_calls s1 + 1)%nat); congruence. }
  rewrite obind_ok. destruct (IH s1 d1 Hr1 ltac:(auto)) as (s2 & d2 & rs2 & -> & -> & Hr2); [ | done | by eexists _, _, _].
  eapply Forall_impl; [exact Hok | ]. intros o. by apply op_ok_dom.
Qed.

(** ** Properties *)

(** C2. Any session of HASH_ADD, HASH_REPLACE, HASH_FIND, HASH_DEL, HASH_COUNT,
    HASH_ITER, HASH_CLEAR and HASH_FSCK on a table, with keys of any length and as
    many bucket expansions as the additions cause, gives the results of a
    dictionary that keeps the order of insertion, unless it stops in one of its
    additions, with the results of the dictionary before it: with exit code -1, and then
    [malloc] has refused one of the requests of this addition (the table and its first
    buckets for an empty table, twice the buckets if the chain of the key is full, nothing
    otherwise); or with the shift of a 32-bit number by 32, and then the addition doubles
    2^31 buckets and [malloc] has granted it 64 GB. *)
Theorem uthash_refines malloc m ops d rs :
  Forall (op_ok m) ops -> len ops < 2 ^ 32 - 1 -> spec_run ops [] = Some (d, rs) ->
  (exists s, run malloc ops (Ut None None m 0) = Ok (s, rs) /\ rep s d) \/
  (exists ops1 op ops2 s1 rs1 d1 s2 key, ops = ops1 ++ op :: ops2 /\
    run malloc ops1 (Ut None None m 0) = Ok (s1, rs1) /\ spec_run ops1 [] = Some (d1, rs1) /\ rep s1 d1 /\
    before_add op s1 = Ok (Some (s2, key)) /\
    ((refused malloc s2 key /\ run malloc ops (Ut None None m 0) = Exit (-1)) \/
     (overfull malloc s2 key /\ run malloc ops (Ut None None m 0) = Ub))).
Proof. intros Hok Hl Hs. by apply (run_refines malloc ops _ [] d rs (empty_rep m 0)). Qed.

(** C31. A table that stays small does not expand: if the two allocations of a new table
    (64 and 512 bytes) are granted, a session whose dictionary has at most eight
    entries before each operation runs to its end with the dictionary's results. *)
Theorem uthash_small_total malloc m ops :
  (forall j, malloc j 64 = true /\ malloc j 512 = true) ->
  Forall (op_ok m) ops -> small ops [] = true ->
  exists s d rs, spec_run ops [] = Some (d, rs) /\ run malloc ops (Ut None None m 0) = Ok (s, rs) /\ rep s d.
Proof. intros Hm Hok Hs. by apply (run_small malloc Hm ops _ [] (empty_rep m 0)). Qed.

(** C32. HASH_FSCK accepts every table that a session can produce, also one in which
    keys occur more than once: it accepts every state of the invariant, which
    HASH_DELETE of any element keeps, and HASH_ADD of any new element too unless
    [malloc] refuses one of the requests of this addition (exit code -1) or grants it the
    64 GB for 2^32 buckets (undefined). *)
Theorem uthash_integrity malloc s ls key x :
  inv s ls -> HASH_FSCK s = Ok tt /\ HASH_CNT s = Ok (len ls) /\
  (x ∈ ls -> exists s' a b, ls = a ++ x :: b /\ HASH_DELETE s x = Ok s' /\ inv s' (a ++ b)) /\
  (x ∉ ls -> is_Some (ut_hs s !! x) -> len key < 2 ^ 32 -> len ls < 2 ^ 32 - 1 ->
   (refused malloc s key /\ HASH_ADD_KEYPTR malloc s key (len key) x = Exit (-1)) \/
   (overfull malloc s key /\ HASH_ADD_KEYPTR malloc s key (len key) x = Ub) \/
   exists s', HASH_ADD_KEYPTR malloc s key (len key) x = Ok s' /\ inv s' (ls ++ [x]) /\
     HASH_FSCK s' = Ok tt).
Proof.
  intros Hi. split; [by apply (inv_fsck s ls) | ]. split; [by apply count_ok | ]. split.
  - intros (a & b & ->)%list_elem_of_split. destruct (delete_ok s a x b Hi) as (s' & E & Hi' & _). by exists s', a, b.
  - intros Hx Ha Hk Hl. destruct (add_ok malloc s ls x key Hi Hx Ha Hk ltac:(lia)) as [? | [? | (s' & E & Hi' & _)]];
      [by left | by right; left | right; right]. exists s'. split; [done | ]. split; [done | ]. by apply (inv_fsck _ _ Hi').
Qed.

(** ** Witnesses *)

(** 24 elements; [malloc] up to 64 GB. *)
Definition blank : handle := Handle None None None None [] 0 0.
Definition arena : gmap Z handle := list_to_map (map (fun n => (Z.of_nat n + 100, blank)) (seq 0 24)).
Definition mem64 (n : nat) (sz : Z) : bool := sz <? 2 ^ 36.
Definition demo : list uop :=
  [UAdd (int_key 7) 100; UAdd (int_key 8) 101; UReplace (int_key 7) 102; UFind (int_key 7); UDel (int_key 8);
   UAdd (lit "key of thirteen") 101; UCount; UIter; UFsck].
Lemma demo_ok : Forall (op_ok arena) demo.
Proof. repeat constructor; vm_compute; eauto. Defined.

(** [malloc] that refuses its second request. *)
Definition one_block (n : nat) (sz : Z) : bool := (n =? 0)%nat.
Definition demo_results : list ures :=
  [RUnit; RUnit; RPtr (Some 100); RPtr (Some 102); RPtr (Some 101); RUnit; RNum 2; RList [102; 101]; RUnit].
Lemma uthash_refines_witness :
  run one_block demo (Ut None None arena 0) = Exit (-1) /\
  ((exists s, run mem64 demo (Ut None None arena 0) = Ok (s, demo_results) /\ rep s [(int_key 7, 102); (lit "key of thirteen", 101)]) \/
   (exists ops1 op ops2 s1 rs1 d1 s2 key, demo = ops1 ++ op :: ops2 /\
    run mem64 ops1 (Ut None None arena 0) = Ok (s1, rs1) /\ spec_run ops1 [] = Some (d1, rs1) /\ rep s1 d1 /\
    before_add op s1 = Ok (Some (s2, key)) /\
    ((refused mem64 s2 key /\ run mem64 demo (Ut None None arena 0) = Exit (-1)) \/
     (overfull mem64 s2 key /\ run mem64 demo (Ut None None arena 0) = Ub)))).
Proof.
  split; [vm_compute; reflexivity | ].
  apply (uthash_refines mem64 arena demo [(int_key 7, 102); (lit "key of thirteen", 101)] demo_results demo_ok);
    [reflexivity | vm_compute; reflexivity].
Defined.
Lemma uthash_small_total_witness : exists s rs, run mem64 demo (Ut None None arena 0) = Ok (s, rs) /\ length rs = 9%nat.
Proof.
  destruct (uthash_small_total mem64 arena demo) as (s & d & rs & E & Er & _);
    [intros j; split; reflexivity | exact demo_ok | vm_compute; reflexivity | ].
  exists s, rs. split; [exact Er | ]. revert E. vm_compute. intros [= <- <-]. reflexivity.
Defined.
(** A table of two elements. *)
Definition two_tbl : ut :=
  match run mem64 [UAdd (int_key 7) 100; UAdd (int_key 8) 101] (Ut None None arena 0) with Ok (s, _) => s | _ => Ut None None ∅ 0 end.
Lemma two_inv : inv two_tbl [100; 101].
Proof.
  destruct (run_small mem64 (fun j => conj eq_refl eq_refl) [UAdd (int_key 7) 100; UAdd (int_key 8) 101] _ _ (empty_rep arena 0) I)
    as (s & d & rs & Es & Er & Hr); [repeat constructor; vm_compute; eauto | vm_compute; reflexivity | ].
  vm_compute in Es. injection Es as <- <-. unfold two_tbl. rewrite Er. apply Hr.
Qed.
Lemma uthash_integrity_witness :
  HASH_FSCK two_tbl = Ok tt /\ HASH_CNT two_tbl = Ok 2 /\
  (exists s', HASH_ADD_KEYPTR mem64 two_tbl (int_key 7) 4 102 = Ok s' /\ inv s' [100; 101; 102] /\ HASH_FSCK s' = Ok tt).
Proof.
  destruct (uthash_integrity mem64 two_tbl [100; 101] (int_key 7) 102 two_inv) as (H1 & H2 & _ & H4).
  split; [exact H1 | ]. split; [exact H2 | ].
  assert (exists t, HASH_ADD_KEYPTR mem64 two_tbl (int_key 7) (len (int_key 7)) 102 = Ok t) as [t E] by (vm_compute; by eexists).
  rewrite E in H4. destruct H4 as [[_ F] | [[_ F] | H]]; [ | | | | discriminate F | discriminate F | ].
  - apply (bool_decide_unpack _). reflexivity.
  - apply (bool_decide_unpack _). vm_compute. reflexivity.
  - reflexivity.
  - reflexivity.
  - destruct H as (s' & F & H). injection F as <-. exists t. split; [exact E | exact H].
Defined.

(** The keys share a bucket of 32: the tenth doubles the buckets, and every element
    is still found. *)
Definition crowded : list Z := [0; 1; 4; 21; 39; 57; 117; 125; 167; 217; 232].
Definition crowd : list uop :=
  imap (fun i k => UAdd (int_key k) (Z.of_nat i + 100)) crowded ++ map (fun k => UFind (int_key k)) crowded ++ [UFsck].
Example expansion_example :
  exists s rs, run mem64 crowd (Ut None None arena 0) = Ok (s, rs) /\ num_buckets <$> ut_tbl s = Some 64 /\
    rs = replicate 11 RUnit ++ map (fun n => RPtr (Some (Z.of_nat n + 100))) (seq 0 11) ++ [RUnit].
Proof. vm_compute. eauto. Qed.
End UtHashSpec.
