(* ===== verification/UtHashSort.v ===== *)
(** * HASH_SRT of [client_server/uthash/src/uthash.h]

    The bottom-up merge sort of the list of elements, in place on the links.  The
    comparison is a parameter on elements ([cmpfcn]); its laws are those of an
    order in which different elements may be equal.  The sort is shown to be
    stable: it equals the insertion sort that keeps equal elements in order. *)
From S2P Require Import Prelude CLib Bytes UtHashFn UtHash UtHashProof UtHashSpec.
From Stdlib Require Import Sorted.

Module UtHashSort.
Import UtHashFn UtHash UtHashProof UtHashSpec.

Section Sort.
Context (cmpfcn : Z -> Z -> Z).

(** ** The macro *)

(** [for (_hs_i = 0; _hs_i < _hs_insize; _hs_i++)]: steps over one run; the result is
    [_hs_psize] and [_hs_q]. *)
Fixpoint srt_skip (m : gmap Z handle) (fuel : nat) (i insize psize q : Z) : outcome (Z * option Z) :=
  if i <? insize then
    match fuel with
    | O => NoFuel
    | S fuel =>
        let psize := u32 (psize + 1) in
        let! h := hget m q in
        match next h with
        | None => Ok (psize, None)
        | Some q => srt_skip m fuel (i + 1) insize psize q
        end
    end
  else Ok (psize, Some q).

(** [_hs_q = _hs_q->next], and the same for [_hs_p] after its test for null. *)
Definition srt_next (m : gmap Z handle) (q : option Z) : outcome (option Z) :=
  match q with Some l => let! h := hget m l in Ok (next h) | None => Ub end.
Definition srt_next_p (m : gmap Z handle) (p : option Z) : outcome (option Z) :=
  match p with Some _ => srt_next m p | None => Ok None end.

(** The variables of the merge. *)
Record mrg := Mrg { mp : option Z; mq : option Z; mpsize : Z; mqsize : Z; mlist : option Z; mtail : option Z }.

(** The choice of [_hs_e]. *)
Definition srt_pick (m : gmap Z handle) (v : mrg) : outcome (option Z * mrg) :=
  let take_q :=
    let! q := srt_next m (mq v) in
    Ok (mq v, Mrg (mp v) q (mpsize v) (u32 (mqsize v - 1)) (mlist v) (mtail v)) in
  let take_p :=
    let! p := srt_next_p m (mp v) in
    Ok (mp v, Mrg p (mq v) (u32 (mpsize v - 1)) (mqsize v) (mlist v) (mtail v)) in
  if mpsize v =? 0 then take_q
  else if (mqsize v =? 0) || bool_decide (mq v = None) then take_p
  else match mp v, mq v with
       | Some p, Some q => if cmpfcn p q <=? 0 then take_p else take_q
       | _, _ => Ub
       end.
(** Linking [_hs_e] behind [_hs_tail]. *)
Definition srt_link (m : gmap Z handle) (e : option Z) (v : mrg) : outcome (gmap Z handle * mrg) :=
  let! m := hupd_opt m (mtail v) (set_next e) in
  let list := match mtail v with Some _ => mlist v | None => e end in
  let! m := hupd_opt m e (set_prev (mtail v)) in
  Ok (m, Mrg (mp v) (mq v) (mpsize v) (mqsize v) list e).

(** [while ((_hs_psize > 0U) || ((_hs_qsize > 0U) && (_hs_q != NULL)))] *)
Fixpoint srt_merge (m : gmap Z handle) (fuel : nat) (v : mrg) : outcome (gmap Z handle * mrg) :=
  if (mpsize v >? 0) || ((mqsize v >? 0) && bool_decide (mq v <> None)) then
    match fuel with
    | O => NoFuel
    | S fuel =>
        let! '(e, v) := srt_pick m v in
        let! '(m, v) := srt_link m e v in
        srt_merge m fuel v
    end
  else Ok (m, v).

(** [while (_hs_p != NULL)]; the result is [_hs_list], [_hs_tail] and [_hs_nmerges]. *)
Fixpoint srt_pass (m : gmap Z handle) (fuel : nat) (insize : Z) (p list tail : option Z) (nmerges : Z)
  : outcome (gmap Z handle * option Z * option Z * Z) :=
  match p with
  | None => Ok (m, list, tail, nmerges)
  | Some l =>
      match fuel with
      | O => NoFuel
      | S fuel =>
          let nmerges := u32 (nmerges + 1) in
          let! '(psize, q) := srt_skip m (size m) 0 insize 0 l in
          let! '(m, v) := srt_merge m (size m) (Mrg p q psize insize list tail) in
          srt_pass m fuel insize (mq v) (mlist v) (mtail v) nmerges
      end
  end.

(** [while (_hs_looping != 0U)] *)
Fixpoint srt_loop (m : gmap Z handle) (fuel : nat) (insize : Z) (list : option Z)
  : outcome (gmap Z handle * option Z * option Z) :=
  match fuel with
  | O => NoFuel
  | S fuel =>
      let! '(m, list, tail, nmerges) := srt_pass m (size m) insize list None None 0 in
      let! m := hupd_opt m tail (set_next None) in
      if nmerges <=? 1 then Ok (m, list, tail)
      else srt_loop m fuel (u32 (insize * 2)) list
  end.

Definition HASH_SRT (s : ut) : outcome ut :=
  match ut_head s with
  | None => Ok s
  | Some _ =>
      let! '(m, list, tail) := srt_loop (ut_hs s) (size (ut_hs s)) 1 (ut_head s) in
      let! s := upd_tbl (set_hs m s) (set_tail tail) in
      Ok (set_head list s)
  end.
Definition HASH_SORT : ut -> outcome ut := HASH_SRT.

(** ** Lists: merging runs *)
Fixpoint merge (a : list Z) : list Z -> list Z :=
  fix merge_a (b : list Z) : list Z :=
    match a, b with
    | [], _ => b
    | _, [] => a
    | x :: a', y :: b' => if cmpfcn x y <=? 0 then x :: merge a' b else y :: merge_a b'
    end.
(** One pass with runs of [k] elements. *)
Fixpoint pass (fuel k : nat) (ls : list Z) : list Z :=
  match fuel, ls with
  | S fuel, _ :: _ => merge (take k ls) (take k (drop k ls)) ++ pass fuel k (drop (k + k) ls)
  | _, _ => []
  end.
(** The reference: insertion behind the elements that are not greater. *)
Fixpoint insert_after (x : Z) (ls : list Z) : list Z :=
  match ls with
  | [] => [x]
  | y :: ls => if cmpfcn y x <=? 0 then y :: insert_after x ls else x :: y :: ls
  end.
Definition stable_sort (ls : list Z) : list Z := foldl (fun acc x => insert_after x acc) [] ls.

(** *** Merging is stable insertion *)
Section Order.
Context (Htotal : forall x y, cmpfcn x y <= 0 \/ cmpfcn y x <= 0)
  (Htrans : forall x y z, cmpfcn x y <= 0 -> cmpfcn y z <= 0 -> cmpfcn x z <= 0).

Lemma merge_nil_l b : merge [] b = b.
Proof. by destruct b. Qed.
Lemma merge_nil_r a : merge a [] = a.
Proof. by destruct a. Qed.
Lemma merge_cons x a y b :
  merge (x :: a) (y :: b) = if cmpfcn x y <=? 0 then x :: merge a (y :: b) else y :: merge (x :: a) b.
Proof. done. Qed.
Definition sorted : list Z -> Prop := StronglySorted (fun x y => cmpfcn x y <= 0).

Lemma insert_perm x ls : insert_after x ls ≡ₚ x :: ls.
Proof. induction ls as [ | y ls IH]; cbn; [done | ]. case_if; [ | done]. rewrite IH. apply Permutation_swap. Qed.
Lemma insert_sorted x ls : sorted ls -> sorted (insert_after x ls).
Proof.
  induction 1 as [ | y ls Hs IH Hy]; cbn; [repeat constructor | ]. destruct (cmpfcn y x <=? 0) eqn:E; zbool.
  - constructor; [done | ]. rewrite (insert_perm x ls). by constructor.
  - assert (cmpfcn x y <= 0) as Hxy by (destruct (Htotal x y); lia).
    constructor; [by constructor | ]. constructor; [done | ]. eapply Forall_impl; [exact Hy | ]. eauto.
Qed.
Lemma merge_insert a y b : Forall (fun z => cmpfcn y z <= 0) b -> merge a (y :: b) = merge (insert_after y a) b.
Proof.
  intros Hb. induction a as [ | x a IH]; cbn [insert_after].
  - rewrite merge_nil_l. destruct b as [ | z b]; [done | ]. apply Forall_cons in Hb as [Hz _].
    by rewrite merge_cons, (proj2 (Z.leb_le _ _) Hz), merge_nil_l.
  - rewrite merge_cons. destruct (cmpfcn x y <=? 0) eqn:E; zbool.
    + rewrite IH. destruct b as [ | z b]; [by rewrite !merge_nil_r | ]. apply Forall_cons in Hb as [Hz _].
      by rewrite merge_cons, (proj2 (Z.leb_le _ _) (Htrans _ _ _ E Hz)).
    + destruct b as [ | z b]; [by rewrite !merge_nil_r | ]. apply Forall_cons in Hb as [Hz _].
      by rewrite (merge_cons y), (proj2 (Z.leb_le _ _) Hz).
Qed.
Lemma merge_fold a b : sorted b -> merge a b = foldl (fun acc x => insert_after x acc) a b.
Proof.
  intros Hb. revert a. induction Hb as [ | y b Hb IH Hy]; intros a; [apply merge_nil_r | ]. cbn [foldl].
  rewrite merge_insert by done. apply IH.
Qed.
Lemma insert_comm y z c : 0 < cmpfcn z y ->
  insert_after z (insert_after y c) = insert_after y (insert_after z c).
Proof.
  intros Hzy. assert (cmpfcn y z <= 0) as Hyz by (destruct (Htotal y z); lia).
  induction c as [ | x c IH]; cbn [insert_after].
  - by rewrite (proj2 (Z.leb_le _ _) Hyz), (proj2 (Z.leb_gt _ _) Hzy).
  - destruct (cmpfcn x y <=? 0) eqn:Exy, (cmpfcn x z <=? 0) eqn:Exz; zbool; cbn [insert_after];
      rewrite ?(proj2 (Z.leb_le _ _) Hyz), ?(proj2 (Z.leb_gt _ _) Hzy), ?(proj2 (Z.leb_le _ _) Exy),
        ?(proj2 (Z.leb_le _ _) Exz), ?(proj2 (Z.leb_gt _ _) Exy), ?(proj2 (Z.leb_gt _ _) Exz); cbn [insert_after].
    + by rewrite IH.
    + pose proof (Htrans _ _ _ Exy Hyz). lia.
    + done.
    + done.
Qed.
Lemma fold_insert_low y b : Forall (fun z => 0 < cmpfcn z y) b -> forall c,
  foldl (fun acc x => insert_after x acc) (insert_after y c) b =
  insert_after y (foldl (fun acc x => insert_after x acc) c b).
Proof.
  induction 1 as [ | z b Hz Hb IH]; intros c; cbn [foldl]; [done | ]. by rewrite insert_comm, IH.
Qed.
Lemma fold_insert_after y b : sorted b -> forall c,
  foldl (fun acc x => insert_after x acc) c (insert_after y b) =
  insert_after y (foldl (fun acc x => insert_after x acc) c b).
Proof.
  induction 1 as [ | z b Hb IH Hz]; intros c; cbn [insert_after foldl]; [done | ].
  destruct (cmpfcn z y <=? 0) eqn:E; zbool; cbn [foldl]; [apply IH | ]. rewrite insert_comm by done.
  apply (fold_insert_low y b). eapply Forall_impl; [exact Hz | ]. cbn. intros w Hzw.
  destruct (Z.le_gt_cases (cmpfcn w y) 0) as [Hwy | ]; [ | lia]. pose proof (Htrans _ _ _ Hzw Hwy). lia.
Qed.

Lemma stable_sort_snoc ls x : stable_sort (ls ++ [x]) = insert_after x (stable_sort ls).
Proof. unfold stable_sort. by rewrite foldl_app. Qed.
Lemma stable_sort_sorted ls : sorted (stable_sort ls).
Proof.
  induction ls as [ | x ls IH] using rev_ind; [constructor | ]. rewrite stable_sort_snoc. by apply insert_sorted.
Qed.
Lemma stable_sort_perm ls : stable_sort ls ≡ₚ ls.
Proof.
  induction ls as [ | x ls IH] using rev_ind; [done | ]. rewrite stable_sort_snoc, insert_perm, IH.
  apply Permutation_cons_append.
Qed.
Lemma merge_stable a b : merge (stable_sort a) (stable_sort b) = stable_sort (a ++ b).
Proof.
  rewrite merge_fold by apply stable_sort_sorted. unfold stable_sort at 3. rewrite foldl_app.
  change (foldl _ [] a) with (stable_sort a). generalize (stable_sort a). intros c.
  induction b as [ | x b IH] using rev_ind; [done | ].
  rewrite stable_sort_snoc, fold_insert_after, IH by apply stable_sort_sorted. by rewrite foldl_app.
Qed.

(** *** Passes *)
Fixpoint blocks (fuel k : nat) (ls : list Z) : list Z :=
  match fuel, ls with
  | S fuel, _ :: _ => stable_sort (take k ls) ++ blocks fuel k (drop k ls)
  | _, _ => []
  end.
Lemma stable_sort_length ls : length (stable_sort ls) = length ls.
Proof. by rewrite stable_sort_perm. Qed.
Lemma blocks_nil fuel k : blocks fuel k [] = [].
Proof. by destruct fuel. Qed.
Lemma blocks_step fuel k ls : (length ls <= fuel)%nat -> (0 < k)%nat ->
  blocks fuel k ls = stable_sort (take k ls) ++ blocks (fuel - 1) k (drop k ls).
Proof.
  intros Hf Hk. destruct ls as [ | x ls]; [by rewrite drop_nil, take_nil, !blocks_nil | ].
  destruct fuel as [ | fuel]; [cbn in Hf; lia | ]. cbn [blocks]. by replace (S fuel - 1)%nat with fuel by lia.
Qed.
Lemma blocks_fuel k : (0 < k)%nat -> forall f1 f2 ls, (length ls <= f1)%nat -> (length ls <= f2)%nat ->
  blocks f1 k ls = blocks f2 k ls.
Proof.
  intros Hk f1. induction f1 as [ | f1 IH]; intros f2 ls H1 H2.
  - destruct ls; [by rewrite !blocks_nil | cbn in H1; lia].
  - destruct ls as [ | x ls]; [by rewrite !blocks_nil | ]. destruct f2 as [ | f2]; [cbn in H2; lia | ].
    cbn [blocks]. f_equal. apply IH; rewrite length_drop; cbn [length] in *; lia.
Qed.
Lemma blocks_take fuel k ls : (length ls <= fuel)%nat -> (0 < k)%nat ->
  take k (blocks fuel k ls) = stable_sort (take k ls) /\ drop k (blocks fuel k ls) = blocks fuel k (drop k ls).
Proof.
  intros Hf Hk. rewrite blocks_step by done. assert (length (stable_sort (take k ls)) = min k (length ls)) as Hl.
  { by rewrite stable_sort_length, length_take. }
  rewrite (blocks_fuel k Hk (fuel - 1) fuel (drop k ls)) by (rewrite length_drop; lia).
  destruct (Nat.le_gt_cases k (length ls)) as [Hle | Hgt].
  - split; [by rewrite take_app_length' by lia | by rewrite drop_app_length' by lia].
  - rewrite (drop_ge ls), blocks_nil, app_nil_r by lia. split; [apply take_ge; lia | apply drop_ge; lia].
Qed.
Lemma pass_blocks k fuel : (0 < k)%nat -> forall pf ls, (length ls <= fuel)%nat -> (length ls <= pf)%nat ->
  pass pf k (blocks fuel k ls) = blocks pf (k + k) ls.
Proof.
  intros Hk. induction pf as [ | pf IH]; intros ls H1 H2; [done | ].
  destruct (blocks_take fuel k ls H1 Hk) as [Et Ed].
  assert (blocks fuel k ls = [] <-> ls = []) as Hnil.
  { split; [ | intros ->; apply blocks_nil]. intros E. rewrite E, take_nil in Et. destruct ls as [ | x ls]; [done | ].
    apply (f_equal length) in Et. rewrite stable_sort_length, length_take in Et. cbn in Et. lia. }
  destruct ls as [ | x ls]; [by rewrite blocks_nil | ]. destruct (blocks fuel k (x :: ls)) as [ | y bs] eqn:E; [naive_solver | ].
  cbn [pass blocks]. rewrite <- E in *. rewrite Et, Ed.
  destruct (blocks_take fuel k (drop k (x :: ls))) as [Et2 Ed2]; [rewrite length_drop; lia | done | ].
  rewrite Et2, merge_stable, <- drop_drop, Ed, Ed2, drop_drop. f_equal.
  - f_equal. by rewrite <- take_take_drop.
  - apply IH; rewrite length_drop; cbn [length] in *; lia.
Qed.
Lemma blocks_whole fuel k ls : (length ls <= fuel)%nat -> (length ls <= k)%nat -> blocks fuel k ls = stable_sort ls.
Proof.
  intros H1 H2. destruct ls as [ | x ls]; [apply blocks_nil | ]. rewrite blocks_step by (cbn in *; lia).
  by rewrite take_ge, drop_ge, blocks_nil, app_nil_r by lia.
Qed.
Lemma blocks_one ls : forall fuel, (length ls <= fuel)%nat -> blocks fuel 1 ls = ls.
Proof.
  induction ls as [ | x ls IH]; intros fuel Hf; [apply blocks_nil | ]. destruct fuel as [ | fuel]; [cbn in Hf; lia | ].
  cbn. rewrite drop_0. f_equal. apply IH. cbn in Hf. lia.
Qed.
End Order.

(** ** The links during a pass *)

(** Locations linked by their next links only; the last one leads to [n]. *)
Fixpoint nseg (f : links) (ls : list Z) (n : option Z) : Prop :=
  match ls with
  | [] => True
  | l :: ls => (exists p, f l = Some (p, first ls n)) /\ nseg f ls n
  end.
Lemma dseg_nseg f p ls n : dseg f p ls n -> nseg f ls n.
Proof. revert p. induction ls as [ | l ls IH]; intros p; [done | ]. intros [H1 H2]. split; eauto. Qed.
Lemma nseg_ext f g ls n : (forall l, l ∈ ls -> g l = f l) -> nseg f ls n -> nseg g ls n.
Proof.
  induction ls as [ | l ls IH]; intros He Hs; [done | ]. destruct Hs as [[p Hp] Hs]. split.
  - exists p. rewrite He by left. done.
  - apply IH; [ | done]. intros x Hx. apply He. by right.
Qed.
Lemma nseg_app f a b n : nseg f (a ++ b) n <-> nseg f a (first b n) /\ nseg f b n.
Proof. induction a as [ | l a IH]; cbn [app nseg]; [tauto | ]. rewrite IH, first_app. tauto. Qed.
Lemma nseg_alive m ls n l : nseg (app_links m) ls n -> l ∈ ls -> is_Some (m !! l).
Proof.
  induction ls as [ | x ls IH]; [by intros _ ?%elem_of_nil | ]. intros [[p Hp] Hs] [-> | Hl]%elem_of_cons; [ | auto].
  by eapply links_alive.
Qed.
Lemma nseg_next m l ls n : nseg (app_links m) (l :: ls) n -> exists h, m !! l = Some h /\ next h = first ls n.
Proof. intros [[p Hp] _]. destruct (links_get _ _ _ _ Hp) as (h & Hh & _ & Hn). eauto. Qed.

(** Stepping over a run. *)
Lemma srt_skip_ok m insize r : forall fuel i psize l,
  nseg (app_links m) (l :: r) None -> (length (l :: r) <= fuel)%nat -> 0 <= i <= insize -> 0 <= psize ->
  psize + len (l :: r) < 2 ^ 32 ->
  srt_skip m fuel i insize psize l =
    Ok (psize + Z.min (insize - i) (len (l :: r)), first (drop (Z.to_nat (insize - i)) (l :: r)) None).
Proof.
  induction r as [ | l' r IH]; intros fuel i psize l Hs Hf Hi Hp Hsm;
    (destruct fuel as [ | fuel]; [cbn in Hf; lia | ]); cbn [srt_skip];
    (destruct (i <? insize) eqn:E; zbool;
      [ | replace (insize - i) with 0 by lia; rewrite Z.min_l, Z.add_0_r by lia; done]);
    destruct (nseg_next _ _ _ _ Hs) as (h & Hh & Hn); rewrite (hget_some _ _ _ Hh), obind_ok, Hn; cbn [first].
  - replace (Z.to_nat (insize - i)) with (S (Z.to_nat (insize - i - 1))) by lia. cbn [drop length]. rewrite drop_nil.
    rewrite Z.min_r by lia. cbn [length] in Hsm. rewrite u32_small by lia. done.
  - replace (Z.to_nat (insize - i)) with (S (Z.to_nat (insize - (i + 1)))) by lia. cbn [drop].
    cbn [length] in *. rewrite u32_small by lia. rewrite IH; [ | apply Hs | lia | lia | lia | cbn [length]; lia].
    cbn [length]. do 2 f_equal. lia.
Qed.

(** Linking an element behind the sorted ones. *)
Definition moved (m m' : gmap Z handle) (ls : list Z) : Prop :=
  dom m' = dom m /\ (forall l, bkt_links m' l = bkt_links m l) /\ (forall l, stat m' l = stat m l) /\
  (forall l, l ∉ ls -> app_links m' l = app_links m l).
Lemma srt_link_ok m fin e nd pe ne p q psize qsize :
  NoDup (fin ++ [e]) -> dseg (app_links m) None fin nd -> app_links m e = Some (pe, ne) ->
  exists m', srt_link m (Some e) (Mrg p q psize qsize (first fin None) (final None fin)) =
      Ok (m', Mrg p q psize qsize (first (fin ++ [e]) None) (final None (fin ++ [e]))) /\
    dseg (app_links m') None (fin ++ [e]) ne /\ moved m m' (fin ++ [e]).
Proof.
  intros Hnd Hd He. unfold srt_link. cbn [mtail mlist mp mq mpsize mqsize].
  apply NoDup_app in Hnd as (Hnf & Hef & _). assert (e ∉ fin) as Hen by (intros H; apply (Hef e H); left).
  destruct (set_next_opt_view m (final None fin) (Some e)) as (m1 & -> & D1 & A1 & B1 & S1).
  { intros l Hl%final_elem. destruct (dseg_links _ _ _ _ _ Hd Hl). by eapply links_alive. }
  rewrite obind_ok. destruct (set_prev_view m1 e (final None fin)) as (m2 & E2 & D2 & A2 & B2 & S2).
  { apply (dom_alive m); [done | by eapply links_alive]. }
  cbn [hupd_opt]. rewrite E2, obind_ok. exists m2. split; [ | split].
  - do 3 f_equal; [ | by rewrite final_snoc]. rewrite first_app. destruct fin as [ | x fin]; [done | ].
    destruct (final None (x :: fin)) eqn:Ef; [done | ]. by apply final_none in Ef.
  - rewrite dseg_app. split.
    + apply (dseg_ext (upd_nx_opt (app_links m) (final None fin) (Some e))); [ | by apply dseg_retail with (n := nd)].
      intros l Hl. rewrite A2. unfold upd_pv. rewrite decide_False by (by intros ->). apply A1.
    + split; [ | done]. rewrite A2. unfold upd_pv. rewrite decide_True, A1 by done.
      rewrite upd_nx_opt_other by (by intros ?%final_elem). by rewrite He.
  - split; [congruence | ]. split; [intros l; by rewrite B2, B1 | ]. split; [intros l; by rewrite S2, S1 | ].
    intros l Hl. rewrite A2. unfold upd_pv. rewrite decide_False by set_solver. rewrite A1.
    apply upd_nx_opt_other. intros ?%final_elem. set_solver.
Qed.
Lemma moved_trans m1 m2 m3 ls1 ls2 ls :
  moved m1 m2 ls1 -> moved m2 m3 ls2 -> (forall l, l ∈ ls1 \/ l ∈ ls2 -> l ∈ ls) -> moved m1 m3 ls.
Proof.
  intros (D1 & B1 & S1 & A1) (D2 & B2 & S2 & A2) Hl. split; [congruence | ].
  split; [intros l; by rewrite B2, B1 | ]. split; [intros l; by rewrite S2, S1 | ].
  intros l Hn. rewrite A2, A1; [done | | ]; intros H; apply Hn; auto.
Qed.
Lemma moved_refl m ls : moved m m ls.
Proof. by repeat split. Qed.

(** The choice: the head of one of the two runs. *)
Lemma srt_pick_ok m ps qr np qsize list tail :
  nseg (app_links m) ps np -> nseg (app_links m) qr None -> 0 <= qsize < 2 ^ 32 -> len ps < 2 ^ 32 ->
  let qs := take (Z.to_nat qsize) qr in
  match merge ps qs with
  | [] => ps = [] /\ qs = []
  | e :: _ => exists ps' qr' qsize' p',
      srt_pick m (Mrg (first ps np) (first qr None) (len ps) qsize list tail) =
        Ok (Some e, Mrg p' (first qr' None) (len ps') qsize' list tail) /\
      merge ps qs = e :: merge ps' (take (Z.to_nat qsize') qr') /\ 0 <= qsize' < 2 ^ 32 /\
      p' = first ps' np /\ drop (Z.to_nat qsize') qr' = drop (Z.to_nat qsize) qr /\
      ((ps = e :: ps' /\ qr' = qr) \/ (ps' = ps /\ qr = e :: qr'))
  end.
Proof.
  intros Hp Hq Hqs Hps. cbv zeta. unfold srt_pick. cbn [mp mq mpsize mqsize mlist mtail].
  assert (forall x ps', ps = x :: ps' -> srt_next_p m (Some x) = Ok (first ps' np)) as Hnp.
  { intros x ps' ->. destruct (nseg_next _ _ _ _ Hp) as (h & Hh & Hn). cbn. by rewrite (hget_some _ _ _ Hh), obind_ok, Hn. }
  assert (forall y qr', qr = y :: qr' -> srt_next m (Some y) = Ok (first qr' None)) as Hnq.
  { intros y qr' ->. destruct (nseg_next _ _ _ _ Hq) as (h & Hh & Hn). cbn. by rewrite (hget_some _ _ _ Hh), obind_ok, Hn. }
  destruct ps as [ | x ps].
  - rewrite merge_nil_l. destruct (take (Z.to_nat qsize) qr) as [ | y qs] eqn:Et; [done | ].
    destruct qr as [ | y' qr]; [by rewrite take_nil in Et | ]. destruct (Z.to_nat qsize) as [ | k] eqn:Ek; [done | ].
    injection Et as <- <-. cbn [length first]. rewrite (Hnq y' qr) by done. cbn. rewrite obind_ok.
    assert (u32 (qsize - 1) = Z.of_nat k) as -> by (rewrite u32_small by lia; lia).
    exists [], qr, (Z.of_nat k), np. rewrite Nat2Z.id, merge_nil_l.
    split; [done | ]. split; [done | ]. split; [lia | ]. split; [done | split; [done | by right]].
  - rewrite (proj2 (Z.eqb_neq (len (x :: ps)) 0)) by (cbn [length]; lia). cbn [first].
    assert (u32 (len (x :: ps) - 1) = len ps) as Eps by (cbn [length] in *; rewrite u32_small by lia; lia).
    destruct (take (Z.to_nat qsize) qr) as [ | y qs] eqn:Et.
    + rewrite merge_nil_r. assert ((qsize =? 0) || bool_decide (first qr None = None) = true) as ->.
      { destruct qr as [ | y qr]; [by rewrite orb_true_r | ]. destruct (Z.to_nat qsize) eqn:Ek; [ | done].
        rewrite (proj2 (Z.eqb_eq _ _)) by lia. done. }
      rewrite (Hnp x ps), obind_ok, Eps by done. exists ps, qr, qsize, (first ps np). rewrite Et, merge_nil_r.
      repeat (split; [done | ]). by left.
    + destruct qr as [ | y' qr]; [by rewrite take_nil in Et | ]. destruct (Z.to_nat qsize) as [ | k] eqn:Ek; [done | ].
      injection Et as <- <-. rewrite (proj2 (Z.eqb_neq qsize 0)) by lia. cbn [first orb].
      rewrite bool_decide_eq_false_2 by done. rewrite merge_cons. destruct (cmpfcn x y' <=? 0).
      * rewrite (Hnp x ps), obind_ok, Eps by done. exists ps, (y' :: qr), qsize, (first ps np). rewrite Ek.
        repeat (split; [done | ]). by left.
      * rewrite (Hnq y' qr), obind_ok by done.
        assert (u32 (qsize - 1) = Z.of_nat k) as -> by (rewrite u32_small by lia; lia).
        exists (x :: ps), qr, (Z.of_nat k), (Some x). rewrite Nat2Z.id. split; [done | ]. split; [done | ].
        split; [lia | ]. split; [done | ]. split; [done | ]. by right.
Qed.

Lemma srt_merge_ok fuel : forall m fin ps qr np nd qsize,
  (length (merge ps (take (Z.to_nat qsize) qr)) <= fuel)%nat ->
  nseg (app_links m) ps np -> nseg (app_links m) qr None -> dseg (app_links m) None fin nd ->
  NoDup (fin ++ ps ++ qr) -> 0 <= qsize < 2 ^ 32 -> len ps < 2 ^ 32 ->
  exists m' p' psize' qsize' nd', let out := fin ++ merge ps (take (Z.to_nat qsize) qr) in
    let rest := drop (Z.to_nat qsize) qr in
    srt_merge m fuel (Mrg (first ps np) (first qr None) (len ps) qsize (first fin None) (final None fin)) =
      Ok (m', Mrg p' (first rest None) psize' qsize' (first out None) (final None out)) /\
    dseg (app_links m') None out nd' /\ nseg (app_links m') rest None /\ moved m m' (fin ++ ps ++ qr).
Proof.
  induction fuel as [ | fuel IH]; intros m fin ps qr np nd qsize Hf Hp Hq Hd Hnd Hqs Hps;
    pose proof (srt_pick_ok m ps qr np qsize (first fin None) (final None fin) Hp Hq Hqs Hps) as Hpick; cbv zeta in Hpick;
    destruct (merge ps (take (Z.to_nat qsize) qr)) as [ | e out] eqn:Em.
  1, 3: destruct Hpick as [-> Eq]; cbn [srt_merge mpsize mqsize mq length];
    (assert ((qsize >? 0) && bool_decide (first qr None <> None) = false) as Hc;
      [destruct qr as [ | y qr]; [by rewrite andb_false_r | ]; destruct (Z.to_nat qsize) eqn:Ek; [ | done];
       rewrite Z.gtb_ltb, (proj2 (Z.ltb_ge _ _)) by lia; done | ]);
    assert (drop (Z.to_nat qsize) qr = qr) as Edr by
      (destruct qr as [ | y qr]; [by rewrite drop_nil | ]; by destruct (Z.to_nat qsize));
    cbn [orb Z.gtb Z.compare Z.of_nat]; rewrite Hc, app_nil_r, Edr; eexists m, _, _, _, nd;
    (split; [reflexivity | ]); split; [done | ]; split; [done | ]; apply moved_refl.
  { cbn in Hf. lia. }
  destruct Hpick as (ps' & qr' & qsize' & p' & Ep & Emm & Hqs' & -> & Edr & Hcase). cbn [srt_merge].
  assert ((mpsize (Mrg (first ps np) (first qr None) (len ps) qsize (first fin None) (final None fin)) >? 0) ||
    ((qsize >? 0) && bool_decide (first qr None <> None)) = true) as Hc.
  { destruct Hcase as [[-> ->] | [-> ->]]; [done | ]. destruct ps; [ | done]. cbn [mpsize length Z.of_nat].
    rewrite merge_nil_l in Em. destruct (Z.to_nat qsize) eqn:Ek; [done | ].
    rewrite (Z.gtb_ltb qsize 0), (proj2 (Z.ltb_lt 0 qsize)) by lia. done. }
  cbn [mqsize mq]. rewrite Hc, Ep, obind_ok. clear Hc.
  assert (exists pe ne, app_links m e = Some (pe, ne)) as (pe & ne & He).
  { destruct Hcase as [[-> ->] | [-> ->]]; [destruct Hp as [[? ?] _] | destruct Hq as [[? ?] _]]; eauto. }
  assert (fin ++ ps ++ qr ≡ₚ (fin ++ [e]) ++ ps' ++ qr') as Hperm.
  { rewrite <- app_assoc. destruct Hcase as [[-> ->] | [-> ->]]; cbn [app]; [done | ]. by rewrite Permutation_middle. }
  rewrite Hperm in Hnd. apply NoDup_app in Hnd as Hnd'. destruct Hnd' as (Hnfe & Hdis & _).
  destruct (srt_link_ok m fin e nd pe ne (first ps' np) (first qr' None) (len ps') qsize' Hnfe Hd He) as (m1 & -> & Hd1 & Hm1).
  rewrite obind_ok. injection Emm as Em'.
  assert (forall ls n, nseg (app_links m) ls n -> (forall l, l ∈ ls -> l ∈ ps' ++ qr') -> nseg (app_links m1) ls n) as Hkeep.
  { intros ls n Hn Hin. eapply nseg_ext; [ | exact Hn]. intros l Hl. apply Hm1. intros H. by apply (Hdis l H), Hin. }
  destruct (IH m1 (fin ++ [e]) ps' qr' np ne qsize') as (m2 & p2 & psz2 & qsz2 & nd2 & E2 & Hd2 & Hn2 & Hm2); try done.
  - rewrite <- Em'. cbn in Hf. lia.
  - apply Hkeep; [ | set_solver]. destruct Hcase as [[-> ->] | [-> ->]]; [apply Hp | done].
  - apply Hkeep; [ | set_solver]. destruct Hcase as [[-> ->] | [-> ->]]; [done | apply Hq].
  - destruct Hcase as [[-> ->] | [-> ->]]; [cbn [length] in Hps; lia | done].
  - rewrite <- Em', <- app_assoc, Edr in *. exists m2, p2, psz2, qsz2, nd2. split; [done | ]. split; [done | ]. split; [done | ].
    eapply moved_trans; [exact Hm1 | exact Hm2 | ]. intros l. rewrite Hperm. set_solver.
Qed.

Lemma merge_perm a : forall b, merge a b ≡ₚ a ++ b.
Proof.
  induction a as [ | x a IHa]; intros b; [by rewrite merge_nil_l | ].
  induction b as [ | y b IHb]; [by rewrite merge_nil_r, app_nil_r | ].
  rewrite merge_cons. destruct (cmpfcn x y <=? 0); [by rewrite IHa | ]. rewrite IHb. apply Permutation_middle.
Qed.
Lemma nseg_length m ls n : nseg (app_links m) ls n -> NoDup ls -> (length ls <= size m)%nat.
Proof. intros Hs Hn. apply alive_length; [done | ]. intros l Hl. by eapply nseg_alive. Qed.

(** A pass over the rest of the list with runs of [k]. *)
Lemma srt_pass_ok k pf : (0 < k)%nat -> Z.of_nat k < 2 ^ 32 -> forall m fin rest nd nm,
  (length rest <= pf)%nat -> nseg (app_links m) rest None -> dseg (app_links m) None fin nd -> NoDup (fin ++ rest) ->
  0 <= nm -> nm + len rest < 2 ^ 32 ->
  exists m' nd' nm', let out := fin ++ pass pf k rest in
    srt_pass m pf (Z.of_nat k) (first rest None) (first fin None) (final None fin) nm =
      Ok (m', first out None, final None out, nm') /\
    dseg (app_links m') None out nd' /\ moved m m' (fin ++ rest) /\
    (rest = [] -> nm' = nm) /\ (rest <> [] -> nm + 1 <= nm' /\ (nm + 2 <= nm' <-> (k + k < length rest)%nat)).
Proof.
  intros Hk Hk32. induction pf as [ | pf IH]; intros m fin rest nd nm Hf Hs Hd Hnd Hnm Hsm.
  { destruct rest; [ | cbn in Hf; lia]. exists m, nd, nm. cbn. rewrite app_nil_r. split; [done | ]. split; [done | ].
    split; [apply moved_refl | done]. }
  destruct rest as [ | l r].
  { exists m, nd, nm. cbn. rewrite app_nil_r. split; [done | ]. split; [done | ]. split; [apply moved_refl | done]. }
  cbn [first srt_pass pass]. set (rest := l :: r) in *.
  assert (1 <= length rest)%nat as Hr1 by (unfold rest; cbn [length]; lia). apply NoDup_app in Hnd as Hnd'. destruct Hnd' as (_ & _ & Hndr).
  rewrite (srt_skip_ok m (Z.of_nat k) r) by (done || lia || (by apply (nseg_length m rest None)) || (fold rest; lia)).
  fold rest. rewrite obind_ok, Z.sub_0_r, Nat2Z.id, Z.add_0_l.
  set (ps := take k rest). set (qr := drop k rest). assert (rest = ps ++ qr) as Er by (unfold ps, qr; by rewrite take_drop).
  assert (nseg (app_links m) ps (first qr None) /\ nseg (app_links m) qr None) as [Hps Hqr] by (apply nseg_app; by rewrite <- Er).
  assert (Z.min (Z.of_nat k) (len rest) = len ps) as -> by (unfold ps; rewrite length_take; lia).
  assert (Some l = first ps (first qr None)) as -> by (unfold ps, rest; by destruct k; [lia | ]).
  assert (len ps <= len rest) by (unfold ps; rewrite length_take; lia).
  destruct (srt_merge_ok (size m) m fin ps qr (first qr None) nd (Z.of_nat k)) as (m1 & p1 & ps1 & qs1 & nd1 & E1 & Hd1 & Hn1 & Hm1);
    try done; [ | by rewrite <- Er | lia | lia | ].
  { rewrite merge_perm, Nat2Z.id. transitivity (length rest); [ | by eapply nseg_length].
    rewrite Er, !length_app, length_take. lia. }
  rewrite Nat2Z.id in *. rewrite E1, obind_ok. cbn [mq mlist mtail].
  replace (drop k qr) with (drop (k + k) rest) in * by (unfold qr; by rewrite drop_drop).
  set (out1 := fin ++ merge ps (take k qr)) in *. set (rest1 := drop (k + k) rest) in *.
  assert (length rest1 = length rest - (k + k))%nat as Hl1 by (unfold rest1; by rewrite length_drop).
  assert (fin ++ rest ≡ₚ out1 ++ rest1) as Hperm.
  { assert (rest = (ps ++ take k qr) ++ rest1) as Er2.
    { unfold rest1. rewrite <- app_assoc, <- drop_drop. fold qr. by rewrite take_drop. }
    unfold out1. rewrite merge_perm, <- app_assoc, <- Er2. done. }
  assert (u32 (nm + 1) = nm + 1) as -> by (apply u32_small; lia).
  destruct (IH m1 out1 rest1 nd1 (nm + 1)) as (m2 & nd2 & nm2 & E2 & Hd2 & Hm2 & Hz & Hc); try done.
  - lia.
  - by rewrite <- Hperm.
  - lia.
  - lia.
  - exists m2, nd2, nm2. fold ps qr. rewrite app_assoc. fold out1. split; [done | ]. split; [done | ]. split.
    + eapply moved_trans; [exact Hm1 | exact Hm2 | ]. intros x. rewrite <- Er, Hperm. set_solver.
    + split; [done | ]. intros _. destruct (decide (rest1 = [])) as [E | E].
      * rewrite (Hz E). rewrite E in Hl1. change (@length Z []) with 0%nat in Hl1. lia.
      * destruct (Hc E). assert (length rest1 <> 0)%nat by (by intros ?%length_zero_iff_nil). lia.
Qed.

Section Whole.
Context (Htotal : forall x y, cmpfcn x y <= 0 \/ cmpfcn y x <= 0)
  (Htrans : forall x y z, cmpfcn x y <= 0 -> cmpfcn y z <= 0 -> cmpfcn x z <= 0).

Lemma blocks_perm k : (0 < k)%nat -> forall fuel ls, (length ls <= fuel)%nat -> blocks fuel k ls ≡ₚ ls.
Proof.
  intros Hk. induction fuel as [ | fuel IH]; intros ls Hf; [by destruct ls; [ | cbn in Hf; lia] | ].
  destruct ls as [ | x ls]; [done | ]. cbn [blocks]. rewrite stable_sort_perm, IH.
  - by rewrite take_drop.
  - rewrite length_drop. cbn [length] in *. lia.
Qed.

(** The passes with runs of [k], [2 k], ... *)
Lemma srt_loop_ok ls : 1 <= len ls < 2 ^ 32 -> forall fuel m k,
  (0 < k)%nat -> Z.of_nat k < 2 ^ 32 -> len ls <= Z.of_nat k * 2 ^ Z.of_nat fuel -> (0 < fuel)%nat ->
  NoDup ls -> nseg (app_links m) (blocks (length ls) k ls) None ->
  exists m', srt_loop m fuel (Z.of_nat k) (first (blocks (length ls) k ls) None) =
      Ok (m', first (stable_sort ls) None, final None (stable_sort ls)) /\
    dseg (app_links m') None (stable_sort ls) None /\ moved m m' ls.
Proof.
  intros Hls. induction fuel as [ | fuel IH]; intros m k Hk Hk32 Hf Hf0 Hnd Hs; [lia | ]. cbn [srt_loop].
  set (cur := blocks (length ls) k ls) in *. assert (cur ≡ₚ ls) as Hcp by (by apply blocks_perm).
  assert (NoDup cur) as Hcn by (by rewrite Hcp). assert (length cur = length ls) as Hcl by (by rewrite Hcp).
  assert (length cur <= size m)%nat as Hsz by (by eapply nseg_length).
  destruct (srt_pass_ok k (size m) Hk Hk32 m [] cur None 0) as (m1 & nd1 & nm1 & E1 & Hd1 & Hm1 & _ & Hc); try done; [lia | ].
  cbn [app] in *. change (first [] None) with (@None Z) in E1. change (final None []) with (@None Z) in E1. rewrite E1, obind_ok.
  assert (pass (size m) k cur = blocks (length ls) (k + k) ls) as Ep.
  { unfold cur. rewrite (pass_blocks Htotal Htrans k (length ls)) by lia. apply blocks_fuel; lia. }
  rewrite Ep in *. set (out := blocks (length ls) (k + k) ls) in *.
  assert (out ≡ₚ ls) as Hop by (apply blocks_perm; lia).
  destruct (set_next_opt_view m1 (final None out) None) as (m2 & -> & D2 & A2 & B2 & S2).
  { intros l Hl%final_elem. destruct (dseg_links _ _ _ _ _ Hd1 Hl). by eapply links_alive. }
  assert (dseg (app_links m2) None out None) as Hd2.
  { apply (dseg_ext (upd_nx_opt (app_links m1) (final None out) None)); [intros l _; apply A2 | ].
    apply dseg_retail with (n := nd1); [by rewrite Hop | done]. }
  assert (moved m m2 ls) as Hm2.
  { destruct Hm1 as (D1 & B1 & S1 & A1). split; [congruence | ]. split; [intros l; by rewrite B2, B1 | ].
    split; [intros l; by rewrite S2, S1 | ]. intros l Hl. rewrite A2, upd_nx_opt_other.
    - apply A1. by rewrite Hcp.
    - intros H%final_elem. by rewrite Hop in H. }
  rewrite obind_ok. destruct Hc as [Hge Hc]; [by intros E; rewrite E in Hcl; cbn in Hcl; lia | ]. rewrite Hcl in Hc.
  destruct (nm1 <=? 1) eqn:En; zbool.
  - assert (out = stable_sort ls) as -> by (apply blocks_whole; lia). by exists m2.
  - assert (k + k < length ls)%nat by lia. assert (u32 (Z.of_nat k * 2) = Z.of_nat (k + k)) as -> by (rewrite u32_small by lia; lia).
    destruct (IH m2 (k + k)%nat) as (m3 & E3 & Hd3 & Hm3); try done; [lia | lia | | | by eapply dseg_nseg | ].
    + rewrite Nat2Z.inj_succ, Z.pow_succ_r in Hf by lia. lia.
    + destruct fuel; [cbn in Hf; lia | lia].
    + exists m3. split; [exact E3 | ]. split; [done | ]. eapply moved_trans; [exact Hm2 | exact Hm3 | ]. naive_solver.
Qed.
End Whole.
End Sort.

(** ** Properties *)

(** C33. HASH_SORT on a table with an order that is total and transitive terminates, and
    the elements are then in the order of a stable insertion sort: sorted, with
    equal elements in the order in which they were before; the table stays
    consistent, holds the same keys, and passes HASH_FSCK. *)
Theorem hash_sort_stable cmpfcn s ls :
  (forall x y, cmpfcn x y <= 0 \/ cmpfcn y x <= 0) ->
  (forall x y z, cmpfcn x y <= 0 -> cmpfcn y z <= 0 -> cmpfcn x z <= 0) -> inv s ls ->
  exists s', HASH_SORT cmpfcn s = Ok s' /\ inv s' (stable_sort cmpfcn ls) /\ HASH_FSCK s' = Ok tt /\
    StronglySorted (fun x y => cmpfcn x y <= 0) (stable_sort cmpfcn ls) /\ stable_sort cmpfcn ls ≡ₚ ls /\
    (forall l, stat (ut_hs s') l = stat (ut_hs s) l).
Proof.
  intros Htot Htr Hi. assert (exists s', HASH_SORT cmpfcn s = Ok s' /\ inv s' (stable_sort cmpfcn ls) /\
    (forall l, stat (ut_hs s') l = stat (ut_hs s) l)) as (s' & E & Hi' & Hs').
  2:{ exists s'. split; [done | ]. split; [done | ]. split; [by eapply inv_fsck | ].
      split; [by apply stable_sort_sorted | ]. split; [apply stable_sort_perm | done]. }
  unfold HASH_SORT, HASH_SRT. destruct s as [h o m n]. pose proof Hi as (Hnd & Hsm & Hel & Hf). cbn in Hf.
  cbn [ut_head ut_hs]. destruct h as [l0 | ], o as [t | ]; try done.
  2:{ subst ls. eexists. split; [done | ]. by split. }
  destruct Hf as (bs & k & Htok & Hp & Hds & Hni & Htl & Hfi). cbn [ut_hs] in *.
  assert (1 <= len ls) as H1 by (destruct ls; [done | cbn [length]; lia]).
  assert (length ls <= size m)%nat as Hsz by (eapply nseg_length; [by eapply dseg_nseg | done]).
  destruct (srt_loop_ok cmpfcn Htot Htr ls ltac:(lia) (size m) m 1) as (m' & E & Hd' & (D & B & S & A)); try done; try lia.
  { pose proof (Z.pow_gt_lin_r 2 (Z.of_nat (size m))). lia. }
  { rewrite blocks_one by done. by eapply dseg_nseg. }
  rewrite blocks_one, Hfi in E by done. change (Z.of_nat 1) with 1 in E. rewrite E, obind_ok. unfold set_hs, upd_tbl. cbn [ut_head ut_tbl ut_calls].
  assert (is_Some (m' !! l0)) as Hl0.
  { apply (dom_alive m); [done | ]. destruct (dseg_links _ _ _ _ _ Hds (first_elem _ _ Hfi)). by eapply links_alive. }
  rewrite the_tbl_mk, !obind_ok by done. eexists. split; [done | ]. split; [ | done].
  pose proof (stable_sort_perm cmpfcn ls) as Hsp. split; [by rewrite Hsp | ]. split; [by rewrite Hsp | ]. split.
  { intros l Hl. unfold elem_ok. cbn. rewrite S. apply Hel. by rewrite Hsp in Hl. }
  cbn. destruct (first (stable_sort cmpfcn ls) None) as [l1 | ] eqn:Ef.
  2:{ apply first_none in Ef. rewrite Ef in Hsp. apply Permutation_nil in Hsp. by subst. }
  exists bs, k. split; [ | split; [by rewrite Hsp | split; [done | split; [cbn; by rewrite Hsp | done]]]].
  destruct Htok as (T1 & T2 & T3 & T4 & T5 & T6). repeat (split; [done | ]). split; [ | done].
  apply (buckets_ok_ext m); auto.
Qed.

(** ** Witness *)
Lemma hash_sort_stable_witness : exists s s',
  run mem64 [UAdd (int_key 3) 102; UAdd (int_key 1) 100; UAdd (int_key 2) 101] (Ut None None arena 0) = Ok (s, [RUnit; RUnit; RUnit]) /\
  HASH_SORT (fun x y => x - y) s = Ok s' /\ inv s' [100; 101; 102].
Proof.
  destruct (run_small mem64 (fun j => conj eq_refl eq_refl)
    [UAdd (int_key 3) 102; UAdd (int_key 1) 100; UAdd (int_key 2) 101] _ _ (empty_rep arena 0) I) as (s & d & rs & Es & Er & Hr);
    [repeat constructor; vm_compute; eauto | vm_compute; reflexivity | ].
  vm_compute in Es. injection Es as <- <-.
  destruct (hash_sort_stable (fun x y => x - y) s [102; 100; 101]) as (s' & E & Hi & _);
    [intros; lia | intros; lia | apply Hr | ].
  exists s, s'. split; [exact Er | ]. split; [exact E | exact Hi].
Defined.
End UtHashSort.
