(* ===== verification/UtHashSelect.v ===== *)
(** * HASH_SELECT and the Bloom filter of [client_server/uthash/src/uthash.h]

    HASH_SELECT puts elements of one table into a second one, through a second
    handle of each element: the two tables have heaps of handles of their own over
    the same elements.  The Bloom filter is compiled in with HASH_BLOOM: a bit
    vector of 2^HASH_BLOOM bits in front of the buckets. *)
From S2P Require Import Prelude CLib Bytes UtHashFn UtHash UtHashProof UtHashSpec.

Module UtHashSelect.
Import UtHashFn UtHash UtHashProof UtHashSpec.

(** ** HASH_SELECT *)
Section Select.
Context (malloc : nat -> Z -> bool) (cond : Z -> bool).

(** The body for a selected element [elt] with its handle [h] in the source;
    [last_elt] is the one selected before. *)
Definition sel_add (dst : ut) (elt : Z) (h : handle) (last_elt : option Z) : outcome ut :=
  let! dst := upd dst elt (set_key (hkey h) (keylen h)) in
  let! dst := upd dst elt (set_hashv (hashv h)) in
  let! dst := upd dst elt (set_prev last_elt) in
  let! dst := upd dst elt (set_next None) in
  let! dst := upd_opt dst last_elt (set_next (Some elt)) in
  let! dst := match ut_head dst with
              | None => HASH_MAKE_TABLE malloc (set_head (Some elt) dst)
              | Some _ => Ok dst
              end in
  let! t := the_tbl dst in
  let! dst := HASH_ADD_TO_BKT malloc dst (HASH_TO_BKT (hashv h) (num_buckets t)) elt in
  upd_tbl dst (fun t => set_num_items (u32 (num_items t + 1)) t).

Fixpoint sel_chain (m : gmap Z handle) (fuel : nat) (src_hh : option Z) (dst : ut) (last_elt : option Z)
  : outcome (ut * option Z) :=
  match src_hh with
  | None => Ok (dst, last_elt)
  | Some elt =>
      match fuel with
      | O => NoFuel
      | S fuel =>
          let! h := hget m elt in
          let! '(dst, last_elt) :=
            if cond elt then let! dst := sel_add dst elt h last_elt in Ok (dst, Some elt) else Ok (dst, last_elt) in
          sel_chain m fuel (hh_next h) dst last_elt
      end
  end.
Fixpoint sel_buckets (m : gmap Z handle) (n : nat) (i : Z) (bs : list bucket) (dst : ut) (last_elt : option Z)
  : outcome (ut * option Z) :=
  match n with
  | O => Ok (dst, last_elt)
  | S n =>
      let! b := rd bs i in
      let! '(dst, last_elt) := sel_chain m (size m) (hh_head b) dst last_elt in
      sel_buckets m n (i + 1) bs dst last_elt
  end.
Definition HASH_SELECT (dst src : ut) : outcome ut :=
  match ut_head src with
  | None => Ok dst
  | Some _ =>
      let! t := the_tbl src in
      let! '(dst, _) := sel_buckets (ut_hs src) (Z.to_nat (num_buckets t)) 0 (buckets t) dst None in
      Ok dst
  end.
End Select.

(** ** The Bloom filter *)
Section Bloom.
Context (HASH_BLOOM : Z).
Definition HASH_BLOOM_BITLEN : Z := 2 ^ HASH_BLOOM.
Definition HASH_BLOOM_BYTELEN : Z :=
  HASH_BLOOM_BITLEN / 8 + (if HASH_BLOOM_BITLEN mod 8 =? 0 then 0 else 1).
Definition HASH_BLOOM_MAKE : bytes := replicate (Z.to_nat HASH_BLOOM_BYTELEN) 0.
(** [hashv & (uint32_t)((1ULL << bloom_nbits) - 1U)] *)
Definition bloom_idx (hashv : Z) : Z := Z.land hashv (u32 (u64 (Z.shiftl 1 HASH_BLOOM) - 1)).
Definition HASH_BLOOM_BITSET (bv : bytes) (idx : Z) : outcome bytes :=
  let! b := rd bv (idx / 8) in wr bv (idx / 8) (Z.lor b (Z.shiftl 1 (idx mod 8))).
Definition HASH_BLOOM_BITTEST (bv : bytes) (idx : Z) : outcome Z :=
  let! b := rd bv (idx / 8) in Ok (Z.land b (Z.shiftl 1 (idx mod 8))).
Definition HASH_BLOOM_ADD (bv : bytes) (hashv : Z) : outcome bytes := HASH_BLOOM_BITSET bv (bloom_idx hashv).
Definition HASH_BLOOM_TEST (bv : bytes) (hashv : Z) : outcome Z := HASH_BLOOM_BITTEST bv (bloom_idx hashv).
(** The filter of a table to which the hash values [vs] were added. *)
Fixpoint bloom_adds (bv : bytes) (vs : list Z) : outcome bytes :=
  match vs with
  | [] => Ok bv
  | v :: vs => let! bv := HASH_BLOOM_ADD bv v in bloom_adds bv vs
  end.

(** Bit [i] of the vector. *)
Definition bv_bit (bv : bytes) (i : Z) : bool := Z.testbit (nth (Z.to_nat (i / 8)) bv 0) (i mod 8).

Lemma bytelen_ok : 0 <= HASH_BLOOM <= 32 -> forall i, 0 <= i < 2 ^ HASH_BLOOM -> 0 <= i / 8 < HASH_BLOOM_BYTELEN.
Proof.
  intros Hb i Hi. unfold HASH_BLOOM_BYTELEN, HASH_BLOOM_BITLEN. split; [apply Z.div_pos; lia | ].
  set (n := 2 ^ HASH_BLOOM) in *. pose proof (Z.div_mod n 8). pose proof (Z.div_mod i 8).
  pose proof (Z.mod_pos_bound n 8). pose proof (Z.mod_pos_bound i 8). destruct (n mod 8 =? 0) eqn:E; zbool; lia.
Qed.
Lemma bloom_idx_ok v : 0 <= HASH_BLOOM <= 32 -> bloom_idx v = v mod 2 ^ HASH_BLOOM.
Proof.
  intros Hb. unfold bloom_idx. assert (0 < 2 ^ HASH_BLOOM <= 2 ^ 32) by (split; [apply Z.pow_pos_nonneg | apply Z.pow_le_mono_r]; lia).
  rewrite Z.shiftl_1_l. unfold u64, uwrap. rewrite Z.mod_small by lia. unfold u32, uwrap. rewrite Z.mod_small by lia.
  replace (2 ^ HASH_BLOOM - 1) with (Z.ones HASH_BLOOM) by (rewrite Z.ones_equiv; lia). apply Z.land_ones. lia.
Qed.

Lemma bitset_ok bv i : 0 <= i / 8 < len bv -> exists bv', HASH_BLOOM_BITSET bv i = Ok bv' /\ length bv' = length bv /\
  forall j, 0 <= j -> bv_bit bv' j = bv_bit bv j || (j =? i).
Proof.
  intros Hi. unfold HASH_BLOOM_BITSET. destruct (lookup_lt_is_Some_2 bv (Z.to_nat (i / 8))) as [b Hb]; [lia | ].
  rewrite (rd_ok _ _ b), obind_ok, wr_ok by (done || lia). eexists. split; [done | ].
  split; [by rewrite length_insert | ]. intros j Hj. unfold bv_bit.
  assert (forall k, nth k (<[Z.to_nat (i / 8) := Z.lor b (Z.shiftl 1 (i mod 8))]> bv) 0 =
    if decide (k = Z.to_nat (i / 8)) then Z.lor b (Z.shiftl 1 (i mod 8)) else nth k bv 0) as Hn.
  { intros k. rewrite !nth_lookup. case_decide as E; [subst k; rewrite list_lookup_insert_eq by lia; done | ].
    by rewrite list_lookup_insert_ne by done. }
  rewrite Hn. pose proof (Z.mod_pos_bound i 8). pose proof (Z.mod_pos_bound j 8).
  case_decide as E.
  - assert (j / 8 = i / 8) as Eq by (assert (0 <= j / 8) by (apply Z.div_pos; lia); lia).
    rewrite Z.lor_spec, Z.shiftl_1_l, Z.pow2_bits_eqb by lia. rewrite E, nth_lookup, Hb. cbn. f_equal.
    pose proof (Z.div_mod i 8). pose proof (Z.div_mod j 8). destruct (i mod 8 =? j mod 8) eqn:E1, (j =? i) eqn:E2; zbool; try done; lia.
  - rewrite (proj2 (Z.eqb_neq j i)), orb_false_r; [done | ]. by intros ->.
Qed.
Lemma bittest_ok bv i : 0 <= i / 8 < len bv -> exists r, HASH_BLOOM_BITTEST bv i = Ok r /\ (r =? 0) = negb (bv_bit bv i).
Proof.
  intros Hi. unfold HASH_BLOOM_BITTEST. destruct (lookup_lt_is_Some_2 bv (Z.to_nat (i / 8))) as [b Hb]; [lia | ].
  rewrite (rd_ok _ _ b), obind_ok by (done || lia). eexists. split; [done | ]. unfold bv_bit. rewrite nth_lookup, Hb. cbn.
  pose proof (Z.mod_pos_bound i 8). rewrite Z.shiftl_1_l. destruct (Z.testbit b (i mod 8)) eqn:E; cbn [negb].
  - apply Z.eqb_neq. intros H0. assert (Z.testbit (Z.land b (2 ^ (i mod 8))) (i mod 8) = true) as Ht.
    { by rewrite Z.land_spec, E, Z.pow2_bits_true by lia. }
    by rewrite H0, Z.bits_0 in Ht.
  - apply Z.eqb_eq. apply Z.bits_inj'. intros n Hn. rewrite Z.land_spec, Z.bits_0, Z.pow2_bits_eqb by lia.
    destruct (i mod 8 =? n) eqn:En; zbool; [ | by rewrite andb_false_r]. subst n. by rewrite E.
Qed.
End Bloom.

(** ** The selected elements *)

(** As [inv], but the tail pointer still refers to the first element. *)
Definition selinv (d : ut) (ls : list Z) : Prop :=
  NoDup ls /\ (forall l, l ∈ ls -> elem_ok (ut_hs d) l) /\
  match ut_head d, ut_tbl d with
  | None, None => ls = []
  | Some l0, Some t =>
      exists bs k, tbl_ok (ut_hs d) t bs k /\ concat bs ≡ₚ ls /\ dseg (app_links (ut_hs d)) None ls None /\
        num_items t = len ls /\ tbl_tail t = Some l0 /\ first ls None = Some l0
  | _, _ => False
  end.

Section SelectProof.
Context (malloc : nat -> Z -> bool).

(** The assignments to the handle of a selected element. *)
Lemma sel_links m ls x key v (d : ut) : ut_hs d = m -> is_Some (m !! x) -> NoDup (ls ++ [x]) -> dseg (app_links m) None ls None ->
  exists m', (let! d := upd d x (set_key key (len key)) in
              let! d := upd d x (set_hashv v) in
              let! d := upd d x (set_prev (final None ls)) in
              let! d := upd d x (set_next None) in
              upd_opt d (final None ls) (set_next (Some x))) = Ok (set_hs m' d) /\
    dom m' = dom m /\ (forall l, bkt_links m' l = bkt_links m l) /\ dseg (app_links m') None (ls ++ [x]) None /\
    stat m' x = Some (key, len key, v) /\ (forall l, l <> x -> stat m' l = stat m l).
Proof.
  intros Hm Hx Hnd Hd. destruct d as [h o m0 n]. cbn in Hm. subst m0. apply NoDup_app in Hnd as Hnd'.
  destruct Hnd' as (_ & Hxl & _). assert (x ∉ ls) as Hxn by (intros H; apply (Hxl x H); left).
  destruct (set_key_view m x key (len key) Hx) as (m1 & E1 & D1 & A1 & B1 & S1).
  destruct (set_hashv_view m1 x v) as (m2 & E2 & D2 & A2 & B2 & S2); [by apply (dom_alive m) | ].
  destruct (set_prev_view m2 x (final None ls)) as (m3 & E3 & D3 & A3 & B3 & S3); [apply (dom_alive m); [congruence | done] | ].
  destruct (set_next_view m3 x None) as (m4 & E4 & D4 & A4 & B4 & S4); [apply (dom_alive m); [congruence | done] | ].
  destruct (set_next_opt_view m4 (final None ls) (Some x)) as (m5 & E5 & D5 & A5 & B5 & S5).
  { intros l Hl%final_elem. apply (dom_alive m); [congruence | ]. destruct (dseg_links _ _ _ _ _ Hd Hl). by eapply links_alive. }
  exists m5. rewrite (upd_mk _ _ _ _ _ _ _ E1), obind_ok, (upd_mk _ _ _ _ _ _ _ E2), obind_ok, (upd_mk _ _ _ _ _ _ _ E3), obind_ok.
  rewrite (upd_mk _ _ _ _ _ _ _ E4), obind_ok, (upd_opt_mk _ _ _ _ _ _ _ E5). split; [done | ].
  split; [congruence | ]. split; [intros l; by rewrite B5, B4, B3, B2, B1 | ]. split; [ | split].
  - apply (dseg_snoc (app_links m)); [done | done | | ].
    + rewrite A5, upd_nx_opt_other by (by intros ?%final_elem). rewrite A4. unfold upd_nx. rewrite decide_True, A3 by done.
      unfold upd_pv. rewrite decide_True, A2, A1 by done. unfold app_links. by destruct Hx as [h' ->].
    + intros y Hy. rewrite A5. apply upd_nx_opt_ext. rewrite A4. unfold upd_nx. rewrite decide_False, A3 by done.
      unfold upd_pv. by rewrite decide_False, A2, A1.
  - rewrite S5, S4, S3, S2. unfold upd_stat. rewrite decide_True, S1 by done. unfold upd_stat. rewrite decide_True by done.
    unfold stat. by destruct Hx as [h' ->].
  - intros l Hl. rewrite S5, S4, S3, S2. unfold upd_stat. rewrite decide_False, S1 by done. unfold upd_stat. by rewrite decide_False.
Qed.

(** Adding it to its bucket and counting it. *)
Lemma sel_finish l0 t m n bs k ls x key :
  tbl_ok m t bs k -> concat bs ≡ₚ ls -> dseg (app_links m) None (ls ++ [x]) None ->
  num_items t = len ls -> tbl_tail t = Some l0 -> first (ls ++ [x]) None = Some l0 ->
  NoDup (ls ++ [x]) -> len (ls ++ [x]) < 2 ^ 32 -> len key < 2 ^ 32 -> (ls <> [] \/ young t) ->
  (forall l, l ∈ ls -> elem_ok m l) -> stat m x = Some (key, len key, hashf key) ->
  let r := (let! t0 := the_tbl (Ut (Some l0) (Some t) m n) in
            let! d := HASH_ADD_TO_BKT malloc (Ut (Some l0) (Some t) m n) (HASH_TO_BKT (hashf key) (num_buckets t0)) x in
            upd_tbl d (fun t => set_num_items (u32 (num_items t + 1)) t)) in
  (must_expand t (HASH_TO_BKT (hashf key) (2 ^ k)) = true /\ malloc n (2 * 2 ^ k * sizeof_bucket) = false /\ r = Exit (-1)) \/
  (must_expand t (HASH_TO_BKT (hashf key) (2 ^ k)) = true /\ k = 31 /\ malloc n (2 * 2 ^ k * sizeof_bucket) = true /\ r = Ub) \/
  exists d', r = Ok d' /\ selinv d' (ls ++ [x]) /\ dom (ut_hs d') = dom m /\ (forall l, stat (ut_hs d') l = stat m l).
Proof.
  intros Htok Hp Hds Hni Htl Hfi Hnd Hsm Hkl Hne Hel Hst. cbv zeta. pose proof Htok as (Hnb & _).
  assert (is_Some (m !! l0)) as Hl0.
  { destruct (dseg_links _ _ _ _ _ Hds (first_elem _ _ Hfi)). by eapply links_alive. }
  rewrite the_tbl_mk, obind_ok, Hnb by done. apply NoDup_app in Hnd as Hnd'. destruct Hnd' as (_ & Hxl & _).
  assert (x ∉ ls) as Hxn by (intros H; apply (Hxl x H); left). rewrite length_app in Hsm. cbn [length] in Hsm.
  destruct (add_to_bkt_ok malloc l0 t m n bs k x (key, len key) (hashf key))
    as [(He & Hm & ->) | [(He & Hk31 & Hm & ->) | (t' & m' & n' & bs' & k' & -> & Htok' & R & P' & N' & T' & _)]]; try done.
  { by rewrite Hp. }
  { cbn [length]. rewrite Hp. lia. }
  { intros He. rewrite Hni. destruct ls as [ | l ls]; [ | cbn [length] in *; lia].
    destruct Hne as [? | Hy]; [done | ]. rewrite (young_calm m t bs k) in He; [done | done | done | ]. rewrite Hp. cbn. lia. }
  { by left. }
  { by right; left. }
  right. right. destruct R as (D' & A' & S' & _). rewrite obind_ok, upd_tbl_mk by (by apply (dom_alive m)). eexists. split; [done | ].
  split; [ | done]. split; [done | ]. split.
  - intros l [Hl | ->%list_elem_of_singleton]%elem_of_app; unfold elem_ok; cbn; rewrite S'; [by apply Hel | eauto].
  - cbn. exists bs', k'. split; [done | ]. split; [rewrite P', Hp; apply Permutation_cons_append | ].
    split; [eapply dseg_ext; [ | exact Hds]; auto | ]. rewrite N', Hni, length_app. cbn [length].
    split; [rewrite u32_small by lia; lia | ]. cbn. by rewrite T'.
Qed.

Definition sel_post (d : ut) (ls : list Z) (d' : ut) : Prop :=
  selinv d' ls /\ dom (ut_hs d') = dom (ut_hs d).

Lemma sel_add_ok d ls x h :
  selinv d ls -> x ∉ ls -> is_Some (ut_hs d !! x) -> keylen h = len (hkey h) -> hashv h = hashf (hkey h) ->
  len (hkey h) < 2 ^ 32 -> len ls + 1 < 2 ^ 32 ->
  (refused malloc d (hkey h) /\ sel_add malloc d x h (final None ls) = Exit (-1)) \/
  (overfull malloc d (hkey h) /\ sel_add malloc d x h (final None ls) = Ub) \/
  exists d', sel_add malloc d x h (final None ls) = Ok d' /\ sel_post d (ls ++ [x]) d' /\
    stat (ut_hs d') x = Some (hkey h, len (hkey h), hashf (hkey h)) /\
    (forall l, l <> x -> stat (ut_hs d') l = stat (ut_hs d) l).
Proof.
  intros (Hnd & Hel & Hf) Hx Ha Hkl Hhv Hk32 Hsm. unfold sel_add. rewrite Hkl, Hhv.
  assert (dseg (app_links (ut_hs d)) None ls None) as Hds.
  { destruct (ut_head d), (ut_tbl d); try done; [by destruct Hf as (? & ? & ? & ? & ? & ?) | by subst]. }
  assert (NoDup (ls ++ [x])) as Hnd1 by (by apply NoDup_snoc).
  destruct (sel_links (ut_hs d) ls x (hkey h) (hashf (hkey h)) d eq_refl Ha Hnd1 Hds) as (m & E & D & B & Hds1 & Sx & So).
  destruct d as [hd o m0 n]. cbn [ut_hs] in *.
  apply obind_inv in E as (d1 & E1 & E). apply obind_inv in E as (d2 & E2 & E). apply obind_inv in E as (d3 & E3 & E).
  apply obind_inv in E as (d4 & E4 & E). rewrite E1, obind_ok, E2, obind_ok, E3, obind_ok, E4, obind_ok, E, obind_ok.
  unfold set_hs. cbn [ut_head ut_tbl ut_calls]. assert (forall l, l ∈ ls -> elem_ok m l) as Hel1.
  { intros l Hl. unfold elem_ok. rewrite So by (by intros ->). by apply Hel. }
  assert (len (ls ++ [x]) < 2 ^ 32) as Hsm1 by (rewrite length_app; cbn [length]; lia).
  cbn [ut_head]. destruct hd as [l0 | ], o as [t | ]; cbn in Hf; try done.
  - destruct Hf as (bs & k & Htok & Hp & _ & Hni & Htl & Hfi). rewrite obind_ok.
    destruct (sel_finish l0 t m n bs k ls x (hkey h)) as [(He & Hm & ->) | [(He & -> & Hm & ->) | (d' & -> & Hi & Hd & Hs)]]; try done.
    + destruct Htok as (T1 & T2 & T3 & T4 & T5 & T6). repeat (split; [done | ]). split; [ | done].
      apply (buckets_ok_ext m0); [auto | | done]. intros l Hl. rewrite Hp in Hl. apply So. by intros ->.
    + rewrite first_app. by destruct ls.
    + left. by intros ->.
    + left. split; [ | done]. exists 0%nat, (2 * 2 ^ k * sizeof_bucket). unfold add_requests. cbn [ut_tbl ut_calls].
      by rewrite (proj1 Htok), He, Nat.add_0_r.
    + right. left. split; [ | done]. unfold overfull, add_requests. cbn [ut_tbl ut_calls]. by rewrite (proj1 Htok), He.
    + right. right. exists d'. split; [done | ]. split; [split; [done | cbn; congruence] | ].
      split; [by rewrite Hs | ]. intros l Hl. rewrite Hs. by apply So.
  - subst ls. unfold HASH_MAKE_TABLE, set_head. cbn [ut_head ut_tbl ut_hs ut_calls].
    destruct (alloc_cases malloc (Ut (Some x) None m n) sizeof_table) as [[_ ->] | [Hm ->]];
      [rewrite obind_ok; cbn [ut_head ut_tbl ut_hs ut_calls]
      | left; split; [ | done]; exists 0%nat, sizeof_table; split; [done | by rewrite Nat.add_0_r]].
    destruct (alloc_cases malloc (Ut (Some x) None m (S n)) (HASH_INITIAL_NUM_BUCKETS * sizeof_bucket)) as [[_ ->] | [Hm ->]];
      [rewrite !obind_ok; unfold set_tbl; cbn [ut_head ut_tbl ut_hs ut_calls]
      | left; split; [ | done]; eexists 1%nat, _; split; [done | by rewrite Nat.add_1_r]].
    set (t := Table _ _ _ _ _ _ _ _ _).
    assert (tbl_ok m t (replicate 32 []) 5) as Htok.
    { repeat (split; [done | ]). split; [apply zero_buckets_ok | ]. split; [done | ]. rewrite concat_nils. constructor. }
    assert (young t) as Hy by (by apply Forall_replicate).
    assert (must_expand t (HASH_TO_BKT (hashf (hkey h)) (2 ^ 5)) = false) as Hcalm.
    { apply (young_calm m t (replicate 32 []) 5); [done | done | by rewrite concat_nils]. }
    destruct (sel_finish x t m (S (S n)) (replicate 32 []) 5 [] x (hkey h)) as [(He & _) | [(He & _) | (d' & -> & Hi & Hd & Hs)]]; try done.
    + by right.
    + by rewrite Hcalm in He.
    + by rewrite Hcalm in He.
    + right. right. exists d'. split; [done | ]. split; [split; [done | cbn; congruence] | ].
      split; [by rewrite Hs | ]. intros l Hl. rewrite Hs. by apply So.
Qed.

(** The selected elements [xs] of the source, one after the other. *)
Fixpoint sel_adds (m : gmap Z handle) (xs : list Z) (d : ut) (last_elt : option Z) : outcome (ut * option Z) :=
  match xs with
  | [] => Ok (d, last_elt)
  | x :: xs =>
      let! h := hget m x in
      let! d := sel_add malloc d x h last_elt in
      sel_adds m xs d (Some x)
  end.
Lemma sel_adds_app m a b d p : sel_adds m (a ++ b) d p = let! '(d, p) := sel_adds m a d p in sel_adds m b d p.
Proof.
  revert d p. induction a as [ | x a IH]; intros d p; cbn [app sel_adds]; [done | ].
  destruct (hget m x) as [h | | | ]; [ | done..]. rewrite !obind_ok.
  destruct (sel_add malloc d x h p) as [d1 | | | ]; [ | done..]. by rewrite !obind_ok.
Qed.

Lemma sel_chain_adds cond m c : forall fuel p d q, (length c <= fuel)%nat -> dseg (bkt_links m) p c None ->
  sel_chain malloc cond m fuel (first c None) d q = sel_adds m (List.filter cond c) d q.
Proof.
  induction c as [ | x c IH]; intros fuel p d q Hf Hd; [by destruct fuel | ].
  destruct fuel as [ | fuel]; [cbn in Hf; lia | ]. destruct Hd as [Hx Hd]. cbn [first sel_chain length List.filter] in *.
  destruct (bkt_links_get _ _ _ _ Hx) as (h & Hh & _ & Hnx). rewrite (hget_some _ _ _ Hh), obind_ok, Hnx.
  destruct (cond x).
  - cbn [sel_adds]. rewrite (hget_some _ _ _ Hh), obind_ok. destruct (sel_add malloc d x h q) as [d1 | | | ]; [ | done..].
    rewrite !obind_ok. apply (IH fuel (Some x)); [lia | done].
  - rewrite obind_ok. apply (IH fuel (Some x)); [lia | done].
Qed.
Lemma sel_buckets_adds cond m nb rb : forall i d q,
  (forall j c, rb !! j = Some c -> NoDup c /\ dseg (bkt_links m) None c None /\
     exists b, nb !! (i + j)%nat = Some b /\ hh_head b = first c None) ->
  sel_buckets malloc cond m (length rb) (Z.of_nat i) nb d q = sel_adds m (List.filter cond (concat rb)) d q.
Proof.
  induction rb as [ | c rb IH]; intros i d q Hb; cbn [length sel_buckets concat]; [done | ].
  destruct (Hb 0%nat c eq_refl) as (Hnd & Hd & b & Hib & Hh). rewrite Nat.add_0_r in Hib.
  rewrite (rd_ok _ _ b), obind_ok, Hh by (rewrite ?Nat2Z.id; done || lia).
  rewrite (sel_chain_adds cond m c _ None), List.filter_app, sel_adds_app; [ | | done].
  - destruct (sel_adds m (List.filter cond c) d q) as [[d1 q1] | | | ]; [ | done..]. rewrite !obind_ok.
    replace (Z.of_nat i + 1) with (Z.of_nat (S i)) by lia. apply IH. intros j e Hj.
    destruct (Hb (S j) e Hj) as (Hn' & Hd' & b' & Hib' & ?). split; [done | ]. split; [done | ]. exists b'.
    by replace (S i + j)%nat with (i + S j)%nat by lia.
  - apply alive_length; [done | ]. intros l Hl. by eapply chain_alive.
Qed.

Lemma chain_nodup (bs : list (list Z)) j c : NoDup (concat bs) -> bs !! j = Some c -> NoDup c.
Proof.
  revert j. induction bs as [ | b bs IH]; intros j Hnd Hj; [done | ]. cbn [concat] in Hnd. apply NoDup_app in Hnd as (H1 & _ & H2).
  destruct j; [by injection Hj as <- | by eapply IH].
Qed.

(** HASH_SELECT adds the elements of the source's chains that satisfy the condition. *)
Lemma select_adds src ls : inv src ls ->
  exists es, es ≡ₚ ls /\ forall cond d,
    HASH_SELECT malloc cond d src = let! '(d, _) := sel_adds (ut_hs src) (List.filter cond es) d None in Ok d.
Proof.
  destruct src as [h o m c]. intros (Hnd & Hsm & Hel & Hf). unfold HASH_SELECT. cbn [ut_head ut_tbl ut_hs] in *.
  destruct h as [l0 | ], o as [t | ]; try done; [ | subst ls; by exists []].
  destruct Hf as (bs & k & Htok & Hp & Hds & _ & _ & Hfi). pose proof Htok as (Hnb & _ & _ & Hok & Hbs & Hndb).
  exists (concat bs). split; [done | ]. intros cond d.
  rewrite the_tbl_mk, obind_ok, Hnb by (destruct (dseg_links _ _ _ _ _ Hds (first_elem _ _ Hfi)); by eapply links_alive).
  replace (Z.to_nat (2 ^ k)) with (length bs) by lia. change 0 with (Z.of_nat 0).
  rewrite (sel_buckets_adds cond m (buckets t) bs 0); [done | ]. intros j c' Hj.
  destruct (lookup_lt_is_Some_2 (buckets t) j) as [b Hb]; [rewrite (proj1 Hok); by eapply lookup_lt_Some | ].
  destruct (proj2 Hok _ _ _ Hb Hj) as (Hh & _ & Hd & _). split; [ | eauto].
  by eapply chain_nodup.
Qed.

Lemma sel_adds_ok m xs : forall d sel,
  NoDup (sel ++ xs) -> len sel + len xs < 2 ^ 32 -> (forall l, l ∈ xs -> elem_ok m l /\ is_Some (ut_hs d !! l)) ->
  selinv d sel -> (forall l, l ∈ sel -> stat (ut_hs d) l = stat m l) ->
  (exists d', sel_adds m xs d (final None sel) = Ok (d', final None (sel ++ xs)) /\ sel_post d (sel ++ xs) d' /\
     (forall l, l ∈ sel ++ xs -> stat (ut_hs d') l = stat m l)) \/
  (exists xs1 x xs2 d1 p key, xs = xs1 ++ x :: xs2 /\ sel_adds m xs1 d (final None sel) = Ok (d1, p) /\
     key_at m x = Some key /\ stops malloc d1 key (sel_adds m xs d (final None sel))).
Proof.
  induction xs as [ | x xs IH]; intros d sel Hnd Hsm Hel Hi Hst; cbn [sel_adds].
  { left. exists d. rewrite app_nil_r. split; [done | ]. by split. }
  destruct (Hel x ltac:(left)) as [(key & Hs & Hk32) Ha]. cbn [length] in Hsm.
  assert (x ∉ sel) as Hxs. { apply NoDup_app in Hnd as (_ & H & _). intros H1. apply (H x H1). left. }
  unfold stat in Hs. destruct (m !! x) as [h | ] eqn:Hh; [ | done]. injection Hs as E1 E2 E3.
  rewrite (hget_some _ _ _ Hh), obind_ok.
  destruct (sel_add_ok d sel x h) as [[Hr ->] | [[Hr ->] | (d1 & Ed & [Hi1 Hd1] & Sx & So)]]; rewrite ?E1; try done.
  - lia.
  - right. exists [], x, xs, d, (final None sel), key. split; [done | ]. split; [done | ].
    split; [unfold key_at; rewrite Hh; cbn; by rewrite E1 | ]. left. by rewrite E1 in Hr.
  - right. exists [], x, xs, d, (final None sel), key. split; [done | ]. split; [done | ].
    split; [unfold key_at; rewrite Hh; cbn; by rewrite E1 | ]. right. by rewrite E1 in Hr.
  - rewrite Ed, obind_ok. rewrite E1 in Sx. pose proof (final_snoc None sel x) as Efin. rewrite <- Efin.
    destruct (IH d1 (sel ++ [x])) as [(d2 & -> & [Hi2 Hd2] & Hst2) | (xs1 & y & xs2 & d2 & p & key2 & -> & Ea & Hk2 & Hst2)]; try done.
    + by rewrite <- app_assoc.
    + rewrite length_app. cbn [length]. lia.
    + intros l Hl. destruct (Hel l ltac:(by right)). split; [done | by apply (dom_alive (ut_hs d))].
    + intros l [Hl | ->%list_elem_of_singleton]%elem_of_app; [rewrite So; [auto | by intros ->] | ].
      rewrite Sx. unfold stat. rewrite Hh. cbn. congruence.
    + left. rewrite <- app_assoc in *. exists d2. split; [done | ]. split; [split; [done | congruence] | done].
    + right. exists (x :: xs1), y, xs2, d2, p, key2. cbn [sel_adds]. rewrite (hget_some _ _ _ Hh), obind_ok, Ed, obind_ok, <- Efin. done.
Qed.
End SelectProof.

(** The filter answers yes exactly for the hash values that agree with an added one
    in their low HASH_BLOOM bits: no added key is ever missed, and no access
    leaves the vector. *)
Theorem bloom_exact nbits vs v :
  0 <= nbits <= 32 ->
  exists bv r, bloom_adds nbits (HASH_BLOOM_MAKE nbits) vs = Ok bv /\ HASH_BLOOM_TEST nbits bv v = Ok r /\
    (r <> 0 <-> exists w, w ∈ vs /\ w mod 2 ^ nbits = v mod 2 ^ nbits).
Proof.
  intros Hb. assert (0 < 2 ^ nbits) by (apply Z.pow_pos_nonneg; lia).
  assert (forall vs bv, len bv = HASH_BLOOM_BYTELEN nbits -> exists bv', bloom_adds nbits bv vs = Ok bv' /\
    len bv' = HASH_BLOOM_BYTELEN nbits /\
    forall j, 0 <= j -> bv_bit bv' j = bv_bit bv j || existsb (fun w => j =? w mod 2 ^ nbits) vs) as Hadds.
  { clear v vs. induction vs as [ | w vs IH]; intros bv Hl; cbn [bloom_adds existsb].
    - exists bv. split; [done | ]. split; [done | ]. intros j _. by rewrite orb_false_r.
    - unfold HASH_BLOOM_ADD. rewrite bloom_idx_ok by done.
      destruct (bitset_ok bv (w mod 2 ^ nbits)) as (bv1 & -> & Hl1 & H1).
      { rewrite Hl. apply bytelen_ok; [done | ]. apply Z.mod_pos_bound. lia. }
      rewrite obind_ok. destruct (IH bv1) as (bv2 & -> & Hl2 & H2); [lia | ]. exists bv2. split; [done | ]. split; [done | ].
      intros j Hj. rewrite H2, H1, orb_assoc by done. done. }
  assert (0 <= HASH_BLOOM_BYTELEN nbits) by (pose proof (bytelen_ok nbits Hb 0); lia).
  destruct (Hadds vs (HASH_BLOOM_MAKE nbits)) as (bv & E & Hl & Hbits).
  { unfold HASH_BLOOM_MAKE. rewrite length_replicate. lia. }
  pose proof (Z.mod_pos_bound v (2 ^ nbits) ltac:(lia)) as Hv. unfold HASH_BLOOM_TEST. rewrite bloom_idx_ok by done.
  destruct (bittest_ok bv (v mod 2 ^ nbits)) as (r & Er & Hr); [rewrite Hl; by apply bytelen_ok | ].
  exists bv, r. split; [done | ]. split; [done | ]. rewrite Hbits in Hr by lia.
  assert (bv_bit (HASH_BLOOM_MAKE nbits) (v mod 2 ^ nbits) = false) as E0.
  { unfold bv_bit, HASH_BLOOM_MAKE. rewrite nth_lookup. destruct (replicate _ _ !! _) as [b | ] eqn:Eb; [ | apply Z.bits_0].
    apply lookup_replicate_1 in Eb as [-> _]. apply Z.bits_0. }
  rewrite E0, orb_false_l in Hr. rewrite <- Z.eqb_neq, Hr, negb_false_iff, existsb_exists.
  split; intros (w & Hw & Hm); exists w; (split; [by apply list_elem_of_In | ]); [by apply Z.eqb_eq in Hm | by apply Z.eqb_eq].
Qed.

Lemma lfilter_perm (f : Z -> bool) a b : a ≡ₚ b -> List.filter f a ≡ₚ List.filter f b.
Proof.
  induction 1 as [ | x a b _ IH | x y a | a b c _ IH1 _ IH2]; cbn; [done | by destruct (f x); rewrite IH | | by rewrite IH1].
  destruct (f x), (f y); try done. apply Permutation_swap.
Qed.

(** The table with its tail pointer set. *)
Definition with_tail (p : option Z) (d : ut) : ut :=
  match ut_tbl d with Some t => set_tbl (Some (set_tail p t)) d | None => d end.

Lemma selinv_inv d ls : selinv d ls -> len ls < 2 ^ 32 -> inv (with_tail (final None ls) d) ls.
Proof.
  destruct d as [h o m n]. intros (Hnd & Hel & Hf) Hl. cbn in Hf. unfold with_tail. cbn [ut_tbl].
  destruct h as [l0 | ], o as [t | ]; try done.
  destruct Hf as (bs & k & Htok & Hp & Hds & Hni & Htl & Hfi). split; [done | ]. split; [done | ]. split; [done | ].
  cbn. exists bs, k. done.
Qed.
Lemma find_with_tail p d key n : HASH_FIND (with_tail p d) key n = HASH_FIND d key n.
Proof. destruct d as [[l | ] [t | ] m c]; try done. unfold with_tail, HASH_FIND, the_tbl. cbn. by destruct (hget m l). Qed.

(** A prefix of the selected elements is what its own membership test selects. *)
Lemma filter_prefix (f : Z -> bool) l a b : NoDup l -> List.filter f l = a ++ b ->
  List.filter (fun y => bool_decide (y ∈ a)) l = a.
Proof.
  revert a. induction l as [ | y l IH]; intros a Hnd E; cbn [List.filter] in *; [by destruct a | ].
  apply NoDup_cons in Hnd as [Hy Hnd]. destruct (f y).
  - destruct a as [ | z a]; cbn [app] in E.
    + rewrite bool_decide_false by apply not_elem_of_nil. clear. induction l as [ | z l IH]; cbn; [done | ].
      by rewrite bool_decide_false by apply not_elem_of_nil.
    + injection E as <- E. rewrite bool_decide_true by left. f_equal.
      transitivity (List.filter (fun z => bool_decide (z ∈ a)) l); [ | by apply IH].
      apply List.filter_ext_in. intros z Hz%list_elem_of_In. apply bool_decide_ext. rewrite elem_of_cons.
      split; [intros [-> | ?]; done | by right].
  - rewrite bool_decide_false; [by apply IH | ]. intros Ha. apply Hy.
    assert (y ∈ List.filter f l) as Hin by (rewrite E; set_solver).
    apply list_elem_of_In, filter_In in Hin as [? _]. by apply list_elem_of_In.
Qed.
Lemma selected_ok src ls md n es sel dst cond :
  inv src ls -> es ≡ₚ ls -> sel = List.filter cond es -> sel_post (Ut None None md n) sel dst ->
  (forall l, l ∈ sel -> stat (ut_hs dst) l = stat (ut_hs src) l) ->
  inv (with_tail (final None sel) dst) sel /\ (forall l, l ∈ sel -> key_at (ut_hs dst) l = key_at (ut_hs src) l) /\
  (forall key, len key < 2 ^ 32 -> exists r, HASH_FIND dst key (len key) = Ok r /\ found (ut_hs src) sel key r).
Proof.
  intros (_ & Hsm & _) Hp Hsel [Hs _] Hst. assert (len sel <= len ls) as Hl.
  { rewrite Hsel, <- Hp. pose proof (List.filter_length_le cond es). lia. }
  assert (inv (with_tail (final None sel) dst) sel) as Hi' by (apply selinv_inv; [done | lia]).
  assert (forall l, l ∈ sel -> key_at (ut_hs dst) l = key_at (ut_hs src) l) as Hk by (intros l ?; apply key_at_stat; auto).
  split; [done | ]. split; [done | ]. intros key Hk32. destruct (find_ok _ _ key Hi' Hk32) as (r & E & Hr).
  rewrite find_with_tail in E. exists r. split; [done | ].
  assert (ut_hs (with_tail (final None sel) dst) = ut_hs dst) as Eh by (unfold with_tail; by destruct (ut_tbl dst)).
  rewrite Eh in Hr. destruct r as [l | ]; cbn in *.
  - destruct Hr as [? Hkl]. by rewrite <- Hk.
  - intros l Hin. rewrite <- Hk by done. auto.
Qed.

(** C35. HASH_SELECT into an empty table: the elements that satisfy the condition, in the
    order of the source's buckets, are in the new table and found there under
    their keys, and the source is not changed (it is not written); the new table
    is consistent once its tail pointer is set to the last selected element.  Unless it
    stops at one of them, after the ones before it gave the table [d1]: with exit code -1,
    and then [malloc] has refused one of the requests of the addition of its key to [d1];
    or with the shift by 32, and then it has granted this addition 64 GB. *)
Theorem hash_select_ok malloc cond src ls md n :
  inv src ls -> (forall l, l ∈ ls -> is_Some (md !! l)) ->
  exists sel, sel ≡ₚ List.filter cond ls /\
  ((exists dst, HASH_SELECT malloc cond (Ut None None md n) src = Ok dst /\
     inv (with_tail (final None sel) dst) sel /\ (forall l, l ∈ sel -> key_at (ut_hs dst) l = key_at (ut_hs src) l) /\
     (forall key, len key < 2 ^ 32 -> exists r, HASH_FIND dst key (len key) = Ok r /\ found (ut_hs src) sel key r)) \/
   (exists sel1 x sel2 d1 key, sel = sel1 ++ x :: sel2 /\
     HASH_SELECT malloc (fun l => bool_decide (l ∈ sel1)) (Ut None None md n) src = Ok d1 /\
     key_at (ut_hs src) x = Some key /\
     ((refused malloc d1 key /\ HASH_SELECT malloc cond (Ut None None md n) src = Exit (-1)) \/
      (overfull malloc d1 key /\ HASH_SELECT malloc cond (Ut None None md n) src = Ub)))).
Proof.
  intros Hi Ha. destruct (select_adds malloc src ls Hi) as (es & Hp & Hsel). pose proof Hi as (Hnd & Hsm & Hel & _).
  exists (List.filter cond es). split; [by apply lfilter_perm | ]. pose proof (List.filter_length_le cond es).
  assert (NoDup es) as Hnde by (by rewrite Hp).
  destruct (sel_adds_ok malloc (ut_hs src) (List.filter cond es) (Ut None None md n) [])
    as [(dst & E & Hs & Hst) | (xs1 & x & xs2 & d1 & p & key & E & E1 & Hk & Hst)].
  - cbn [app]. apply NoDup_ListNoDup, List.NoDup_filter, NoDup_ListNoDup. done.
  - cbn [length]. pose proof (Permutation_length Hp). lia.
  - intros l [Hl _]%list_elem_of_In%filter_In. apply list_elem_of_In in Hl. rewrite Hp in Hl. auto.
  - split; [constructor | ]. split; [by intros l ?%elem_of_nil | done].
  - by intros l ?%elem_of_nil.
  - left. exists dst. cbn [app final last] in *. rewrite Hsel, E, obind_ok. split; [done | ].
    by apply (selected_ok src ls md n es _ dst cond).
  - right. exists xs1, x, xs2, d1, key. cbn [final last] in *. rewrite !Hsel. split; [done | ].
    rewrite (filter_prefix cond es xs1 (x :: xs2)) by done. rewrite E1, obind_ok. split; [done | ]. split; [done | ].
    destruct Hst as [[? ->] | [? ->]]; [by left | by right].
Qed.

(** HASH_SELECT does not set the tail pointer of the new table.  After three
    elements are selected, the next HASH_ADD links its element behind the first
    one: the count is four, the iteration meets the first and the new element
    only, and HASH_FSCK reports the damage. *)
Theorem hash_select_tail_stale :
  exists src dst dst' it,
    run mem64 [UAdd (int_key 7) 100; UAdd (int_key 8) 101; UAdd (int_key 9) 102] (Ut None None arena 0) =
      Ok (src, [RUnit; RUnit; RUnit]) /\
    HASH_SELECT mem64 (fun _ => true) (Ut None None arena 0) src = Ok dst /\
    HASH_FSCK dst = Ok tt /\ HASH_ADD_INT mem64 dst 10 103 = Ok dst' /\ HASH_CNT dst' = Ok 4 /\
    run_op mem64 UIter dst' = Ok (dst', RList it) /\ length it = 2%nat /\ HASH_FSCK dst' = Exit (-1).
Proof. do 4 eexists. do 7 (split; [vm_compute; reflexivity | ]). vm_compute. reflexivity. Qed.

(** ** Witnesses *)
Lemma bloom_exact_witness : exists bv r, bloom_adds 5 (HASH_BLOOM_MAKE 5) [37; 4] = Ok bv /\
  HASH_BLOOM_TEST 5 bv 69 = Ok r /\ r <> 0.
Proof.
  destruct (bloom_exact 5 [37; 4] 69) as (bv & r & E & Er & Hr); [lia | ]. exists bv, r. split; [exact E | ].
  split; [exact Er | ]. apply Hr. exists 37. split; [left | reflexivity].
Defined.
Definition three : list uop := [UAdd (int_key 7) 100; UAdd (int_key 8) 101; UAdd (int_key 9) 102].
Definition three_tbl : ut := match run mem64 three (Ut None None arena 0) with Ok (s, _) => s | _ => Ut None None ∅ 0 end.
Lemma three_inv : inv three_tbl [100; 101; 102].
Proof.
  destruct (run_small mem64 (fun j => conj eq_refl eq_refl) three _ _ (empty_rep arena 0) I) as (s & d & rs & Es & Er & Hr);
    [repeat constructor; vm_compute; eauto | vm_compute; reflexivity | ].
  vm_compute in Es. injection Es as <- <-. unfold three_tbl. rewrite Er. apply Hr.
Qed.
Lemma hash_select_ok_witness :
  HASH_SELECT one_block (fun l => l =? 101) (Ut None None arena 0) three_tbl = Exit (-1) /\
  exists dst sel, HASH_SELECT mem64 (fun l => l =? 101) (Ut None None arena 0) three_tbl = Ok dst /\ sel ≡ₚ [101] /\
    inv (with_tail (final None sel) dst) sel.
Proof.
  split; [vm_compute; reflexivity | ].
  assert (exists d, HASH_SELECT mem64 (fun l => l =? 101) (Ut None None arena 0) three_tbl = Ok d) as [d E] by (vm_compute; by eexists).
  destruct (hash_select_ok mem64 (fun l => l =? 101) three_tbl [100; 101; 102] arena 0 three_inv) as (sel & Hp & H).
  - intros l Hl. rewrite !elem_of_cons, elem_of_nil in Hl. destruct Hl as [-> | [-> | [-> | []]]]; vm_compute; eauto.
  - rewrite E in H. destruct H as [(dst & F & Hi & _) | (? & ? & ? & ? & ? & _ & _ & _ & [[_ F] | [_ F]])];
      [ | discriminate F | discriminate F].
    exists d, sel. injection F as <-. split; [exact E | ]. split; [exact Hp | exact Hi].
Defined.
End UtHashSelect.
