(* ===== verification/UtHashEmit.v ===== *)
(** * Emitted keys: HASH_EMIT_KEY of [client_server/uthash/src/uthash.h]

    With [HASH_EMIT_KEYS] every insertion also writes its key to a descriptor, behind
    its length.  The stream is proved readable: a reader of length-prefixed keys gets the
    keys of the insertions back, in order, whatever bytes they hold. *)
From S2P Require Import Prelude CLib Bytes Sys UtHash UtHashProof UtHashSpec.

Module UtHashEmit.
Import UtHash UtHashProof UtHashSpec.

Section Emit.
Context (malloc : nat -> Z -> bool) (HASH_EMIT_KEYS : Z).

(** The two [write]s; their results are not looked at. *)
Definition HASH_EMIT_KEY (keyptr : bytes) (fieldlen : Z) : outcome (list event) :=
  let _klen := u32 fieldlen in
  let! k := load keyptr 0 (u64 fieldlen) in
  Ok [Call "write" [HASH_EMIT_KEYS; 4] (le_bytes 4 _klen); Call "write" [HASH_EMIT_KEYS; u64 fieldlen] k].
(** HASH_ADD_KEYPTR with the emission. *)
Definition HASH_ADD_KEYPTR_emit (s : ut) (key : bytes) (keylen_in add : Z) : outcome (ut * list event) :=
  let! s := HASH_ADD_KEYPTR malloc s key keylen_in add in
  let! es := HASH_EMIT_KEY key keylen_in in
  Ok (s, es).
Fixpoint add_all (adds : list (bytes * Z)) (s : ut) : outcome (ut * list event) :=
  match adds with
  | [] => Ok (s, [])
  | (key, x) :: adds =>
      let! '(s, es) := HASH_ADD_KEYPTR_emit s key (len key) x in
      let! '(s, es') := add_all adds s in
      Ok (s, es ++ es')
  end.

(** ** The reader of the stream *)
Definition stream (es : list event) : bytes :=
  concat (map (fun e => match e with Call f _ d => if String.eqb f "write" then d else [] | _ => [] end) es).
(** A length in four bytes and a key, until the end; every key takes a step of [fuel]. *)
Fixpoint read_keys (fuel : nat) (b : bytes) : option (list bytes) :=
  match b, fuel with
  | [], _ => Some []
  | _, O => None
  | _, S fuel =>
      let n := Z.to_nat (le_val (take 4 b)) in
      if decide (4 + n <= length b)%nat
      then (fun ks => take n (drop 4 b) :: ks) <$> read_keys fuel (drop (4 + n) b)
      else None
  end.

(** ** Lemmas *)
Definition key_fits (k : bytes) : Prop := len k < 2 ^ 32.
Definition emission (k : bytes) : list event :=
  [Call "write" [HASH_EMIT_KEYS; 4] (le_bytes 4 (len k)); Call "write" [HASH_EMIT_KEYS; len k] k].
Lemma emit_ok k : key_fits k -> HASH_EMIT_KEY k (len k) = Ok (emission k).
Proof.
  intros Hk. unfold HASH_EMIT_KEY, u32, u64, uwrap, emission, key_fits in *.
  rewrite !(Z.mod_small (len k)) by lia. rewrite <- (app_nil_r k) at 1. by rewrite load_prefix.
Qed.
(** The insertions are those of the table without emission. *)
Lemma add_all_run adds : forall s, Forall key_fits adds.*1 ->
  add_all adds s = let! '(s', _) := run malloc (map (fun a => UAdd a.1 a.2) adds) s in Ok (s', concat (map emission adds.*1)).
Proof.
  induction adds as [ | [k x] adds IH]; intros s Hf; [done | ]. apply Forall_cons in Hf as [Hk Hf].
  cbn [add_all map run run_op fst snd]. unfold HASH_ADD_KEYPTR_emit.
  destruct (HASH_ADD_KEYPTR malloc s k (len k) x) as [s1 | c | | ]; [rewrite !obind_ok | done..].
  rewrite (emit_ok k Hk), !obind_ok, (IH s1 Hf). destruct (run malloc _ s1) as [[s2 rs] | c | | ]; by rewrite ?obind_ok.
Qed.
Lemma stream_emission ks : stream (concat (map emission ks)) = concat (map (fun k => le_bytes 4 (len k) ++ k) ks).
Proof.
  induction ks as [ | k ks IH]; [done | ]. unfold stream in *. cbn [map concat app]. rewrite <- IH.
  unfold emission. cbn [map concat app String.eqb Ascii.eqb Bool.eqb]. by rewrite <- app_assoc.
Qed.
Lemma read_key k fuel rest : key_fits k ->
  read_keys (S fuel) ((le_bytes 4 (len k) ++ k) ++ rest) = (fun ks => k :: ks) <$> read_keys fuel rest.
Proof.
  intros Hk. pose proof (length_le_bytes 4 (len k)) as L. rewrite <- app_assoc.
  assert (le_val (le_bytes 4 (len k)) = len k) as Hv
    by (rewrite le_val_bytes; apply Z.mod_small; unfold key_fits in Hk; lia).
  destruct (le_bytes 4 (len k) ++ k ++ rest) as [ | b bs] eqn:E; [by apply (f_equal length) in E; rewrite length_app, L in E | ].
  cbn [read_keys]. rewrite <- E. rewrite take_app_length', Hv by done. rewrite Nat2Z.id.
  rewrite decide_True by (rewrite !length_app; lia). rewrite <- drop_drop, drop_app_length' by done.
  by rewrite take_app_length, drop_app_length.
Qed.
Lemma read_stream ks fuel : Forall key_fits ks -> (length ks <= fuel)%nat ->
  read_keys fuel (concat (map (fun k => le_bytes 4 (len k) ++ k) ks)) = Some ks.
Proof.
  intros Hf. revert fuel. induction Hf as [ | k ks Hk _ IH]; intros fuel Hl; [by destruct fuel | ].
  cbn [length] in Hl. destruct fuel as [ | fuel]; [lia | ]. cbn [map concat]. rewrite read_key by done. by rewrite IH by lia.
Qed.
Lemma spec_adds adds : forall d, NoDup (d ++ adds).*1 -> NoDup (d ++ adds).*2 ->
  exists rs, spec_run (map (fun a => UAdd a.1 a.2) adds) d = Some (d ++ adds, rs).
Proof.
  induction adds as [ | [k x] adds IH]; intros d H1 H2; [exists []; by rewrite app_nil_r | ].
  cbn [map spec_run fst snd spec_op]. rewrite decide_True.
  - cbn. change ((k, x) :: adds) with ([(k, x)] ++ adds) in *. rewrite app_assoc in H1, H2.
    destruct (IH (d ++ [(k, x)]) H1 H2) as [rs ->]. cbn. rewrite <- app_assoc. by eexists.
  - rewrite fmap_app, fmap_cons in H1. rewrite fmap_app, fmap_cons in H2. apply NoDup_app in H1 as (_ & H1 & _), H2 as (_ & H2 & _).
    split; intros Hin; [apply H1 in Hin | apply H2 in Hin]; apply Hin; left.
Qed.
End Emit.

(** ** Properties *)

(** Insertions of new keys into an empty table with HASH_EMIT_KEYS: the table holds them
    in order, and a reader of the descriptor gets exactly the keys back, unless an
    insertion stops because [malloc] refuses one of its requests (or grants the 64 GB for
    2^32 buckets). *)
Theorem emitted_keys malloc fd m adds :
  Forall (fun a => key_fits a.1 /\ is_Some (m !! a.2)) adds -> len adds < 2 ^ 32 - 1 ->
  NoDup adds.*1 -> NoDup adds.*2 ->
  (exists s es, add_all malloc fd adds (Ut None None m 0) = Ok (s, es) /\ rep s adds /\
     read_keys (length adds) (stream es) = Some adds.*1) \/
  (exists adds1 a adds2 s1 es1, adds = adds1 ++ a :: adds2 /\
     add_all malloc fd adds1 (Ut None None m 0) = Ok (s1, es1) /\
     stops malloc s1 a.1 (add_all malloc fd adds (Ut None None m 0))).
Proof.
  intros Hall Hl H1 H2. assert (Forall key_fits adds.*1) as Hf.
  { rewrite Forall_fmap. eapply Forall_impl; [exact Hall | ]. by intros a []. }
  destruct (spec_adds adds [] H1 H2) as [rs Es]. rewrite (add_all_run malloc fd adds _ Hf).
  destruct (run_refines malloc (map (fun a => UAdd a.1 a.2) adds) (Ut None None m 0) [] adds rs (empty_rep m 0))
    as [(s & -> & Hr) | (ops1 & op & ops2 & s1 & rs1 & d1 & s2 & key & E & E1 & _ & _ & Hb & Hst)].
  - rewrite Forall_fmap. exact Hall.
  - by rewrite length_map.
  - exact Es.
  - left. rewrite obind_ok. eexists s, _. split; [done | ]. split; [done | ]. rewrite stream_emission.
    apply read_stream; [done | by rewrite length_fmap].
  - right. apply map_eq_app in E as (adds1 & l2 & -> & <- & E). apply map_eq_cons in E as (a & adds2 & -> & <- & <-).
    injection Hb as <- <-. rewrite fmap_app in Hf. apply Forall_app in Hf as [Hf _].
    exists adds1, a, adds2, s1. eexists. split; [done | ]. rewrite (add_all_run malloc fd adds1 _ Hf), E1, obind_ok.
    split; [done | ]. destruct Hst as [[? ->] | [? ->]]; [by left | by right].
Qed.
Lemma emitted_keys_witness :
  let adds := [(int_key 7, 100); ([], 101); (lit "key of thirteen", 102)] in
  (exists s es, add_all mem64 9 adds (Ut None None arena 0) = Ok (s, es) /\ rep s adds /\
     read_keys 3 (stream es) = Some [int_key 7; []; lit "key of thirteen"]) \/
  (exists adds1 a adds2 s1 es1, adds = adds1 ++ a :: adds2 /\
     add_all mem64 9 adds1 (Ut None None arena 0) = Ok (s1, es1) /\
     stops mem64 s1 a.1 (add_all mem64 9 adds (Ut None None arena 0))).
Proof.
  intros adds. apply (emitted_keys mem64 9 arena adds).
  - repeat (apply Forall_cons_2; [split; [reflexivity | vm_compute; eauto] | ]). apply Forall_nil_2.
  - reflexivity.
  - apply (bool_decide_unpack _). reflexivity.
  - apply (bool_decide_unpack _). reflexivity.
Defined.
End UtHashEmit.
