(* ===== verification/IntTable.v ===== *)
(** * The request table of the proxy as an interface, and uthash behind it

    [client_server/uthash/src/server.c] keeps its requests in a table of entries
    under their [int] number, through HASH_FIND_INT, HASH_ADD_INT, HASH_DEL and
    HASH_ITER.  The class states what the proxy relies on; the instance runs the
    macros of [UtHash] on a heap of entries. *)
From S2P Require Import Prelude CLib Bytes UtHashFn UtHash UtHashProof UtHashSpec.

(** ** The interface *)
Class IntTable (T : Type) := {
  no_table : T;  (* the null pointer the program starts with *)
  hash_find_int : Z -> T -> outcome (option Z);  (* HASH_FIND_INT: a pointer to the entry *)
  entry_bev : T -> Z -> outcome Z;  (* s->bev *)
  hash_add_int : Z -> Z -> T -> outcome T;  (* a new entry with its number and bev, HASH_ADD_INT *)
  hash_del_free : T -> Z -> outcome T;  (* HASH_DEL, then free *)
  hash_iter : (T -> Z -> outcome T) -> T -> outcome T  (* HASH_ITER with its body *)
}.
(** [holds t m]: the table has the entries [m], request numbers to bufferevents.  A
    table of at most eight entries takes another. *)
Class IntTableLaws (T : Type) `{IntTable T} := {
  holds : T -> gmap Z Z -> Prop;
  holds_no_table : holds no_table ∅;
  holds_find t m k : holds t m -> 0 <= k <= INT_MAX ->
    match m !! k with
    | Some b => exists p, hash_find_int k t = Ok (Some p) /\ entry_bev t p = Ok b
    | None => hash_find_int k t = Ok None
    end;
  holds_add t m k b : holds t m -> m !! k = None -> 0 <= k <= INT_MAX -> (size m <= 8)%nat ->
    exists t', hash_add_int k b t = Ok t' /\ holds t' (<[k := b]> m);
  holds_del t m k p : holds t m -> 0 <= k <= INT_MAX -> hash_find_int k t = Ok (Some p) ->
    exists t', hash_del_free t p = Ok t' /\ holds t' (delete k m);
  holds_iter_del t m : holds t m -> exists t', hash_iter hash_del_free t = Ok t' /\ holds t' ∅
}.

Module UtTable.
Import UtHashFn UtHash UtHashProof UtHashSpec.

(** ** Entries: [struct request_entry] with a handle, allocated one after the other *)
Record request_entry := Entry { request_id : Z; bev : Z }.
Record requests := Requests { uts : ut; entries : gmap Z request_entry; brk : Z }.

Section Table.
Context (malloc : nat -> Z -> bool).

Definition new_entry (id b : Z) (t : requests) : requests * Z :=
  let x := brk t in
  (Requests (set_hs (<[x := blank]> (ut_hs (uts t))) (uts t)) (<[x := Entry id b]> (entries t)) (x + 1), x).
Definition add_entry (id b : Z) (t : requests) : outcome requests :=
  let '(t, x) := new_entry id b t in
  let! s := HASH_ADD_INT malloc (uts t) id x in
  Ok (Requests s (entries t) (brk t)).
Definition bev_of (t : requests) (x : Z) : outcome Z :=
  match entries t !! x with Some e => Ok (bev e) | None => Ub end.
Definition free_entry (t : requests) (x : Z) : requests :=
  Requests (set_hs (delete x (ut_hs (uts t))) (uts t)) (delete x (entries t)) (brk t).
Definition del_entry (t : requests) (x : Z) : outcome requests :=
  let! s := HASH_DEL (uts t) x in
  Ok (free_entry (Requests s (entries t) (brk t)) x).
Definition iter_entries (body : requests -> Z -> outcome requests) (t : requests) : outcome requests :=
  HASH_ITER (fun t => ut_hs (uts t)) body t (ut_head (uts t)).

#[export] Instance ut_table : IntTable requests := {
  no_table := Requests (Ut None None ∅ 0) ∅ 0;
  hash_find_int k t := HASH_FIND_INT (uts t) k;
  entry_bev := bev_of;
  hash_add_int := add_entry;
  hash_del_free := del_entry;
  hash_iter := iter_entries
}.
End Table.

(** ** The laws *)

(** What the table holds: number, element and bufferevent of each entry. *)
Abbreviation item := (Z * Z * Z)%type (only parsing).
Definition num (e : item) : Z := e.1.1.
Definition loc (e : item) : Z := e.1.2.
Definition val (e : item) : Z := e.2.
Lemma int_key_inj a b : 0 <= a <= INT_MAX -> 0 <= b <= INT_MAX -> int_key a = int_key b -> a = b.
Proof.
  intros Ha Hb E. unfold int_key in E. apply (f_equal le_val) in E. rewrite !le_val_bytes in E.
  unfold INT_MAX in *. rewrite !u32_small in E by lia. change (256 ^ Z.of_nat 4) with 4294967296 in E.
  rewrite !Z.mod_small in E by lia. done.
Qed.
Lemma int_key_len a : len (int_key a) = 4.
Proof. unfold int_key. by rewrite length_le_bytes. Qed.

(** The invariant looks at the elements of the table only. *)
Lemma inv_heap s ls m : inv s ls -> (forall l, l ∈ ls -> m !! l = ut_hs s !! l) -> inv (set_hs m s) ls.
Proof.
  intros (Hnd & Hsm & Hel & Hf) Hm.
  assert (forall l, l ∈ ls -> stat m l = stat (ut_hs s) l) as Hst by (intros l Hl; unfold stat; by rewrite Hm).
  split; [done | ]. split; [done | ]. split; [intros l Hl; unfold elem_ok; cbn; rewrite Hst by done; by apply Hel | ].
  destruct s as [h o m0 n]. cbn in *. destruct h as [l0 | ], o as [t | ]; try done.
  destruct Hf as (bs & k & (T1 & T2 & T3 & T4 & T5 & T6) & Hp & Hds & Hrest). exists bs, k. split; [ | split; [done | split; [ | done]]].
  - repeat (split; [done | ]). split; [ | done]. apply (buckets_ok_ext m0); [ | | done]; intros l Hl; rewrite Hp in Hl.
    + unfold bkt_links. by rewrite Hm.
    + by apply Hst.
  - eapply dseg_ext; [ | exact Hds]. intros l Hl. unfold app_links. by rewrite Hm.
Qed.
Lemma rep_heap s d m : rep s d -> (forall l, l ∈ d.*2 -> m !! l = ut_hs s !! l) -> rep (set_hs m s) d.
Proof.
  intros (Hi & Hk & Hnd) Hm. split; [by apply inv_heap | ]. split; [ | done]. cbn.
  rewrite Forall_forall in Hk |- *. intros e He. unfold key_at. rewrite Hm by (by apply list_elem_of_fmap_2). by apply Hk.
Qed.

Definition dict_of (es : list item) : list (bytes * Z) := map (fun e => (int_key (num e), loc e)) es.
Definition map_of (es : list item) : gmap Z Z := list_to_map (map (fun e => (num e, val e)) es).

(** The number is that of the entry at the element, which is not beyond the last
    allocation. *)
Definition items_ok (t : requests) (es : list item) : Prop :=
  Forall (fun e => 0 <= num e <= INT_MAX /\ loc e < brk t /\ entries t !! loc e = Some (Entry (num e) (val e))) es.
Definition ut_items (t : requests) (es : list item) : Prop :=
  NoDup (map num es) /\ rep (uts t) (dict_of es) /\ ut_young (uts t) /\ items_ok t es.
Definition ut_holds (t : requests) (m : gmap Z Z) : Prop := exists es, m = map_of es /\ ut_items t es.
Arguments dict_of : simpl never.
Arguments map_of : simpl never.
Lemma dict_of_cons e es : dict_of (e :: es) = (int_key (num e), loc e) :: dict_of es.
Proof. done. Qed.
Lemma map_of_cons e es : map_of (e :: es) = <[num e := val e]> (map_of es).
Proof. done. Qed.
Lemma nums_of es : (map (fun e => (num e, val e)) es).*1 = map num es.
Proof. induction es; [done | ]. cbn. by f_equal. Qed.
Lemma keys_of es k : Forall (fun e => 0 <= num e <= INT_MAX) es -> 0 <= k <= INT_MAX ->
  int_key k ∈ (dict_of es).*1 -> k ∈ map num es.
Proof.
  intros He Hk. induction He as [ | e es Hn _ IH]; [by intros ?%elem_of_nil | ]. rewrite dict_of_cons, fmap_cons. cbn [fst map].
  intros [E | Hin]%elem_of_cons; [ | right; auto]. apply int_key_inj in E as ->; [left | done | done].
Qed.
Lemma locs_of es : (dict_of es).*2 = map loc es.
Proof. induction es; [done | ]. rewrite dict_of_cons, fmap_cons. cbn. by f_equal. Qed.

(** The item with a number, in the three representations. *)
Lemma item_cases es k : NoDup (map num es) -> Forall (fun e => 0 <= num e <= INT_MAX) es -> 0 <= k <= INT_MAX ->
  (exists a e b, es = a ++ e :: b /\ num e = k /\ dfind (dict_of es) (int_key k) = Some (loc e) /\
     map_of es !! k = Some (val e) /\ dremove (dict_of es) (int_key k) = dict_of (a ++ b) /\
     delete k (map_of es) = map_of (a ++ b)) \/
  (int_key k ∉ (dict_of es).*1 /\ dfind (dict_of es) (int_key k) = None /\ map_of es !! k = None).
Proof.
  intros Hnd He Hk. induction es as [ | e es IH]; [right; split; [by intros ?%elem_of_nil | done] | ].
  cbn in Hnd. apply NoDup_cons in Hnd as [Hn Hnd]. apply Forall_cons in He as [Hen He].
  rewrite !dict_of_cons, !map_of_cons. cbn [dfind]. destruct (decide (num e = k)) as [E | Hne].
  - left. exists [], e, es. split; [done | ]. split; [done | ].
    rewrite E, decide_True, lookup_insert_eq by done. split; [done | ]. split; [done | ]. split.
    + unfold dremove. rewrite filter_cons_False by (cbn; naive_solver). apply dremove_none.
      intros Hin. apply Hn. rewrite E. by apply keys_of.
    + rewrite delete_insert_id; [done | ]. apply not_elem_of_list_to_map_1. by rewrite nums_of, <- E.
  - assert (int_key (num e) <> int_key k) as Hke by (by intros ?%int_key_inj).
    rewrite decide_False, lookup_insert_ne by done.
    destruct (IH Hnd He) as [(a & e' & b & -> & En & E1 & E2 & E3 & E4) | (E1 & E2 & E3)].
    + left. exists (e :: a), e', b. cbn [app]. rewrite dict_of_cons, map_of_cons.
      do 4 (split; [done | ]). split.
      * unfold dremove in *. rewrite filter_cons_True by done. by rewrite E3.
      * rewrite delete_insert_ne by done. by rewrite E4.
    + right. split; [ | done]. cbn. by intros [? | ?]%elem_of_cons.
Qed.

Lemma map_of_size es : NoDup (map num es) -> size (map_of es) = length es.
Proof.
  intros Hnd. induction es as [ | e es IH]; [done | ]. cbn in Hnd. apply NoDup_cons in Hnd as [Hn Hnd].
  rewrite map_of_cons, map_size_insert_None, IH; [done | done | ].
  apply not_elem_of_list_to_map_1. by rewrite nums_of.
Qed.
Lemma map_of_snoc es e : num e ∉ map num es -> map_of (es ++ [e]) = <[num e := val e]> (map_of es).
Proof.
  intros Hn. unfold map_of. rewrite map_app, list_to_map_app. cbn. rewrite insert_empty.
  rewrite <- insert_union_singleton_r; [done | ]. apply not_elem_of_list_to_map_1. by rewrite nums_of.
Qed.

Section Laws.
Context (malloc : nat -> Z -> bool)
  (Hgrant : forall j, malloc j 64 = true /\ malloc j 512 = true).

Lemma ut_find t es k : rep (uts t) (dict_of es) -> HASH_FIND_INT (uts t) k = Ok (dfind (dict_of es) (int_key k)).
Proof.
  intros Hr. unfold HASH_FIND_INT. rewrite <- (int_key_len k). apply rep_find; [done | ]. by rewrite int_key_len.
Qed.

Lemma items_nums t es : items_ok t es -> Forall (fun e => 0 <= num e <= INT_MAX) es.
Proof. intros H. eapply Forall_impl; [exact H | ]. by intros e [? _]. Qed.

Lemma ut_holds_find t m k : ut_holds t m -> 0 <= k <= INT_MAX ->
  match m !! k with
  | Some b => exists p, HASH_FIND_INT (uts t) k = Ok (Some p) /\ bev_of t p = Ok b
  | None => HASH_FIND_INT (uts t) k = Ok None
  end.
Proof.
  intros (es & -> & Hnd & Hr & _ & Hes) Hk.
  rewrite (ut_find t es) by done.
  destruct (item_cases es k Hnd (items_nums t es Hes) Hk) as [(a & e & b & E & En & -> & -> & _) | (_ & -> & ->)]; [ | done].
  exists (loc e). split; [done | ]. unfold bev_of. subst es. apply Forall_app in Hes as [_ [(_ & _ & ->) _]%Forall_cons]. done.
Qed.

Lemma ut_holds_add t m k b : ut_holds t m -> m !! k = None -> 0 <= k <= INT_MAX -> (size m <= 8)%nat ->
  exists t', add_entry malloc k b t = Ok t' /\ ut_holds t' (<[k := b]> m).
Proof.
  intros (es & -> & Hnd & Hr & Hy & Hes) Hm Hk Hsz. rewrite map_of_size in Hsz by done.
  destruct (item_cases es k Hnd (items_nums t es Hes) Hk) as [(a & e & c & _ & _ & _ & E & _) | (Hkey & _ & _)]; [congruence | ].
  set (x := brk t). assert (x ∉ map loc es) as Hx.
  { intros (e & E & He)%list_elem_of_fmap. unfold items_ok in Hes. rewrite Forall_forall in Hes. specialize (Hes e He). lia. }
  unfold add_entry, new_entry, HASH_ADD_INT. cbn [uts entries brk]. fold x. rewrite <- (int_key_len k).
  set (s0 := set_hs _ _). assert (rep s0 (dict_of es)) as Hr0.
  { apply rep_heap; [done | ]. intros l Hl. rewrite locs_of in Hl. rewrite lookup_insert_ne; [done | ]. by intros ->. }
  assert (add_requests s0 (int_key k) = [] \/ add_requests s0 (int_key k) = [64; 512]) as Hreq.
  { apply (small_requests s0 (dict_of es).*2); [apply Hr0 | done | ]. unfold dict_of. rewrite length_fmap, length_map. lia. }
  destruct (rep_add malloc s0 (dict_of es) (int_key k) x) as [[(i & sz & Hi & Hf) _] | [[[Ho _] _] | (s' & -> & Hr' & _ & Hy')]]; try done.
  - by rewrite locs_of.
  - cbn. rewrite lookup_insert_eq. eauto.
  - unfold dict_of. rewrite length_map. lia.
  - exfalso. destruct Hreq as [E | E]; rewrite E in Hi; [done | ].
    destruct i as [ | [ | i]]; try done; injection Hi as <-;
      destruct (Hgrant (ut_calls s0 + 0)%nat), (Hgrant (ut_calls s0 + 1)%nat); congruence.
  - exfalso. destruct Hreq as [E | E]; by rewrite E in Ho.
  - rewrite obind_ok. eexists. split; [done | ]. exists (es ++ [(k, x, b)]).
    assert (k ∉ map num es) as Hkn.
    { intros Hin. apply Hkey. apply list_elem_of_fmap in Hin as (e & -> & He). apply list_elem_of_fmap.
      exists (int_key (num e), loc e). split; [done | ]. apply list_elem_of_fmap. by exists e. }
    split; [symmetry; by apply map_of_snoc | ]. split; [rewrite map_app; by apply NoDup_snoc | ].
    split; [unfold dict_of in *; by rewrite map_app | ]. split; [apply Hy'; split; [done | unfold dict_of; rewrite length_map; lia] | ].
    cbn. apply Forall_app. split; [ | apply Forall_singleton; cbn; rewrite lookup_insert_eq; fold x; split; [done | split; [lia | done]]].
    unfold items_ok in Hes. rewrite Forall_forall in Hes |- *. intros e He. specialize (Hes e He) as (? & ? & ?).
    cbn. rewrite lookup_insert_ne by lia. split; [done | ]. split; [lia | done].
Qed.

(** Deletion of the element of an item, and its release. *)
Lemma ut_del t a e b : ut_items t (a ++ e :: b) -> exists t', del_entry t (loc e) = Ok t' /\ ut_items t' (a ++ b).
Proof.
  intros (Hnd & Hr & Hy & Hes). unfold del_entry, HASH_DEL. unfold dict_of in Hr. rewrite map_app in Hr. cbn [map] in Hr.
  assert (loc e ∉ map loc (a ++ b)) as Hl.
  { destruct Hr as ((Hls & _) & _). rewrite fmap_app in Hls. cbn in Hls. rewrite <- Permutation_middle in Hls.
    apply NoDup_cons in Hls as [Hn _]. rewrite <- fmap_app, <- map_app in Hn. by rewrite <- locs_of. }
  destruct (rep_delete _ _ _ _ _ Hr) as (s' & -> & Hr' & _ & Hy'). rewrite obind_ok. eexists. split; [done | ].
  rewrite <- map_app in Hr'. change (map _ (a ++ b)) with (dict_of (a ++ b)) in Hr'.
  split; [ | split; [ | split]].
  - rewrite map_app in Hnd |- *. cbn in Hnd. rewrite <- Permutation_middle in Hnd. by apply NoDup_cons in Hnd as [_ ?].
  - apply rep_heap; [done | ]. intros l Hin. rewrite locs_of in Hin. rewrite lookup_delete_ne; [done | ]. by intros <-.
  - by apply Hy'.
  - unfold items_ok in *. rewrite Forall_forall in Hes |- *. intros i Hi. destruct (Hes i) as (? & ? & ?).
    { apply elem_of_app in Hi as [? | ?]; apply elem_of_app; [by left | right; by right]. }
    cbn. split; [done | ]. split; [done | ]. rewrite lookup_delete_ne; [done | ]. intros E. apply Hl. rewrite E.
    apply list_elem_of_fmap. by exists i.
Qed.

Lemma ut_holds_del t m k p : ut_holds t m -> 0 <= k <= INT_MAX -> HASH_FIND_INT (uts t) k = Ok (Some p) ->
  exists t', del_entry t p = Ok t' /\ ut_holds t' (delete k m).
Proof.
  intros (es & -> & Hi) Hk. pose proof Hi as (Hnd & Hr & _ & Hes). rewrite (ut_find t es) by done.
  destruct (item_cases es k Hnd (items_nums t es Hes) Hk) as [(a & e & b & E & En & -> & _ & _ & ->) | (_ & -> & _)]; [ | done].
  intros [= <-]. subst es. destruct (ut_del t a e b Hi) as (t' & -> & Hi'). exists t'. split; [done | ]. by exists (a ++ b).
Qed.

Lemma ut_holds_iter t m : ut_holds t m -> exists t', iter_entries del_entry t = Ok t' /\ ut_holds t' ∅.
Proof.
  intros (es & -> & Hi). unfold iter_entries. pose proof Hi as (_ & Hr & _).
  destruct (rep_links _ _ Hr) as [_ ->]. rewrite locs_of.
  destruct (iter_ok (fun t => ut_hs (uts t)) del_entry (fun ls t => exists es, map loc es = ls /\ ut_items t es))
    with (ls := map loc es) (s := t) as (t' & E & es' & Hes' & Hi').
  - intros t0 l rest (es0 & E & Hi0). destruct es0 as [ | e0 es0]; [done | ]. injection E as <- <-.
    destruct (ut_del t0 [] e0 es0 Hi0) as (t1 & -> & Hi1). eexists. split; [done | ]. by exists es0.
  - intros t0 rest (es0 & <- & (_ & Hr0 & _)). destruct (rep_links _ _ Hr0) as [Hd _]. rewrite locs_of in Hd. eauto.
  - by exists es.
  - destruct Hr as ((Hn & _) & _). by rewrite locs_of in Hn.
  - exists t'. split; [done | ]. destruct es' as [ | ? ?]; [ | done]. by exists [].
Qed.

(** The macros of uthash keep the promises of the interface. *)
Definition ut_table_laws : @IntTableLaws requests (ut_table malloc).
Proof.
  refine (@Build_IntTableLaws requests (ut_table malloc) ut_holds _ _ _ _ _); cbn.
  - exists []. split; [done | ]. split; [constructor | ]. split; [apply empty_rep | ]. split; [done | constructor].
  - apply ut_holds_find.
  - apply ut_holds_add.
  - apply ut_holds_del.
  - apply ut_holds_iter.
Defined.
End Laws.
End UtTable.
