(* ===== verification/Echo.v ===== *)
(** * The echo servers on libevent: [client_server/tcp/src/server.c] and the proxy
    [client_server/uthash/src/server.c]

    Both are callbacks run by libevent's loop.  libevent is not part of the
    repository: its buffers are an interface ([BufferEvents] with the documented
    laws), the callbacks it runs are a list of events.  The proxy uses its request
    table through the interface [IntTable], which the model of uthash satisfies. *)
From S2P Require Import Prelude CLib Bytes Sys Clients UtHashProof UtHashSpec IntTable.

Module Echo.
Import Clients.

(** ** Interfaces *)

(** The two buffers of each connection.  [output] is everything that was added to
    the output buffer, whether or not it has been sent.  [arrive] is the network. *)
Class BufferEvents (W : Type) := {
  input : W -> Z -> bytes;
  output : W -> Z -> bytes;
  arrive : Z -> bytes -> W -> W;
  evbuffer_add_buffer : Z -> W -> W;  (* from the input to the output of one connection *)
  evbuffer_remove : Z -> nat -> W -> bytes * W;  (* at most n bytes of the input *)
  evbuffer_add : Z -> bytes -> W -> Z * W;  (* to the output; a negative value is a failure *)
  bufferevent_free : Z -> W -> W
}.
Class BufferEventLaws (W : Type) `{BufferEvents W} := {
  input_arrive w b d b' : input (arrive b d w) b' = if decide (b = b') then input w b' ++ d else input w b';
  output_arrive w b d b' : output (arrive b d w) b' = output w b';
  input_move w b b' : input (evbuffer_add_buffer b w) b' = if decide (b = b') then [] else input w b';
  output_move w b b' :
    output (evbuffer_add_buffer b w) b' = if decide (b = b') then output w b' ++ input w b' else output w b';
  remove_bytes w b n : fst (evbuffer_remove b n w) = take n (input w b);
  input_remove w b n b' :
    input (snd (evbuffer_remove b n w)) b' = if decide (b = b') then drop n (input w b') else input w b';
  output_remove w b n b' : output (snd (evbuffer_remove b n w)) b' = output w b';
  input_add w b d b' : input (snd (evbuffer_add b d w)) b' = input w b';
  output_add w b d b' :
    0 <= fst (evbuffer_add b d w) ->
    output (snd (evbuffer_add b d w)) b' = if decide (b = b') then output w b' ++ d else output w b';
  output_free w b b' : b <> b' -> output (bufferevent_free b w) b' = output w b';
  input_free w b b' : b <> b' -> input (bufferevent_free b w) b' = input w b'
}.

(** ** The events of a server *)
Inductive sev :=
  | EvAccept (fd bev : Z)  (* a connection, and what [bufferevent_socket_new] returns for it *)
  | EvRead (b : Z) (data : bytes) (mem : bool)  (* data arrives; whether [malloc] succeeds *)
  | EvBev (b events : Z)
  | EvStats
  | EvTerm (sig : Z)
  | EvInt (sig : Z)
  | EvListener (err : Z) (msg : bytes).

Section Servers.
Context {W : Type} `{BufferEvents W}.

(** The part of a server that its callbacks share: [A] is the structure passed to
    them as [ctx], [log] what they print and call. *)
Record srv (A : Type) := mk_srv { ctx : A; world : W; log : list event; exiting : bool }.
Arguments mk_srv {A} _ _ _ _.
Arguments ctx {A} _.
Arguments world {A} _.
Arguments log {A} _.
Arguments exiting {A} _.

Definition says {A} (es : list event) (s : srv A) : srv A :=
  mk_srv (ctx s) (world s) (log s ++ es) (exiting s).
(** [event_base_loopexit(base, NULL)] *)
Definition loopexit {A} (s : srv A) : srv A :=
  mk_srv (ctx s) (world s) (log s ++ [Call "event_base_loopexit" [] []]) true.

Definition handle_SIGTERM {A} (sig : Z) (s : srv A) : srv A :=
  loopexit (says [Out (lit "Caught SIGTERM " ++ dec sig)] s).
Definition handle_SIGINT {A} (sig : Z) (s : srv A) : srv A :=
  loopexit (says [Out (lit "Caught SIGINT " ++ dec sig)] s).

Definition echo_event_cb {A} (bev events : Z) (s : srv A) : srv A :=
  let s := if flag events BEV_EVENT_ERROR then says [Err (lit "Error from bufferevent")] s else s in
  if flag events (Z.lor BEV_EVENT_EOF BEV_EVENT_ERROR) then
    mk_srv (ctx s) (bufferevent_free bev (world s)) (log s) (exiting s)
  else s.

Definition accept_error_cb {A} (err : Z) (msg : bytes) (s : srv A) : srv A :=
  loopexit (says [Err (lit "Got an error " ++ dec err ++ lit " (" ++ msg ++ lit ") on the listener. Shutting down.")] s).

(** A null [bev] is dereferenced by [bufferevent_setcb]. *)
Definition accept_conn_cb {A} (prio : list event) (fd bev : Z) (s : srv A) : outcome (srv A) :=
  let s := says [Call "bufferevent_socket_new" [fd] []] s in
  if bev =? 0 then Ub
  else Ok (says ([Call "bufferevent_setcb" [bev] []; Call "bufferevent_enable" [bev] []] ++ prio) s).

(** The callbacks in which the servers differ: the read callback, the timer, and
    whether an accepted connection gets a priority. *)
Record callbacks (A : Type) := mk_callbacks {
  on_read_cb : Z -> bool -> srv A -> outcome (srv A);
  on_stats_cb : srv A -> outcome (srv A);
  accept_prio : Z -> list event
}.
Arguments on_read_cb {A} _.
Arguments on_stats_cb {A} _.
Arguments accept_prio {A} _.

Definition handle {A} (c : callbacks A) (e : sev) (s : srv A) : outcome (srv A) :=
  match e with
  | EvAccept fd bev => accept_conn_cb (accept_prio c bev) fd bev s
  | EvRead b data mem => on_read_cb c b mem (mk_srv (ctx s) (arrive b data (world s)) (log s) (exiting s))
  | EvBev b events => Ok (echo_event_cb b events s)
  | EvStats => on_stats_cb c s
  | EvTerm sig => Ok (handle_SIGTERM sig s)
  | EvInt sig => Ok (handle_SIGINT sig s)
  | EvListener err msg => Ok (accept_error_cb err msg s)
  end.
(** The callbacks libevent runs, in order.  [event_base_loopexit] with a null time lets the
    callbacks that are active at that moment run before the loop ends: they are the
    events behind the one that called it. *)
Fixpoint serve {A} (c : callbacks A) (evs : list sev) (s : srv A) : outcome (srv A) :=
  match evs with
  | [] => Ok s
  | e :: evs => let! s := handle c e s in serve c evs s
  end.

(** ** [tcp/src/server.c] *)
Record stat := mk_stat { pps : Z; ts : Z }.

Definition on_stats (s : srv stat) : outcome (srv stat) :=
  let s := says [Out (dec (ts (ctx s)) ++ lit " " ++ dec (pps (ctx s)))] s in
  let! t := cint (ts (ctx s) + 1) in
  Ok (mk_srv (mk_stat 0 t) (world s) (log s) (exiting s)).

Definition echo_read_cb (bev : Z) (mem : bool) (s : srv stat) : outcome (srv stat) :=
  let w := evbuffer_add_buffer bev (world s) in
  let! p := cint (pps (ctx s) + 1) in
  Ok (mk_srv (mk_stat p (ts (ctx s))) w (log s) (exiting s)).

Definition tcp_callbacks : callbacks stat :=
  mk_callbacks _ echo_read_cb on_stats (fun bev => [Call "bufferevent_priority_set" [bev; 2] []]).

(** ** [uthash/src/server.c] *)
Section Proxy.
Context {T : Type} `{IntTable T}.
Record proxy_server := mk_proxy {
  proxy_id : Z;
  current_request_id : Z;
  at_second : Z;
  message_per_second : Z;
  request_table : T
}.

Definition proxy_on_stats (s : srv proxy_server) : outcome (srv proxy_server) :=
  let p := ctx s in
  let s := says [Out (dec (at_second p) ++ lit " " ++ dec (message_per_second p))] s in
  let! t := cint (at_second p + 1) in
  Ok (mk_srv (mk_proxy (proxy_id p) (current_request_id p) t 0 (request_table p)) (world s) (log s) (exiting s)).

Definition respond_cb (parm_req_id : Z) (s : srv proxy_server) : outcome (srv proxy_server) :=
  let p := ctx s in
  let! e := hash_find_int parm_req_id (request_table p) in
  match e with
  | Some e =>
      let! bev := entry_bev (request_table p) e in
      let w := evbuffer_add_buffer bev (world s) in
      let! t := hash_del_free (request_table p) e in
      Ok (mk_srv (mk_proxy (proxy_id p) (current_request_id p) (at_second p) (message_per_second p) t)
            w (log s) (exiting s))
  | None => Ok s
  end.

(** [mem]: whether [malloc] of the entry succeeds; the entry is not checked for null. *)
Definition proxy_read_cb (bev : Z) (mem : bool) (s : srv proxy_server) : outcome (srv proxy_server) :=
  if mem then
    let p := ctx s in
    let! t := hash_add_int (current_request_id p) bev (request_table p) in
    let s := mk_srv (mk_proxy (proxy_id p) (current_request_id p) (at_second p) (message_per_second p) t)
                    (world s) (log s) (exiting s) in
    let! s := respond_cb (current_request_id p) s in
    let p := ctx s in
    let! m := cint (message_per_second p + 1) in
    let! c := cint (current_request_id p + 1) in
    Ok (mk_srv (mk_proxy (proxy_id p) c (at_second p) m (request_table p)) (world s) (log s) (exiting s))
  else Ub.

Definition proxy_callbacks : callbacks proxy_server :=
  mk_callbacks _ proxy_read_cb proxy_on_stats (fun _ => []).

Definition proxy_free (p : proxy_server) : outcome T := hash_iter hash_del_free (request_table p).
End Proxy.

(** ** [main] *)

(** [struct sockaddr_in sin]: any address, the given port. *)
Definition sin_any (port : Z) : bytes :=
  le_bytes 2 2 ++ le_bytes 2 (htons port) ++ le_bytes 4 (htonl 0) ++ replicate 8 0.

(** The loop: it ends when it has been told to exit; its log is the program's. *)
Definition dispatch_server {A} (c : callbacks A) (evs : list sev) (s : srv A) : io (srv A) :=
  fun ans =>
    match serve c evs s with
    | Ok s' => (log s', if exiting s' then Ok (s', ans) else NoFuel)
    | Exit n => ([], Exit n)
    | Ub => ([], Ub)
    | NoFuel => ([], NoFuel)
    end.

(** The programs differ in [A] and in what they do after the port is checked and
    at the end. *)
Definition server_main {A} (c : callbacks A) (a : A) (setup : io unit) (finish : A -> io unit)
    (argv : list bytes) (evs : list sev) (w : W) : io Z :=
  let? port := match argv with _ :: p :: _ => lift (atoi p) | _ => iret 9876 end in
  if (port <=? 0) || (port >? 65535) then let? _ := tell (Out (lit "Invalid port")) in iret 1
  else
    let? _ := setup in
    let? base := ask "event_base_new" [] [] in
    if ret base =? 0 then let? _ := tell (Out (lit "Couldn't open event base")) in iret 1
    else
      let? l := ask "evconnlistener_new_bind" [ret base; -1] (sin_any port) in
      if ret l =? 0 then let? _ := tell (Err (lit "Couldn't create listener")) in iret 1
      else
        let? _ := tell (Call "evconnlistener_set_error_cb" [ret l] []) in
        let? _ := tell (Call "event_base_priority_init" [ret base; 4] []) in
        let? stats_ev := ask "event_new" [ret base; -1] (lit "on_stats") in
        let? _ := tell (Call "event_add" [ret stats_ev; 1; 0] []) in
        let? _ := tell (Call "event_priority_set" [ret stats_ev; 0] []) in
        let? sigterm_ev := ask "evsignal_new" [ret base; SIGTERM] (lit "handle_SIGTERM") in
        let? _ := tell (Call "evsignal_add" [ret sigterm_ev] []) in
        let? _ := tell (Call "event_priority_set" [ret sigterm_ev; 1] []) in
        let? sigint_ev := ask "evsignal_new" [ret base; SIGINT] (lit "handle_SIGINT") in
        let? _ := tell (Call "evsignal_add" [ret sigint_ev] []) in
        let? _ := tell (Call "event_priority_set" [ret sigint_ev; 1] []) in
        let? s := dispatch_server c evs (mk_srv a w [] false) in
        let? _ := tell (Call "event_free" [ret stats_ev] []) in
        let? _ := tell (Call "event_free" [ret sigterm_ev] []) in
        let? _ := tell (Call "event_free" [ret sigint_ev] []) in
        let? _ := tell (Call "evconnlistener_free" [ret l] []) in
        let? _ := tell (Call "event_base_free" [ret base] []) in
        let? _ := finish (ctx s) in
        iret 0.
Definition tcp_server_main : list bytes -> list sev -> W -> io Z :=
  server_main tcp_callbacks (mk_stat 0 0) (iret tt) (fun _ => iret tt).

Section ProxyMain.
Context {T : Type} `{IntTable T}.
(** [malloc(sizeof(struct proxy_server))] is not checked. *)
Definition proxy_main : list bytes -> list sev -> W -> io Z :=
  server_main proxy_callbacks (mk_proxy 0 0 0 0 no_table)
    (let? r := ask "malloc" [40] [] in if ret r =? 0 then lift Ub else iret tt)
    (fun p => let? _ := lift (proxy_free p) in tell (Call "free" [] (lit "proxy"))).
End ProxyMain.

(** ** Specification *)

(** The data received on a connection, the reads since the last tick (after [n]
    before it), the ticks, and the lines on stdout. *)
Definition received (b : Z) (evs : list sev) : bytes :=
  concat (map (fun e => match e with EvRead b' d _ => if decide (b' = b) then d else [] | _ => [] end) evs).
Definition this_second (n : Z) (evs : list sev) : Z :=
  foldl (fun n e => match e with EvStats => 0 | EvRead _ _ _ => n + 1 | _ => n end) n evs.
Definition seconds (evs : list sev) : Z :=
  len (List.filter (fun e => match e with EvStats => true | _ => false end) evs).
Fixpoint lines (n t : Z) (evs : list sev) : list bytes :=
  match evs with
  | [] => []
  | EvStats :: evs => (dec t ++ lit " " ++ dec n) :: lines 0 (t + 1) evs
  | EvRead _ _ _ :: evs => lines (n + 1) t evs
  | EvTerm sig :: evs => (lit "Caught SIGTERM " ++ dec sig) :: lines n t evs
  | EvInt sig :: evs => (lit "Caught SIGINT " ++ dec sig) :: lines n t evs
  | _ :: evs => lines n t evs
  end.
Definition stdout_of (es : list event) : list bytes := omap (fun e => match e with Out l => Some l | _ => None end) es.

(** The connection is not closed by an error or the end of its stream. *)
Definition closes (b : Z) (e : sev) : bool :=
  match e with
  | EvBev b' events => bool_decide (b' = b) && flag events (Z.lor BEV_EVENT_EOF BEV_EVENT_ERROR)
  | _ => false
  end.
Definition stays_open (b : Z) (evs : list sev) : bool := negb (existsb (closes b) evs).
Definition is_exit (e : sev) : bool := match e with EvTerm _ | EvInt _ | EvListener _ _ => true | _ => false end.
Definition reads (evs : list sev) : Z :=
  len (List.filter (fun e => match e with EvRead _ _ _ => true | _ => false end) evs).
(** The TCP server also sets a priority for each connection. *)
Definition no_prio : list event -> list event :=
  List.filter (fun e => match e with Call f _ _ => negb (String.eqb f "bufferevent_priority_set") | _ => true end).
(** libevent and [malloc] have memory. *)
Definition has_memory (e : sev) : Prop :=
  match e with EvAccept _ bev => bev <> 0 | EvRead _ _ mem => mem = true | _ => True end.
End Servers.
Arguments mk_srv {W A} _ _ _ _.
Arguments ctx {W A} _.
Arguments world {W A} _.
Arguments log {W A} _.
Arguments exiting {W A} _.

(** ** Lemmas *)
Section Facts.
Context {W : Type} `{BufferEventLaws W}.

Lemma stdout_app es1 es2 : stdout_of (es1 ++ es2) = stdout_of es1 ++ stdout_of es2.
Proof. apply omap_app. Qed.
Lemma received_cons b e evs : received b (e :: evs) = received b [e] ++ received b evs.
Proof. unfold received. cbn. by rewrite app_nil_r. Qed.
Lemma stays_open_cons b e evs : stays_open b (e :: evs) = negb (closes b e) && stays_open b evs.
Proof. unfold stays_open. cbn. by rewrite negb_orb. Qed.
Lemma seconds_cons e evs : seconds (e :: evs) = (match e with EvStats => 1 | _ => 0 end) + seconds evs.
Proof. unfold seconds. cbn. destruct e; cbn [length]; lia. Qed.
Lemma seconds_nonneg evs : 0 <= seconds evs.
Proof. unfold seconds. lia. Qed.

(** The effect of an event on the state of the TCP server. *)
Record step_ok (e : sev) (s s' : srv (W := W) stat) : Prop := {
  step_ctx : ctx s' = mk_stat (this_second (pps (ctx s)) [e]) (ts (ctx s) + seconds [e]);
  step_out : stdout_of (log s') = stdout_of (log s) ++ lines (pps (ctx s)) (ts (ctx s)) [e];
  step_exit : exiting s' = exiting s || is_exit e;
  step_echo b : closes b e = false -> input (world s) b = [] ->
    input (world s') b = [] /\ output (world s') b = output (world s) b ++ received b [e]
}.

Ltac step_simpl :=
  cbn; rewrite ?Z.add_0_r, ?orb_false_r, ?orb_true_r, ?app_nil_r, <- ?app_assoc, ?stdout_app, ?app_nil_r; try done.
Ltac step_done := eexists; split; [done | ]; split; step_simpl; intros; rewrite ?app_nil_r; done.

Lemma handle_tcp e s :
  has_memory e -> 0 <= pps (ctx s) < INT_MAX -> 0 <= ts (ctx s) < INT_MAX ->
  exists s', handle tcp_callbacks e s = Ok s' /\ step_ok e s s'.
Proof.
  intros Hm Hp Ht. destruct s as [[p t] w lg ex]. cbn [ctx pps ts] in *.
  destruct e as [fd bev | b d mem | b events | | sig | sig | err msg]; cbn [handle]; try step_done.
  - unfold accept_conn_cb. rewrite (proj2 (Z.eqb_neq _ _) Hm). step_done.
  - unfold tcp_callbacks, on_read_cb, echo_read_cb. cbn [ctx pps ts world]. rewrite cint_ok, obind_ok by int_bounds.
    eexists. split; [done | ]. split; step_simpl.
    intros b' _ Hi. rewrite input_move, output_move, output_arrive, !input_arrive, !app_nil_r.
    destruct (decide (b = b')); [by rewrite Hi | by rewrite Hi, app_nil_r].
  - unfold echo_event_cb. eexists. split; [done | ].
    split; destruct (flag events BEV_EVENT_ERROR), (flag events (Z.lor _ _)) eqn:Ef; step_simpl;
      intros b' Hc Hi; cbn in Hc; rewrite ?Ef, ?andb_true_r, ?app_nil_r in *; try done;
      apply bool_decide_eq_false in Hc; rewrite input_free, output_free by done; done.
  - unfold tcp_callbacks, on_stats_cb, on_stats. cbn [ctx pps ts world says]. rewrite cint_ok, obind_ok by int_bounds.
    step_done.
Qed.

Lemma this_second_step n e : 0 <= n -> 0 <= this_second n [e] <= n + 1.
Proof. intros Hn. destruct e; cbn; lia. Qed.
Lemma this_second_cons n e evs : this_second n (e :: evs) = this_second (this_second n [e]) evs.
Proof. done. Qed.
Lemma lines_cons n t e evs :
  lines n t (e :: evs) = lines n t [e] ++ lines (this_second n [e]) (t + seconds [e]) evs.
Proof. destruct e; cbn; rewrite ?Z.add_0_r; done. Qed.

Lemma serve_tcp evs : forall s,
  Forall has_memory evs ->
  0 <= pps (ctx s) -> pps (ctx s) + len evs <= INT_MAX -> 0 <= ts (ctx s) -> ts (ctx s) + len evs <= INT_MAX ->
  exists s', serve tcp_callbacks evs s = Ok s' /\
    ctx s' = mk_stat (this_second (pps (ctx s)) evs) (ts (ctx s) + seconds evs) /\
    stdout_of (log s') = stdout_of (log s) ++ lines (pps (ctx s)) (ts (ctx s)) evs /\
    exiting s' = exiting s || existsb is_exit evs /\
    (forall b, stays_open b evs = true -> input (world s) b = [] ->
       input (world s') b = [] /\ output (world s') b = output (world s) b ++ received b evs).
Proof.
  induction evs as [ | e evs IH]; intros s Hm Hp Hp' Ht Ht'.
  - exists s. destruct s as [[p t] w lg ex]. cbn in *. rewrite Z.add_0_r, orb_false_r, app_nil_r.
    repeat split; auto. by rewrite app_nil_r.
  - apply Forall_cons in Hm as [Hme Hm]. cbn [length] in *.
    destruct (handle_tcp e s Hme ltac:(lia) ltac:(lia)) as (s1 & E1 & [Hc Ho Hx He]).
    pose proof (this_second_step (pps (ctx s)) e Hp) as Hb. pose proof (seconds_nonneg [e]).
    assert (seconds [e] <= 1) by (unfold seconds; destruct e; cbn [List.filter length]; lia).
    destruct (IH s1 Hm) as (s2 & E2 & Hc2 & Ho2 & Hx2 & He2); rewrite ?Hc; cbn [pps ts]; try lia.
    exists s2. cbn [serve]. rewrite E1, obind_ok. split; [done | ].
    rewrite Hc2, Ho2, Hx2, Ho, Hx, Hc. cbn [pps ts existsb]. rewrite this_second_cons, (lines_cons _ _ e evs), app_assoc, orb_assoc.
    split; [f_equal; rewrite (seconds_cons e evs), (seconds_cons e []); change (seconds []) with 0; lia | ]. split; [done | ]. split; [done | ].
    intros b Hb1 Hi. rewrite stays_open_cons in Hb1. apply andb_true_iff in Hb1 as [Hb1%negb_true_iff Hb2].
    destruct (He b Hb1 Hi) as [Hi1 Ho1]. destruct (He2 b Hb2 Hi1) as [Hi2 Ho2'].
    rewrite Hi2, Ho2', Ho1, (received_cons b e evs), app_assoc. done.
Qed.

(** ** The proxy and the echo server *)
Context {T : Type} `{IntTableLaws T}.

(** Nothing distinguishes the two from outside, and no request is pending. *)
Record sim (s : srv (W := W) stat) (q : srv (W := W) (proxy_server (T := T))) : Prop := {
  sim_stat : ctx s = mk_stat (message_per_second (ctx q)) (at_second (ctx q));
  sim_world : world s = world q;
  sim_log : no_prio (log s) = log q;
  sim_exit : exiting s = exiting q;
  sim_table : holds (request_table (ctx q)) ∅
}.

Lemma no_prio_app es1 es2 : no_prio (es1 ++ es2) = no_prio es1 ++ no_prio es2.
Proof. apply List.filter_app. Qed.
Lemma reads_cons e evs : reads (e :: evs) = (match e with EvRead _ _ _ => 1 | _ => 0 end) + reads evs.
Proof. unfold reads. destruct e; cbn [List.filter length]; lia. Qed.

(** What the proxy does for one request: the entry is added, found and deleted
    again. *)
Lemma respond_fresh (p : proxy_server (T := T)) bev w (lg : list event) ex :
  holds (request_table p) ∅ -> 0 <= current_request_id p <= INT_MAX ->
  exists t t', hash_add_int (current_request_id p) bev (request_table p) = Ok t /\
    respond_cb (current_request_id p)
      (mk_srv (mk_proxy (proxy_id p) (current_request_id p) (at_second p) (message_per_second p) t) w lg ex) =
    Ok (mk_srv (mk_proxy (proxy_id p) (current_request_id p) (at_second p) (message_per_second p) t')
          (evbuffer_add_buffer bev w) lg ex) /\
    holds t' ∅.
Proof.
  intros Hn Hid. destruct (holds_add _ _ (current_request_id p) bev Hn) as (t & E & Ht); [done | done | rewrite map_size_empty; lia | ].
  pose proof (holds_find _ _ _ Ht Hid) as Hf. rewrite lookup_insert_eq in Hf. destruct Hf as (e & Ef & Eb).
  destruct (holds_del _ _ _ _ Ht Hid Ef) as (t' & Ed & Ht'). rewrite delete_insert_id in Ht' by done.
  exists t, t'. split; [done | ]. split; [ | done]. unfold respond_cb. cbn [ctx request_table world log exiting].
  by rewrite Ef, obind_ok, Eb, obind_ok, Ed.
Qed.

Ltac one_read := cbn [ctx current_request_id says loopexit handle_SIGTERM handle_SIGINT accept_error_cb]; rewrite reads_cons; change (reads []) with 0; lia.

Lemma handle_sim e s s' q :
  sim s q -> has_memory e -> 0 <= current_request_id (ctx q) < INT_MAX ->
  handle tcp_callbacks e s = Ok s' ->
  exists q', handle proxy_callbacks e q = Ok q' /\ sim s' q' /\
    current_request_id (ctx q') = current_request_id (ctx q) + reads [e].
Proof.
  intros [Hs Hw Hl Hx Ht] Hm Hid E. destruct s as [st w lg ex], q as [p w' lg' ex']. cbn [ctx world log exiting] in *.
  subst st w' lg' ex'.
  destruct e as [fd bev | b d mem | b events | | sig | sig | err msg]; cbn [handle] in *.
  - unfold accept_conn_cb in *. rewrite (proj2 (Z.eqb_neq _ _) Hm) in *. injection E as <-.
    eexists. split; [done | ]. split; [split; cbn; rewrite ?no_prio_app, <- ?app_assoc; done | one_read].
  - cbn in Hm. subst mem. unfold tcp_callbacks, on_read_cb, echo_read_cb in E. cbn [ctx pps ts world log exiting] in E.
    unfold proxy_callbacks, on_read_cb, proxy_read_cb. cbn [ctx world log exiting].
    destruct (respond_fresh p b (arrive b d w) (no_prio lg) ex Ht ltac:(lia)) as (t1 & t2 & -> & E2 & Hn).
    rewrite obind_ok, E2, obind_ok. cbn [ctx world log exiting message_per_second current_request_id at_second proxy_id request_table].
    destruct (cint (message_per_second p + 1)) as [m | | | ] eqn:Ec; cbn in E; rewrite ?Ec in E; [ | done ..]. rewrite obind_ok in E. rewrite obind_ok.
    rewrite cint_ok, obind_ok by int_bounds. injection E as <-.
    eexists. split; [done | ]. split; [by split | done].
  - injection E as <-. unfold echo_event_cb. eexists. split; [done | ].
    split; [ | destruct (flag events BEV_EVENT_ERROR), (flag events (Z.lor _ _)); one_read].
    destruct (flag events BEV_EVENT_ERROR), (flag events (Z.lor _ _)); split; cbn; rewrite ?no_prio_app; done.
  - unfold tcp_callbacks, on_stats_cb, on_stats in E. cbn [ctx pps ts world says log exiting] in E.
    unfold proxy_callbacks, on_stats_cb, proxy_on_stats. cbn [ctx world says log exiting].
    destruct (cint (at_second p + 1)) as [m | | | ] eqn:Ec; cbn in E; rewrite ?Ec in E; [ | done ..]. rewrite obind_ok in E. rewrite obind_ok. injection E as <-.
    eexists. split; [done | ]. split; [split; cbn; rewrite ?no_prio_app; done | one_read].
  - injection E as <-. eexists. split; [done | ]. split; [split; cbn; rewrite ?no_prio_app; done | one_read].
  - injection E as <-. eexists. split; [done | ]. split; [split; cbn; rewrite ?no_prio_app; done | one_read].
  - injection E as <-. eexists. split; [done | ]. split; [split; cbn; rewrite ?no_prio_app; done | one_read].
Qed.

Lemma serve_sim evs : forall s s' q,
  sim s q -> Forall has_memory evs ->
  0 <= current_request_id (ctx q) -> current_request_id (ctx q) + len evs <= INT_MAX ->
  serve tcp_callbacks evs s = Ok s' ->
  exists q', serve proxy_callbacks evs q = Ok q' /\ sim s' q' /\
    current_request_id (ctx q') = current_request_id (ctx q) + reads evs.
Proof.
  induction evs as [ | e evs IH]; intros s s' q Hs Hm Hi1 Hi2 E; cbn [serve] in *.
  - injection E as <-. exists q. split; [done | ]. split; [done | ]. unfold reads. cbn. lia.
  - apply Forall_cons in Hm as [Hme Hm]. cbn [length] in *.
    destruct (handle tcp_callbacks e s) as [s1 | | | ] eqn:E1; [ | done ..]. rewrite obind_ok in E.
    destruct (handle_sim e s s1 q Hs Hme ltac:(lia) E1) as (q1 & Eq & Hs1 & Hid).
    assert (0 <= reads [e] <= 1) by (rewrite reads_cons; change (reads []) with 0; destruct e; lia).
    destruct (IH s1 s' q1 Hs1 Hm ltac:(lia) ltac:(lia) E) as (q' & Eq' & Hs' & Hid').
    exists q'. rewrite Eq, obind_ok. split; [done | ]. split; [done | ].
    rewrite Hid', Hid, (reads_cons e evs), (reads_cons e []). change (reads []) with 0. lia.
Qed.

End Facts.

(** ** An instance: buffers as a finite map *)
#[global] Instance gmap_buffers : BufferEvents (gmap Z (bytes * bytes)) := {
  input w b := fst (default ([], []) (w !! b));
  output w b := snd (default ([], []) (w !! b));
  arrive b d w := let '(i, o) := default ([], []) (w !! b) in <[b := (i ++ d, o)]> w;
  evbuffer_add_buffer b w := let '(i, o) := default ([], []) (w !! b) in <[b := ([], o ++ i)]> w;
  evbuffer_remove b n w := let '(i, o) := default ([], []) (w !! b) in (take n i, <[b := (drop n i, o)]> w);
  evbuffer_add b d w := let '(i, o) := default ([], []) (w !! b) in (0, <[b := (i, o ++ d)]> w);
  bufferevent_free b w := delete b w
}.
Ltac buffer_law w b b' :=
  cbn [input output arrive evbuffer_add_buffer evbuffer_remove evbuffer_add bufferevent_free gmap_buffers];
  destruct (w !! b) as [[? ?] | ] eqn:?; cbn [default fst snd from_option id];
  destruct (decide (b = b')); subst;
  rewrite ?lookup_insert_eq, ?lookup_insert_ne, ?lookup_delete_ne by done;
  repeat match goal with E : w !! _ = _ |- _ => rewrite E; clear E end; done.
#[global] Instance gmap_buffer_laws : BufferEventLaws (gmap Z (bytes * bytes)).
Proof.
  split.
  - intros w b d b'. buffer_law w b b'.
  - intros w b d b'. buffer_law w b b'.
  - intros w b b'. buffer_law w b b'.
  - intros w b b'. buffer_law w b b'.
  - intros w b n. buffer_law w b b.
  - intros w b n b'. buffer_law w b b'.
  - intros w b n b'. buffer_law w b b'.
  - intros w b d b'. buffer_law w b b'.
  - intros w b d b' _. buffer_law w b b'.
  - intros w b b' Hb. buffer_law w b b'.
  - intros w b b' Hb. buffer_law w b b'.
Qed.
(** ** Properties *)
Section Properties.
Context {W : Type} `{BufferEventLaws W} {T : Type} `{IntTableLaws T}.

(** C21. The TCP server is an echo with statistics: over any sequence of at most
    2^31 - 1 events it keeps running, every connection that is still open has
    been sent exactly what it received, in order, with nothing left unread, the
    lines on stdout are the reads of each second, and the loop is told to exit
    exactly when a signal or a listener error occurred. *)
Theorem echo_server_refines (evs : list sev) (w : W) :
  Forall has_memory evs -> len evs <= INT_MAX -> (forall b, input w b = []) ->
  exists s, serve tcp_callbacks evs (mk_srv (mk_stat 0 0) w [] false) = Ok s /\
    (forall b, stays_open b evs = true ->
       output (world s) b = output w b ++ received b evs /\ input (world s) b = []) /\
    ctx s = mk_stat (this_second 0 evs) (seconds evs) /\
    stdout_of (log s) = lines 0 0 evs /\
    exiting s = existsb is_exit evs.
Proof.
  intros Hm Hl Hi.
  destruct (serve_tcp evs (mk_srv (mk_stat 0 0) w [] false) Hm) as (s & E & Hc & Ho & Hx & He); cbn in *; try lia.
  exists s. split; [done | ]. split; [ | done].
  intros b Hb. destruct (He b Hb (Hi b)). done.
Qed.

(** C20. The proxy with its request table behaves as the TCP echo server: on any
    sequence of at most 2^31 - 1 events with memory available it runs, with the
    same buffers, counters, lines and calls (apart from the priorities the TCP
    server sets), its table is empty after every event, and request numbers
    count the reads. *)
Theorem proxy_refines_echo (evs : list sev) (w : W) :
  Forall has_memory evs -> len evs <= INT_MAX ->
  exists s (q : srv (proxy_server (T := T))),
    serve tcp_callbacks evs (mk_srv (mk_stat 0 0) w [] false) = Ok s /\
    serve proxy_callbacks evs (mk_srv (mk_proxy 0 0 0 0 no_table) w [] false) = Ok q /\
    sim s q /\ current_request_id (ctx q) = reads evs.
Proof.
  intros Hm Hl.
  destruct (serve_tcp evs (mk_srv (mk_stat 0 0) w [] false) Hm) as (s & E & _); cbn in *; try lia.
  assert (sim (mk_srv (mk_stat 0 0) w [] false) (mk_srv (mk_proxy 0 0 0 0 no_table) w [] false)) as Hs.
  { split; try done. apply holds_no_table. }
  destruct (serve_sim evs _ s _ Hs Hm) as (q & Eq & Hq & Hid); cbn in *; try lia; [done | ].
  exists s, q. done.
Qed.

(** The request number is never reset: at [INT_MAX] the next read overflows,
    in a state in which the TCP server, whose counter starts again every second,
    goes on. *)
Theorem proxy_request_overflow (q : srv (W := W) (proxy_server (T := T))) b d :
  current_request_id (ctx q) = INT_MAX -> message_per_second (ctx q) = 0 ->
  holds (request_table (ctx q)) ∅ ->
  handle proxy_callbacks (EvRead b d true) q = Ub /\
  exists s', handle tcp_callbacks (EvRead b d true)
    (mk_srv (mk_stat 0 (at_second (ctx q))) (world q) (log q) (exiting q)) = Ok s'.
Proof.
  intros Hid Hm Hn. split; [ | eexists; reflexivity].
  destruct q as [p w lg ex]. cbn [ctx] in *. cbn [handle on_read_cb proxy_callbacks]. unfold proxy_read_cb.
  cbn [ctx world log exiting].
  destruct (respond_fresh p b (arrive b d w) lg ex Hn) as (t1 & t2 & -> & E2 & _); [rewrite Hid; done | ].
  rewrite obind_ok, E2, obind_ok. cbn [ctx message_per_second current_request_id]. rewrite Hm, Hid. done.
Qed.

(** [proxy_free] goes through the whole table and leaves no entry in it. *)
Theorem proxy_free_empties (p : proxy_server (T := T)) m :
  holds (request_table p) m -> exists t, proxy_free p = Ok t /\ holds t ∅.
Proof. apply holds_iter_del. Qed.
End Properties.

(** ** Witnesses *)
Definition session : list sev :=
  [EvAccept 7 1; EvAccept 8 2; EvRead 1 [104; 105] true; EvRead 2 [120] true; EvStats;
   EvRead 1 [33] true; EvBev 2 BEV_EVENT_EOF; EvTerm 15].

Lemma session_memory : Forall has_memory session.
Proof. repeat constructor; discriminate. Defined.

Lemma echo_server_refines_witness :
  exists s, serve (W := gmap Z (bytes * bytes)) tcp_callbacks session (mk_srv (mk_stat 0 0) ∅ [] false) = Ok s /\
    output (world s) 1 = [104; 105; 33] /\ stdout_of (log s) = [lit "0 2"; lit "Caught SIGTERM 15"].
Proof.
  destruct (echo_server_refines (W := gmap Z (bytes * bytes)) session ∅ session_memory) as (s & E & Ho & _ & Hl & _);
    [vm_compute; discriminate | reflexivity | ].
  exists s. split; [exact E | ]. destruct (Ho 1 eq_refl) as [-> _]. rewrite Hl. split; reflexivity.
Defined.

(** The proxy on the macros of uthash, with memory up to 64 GB. *)
#[local] Instance proxy_table : IntTable UtTable.requests := UtTable.ut_table UtHashSpec.mem64.
#[local] Instance proxy_table_laws : IntTableLaws UtTable.requests :=
  UtTable.ut_table_laws UtHashSpec.mem64 (fun j => conj eq_refl eq_refl).

Lemma proxy_refines_echo_witness :
  exists q : srv (W := gmap Z (bytes * bytes)) (proxy_server (T := UtTable.requests)),
    serve proxy_callbacks session (mk_srv (mk_proxy 0 0 0 0 no_table) ∅ [] false) = Ok q /\
    current_request_id (ctx q) = 3 /\ hash_find_int 0 (request_table (ctx q)) = Ok None.
Proof.
  destruct (proxy_refines_echo (W := gmap Z (bytes * bytes)) (T := UtTable.requests) session ∅ session_memory)
    as (s & q & _ & E & Hs & Hid); [vm_compute; discriminate | ].
  exists q. split; [exact E | ]. rewrite Hid. split; [reflexivity | ].
  apply (holds_find _ _ 0 (sim_table _ _ Hs)). by split.
Defined.

Lemma proxy_request_overflow_witness :
  handle (W := gmap Z (bytes * bytes)) proxy_callbacks (EvRead 1 [65] true)
    (mk_srv (mk_proxy (T := UtTable.requests) 0 INT_MAX 0 0 no_table) ∅ [] false) = Ub.
Proof.
  apply (proxy_request_overflow (W := gmap Z (bytes * bytes)) (T := UtTable.requests)
    (mk_srv (mk_proxy 0 INT_MAX 0 0 no_table) ∅ [] false) 1 [65]); [reflexivity | reflexivity | apply holds_no_table].
Defined.

Lemma proxy_free_empties_witness :
  exists t, proxy_free (mk_proxy (T := UtTable.requests) 0 0 0 0 no_table) = Ok t /\ holds t ∅.
Proof.
  apply (proxy_free_empties (T := UtTable.requests) (mk_proxy 0 0 0 0 no_table) ∅). apply holds_no_table.
Defined.
End Echo.
