(* ===== verification/LatencyPair.v ===== *)
(** * The TCP latency client with the servers it measures:
    [client_server/tcp/src/client.c] against [client_server/tcp/src/server.c] and
    [client_server/uthash/src/server.c]

    The client's read callback and the server's callbacks run over one connection whose
    two directions carry bytes in pieces of any size, while the server serves other
    connections and its timer.  The client is proved against an interface of echo
    servers, which the TCP server and the proxy implement. *)
From S2P Require Import Prelude CLib Bytes Sys Clients UtHashSpec IntTable Echo.

Module LatencyPair.
Import Clients Echo.

(** ** What the client relies on *)
(** [room s n]: the server can handle [n] more events before a counter overflows;
    [quiet s b]: nothing that arrived on [b] is unread; [running s]: its loop has not been
    told to exit. *)
Class EchoServer (S : Type) := {
  react : sev -> S -> outcome S;
  out_of : S -> Z -> bytes;
  quiet : S -> Z -> Prop;
  running : S -> Prop;
  room : S -> nat -> Prop;
  room_weaken s n : room s (Datatypes.S n) -> room s n;
  react_ok e s n : has_memory e -> room s (Datatypes.S n) ->
    exists s', react e s = Ok s' /\ room s' n /\ (running s -> is_exit e = false -> running s') /\
    forall b, closes b e = false -> quiet s b -> quiet s' b /\ out_of s' b = out_of s b ++ received b [e];
}.

(** ** The connection *)
Section Pair.
Context {S : Type} `{EchoServer S} (b : Z).
(** [to_server]: written by the client and not yet read by the server; [carried]: how much
    of the server's output has reached the client; [unread]: the client's input
    buffer. *)
Record pair := MkPair { server : S; to_server : bytes; carried : nat; unread : bytes; trace : list event }.
Inductive action :=
| Segment (k : nat)  (* at most [k] bytes reach the server *)
| Background (e : sev)  (* the server handles another event *)
| Carry (k : nat)  (* at most [k] bytes reach the client *)
| ReadCb (e t : timespec).  (* the client's callback, with the clock at its two readings *)
(** What a callback wrote to the connection. *)
Definition written (es : list event) : bytes :=
  concat (map (fun e => match e with Call f _ d => if String.eqb f "bufferevent_write" then d else [] | _ => [] end) es).
Definition act (a : action) (y : pair) : outcome pair :=
  match a with
  | Segment k =>
      let! s := react (EvRead b (take k (to_server y)) true) (server y) in
      Ok (MkPair s (drop k (to_server y)) (carried y) (unread y) (trace y))
  | Background e =>
      let! s := react e (server y) in Ok (MkPair s (to_server y) (carried y) (unread y) (trace y))
  | Carry k =>
      let d := take k (drop (carried y) (out_of (server y) b)) in
      Ok (MkPair (server y) (to_server y) (carried y + length d) (unread y ++ d) (trace y))
  | ReadCb e t =>
      let d := take 16 (unread y) in
      let '(es, r) := readcb [mk_answer (len d) 0 d; stamp e; stamp t] in
      let! _ := r in
      Ok (MkPair (server y) (to_server y ++ written es) (carried y) (drop 16 (unread y)) (trace y ++ es))
  end.
Fixpoint perform (acts : list action) (y : pair) : outcome pair :=
  match acts with
  | [] => Ok y
  | a :: acts => let! y := act a y in perform acts y
  end.
(** After [send_request] with stamp [t0]; the server has sent nothing that is not
    carried. *)
Definition connected (s : S) (t0 : timespec) : pair := MkPair s (ts_bytes t0) (length (out_of s b)) [] [].

(** Other events leave the connection alone and do not end the server's loop; the clock
    reads times. *)
Definition allowed (a : action) : Prop :=
  match a with
  | Background e => has_memory e /\ closes b e = false /\ is_exit e = false /\ received b [e] = []
  | ReadCb e t => ts_clock e /\ ts_clock t
  | _ => True
  end.
Definition rounds (acts : list action) : list (timespec * timespec) :=
  omap (fun a => match a with ReadCb e t => Some (e, t) | _ => None end) acts.
Definition last_stamp (t0 : timespec) (acts : list action) : timespec := (List.last (rounds acts) (t0, t0)).2.

(** ** The invariant: exactly the bytes of one stamp are under way *)
Record under_way (sent : timespec) (y : pair) : Prop := {
  uw_bytes : unread y ++ drop (carried y) (out_of (server y) b) ++ to_server y = ts_bytes sent;
  uw_carried : (carried y <= length (out_of (server y) b))%nat;
  uw_quiet : quiet (server y) b;
  uw_running : running (server y) }.
Lemma connected_under_way s t0 : quiet s b -> running s -> under_way t0 (connected s t0).
Proof. intros Hq Hr. split; cbn; [by rewrite drop_all | done | done | done]. Qed.
Lemma react_under_way sent y e n rest : has_memory e -> closes b e = false -> is_exit e = false -> room (server y) (Datatypes.S n) ->
  under_way sent y -> to_server y = received b [e] ++ rest ->
  exists s, react e (server y) = Ok s /\ room s n /\ under_way sent (MkPair s rest (carried y) (unread y) (trace y)).
Proof.
  intros Hm Hc Hx Hr [Hb Hl Hq Hrun] Ht. destruct (react_ok e (server y) n Hm Hr) as (s & E & Hr' & Hrun' & Hall).
  destruct (Hall b Hc Hq) as [Hq' Ho]. exists s. split; [done | ]. split; [done | ]. split; cbn; [ | | done | by apply Hrun'].
  - rewrite Ho, drop_app_le by done. by rewrite <- app_assoc, <- Ht.
  - rewrite Ho, length_app. lia.
Qed.
Lemma ts_at_short d : (length d < 16)%nat -> ts_at d 0 = Ub.
Proof.
  intros Hd. unfold ts_at, get64, get_le, load, in_buf. destruct (_ && _); [rewrite !obind_ok | done].
  rewrite (proj2 (Z.leb_gt (0 + 8 + Z.of_nat 8) (len d))), andb_false_r by lia. done.
Qed.
(** The callback on a part of a stamp reads bytes nobody wrote. *)
Lemma readcb_short d e t : (length d < 16)%nat -> ts_clock e ->
  exists es, readcb [mk_answer (len d) 0 d; stamp e; stamp t] = (es, Ub).
Proof.
  intros Hd He%clock_norm. unfold readcb. erewrite ibind_ok by reflexivity. cbn [ret filled].
  rewrite (proj2 (Z.ltb_ge (len d) 0)) by lia. erewrite ibind_ok by apply (clock_stamp e _ He).
  eexists. unfold ibind at 1, lift at 1. rewrite ts_at_short by done. done.
Qed.
Lemma written_round sent e t : written (echo_trace sent [(e, t)]) = ts_bytes t.
Proof. unfold written, echo_trace. cbn [map concat app String.eqb Ascii.eqb Bool.eqb]. by rewrite app_nil_r. Qed.

(** One action: the invariant again, with the clock of the callback, or a callback that
    came before the whole stamp. *)
Lemma act_ok sent a y n : allowed a -> ts_clock sent -> room (server y) (Datatypes.S n) -> under_way sent y ->
  (exists y', act a y = Ok y' /\ room (server y') n /\
     match a with
     | ReadCb e t => under_way t y' /\ trace y' = trace y ++ echo_trace sent [(e, t)]
     | _ => under_way sent y' /\ trace y' = trace y
     end) \/
  (act a y = Ub /\ exists e t, a = ReadCb e t /\ (length (unread y) < 16)%nat).
Proof.
  intros Ha Hs Hr Hu. pose proof Hu as [Hb Hl Hq Hrun]. destruct a as [k | e | k | e t]; cbn [act allowed] in *.
  - left. destruct (react_under_way sent y (EvRead b (take k (to_server y)) true) n (drop k (to_server y)))
      as (s & -> & Hr' & Hu'); [done | done | done | done | done | | rewrite obind_ok; by eexists].
    unfold received. cbn. rewrite decide_True, app_nil_r by done. by rewrite take_drop.
  - left. destruct Ha as (Hm & Hc & Hx & Hn). destruct (react_under_way sent y e n (to_server y)) as (s & -> & Hr' & Hu');
      [done | done | done | done | done | by rewrite Hn | rewrite obind_ok; by eexists].
  - left. eexists. split; [done | ]. cbn [server trace]. split; [by apply room_weaken | ]. split; [ | done].
    split; cbn [unread carried server to_server]; [ | | done | done].
    + rewrite <- Hb, <- !app_assoc. f_equal. rewrite app_assoc. f_equal.
      set (r := drop (carried y) (out_of (server y) b)). rewrite <- drop_drop. fold r. rewrite length_take.
      destruct (decide (k <= length r)%nat); [rewrite Nat.min_l by lia; apply take_drop | ].
      rewrite Nat.min_r, drop_all, take_ge, app_nil_r by lia. done.
    + rewrite length_take, length_drop. lia.
  - destruct Ha as [He Ht]. destruct (decide (16 <= length (unread y))%nat) as [Hlen | Hlen].
    + left. pose proof (f_equal length Hb) as Hl16. rewrite !length_app, length_stamp in Hl16.
      assert (drop (carried y) (out_of (server y) b) = []) as Hd by (apply nil_length_inv; lia).
      assert (to_server y = []) as Ht0 by (apply nil_length_inv; lia).
      rewrite Hd, Ht0, !app_nil_r in Hb. rewrite take_ge by lia. rewrite Hb, length_stamp.
      change (Z.of_nat 16) with 16. rewrite (readcb_echo _ _ _ _ Hs He Ht), obind_ok.
      eexists. split; [done | ]. cbn [server trace]. split; [by apply room_weaken | ]. split; [ | done].
      split; cbn [unread carried server to_server]; [ | done | done | done].
      rewrite Hd, Ht0, written_round, drop_ge by (rewrite length_stamp; lia). done.
    + right. destruct (readcb_short (take 16 (unread y)) e t) as [es ->]; [rewrite length_take; lia | done | ].
      split; [done | ]. exists e, t. split; [done | lia].
Qed.
Lemma perform_app l1 l2 y : perform (l1 ++ l2) y = let! y := perform l1 y in perform l2 y.
Proof.
  revert y. induction l1 as [ | a l1 IH]; intros y; [done | ].
  cbn [app perform]. destruct (act a y); [rewrite !obind_ok; apply IH | done..].
Qed.
Lemma perform_ok m acts : forall sent y, Forall allowed acts -> ts_clock sent -> room (server y) (length acts + m) -> under_way sent y ->
  (exists y', perform acts y = Ok y' /\ trace y' = trace y ++ echo_trace sent (rounds acts) /\ under_way (last_stamp sent acts) y' /\
     room (server y') m) \/
  (perform acts y = Ub /\ exists acts1 e t acts2 y1, acts = acts1 ++ ReadCb e t :: acts2 /\ perform acts1 y = Ok y1 /\
     (length (unread y1) < 16)%nat).
Proof.
  induction acts as [ | a acts IH]; intros sent y Ha Hs Hr Hu; cbn [perform].
  { left. exists y. split; [done | ]. split; [by rewrite app_nil_r | ]. by split. }
  apply Forall_cons in Ha as [Ha Hall].
  destruct (act_ok sent a y (length acts + m) Ha Hs Hr Hu) as [(y1 & E1 & Hr1 & H1) | (E1 & e & t & -> & Hlen)].
  - assert (exists sent', ts_clock sent' /\ under_way sent' y1 /\
      trace y1 ++ echo_trace sent' (rounds acts) = trace y ++ echo_trace sent (rounds (a :: acts)) /\
      last_stamp sent' acts = last_stamp sent (a :: acts)) as (sent' & Hs' & Hu' & Htr & Hla).
    { destruct a as [k | e | k | e t]; destruct H1 as [Hu1 Ht1];
        try (exists sent; rewrite Ht1; done).
      exists t. destruct Ha as [_ Ht]. split; [done | ]. split; [done | ]. rewrite Ht1, <- app_assoc. split; [done | ].
      unfold last_stamp. cbn [rounds omap list_omap]. change (omap _ acts) with (rounds acts).
      destruct (rounds acts) as [ | r rs]; [done | ]. f_equal. cbn [List.last]. apply last_default. }
    destruct (IH sent' y1 Hall Hs' Hr1 Hu') as [(y' & E & Ht & Hu2 & Hrm) | (E & acts1 & e & t & acts2 & y2 & -> & E2 & Hlen)];
      rewrite E1, obind_ok, E; [left | right].
    + exists y'. rewrite Ht, Htr, <- Hla. done.
    + split; [done | ]. exists (a :: acts1), e, t, acts2, y2. cbn [perform]. rewrite E1, obind_ok. done.
  - right. rewrite E1. split; [done | ]. by exists [], e, t, acts, y.
Qed.
(** Once everything under way is delivered the callback gets its stamp. *)
Lemma round_completes sent y e t : ts_clock sent -> ts_clock e -> ts_clock t -> under_way sent y -> room (server y) 3 ->
  exists y', perform [Segment 16; Carry 16; ReadCb e t] y = Ok y'.
Proof.
  intros Hs He Ht Hu Hr. cbn [perform].
  destruct (act_ok sent (Segment 16) y 2 I Hs Hr Hu) as [(y1 & E1 & Hr1 & Hu1 & _) | (_ & ? & ? & [=] & _)]. rewrite E1, obind_ok.
  assert (to_server y1 = []) as Ht1.
  { cbn [act] in E1. apply obind_inv in E1 as (s & _ & [= <-]). cbn [to_server]. apply drop_ge.
    pose proof (f_equal length (uw_bytes _ _ Hu)) as Hlen. rewrite !length_app, length_stamp in Hlen. lia. }
  destruct (act_ok sent (Carry 16) y1 1 I Hs Hr1 Hu1) as [(y2 & E2 & Hr2 & Hu2 & _) | (_ & ? & ? & [=] & _)]. rewrite E2, obind_ok.
  assert (length (unread y2) = 16%nat) as Hl2.
  { pose proof (uw_bytes _ _ Hu1) as Hb1. rewrite Ht1, app_nil_r in Hb1. injection E2 as <-. cbn [unread].
    rewrite take_ge; [by rewrite Hb1, length_stamp | ]. pose proof (f_equal length Hb1) as Hlen.
    rewrite length_app, length_stamp in Hlen. lia. }
  destruct (act_ok sent (ReadCb e t) y2 0 (conj He Ht) Hs Hr2 Hu2) as [(y3 & E3 & _) | (_ & ? & ? & _ & Hlt)]; [ | lia].
  rewrite E3. by eexists.
Qed.
Lemma last_stamp_clock t0 acts : ts_clock t0 -> Forall allowed acts -> ts_clock (last_stamp t0 acts).
Proof.
  intros H0 Ha. unfold last_stamp. assert (Forall (fun r => ts_clock r.2) (rounds acts)) as Hr.
  { induction Ha as [ | a acts Ha _ IH]; [constructor | ]. destruct a as [k | e | k | e t]; try exact IH. by constructor; [apply Ha | ]. }
  destruct (rounds acts) as [ | r rs _] using rev_ind; [done | ]. rewrite last_last. apply Forall_app in Hr as [_ Hr].
  by apply Forall_cons in Hr as [Hr _].
Qed.
End Pair.

(** ** The servers *)
Section Servers.
Context {W : Type} `{BufferEventLaws W}.
Definition tcp_room (s : srv (W := W) stat) (n : nat) : Prop :=
  0 <= pps (ctx s) /\ pps (ctx s) + Z.of_nat n <= INT_MAX /\ 0 <= ts (ctx s) /\ ts (ctx s) + Z.of_nat n <= INT_MAX.
Lemma tcp_react e (s : srv (W := W) stat) n : has_memory e -> tcp_room s (S n) ->
  exists s', handle tcp_callbacks e s = Ok s' /\ tcp_room s' n /\ exiting s' = exiting s || is_exit e /\
  forall b, closes b e = false -> input (world s) b = [] ->
    input (world s') b = [] /\ output (world s') b = output (world s) b ++ received b [e].
Proof.
  intros Hm (H1 & H2 & H3 & H4). destruct (handle_tcp e s Hm ltac:(lia) ltac:(lia)) as (s' & E & [Hc _ Hx He]).
  exists s'. split; [done | ]. split; [ | done]. unfold tcp_room. rewrite Hc. cbn [pps ts].
  pose proof (this_second_step (pps (ctx s)) e H1). pose proof (seconds_nonneg [e]).
  assert (seconds [e] <= 1) by (unfold seconds; destruct e; cbn [List.filter length]; lia). lia.
Qed.
#[export, refine] Instance tcp_echo : EchoServer (srv (W := W) stat) :=
  {| react := handle tcp_callbacks; out_of s b := output (world s) b; quiet s b := input (world s) b = [];
     running s := exiting s = false; room := tcp_room |}.
Proof.
  - intros s n (H1 & H2 & H3 & H4). unfold tcp_room. lia.
  - intros e s n Hm Hr. destruct (tcp_react e s n Hm Hr) as (s' & E & Hr' & Hx & Hall). exists s'.
    split; [done | ]. split; [done | ]. split; [ | done]. intros H1 H2. by rewrite Hx, H1, H2.
Defined.

Context {T : Type} `{IntTableLaws T}.
#[export, refine] Instance proxy_echo : EchoServer (srv (W := W) (proxy_server (T := T))) :=
  {| react := handle proxy_callbacks; out_of q b := output (world q) b; quiet q b := input (world q) b = [];
     running q := exiting q = false;
     room q n := exists s, sim s q /\ tcp_room s n /\ 0 <= current_request_id (ctx q) /\
       current_request_id (ctx q) + Z.of_nat n <= INT_MAX |}.
Proof.
  - intros q n (s & Hs & (H1' & H2' & H3' & H4') & H5' & H6'). exists s. unfold tcp_room. split; [done | ]. lia.
  - intros e q n Hm (s & Hs & Hr & Hi1 & Hi2). destruct (tcp_react e s n Hm Hr) as (s' & E & Hr' & Hx & Hall).
    destruct (serve_sim [e] s s' q Hs) as (q' & Eq & Hs' & Hid); [by repeat constructor | lia | cbn [length]; lia | cbn [serve]; by rewrite E | ].
    cbn [serve] in Eq. apply obind_inv in Eq as (q1 & Eq & [= ->]).
    exists q'. split; [done | ].
    split; [ | split; [by rewrite <- (sim_exit _ _ Hs), <- (sim_exit _ _ Hs'), Hx; intros -> -> | by rewrite <- (sim_world _ _ Hs), <- (sim_world _ _ Hs')]].
    exists s'. split; [done | ]. split; [done | ].
    assert (0 <= reads [e] <= 1) by (rewrite reads_cons; change (reads []) with 0; destruct e; lia). lia.
Defined.
End Servers.

(** C6. The latency client with an echo server on one connection, in any interleaving of
    pieces of requests and replies of any size, of callbacks and of other events at the
    server that do not tell its loop to exit: as long as no callback runs before the whole
    reply is there, the client prints after each reply exactly the time since the request
    it answers, one request is under way at every moment, the server is still running, and
    the next round can be completed; a callback that runs on a part of the reply is
    undefined.  The TCP server and the proxy are both such servers. *)
Theorem latency_pair {S : Type} `{EchoServer S} (b : Z) (s : S) (t0 e t : timespec) (acts : list action) :
  quiet s b -> running s -> room s (length acts + 3) -> Forall (allowed b) acts -> ts_clock t0 -> ts_clock e -> ts_clock t ->
  (exists y, perform b acts (connected b s t0) = Ok y /\ trace y = echo_trace t0 (rounds acts) /\
     under_way b (last_stamp t0 acts) y /\ running (server y) /\ exists y', perform b [Segment 16; Carry 16; ReadCb e t] y = Ok y') \/
  (perform b acts (connected b s t0) = Ub /\ exists acts1 e t acts2 y, acts = acts1 ++ ReadCb e t :: acts2 /\
     perform b acts1 (connected b s t0) = Ok y /\ (length (unread y) < 16)%nat).
Proof.
  intros Hq Hrun Hr Ha H0 He Ht.
  destruct (perform_ok b 3 acts t0 (connected b s t0) Ha H0 Hr (connected_under_way b s t0 Hq Hrun)) as [(y & E & Htr & Hu & Hr3) | Hub];
    [left | by right].
  exists y. split; [done | ]. split; [done | ]. split; [done | ]. split; [apply Hu | ].
  apply (round_completes b (last_stamp t0 acts)); try done. by apply (last_stamp_clock b).
Qed.
Lemma latency_pair_witness :
  exists y, perform (S := srv (W := gmap Z (bytes * bytes)) stat) 1
    [Segment 5; Background EvStats; Background (EvRead 2 [7] true); Segment 20; Carry 9; Carry 9; ReadCb (mk_ts 1 5) (mk_ts 1 6); Segment 3]
    (connected 1 (mk_srv (mk_stat 0 0) ∅ [] false) (mk_ts 1 2)) = Ok y /\
  trace y = echo_trace (mk_ts 1 2) [(mk_ts 1 5, mk_ts 1 6)].
Proof.
  destruct (latency_pair (S := srv (W := gmap Z (bytes * bytes)) stat) 1 (mk_srv (mk_stat 0 0) ∅ [] false) (mk_ts 1 2) (mk_ts 2 0) (mk_ts 2 0)
    [Segment 5; Background EvStats; Background (EvRead 2 [7] true); Segment 20; Carry 9; Carry 9; ReadCb (mk_ts 1 5) (mk_ts 1 6); Segment 3])
    as [(y & E & Ht & _) | (E & _)].
  - done.
  - done.
  - unfold room; cbn; unfold tcp_room; cbn; unfold INT_MAX; lia.
  - repeat (apply Forall_cons_2; [cbn; repeat split; (done || lia) | ]). apply Forall_nil_2.
  - split; cbn; unfold BILLION; lia.
  - split; cbn; unfold BILLION; lia.
  - split; cbn; unfold BILLION; lia.
  - exists y. exact (conj E Ht).
  - exfalso. vm_compute in E. discriminate E.
Defined.
End LatencyPair.
