(* ===== verification/Datagram.v ===== *)
(** * The datagram echo servers [client_server/udp/src/server.c] and
    [client_server/msg_hdr/src/server.c]

    The first echoes one datagram at a time; the second receives batches of up to
    32 datagrams into buffers that are used again for every batch and answers from
    the same message headers.  What arrives, the results of the send calls and the
    callbacks libevent runs are arguments. *)
From S2P Require Import Prelude CLib Bytes Sys Echo.

Module Datagram.

(** [%4d], [%8d] *)
Definition dec_sp (w : nat) (n : Z) : bytes := replicate (w - length (dec n)) 32 ++ dec n.

Record server_context := mk_ctx { at_second : Z; message_per_second : Z }.
(** A datagram: the sender and the bytes. *)
Record dgram := mk_dgram { from : Z; data : bytes }.

(** [on_perf], the same in both servers. *)
Definition on_perf (c : server_context) : outcome (server_context * list event) :=
  let! t := cint (at_second c + 1) in
  Ok (mk_ctx t 0, [Out (dec_sp 4 (at_second c) ++ lit " " ++ dec_sp 8 (message_per_second c))]).

(** ** [udp/src/server.c] *)

(** [on_read]: the kernel cuts a datagram to the 1024 bytes of [buf]; [None] is a
    failed [recvfrom]; [sent] is the result of [sendto]. *)
Definition on_read (r : option dgram) (sent : Z) (c : server_context) : outcome (server_context * list event) :=
  match r with
  | None => Ok (c, [Err (lit "recvfrom")])
  | Some d =>
      let buf := take 1024 (data d) in
      let! m := cint (message_per_second c + 1) in
      let c := mk_ctx (at_second c) m in
      Ok (c, Call "sendto" [from d; len buf] buf :: if sent <? 0 then [Err (lit "sendto")] else [])
  end.

Inductive uev := URead (r : option dgram) (sent : Z) | UPerf | USignal.
(** The loop; the flag says whether it was broken. *)
Fixpoint udp_serve (evs : list uev) (c : server_context) : outcome (server_context * list event * bool) :=
  match evs with
  | [] => Ok (c, [], false)
  | URead r sent :: evs =>
      let! '(c, es) := on_read r sent c in
      let! '(c, es', b) := udp_serve evs c in
      Ok (c, es ++ es', b)
  | UPerf :: evs =>
      let! '(c, es) := on_perf c in
      let! '(c, es', b) := udp_serve evs c in
      Ok (c, es ++ es', b)
  | USignal :: _ => Ok (c, [Call "event_base_loopbreak" [] []], true)
  end.

(** ** [msg_hdr/src/server.c] *)
Definition VLEN : Z := 32.
Definition BUFSIZE : Z := 128.

(** The receive: message [i] goes to [bufs[i]], cut to [iov_len = BUFSIZE]; the
    result holds the values of [msg_len]. *)
Fixpoint recvmmsg (bufs : list bytes) (ds : list dgram) : list bytes * list Z :=
  match bufs, ds with
  | b :: bufs, d :: ds =>
      let m := take (Z.to_nat BUFSIZE) (data d) in
      let '(bufs, lens) := recvmmsg bufs ds in
      (splice b 0 m :: bufs, len m :: lens)
  | bufs, _ => (bufs, [])
  end.

(** [for (i = 0; i < retval; i++) bufs[i][msgs[i].msg_len] = 0;] *)
Fixpoint terminate (bufs : list bytes) (lens : list Z) : outcome (list bytes) :=
  match lens with
  | [] => Ok bufs
  | l :: lens =>
      match bufs with
      | [] => Ub
      | b :: bufs =>
          let! b := wr b l 0 in
          let! bufs := terminate bufs lens in
          Ok (b :: bufs)
      end
  end.

(** [respond]: [sendmmsg] sends [iov_len] bytes of every buffer, and [iov_len] is
    still [BUFSIZE]. *)
Fixpoint replies (bufs : list bytes) (ds : list dgram) : outcome (list event) :=
  match ds with
  | [] => Ok []
  | d :: ds =>
      match bufs with
      | [] => Ub
      | b :: bufs =>
          let! m := load b 0 BUFSIZE in
          let! es := replies bufs ds in
          Ok (Call "sendmmsg" [from d; BUFSIZE] m :: es)
      end
  end.
Definition respond (bufs : list bytes) (ds : list dgram) (retval : Z) : outcome (list event) :=
  let! es := replies bufs ds in
  Ok (if retval =? -1 then [Err (lit "sendmmsg()")] else es).

(** [on_read]: a failed receive is reported and ends the program. *)
Definition mmsg_on_read (r : option (list dgram)) (sent : Z) (bufs : list bytes) (c : server_context) :
    outcome (list bytes * server_context * list event) :=
  match r with
  | None => Exit 1
  | Some ds =>
      let '(bufs, lens) := recvmmsg bufs ds in
      let! bufs := terminate bufs lens in
      let! es := respond bufs ds sent in
      let! m := cint (message_per_second c + len ds) in
      Ok (bufs, mk_ctx (at_second c) m, es)
  end.

(** [init_msghdr]: the buffers are static, hence zero. *)
Definition init_bufs : list bytes := replicate (Z.to_nat VLEN) (replicate 129 0).

Inductive mev := MRead (r : option (list dgram)) (sent : Z) | MPerf | MSignal.
Fixpoint mmsg_serve (evs : list mev) (bufs : list bytes) (c : server_context) :
    outcome (list bytes * server_context * list event * bool) :=
  match evs with
  | [] => Ok (bufs, c, [], false)
  | MRead r sent :: evs =>
      let! '(bufs, c, es) := mmsg_on_read r sent bufs c in
      let! '(bufs, c, es', b) := mmsg_serve evs bufs c in
      Ok (bufs, c, es ++ es', b)
  | MPerf :: evs =>
      let! '(c, es) := on_perf c in
      let! '(bufs, c, es', b) := mmsg_serve evs bufs c in
      Ok (bufs, c, es ++ es', b)
  | MSignal :: _ => Ok (bufs, c, [Call "event_base_loopbreak" [] []], true)
  end.

(** ** Set-up, the same in both *)
Section Setup.
(** [inet_addr]: the address as stored, [INADDR_NONE] for anything else. *)
Context (inet_addr : bytes -> Z).

Definition net_ip__is_multicast_ip (ip_address : bytes) : Z :=
  let i := Z.land (i8 (inet_addr ip_address)) 255 in
  if (i >=? 224) && (i <=? 239) then 1 else 0.

Definition subcribe_to_multicast_group (group : bytes) (sockfd : Z) : io unit :=
  let? r := ask "setsockopt" [sockfd; 0; 35; inet_addr group; 0] [] in
  if ret r <? 0 then die (lit "IP_ADD_MEMBERSHIP") else iret tt.

Definition create_server_socket (port : Z) : io Z :=
  let? s := ask "socket" [2; 2; 0] [] in
  let? _ := if ret s <? 0 then tell (Err (lit "create socket server")) else iret tt in
  let? res := ask "bind" [ret s] (Echo.sin_any port) in
  let? _ := if ret res <? 0 then tell (Err (lit "bind socket")) else iret tt in
  iret (ret s).

(** [main] around the loop, which is given with its result. *)
Definition dgram_main (argv : list bytes) (loop : io unit) : io Z :=
  let? base := ask "event_base_new" [] [] in
  let? sock := create_server_socket 12345 in
  let? _ := tell (Call "evutil_make_socket_nonblocking" [sock] []) in
  let? _ := match argv with
            | _ :: g :: _ =>
                if negb (net_ip__is_multicast_ip g =? 0) then subcribe_to_multicast_group g sock else iret tt
            | _ => iret tt
            end in
  let? ev_read := ask "event_new" [ret base; sock] (lit "on_read") in
  let? _ := tell (Call "event_add" [ret ev_read] []) in
  let? ev_perf := ask "event_new" [ret base; -1] (lit "on_perf") in
  let? _ := tell (Call "event_add" [ret ev_perf; 1; 0] []) in
  let? ev_signal := ask "evsignal_new" [ret base; Z.lor 2 15] (lit "handle_signal") in
  let? _ := tell (Call "evsignal_add" [ret ev_signal] []) in
  let? _ := tell (Call "event_base_priority_init" [ret base; 4] []) in
  let? _ := tell (Call "event_priority_set" [ret ev_signal; 0] []) in
  let? _ := tell (Call "event_priority_set" [ret ev_perf; 2] []) in
  let? _ := tell (Call "event_priority_set" [ret ev_read; 3] []) in
  let? _ := loop in
  let? _ := tell (Call "event_free" [ret ev_read] []) in
  let? _ := tell (Call "event_free" [ret ev_perf] []) in
  let? _ := tell (Call "event_free" [ret ev_signal] []) in
  let? _ := tell (Call "event_base_free" [ret base] []) in
  iret 0.
Definition udp_server_main (argv : list bytes) (evs : list uev) : io Z :=
  dgram_main argv (fun ans =>
    match udp_serve evs (mk_ctx 0 0) with
    | Ok (_, es, true) => (es, Ok (tt, ans))
    | Ok (_, es, false) => (es, NoFuel)
    | _ => ([], Ub)
    end).
(** [init_msghdr] runs before the loop; of a run that ends with [exit] only the
    last message is kept. *)
Definition mmsg_server_main (argv : list bytes) (evs : list mev) : io Z :=
  dgram_main argv (fun ans =>
    match mmsg_serve evs init_bufs (mk_ctx 0 0) with
    | Ok (_, _, es, true) => (es, Ok (tt, ans))
    | Ok (_, _, es, false) => (es, NoFuel)
    | Exit c => ([Err (lit "recvmmsg()")], Exit c)
    | _ => ([], Ub)
    end).
End Setup.

(** ** Specification *)

(** The datagrams received and the datagrams sent, in order. *)
Definition received (evs : list uev) : list dgram := omap (fun e => match e with URead r _ => r | _ => None end) evs.
Definition sent_of (es : list event) : list (list Z * bytes) :=
  omap (fun e => match e with Call f args d => if String.eqb f "sendto" then Some (args, d) else None | _ => None end) es.
Definition echo_of (d : dgram) : list Z * bytes := ([from d; len (take 1024 (data d))], take 1024 (data d)).
Definition count_reads (n : Z) (evs : list uev) : Z :=
  foldl (fun n e => match e with URead (Some _) _ => n + 1 | UPerf => 0 | _ => n end) n evs.
Definition perfs (evs : list uev) : Z := len (List.filter (fun e => match e with UPerf => true | _ => false end) evs).
Definition no_signal (e : uev) : Prop := match e with USignal => False | _ => True end.

(** The buffer of a message after its datagram, and the reply the server sends:
    the datagram, a zero, and what the buffer held before. *)
Definition buffer_after (b : bytes) (d : dgram) : bytes :=
  let m := take 128 (data d) in m ++ [0] ++ drop (length m + 1) b.
Definition reply_of (b : bytes) (d : dgram) : event := Call "sendmmsg" [from d; 128] (take 128 (buffer_after b d)).
Definition bufs_ok (bufs : list bytes) : Prop := length bufs = 32%nat /\ Forall (fun b => length b = 129%nat) bufs.

(** ** Lemmas *)
Lemma sent_app es1 es2 : sent_of (es1 ++ es2) = sent_of es1 ++ sent_of es2.
Proof. apply omap_app. Qed.

Lemma udp_serve_ok evs : forall c,
  Forall no_signal evs -> 0 <= at_second c -> 0 <= message_per_second c ->
  at_second c + len evs <= INT_MAX -> message_per_second c + len evs <= INT_MAX ->
  exists c' es, udp_serve evs c = Ok (c', es, false) /\
    sent_of es = echo_of <$> received evs /\
    c' = mk_ctx (at_second c + perfs evs) (count_reads (message_per_second c) evs).
Proof.
  induction evs as [ | e evs IH]; intros c Hs H1 H2 H3 H4.
  - exists c, []. split; [done | ]. split; [done | ]. destruct c. unfold perfs. cbn. f_equal. lia.
  - apply Forall_cons in Hs as [He Hs]. cbn [length] in *. destruct e as [[d | ] sent | | ]; [ | | | done]; cbn [udp_serve].
    + unfold on_read. rewrite cint_ok, !obind_ok by int_bounds.
      destruct (IH (mk_ctx (at_second c) (message_per_second c + 1)) Hs) as (c' & es & E & Hes & Hc); cbn [at_second message_per_second]; try lia.
      eexists c', _. rewrite E, obind_ok. split; [done | ]. split; [ | exact Hc].
      rewrite sent_app, Hes. cbn. by destruct (sent <? 0).
    + cbn [on_read]. rewrite obind_ok. destruct (IH c Hs) as (c' & es & E & Hes & Hc); try lia.
      eexists c', _. rewrite E, obind_ok. split; [done | ]. split; [exact Hes | exact Hc].
    + unfold on_perf. rewrite cint_ok, !obind_ok by int_bounds.
      destruct (IH (mk_ctx (at_second c + 1) 0) Hs) as (c' & es & E & Hes & Hc); cbn [at_second message_per_second]; try lia.
      eexists c', _. rewrite E, obind_ok. split; [done | ]. split; [exact Hes | ].
      rewrite Hc. unfold perfs. cbn [List.filter length at_second message_per_second]. f_equal. lia.
Qed.

Lemma length_buffer_after b d : length b = 129%nat -> length (buffer_after b d) = 129%nat.
Proof.
  intros Hb. unfold buffer_after. rewrite !length_app, length_drop, length_take. cbn [length]. lia.
Qed.

(** One buffer: the receive and the terminating zero. *)
Lemma buffer_step b d : length b = 129%nat ->
  wr (splice b 0 (take 128 (data d))) (len (take 128 (data d))) 0 = Ok (buffer_after b d).
Proof.
  intros Hb. set (m := take 128 (data d)). assert (length m <= 128)%nat by (unfold m; rewrite length_take; lia).
  unfold buffer_after, splice. fold m. change (Z.to_nat 0) with 0%nat. rewrite take_0. cbn [app Nat.add].
  destruct (drop (length m) b) as [ | x r] eqn:E; [apply (f_equal length) in E; rewrite length_drop in E; simpl in E; lia | ].
  rewrite wr_app by done. by rewrite <- drop_drop, E.
Qed.

Lemma mmsg_buffers bufs : forall ds,
  Forall (fun b => length b = 129%nat) bufs -> (length ds <= length bufs)%nat ->
  let bufs' := zip_with buffer_after bufs ds ++ drop (length ds) bufs in
  (let '(bs, lens) := recvmmsg bufs ds in terminate bs lens) = Ok bufs' /\
  replies bufs' ds = Ok (zip_with reply_of bufs ds) /\ Forall (fun b => length b = 129%nat) bufs'.
Proof.
  induction bufs as [ | b bufs IH]; intros [ | d ds] Hb Hl bufs'; cbn in Hl; try lia; try done.
  apply Forall_cons in Hb as [Hb Hbs]. destruct (IH ds Hbs ltac:(lia)) as (E1 & E2 & E3).
  unfold bufs'. cbn [recvmmsg zip_with length drop app]. destruct (recvmmsg bufs ds) as [bs lens].
  cbn [terminate]. change (Z.to_nat BUFSIZE) with 128%nat. rewrite buffer_step, obind_ok, E1 by done.
  split; [done | ]. pose proof (length_buffer_after b d Hb) as L. cbn [replies]. split; [ | by constructor].
  rewrite load_ok by (unfold BUFSIZE; lia). by rewrite obind_ok, E2, obind_ok.
Qed.

(** A batch, whatever the result of [sendmmsg]. *)
Lemma mmsg_on_read_sent ds sent bufs c :
  bufs_ok bufs -> (length ds <= 32)%nat ->
  INT_MIN <= message_per_second c + len ds <= INT_MAX ->
  let bufs' := zip_with buffer_after bufs ds ++ drop (length ds) bufs in
  mmsg_on_read (Some ds) sent bufs c =
    Ok (bufs', mk_ctx (at_second c) (message_per_second c + len ds),
        if sent =? -1 then [Err (lit "sendmmsg()")] else zip_with reply_of bufs ds) /\ bufs_ok bufs'.
Proof.
  intros [Hl Hb] Hd Hc bufs'. destruct (mmsg_buffers bufs ds Hb ltac:(lia)) as (E1 & E2 & E3). fold bufs' in E1, E2, E3.
  unfold mmsg_on_read, respond. destruct (recvmmsg bufs ds) as [bs lens].
  rewrite E1, obind_ok, E2, !obind_ok, cint_ok, obind_ok by done.
  split; [done | ]. split; [ | done]. unfold bufs'. rewrite length_app, length_zip_with, length_drop. lia.
Qed.
Lemma mmsg_on_read_ok ds sent bufs c :
  bufs_ok bufs -> (length ds <= 32)%nat -> sent <> -1 ->
  INT_MIN <= message_per_second c + len ds <= INT_MAX ->
  let bufs' := zip_with buffer_after bufs ds ++ drop (length ds) bufs in
  mmsg_on_read (Some ds) sent bufs c =
    Ok (bufs', mk_ctx (at_second c) (message_per_second c + len ds), zip_with reply_of bufs ds) /\ bufs_ok bufs'.
Proof.
  intros Hb Hd Hs%Z.eqb_neq Hc bufs'. pose proof (mmsg_on_read_sent ds sent bufs c Hb Hd Hc) as E.
  cbn zeta in E. by rewrite Hs in E.
Qed.

(** ** Properties *)

(** The UDP server is an echo: over any sequence of at most 2^31 - 1 reads and
    ticks it sends back, in order, the first 1024 bytes of every datagram to its
    sender, skips failed receives, and counts the datagrams of the current
    second. *)
Theorem udp_server_echoes evs :
  Forall no_signal evs -> len evs <= INT_MAX ->
  exists es, udp_serve evs (mk_ctx 0 0) = Ok (mk_ctx (perfs evs) (count_reads 0 evs), es, false) /\
    sent_of es = echo_of <$> received evs.
Proof.
  intros Hs Hl. destruct (udp_serve_ok evs (mk_ctx 0 0) Hs) as (c & es & E & He & Hc); cbn [at_second message_per_second] in *; try lia.
  exists es. rewrite E, Hc. done.
Qed.

(** The batched server never writes outside its buffers and answers every
    datagram of a batch, but with [BUFSIZE] bytes whatever its length: the
    datagram, a zero and the rest of the buffer; the buffers keep their size. *)
Theorem mmsg_server_replies ds sent bufs c :
  bufs_ok bufs -> (length ds <= 32)%nat -> sent <> -1 -> INT_MIN <= message_per_second c + len ds <= INT_MAX ->
  exists bufs' es,
    mmsg_on_read (Some ds) sent bufs c = Ok (bufs', mk_ctx (at_second c) (message_per_second c + len ds), es) /\
    bufs_ok bufs' /\ length es = length ds /\
    (forall i d b, ds !! i = Some d -> bufs !! i = Some b ->
       exists reply, es !! i = Some (Call "sendmmsg" [from d; 128] reply) /\ length reply = 128%nat /\
         reply = take 128 (take 128 (data d) ++ [0] ++ drop (length (take 128 (data d)) + 1) b)).
Proof.
  intros Hb Hd Hs Hc. destruct (mmsg_on_read_ok ds sent bufs c Hb Hd Hs Hc) as [E Hb'].
  eexists _, _. split; [exact E | ]. split; [exact Hb' | ]. destruct Hb as [Hlen Hall].
  split; [rewrite length_zip_with; lia | ].
  intros i d b Hi Hbi. rewrite lookup_zip_with, Hi, Hbi. cbn. eexists. split; [done | ]. split; [ | done].
  rewrite length_take. fold (buffer_after b d).
  rewrite length_buffer_after; [done | ]. eapply Forall_lookup_1 in Hall; done.
Qed.

(** A reply discloses another client's data: after a full datagram of one
    sender, a shorter datagram of another sender is answered with its own bytes, a
    zero, and the rest of the first sender's datagram. *)
Theorem mmsg_reply_leaks a b d1 d2 bufs c :
  bufs_ok bufs -> length d1 = 128%nat -> (length d2 < 128)%nat -> 0 <= message_per_second c <= INT_MAX - 2 ->
  exists bufs' c', mmsg_serve [MRead (Some [mk_dgram a d1]) 1; MRead (Some [mk_dgram b d2]) 1] bufs c =
    Ok (bufs', c', [Call "sendmmsg" [a; 128] d1; Call "sendmmsg" [b; 128] (d2 ++ [0] ++ drop (length d2 + 1) d1)], false).
Proof.
  intros Hb H1 H2 Hc. cbn [mmsg_serve].
  destruct (mmsg_on_read_ok [mk_dgram a d1] 1 bufs c Hb) as [-> Hb1]; [cbn; lia | lia | cbn; int_bounds | ].
  destruct Hb as [Hlen Hall]. destruct bufs as [ | b0 bufs]; [done | ]. apply Forall_cons in Hall as [Hb0 _].
  rewrite obind_ok. cbv beta iota.
  destruct (mmsg_on_read_ok [mk_dgram b d2] 1 _ (mk_ctx (at_second c) (message_per_second c + len [mk_dgram a d1])) Hb1)
    as [-> _]; [cbn; lia | lia | cbn; int_bounds | ].
  rewrite !obind_ok. cbv beta iota. eexists _, _. do 3 f_equal.
  destruct bufs; cbn [zip_with app length drop]; unfold reply_of, buffer_after; cbn [data from];
    rewrite !(take_ge d1), !(take_ge d2), (take_app_length' d1) by lia;
    rewrite drop_app_le by lia; do 3 f_equal;
    rewrite (app_assoc [0]), (app_assoc d2), take_app_length' by (rewrite !length_app, length_drop; cbn [length]; lia); done.
Qed.

(** ** Witnesses *)
Lemma udp_server_echoes_witness :
  exists es, udp_serve [URead (Some (mk_dgram 9 [1; 2])) 2; URead None 0; UPerf; URead (Some (mk_dgram 8 [3])) 1] (mk_ctx 0 0) =
    Ok (mk_ctx 1 1, es, false) /\ sent_of es = [([9; 2], [1; 2]); ([8; 1], [3])].
Proof.
  apply (udp_server_echoes [URead (Some (mk_dgram 9 [1; 2])) 2; URead None 0; UPerf; URead (Some (mk_dgram 8 [3])) 1]).
  - repeat constructor.
  - vm_compute. discriminate.
Defined.

Lemma init_bufs_ok : bufs_ok init_bufs.
Proof. split; [reflexivity | ]. apply Forall_replicate. reflexivity. Defined.

Lemma mmsg_server_replies_witness :
  exists bufs' es, mmsg_on_read (Some [mk_dgram 9 [1; 2]]) 1 init_bufs (mk_ctx 0 0) = Ok (bufs', mk_ctx 0 1, es) /\
    es !! 0%nat = Some (Call "sendmmsg" [9; 128] ([1; 2] ++ replicate 126 0)).
Proof.
  destruct (mmsg_server_replies [mk_dgram 9 [1; 2]] 1 init_bufs (mk_ctx 0 0) init_bufs_ok)
    as (bufs' & es & E & _ & _ & H); [cbn; lia | lia | split; vm_compute; discriminate | ].
  exists bufs', es. split; [exact E | ].
  destruct (H 0%nat (mk_dgram 9 [1; 2]) (replicate 129 0)) as (r & Hr & _ & ->); [reflexivity | reflexivity | exact Hr].
Defined.

Lemma mmsg_reply_leaks_witness :
  exists bufs' c',
    mmsg_serve [MRead (Some [mk_dgram 1 (replicate 128 83)]) 1; MRead (Some [mk_dgram 2 [65]]) 1] init_bufs (mk_ctx 0 0) =
      Ok (bufs', c', [Call "sendmmsg" [1; 128] (replicate 128 83);
                      Call "sendmmsg" [2; 128] ([65; 0] ++ replicate 126 83)], false).
Proof.
  apply (mmsg_reply_leaks 1 2 (replicate 128 83) [65] init_bufs (mk_ctx 0 0) init_bufs_ok);
    [reflexivity | cbn; lia | split; vm_compute; discriminate].
Defined.
End Datagram.
