(* ===== verification/DatagramPair.v ===== *)
(** * The datagram latency clients with the servers they measure:
    [client_server/udp/src/client.c] and [client_server/msg_hdr/src/client.c] against
    [client_server/udp/src/server.c] and [client_server/msg_hdr/src/server.c]

    The read callback of a client and the callbacks of a server run over a network that
    loses, copies and reorders datagrams, while the server answers others and its timer
    runs.  Clients and servers are seen through two interfaces, each with two
    instances. *)
From S2P Require Import Prelude CLib Bytes Sys Clients Datagram.

Module DatagramPair.
Import Clients Datagram.

(** ** What the two sides promise *)

(** The datagrams of a trace: those for the server, and those of a server with the
    addresses they go to. *)
Definition requests (es : list event) : list bytes :=
  omap (fun e => match e with Call f _ d => if String.eqb f "sendto" then Some d else None | _ => None end) es.
Definition answers (es : list event) : list (Z * bytes) :=
  omap (fun e => match e with
                 | Call f (a :: _) d => if String.eqb f "sendto" || String.eqb f "sendmmsg" then Some (a, d) else None
                 | _ => None
                 end) es.
(** A reply that goes to the sender and starts with the stamp it sent. *)
Definition echoes (d : dgram) (r : Z * bytes) : Prop :=
  r.1 = from d /\ ((16 <= length (data d))%nat -> take 16 r.2 = take 16 (data d)).

(** A server takes at most [batch] datagrams in one callback; [droom s n]: it can count
    [n] more events.  The boolean is whether the send succeeds. *)
Class DatagramServer (S : Type) := {
  batch : nat;
  serve : list dgram -> bool -> S -> outcome (S * list event);
  tick : S -> outcome (S * list event);
  droom : S -> nat -> Prop;
  batch_pos : (1 <= batch)%nat;
  droom_weaken s n m : (n <= m)%nat -> droom s m -> droom s n;
  tick_ok s n : droom s (Datatypes.S n) -> exists s' es, tick s = Ok (s', es) /\ droom s' n;
  serve_ok ds sent s n : (1 <= length ds <= batch)%nat -> droom s (length ds + n) ->
    exists s' es, serve ds sent s = Ok (s', es) /\ droom s' n /\ (sent = true -> Forall2 echoes ds (answers es));
}.

(** The answers of the system in one callback of a client: a datagram of 16 bytes or
    more, the two readings of the clock and the result of [sendto]. *)
Definition reply_answers (x : bytes) (e t : timespec) (sent : bool) : list answer :=
  [mk_answer (len (take 16 x)) 0 (take 16 x); stamp e; stamp t; if sent then ok 16 else fails 105].
Definition send_trace (fd : Z) (addr : bytes) (t : timespec) (sent : bool) : list event :=
  [Call "clock_gettime" [0] []; Call "sendto" (fd :: 16 :: addr) (ts_bytes t)] ++
  if sent then [] else [Err (lit "sendto")].
(** What a client prints and how it updates its statistics when a reply to the request
    of time [s] is read at [e]. *)
Class DatagramClient (C : Type) := {
  on_reply : Z -> bytes -> C -> io C;
  report : timespec -> timespec -> list event;
  measure : timespec -> timespec -> C -> C;
  report_quiet s e : requests (report s e) = [];
  on_reply_ok fd addr c x s e t sent : ts_clock s -> ts_clock e -> ts_clock t -> take 16 x = ts_bytes s ->
    on_reply fd addr c (reply_answers x e t sent) =
      ([Call "recvfrom" [fd; 16] []; Call "clock_gettime" [0] []] ++ report s e ++ send_trace fd addr t sent,
       Ok (measure s e c, []));
}.

(** ** The network *)
Inductive trouble :=
| Lose (i : nat)  (* a datagram is dropped *)
| Copy (i : nat)  (* it is delivered twice *)
| Hurry (i : nat).  (* it overtakes the others *)
(** The datagrams under way in one direction, with how many were lost and copied. *)
Definition disturb (w : trouble) (q : list bytes) : list bytes * nat * nat :=
  match w with
  | Lose i => match q !! i with Some _ => (delete i q, 1%nat, 0%nat) | None => (q, 0%nat, 0%nat) end
  | Copy i => match q !! i with Some x => (q ++ [x], 0%nat, 1%nat) | None => (q, 0%nat, 0%nat) end
  | Hurry i => match q !! i with Some x => (x :: delete i q, 0%nat, 0%nat) | None => (q, 0%nat, 0%nat) end
  end.

Section Pair.
Context {S C : Type} `{DatagramServer S} `{DatagramClient C}.
(** The client's address, and its socket and the server's address. *)
Context (me fd : Z) (addr : bytes).

Record pair := MkPair { server : S; client : C; to_server : list bytes; to_client : list bytes;
  lost : nat; copied : nat; trace : list event }.
Inductive action :=
| Serve (pattern : list (option dgram)) (sent : bool)  (* a batch: [None] is the client's next datagram *)
| Tick  (* the server's timer *)
| Reply (e t : timespec) (sent : bool)  (* the client's callback *)
| Network (at_client : bool) (w : trouble).
(** The batch the server receives, and what is left of the client's datagrams. *)
Fixpoint fill (pattern : list (option dgram)) (q : list bytes) : list dgram * list bytes :=
  match pattern with
  | [] => ([], q)
  | Some d :: p => let '(ds, q) := fill p q in (d :: ds, q)
  | None :: p =>
      match q with
      | [] => fill p []
      | x :: q => let '(ds, q) := fill p q in (mk_dgram me x :: ds, q)
      end
  end.
Definition mine (rs : list (Z * bytes)) : list bytes := omap (fun r => if r.1 =? me then Some r.2 else None) rs.
Definition act (a : action) (y : pair) : outcome pair :=
  match a with
  | Serve pattern sent =>
      let '(ds, q) := fill pattern (to_server y) in
      match ds with
      | [] => Ok y
      | _ =>
          let! '(s, es) := serve ds sent (server y) in
          let gone := (length (to_server y) - length q)%nat in
          Ok (MkPair s (client y) q (to_client y ++ if sent then mine (answers es) else [])
                (lost y + if sent then 0 else gone) (copied y) (trace y))
      end
  | Tick =>
      let! '(s, _) := tick (server y) in
      Ok (MkPair s (client y) (to_server y) (to_client y) (lost y) (copied y) (trace y))
  | Reply e t sent =>
      match to_client y with
      | [] => Ok y
      | x :: q =>
          let '(es, r) := on_reply fd addr (client y) (reply_answers x e t sent) in
          let! '(c, _) := r in
          Ok (MkPair (server y) c (to_server y ++ if sent then requests es else []) q
                (lost y + if sent then 0 else 1) (copied y) (trace y ++ es))
      end
  | Network at_client w =>
      let '(q, l, c) := disturb w (if at_client then to_client y else to_server y) in
      Ok (MkPair (server y) (client y) (if at_client then to_server y else q) (if at_client then q else to_client y)
            (lost y + l) (copied y + c) (trace y))
  end.
Fixpoint perform (acts : list action) (y : pair) : outcome pair :=
  match acts with
  | [] => Ok y
  | a :: acts => let! y := act a y in perform acts y
  end.
(** After [send_to_addr] of the client's [main] at time [t0]. *)
Definition opened (s : S) (c : C) (t0 : timespec) : pair := MkPair s c [ts_bytes t0] [] 0 0 [].

Definition allowed (a : action) : Prop :=
  match a with
  | Serve pattern _ => (length pattern <= batch)%nat /\ Forall (fun o => match o with Some d => from d <> me | None => True end) pattern
  | Reply e t _ => ts_clock e /\ ts_clock t
  | _ => True
  end.
Definition cost (a : action) : nat := match a with Serve pattern _ => length pattern | Tick => 1 | _ => 0 end.
Definition total (acts : list action) : nat := sum_list_with cost acts.

(** ** The specification: rounds *)
Record round := MkRound { answered : timespec; read_at : timespec; next : timespec; sent_on : bool }.
Definition round_trace (r : round) : list event :=
  [Call "recvfrom" [fd; 16] []; Call "clock_gettime" [0] []] ++ report (answered r) (read_at r) ++
  send_trace fd addr (next r) (sent_on r).
Definition rounds_trace (rs : list round) : list event := concat (round_trace <$> rs).
Definition rounds_client (c : C) (rs : list round) : C := foldl (fun c r => measure (answered r) (read_at r) c) c rs.
(** The stamps of the requests, and the last one. *)
Definition stamps (t0 : timespec) (rs : list round) : list timespec := t0 :: (next <$> rs).
Definition newest (t0 : timespec) (rs : list round) : timespec := List.last (next <$> rs) t0.
(** Every reply is to a request sent before; in order, it is to the last one. *)
Definition answers_some (t0 : timespec) (rs : list round) : Prop :=
  forall i r, rs !! i = Some r -> answered r ∈ stamps t0 (take i rs).
Definition answers_last (t0 : timespec) (rs : list round) : Prop :=
  forall i r, rs !! i = Some r -> answered r = newest t0 (take i rs).
Definition under_way (y : pair) : list bytes := to_server y ++ to_client y.

Record consistent (c0 : C) (t0 : timespec) (rs : list round) (y : pair) : Prop := {
  co_trace : trace y = rounds_trace rs;
  co_client : client y = rounds_client c0 rs;
  co_some : answers_some t0 rs;
  co_clock : Forall ts_clock (stamps t0 rs);
  co_stamped : Forall (fun x => exists t, t ∈ stamps t0 rs /\ take 16 x = ts_bytes t) (under_way y);
  co_count : (length (under_way y) + lost y = 1 + copied y)%nat;
  co_last : copied y = 0%nat -> answers_last t0 rs;
  co_newest : copied y = 0%nat -> Forall (fun x => take 16 x = ts_bytes (newest t0 rs)) (under_way y) }.

(** ** Lemmas *)
Lemma stamped_length x t : take 16 x = ts_bytes t -> (16 <= length x)%nat.
Proof. intros Hx%(f_equal length). rewrite length_take, length_stamp in Hx. lia. Qed.
Lemma newest_in t0 rs : newest t0 rs ∈ stamps t0 rs.
Proof.
  unfold newest, stamps. destruct (next <$> rs) as [ | t l _] using rev_ind; [left | ].
  rewrite last_last. set_solver.
Qed.
Lemma stamps_snoc t0 rs r : stamps t0 (rs ++ [r]) = stamps t0 rs ++ [next r].
Proof. unfold stamps. by rewrite fmap_app. Qed.
Lemma newest_snoc t0 rs r : newest t0 (rs ++ [r]) = next r.
Proof. unfold newest. rewrite fmap_app. apply last_last. Qed.
(** A property of every round and the rounds before it, for one more round. *)
Lemma rounds_snoc (P : list round -> round -> Prop) rs r :
  (forall i r, rs !! i = Some r -> P (take i rs) r) -> P rs r ->
  forall i r', (rs ++ [r]) !! i = Some r' -> P (take i (rs ++ [r])) r'.
Proof.
  intros Hall Hr i r' [Hi | [Hi [Hz ->]%list_lookup_singleton_Some]]%lookup_app_Some.
  - rewrite take_app_le by (apply lookup_lt_Some in Hi; lia). by apply Hall.
  - by rewrite take_app_length' by lia.
Qed.

Lemma disturb_ok w q q' l c : disturb w q = (q', l, c) ->
  (length q' + l = length q + c)%nat /\ q' ⊆ q.
Proof.
  intros E. destruct w as [i | i | i]; cbn [disturb] in E; destruct (q !! i) as [x | ] eqn:Ei; injection E as <- <- <-;
    try (split; [lia | done]); pose proof (lookup_lt_Some _ _ _ Ei); apply list_elem_of_lookup_2 in Ei as Hx;
    pose proof (list_subseteq_delete i q); rewrite ?length_app; cbn [length];
    rewrite ?length_delete by (rewrite Ei; by eexists); (split; [lia | set_solver]).
Qed.

Definition pairs (ds : list dgram) : list (Z * bytes) := (fun d => (from d, data d)) <$> ds.
Lemma pattern_ok pattern : forall q ds q',
  Forall (fun o => match o with Some d => from d <> me | None => True end) pattern -> fill pattern q = (ds, q') ->
  (length ds <= length pattern)%nat /\ q = mine (pairs ds) ++ q'.
Proof.
  induction pattern as [ | [d | ] p IH]; intros q ds q' Hp E; cbn [fill] in E; [by injection E as <- <- | ..];
    apply Forall_cons in Hp as [Hd Hp]; [ | destruct q as [ | x q]].
  - destruct (fill p q) as [ds1 q1] eqn:E1. injection E as <- <-. destruct (IH _ _ _ Hp E1) as [Hl ->]. cbn [length].
    split; [lia | ]. unfold mine. cbn. by rewrite (proj2 (Z.eqb_neq _ _) Hd).
  - destruct (IH _ _ _ Hp E) as [Hl Hq]. cbn [length]. split; [lia | done].
  - destruct (fill p q) as [ds1 q1] eqn:E1. injection E as <- <-. destruct (IH _ _ _ Hp E1) as [Hl ->]. cbn [length].
    split; [lia | ]. unfold mine. cbn. by rewrite Z.eqb_refl.
Qed.
Lemma mine_echoes ds rs : Forall2 echoes ds rs ->
  Forall2 (fun x z => (16 <= length x)%nat -> take 16 z = take 16 x) (mine (pairs ds)) (mine rs).
Proof.
  induction 1 as [ | d r ds rs [Hf Hd] _ IH]; [constructor | ].
  unfold mine in *. cbn. rewrite Hf. destruct (from d =? me); [by constructor | done].
Qed.

(** What happens on the network and at the server is no round of the client. *)
Lemma consistent_moved c0 t0 rs y y' : consistent c0 t0 rs y -> trace y' = trace y -> client y' = client y ->
  (copied y <= copied y')%nat ->
  (length (under_way y') + lost y' + copied y = length (under_way y) + lost y + copied y')%nat ->
  (forall z, z ∈ under_way y' -> exists x, x ∈ under_way y /\ ((16 <= length x)%nat -> take 16 z = take 16 x)) ->
  consistent c0 t0 rs y'.
Proof.
  intros [H1 H2 H3 H4 H5 H6 H7 H8] Ht Hc Hcp Hn Hz.
  assert (forall P : bytes -> Prop, (forall x, P (take 16 x) -> (16 <= length x)%nat) -> Forall (fun x => P (take 16 x)) (under_way y) ->
    Forall (fun x => P (take 16 x)) (under_way y')) as Hall.
  { intros P HP Hy. rewrite Forall_forall in *. intros z Hz'. destruct (Hz z Hz') as (x & Hx & E). rewrite E; [by apply Hy | ].
    by apply HP, Hy. }
  split; [congruence | congruence | done | done | | lia | intros; apply H7; lia | ].
  - apply (Hall (fun b => exists t, t ∈ stamps t0 rs /\ b = ts_bytes t)); [ | done].
    intros x (t & _ & E). by apply stamped_length in E.
  - intros Hz0. apply (Hall (fun b => b = ts_bytes (newest t0 rs))); [ | apply H8; lia].
    intros x E. by apply stamped_length in E.
Qed.

(** The callbacks of a run, and those of the rounds. *)
Definition timing (r : round) : timespec * timespec * bool := (read_at r, next r, sent_on r).
Definition replies_of (acts : list action) : list (timespec * timespec * bool) :=
  omap (fun a => match a with Reply e t sent => Some (e, t, sent) | _ => None end) acts.

Lemma serve_step c0 t0 rs pattern sent y n : allowed (Serve pattern sent) -> droom (server y) (length pattern + n) ->
  consistent c0 t0 rs y ->
  exists y', act (Serve pattern sent) y = Ok y' /\ droom (server y') n /\ consistent c0 t0 rs y' /\ copied y' = copied y /\ (lost y <= lost y')%nat.
Proof.
  intros [Hb Hp] Hr Hc. cbn [act]. destruct (fill pattern (to_server y)) as [ds q] eqn:Ef.
  destruct (pattern_ok _ _ _ _ Hp Ef) as [Hl Hq].
  destruct ds as [ | d ds]; [exists y; split; [done | ]; split; [refine (droom_weaken _ _ _ _ Hr); lia | done] | ].
  set (l := d :: ds) in *. destruct (serve_ok l sent (server y) n) as (s' & es & -> & Hr' & Hes);
    [unfold l in *; cbn [length] in *; lia | refine (droom_weaken _ _ _ _ Hr); lia | ].
  rewrite obind_ok. cbv beta iota. eexists. split; [done | ]. cbn [server lost copied]. split; [done | ].
  split; [ | split; [done | lia]].
  assert (sent = true -> Forall2 (fun x z => (16 <= length x)%nat -> take 16 z = take 16 x) (mine (pairs l)) (mine (answers es))) as Hm
    by (intros Hs; by apply mine_echoes, Hes).
  apply (consistent_moved c0 t0 rs y); try done; unfold under_way; cbn [to_server to_client lost copied].
  - rewrite Hq, !length_app. destruct sent; [rewrite (Forall2_length _ _ _ (Hm eq_refl)) | cbn [length]]; lia.
  - intros z Hz. rewrite Hq. destruct sent; [ | exists z; set_solver].
    rewrite !elem_of_app in Hz. destruct Hz as [Hz | [Hz | Hz]]; [exists z; set_solver.. | ].
    apply list_elem_of_lookup in Hz as [i Hi]. destruct (Forall2_lookup_r _ _ _ _ _ (Hm eq_refl) Hi) as (x & Hx & E).
    apply list_elem_of_lookup_2 in Hx. exists x. set_solver.
Qed.
Lemma tick_step c0 t0 rs y n : droom (server y) (Datatypes.S n) -> consistent c0 t0 rs y ->
  exists y', act Tick y = Ok y' /\ droom (server y') n /\ consistent c0 t0 rs y' /\ copied y' = copied y /\ (lost y <= lost y')%nat.
Proof.
  intros Hr Hc. destruct (tick_ok (server y) n Hr) as (s' & es & E & Hr'). cbn [act]. rewrite E, obind_ok.
  eexists. split; [done | ]. split; [done | ]. split; [ | done].
  apply (consistent_moved c0 t0 rs y); try done. intros z Hz. by exists z.
Qed.
Lemma network_step c0 t0 rs side w y : consistent c0 t0 rs y ->
  exists y', act (Network side w) y = Ok y' /\ server y' = server y /\ consistent c0 t0 rs y' /\ (under_way y = [] -> under_way y' = []).
Proof.
  intros Hc. cbn [act]. destruct (disturb w _) as [[q l] c] eqn:E. apply disturb_ok in E as [Hn Hs].
  eexists. split; [done | ]. split; [done | ]. split.
  2: { unfold under_way. cbn [to_server to_client]. intros [E1 E2]%app_eq_nil. rewrite E1, E2 in *.
       assert (q = []) as -> by (destruct side, q; set_solver). by destruct side. }
  apply (consistent_moved c0 t0 rs y); try done; unfold under_way; cbn [to_server to_client lost copied]; [lia | | ].
  - rewrite !length_app. destruct side; lia.
  - intros z Hz. exists z. split; [ | done]. destruct side; set_solver.
Qed.

Lemma requests_send t sent : requests (send_trace fd addr t sent) = [ts_bytes t].
Proof. by destruct sent. Qed.
Lemma requests_round r : requests (round_trace r) = [ts_bytes (next r)].
Proof.
  unfold round_trace, requests. rewrite !omap_app. change (omap _ (report ?a ?b)) with (requests (report a b)).
  rewrite report_quiet. apply requests_send.
Qed.
(** A callback is a round. *)
Lemma reply_step c0 t0 rs e t sent y : ts_clock e -> ts_clock t -> consistent c0 t0 rs y -> to_client y <> [] ->
  exists y' s, act (Reply e t sent) y = Ok y' /\ server y' = server y /\ consistent c0 t0 (rs ++ [MkRound s e t sent]) y' /\
    under_way y <> [].
Proof.
  intros He Ht [H1 H2 H3 H4 H5 H6 H7 H8] Hn. cbn [act]. unfold under_way in *.
  destruct (to_client y) as [ | x q] eqn:Eq; [done | ].
  rewrite Forall_app, Forall_cons in H5. destruct H5 as (Hs5 & (s & Hs & Hx) & Hc5).
  assert (ts_clock s) as Hcs by (rewrite Forall_forall in H4; by apply H4).
  rewrite (on_reply_ok fd addr (client y) x s e t sent Hcs He Ht Hx), obind_ok. cbv beta iota.
  set (r := MkRound s e t sent). change (_ ++ report s e ++ _) with (round_trace r). rewrite requests_round.
  eexists _, s. split; [done | ]. split; [done | ]. fold r. split; [ | by destruct (to_server y)].
  rewrite !length_app in H6. cbn [length] in H6. rewrite Forall_app, Forall_cons in H8.
  assert (forall z, z ∈ (to_server y ++ (if sent then [ts_bytes t] else [])) ++ q ->
    (z ∈ to_server y ++ q) \/ (z = ts_bytes t)) as Hin by (intros z; destruct sent; set_solver).
  split; unfold under_way; cbn [trace client lost copied to_server to_client].
  - unfold rounds_trace. rewrite fmap_app, concat_app, H1. cbn. by rewrite app_nil_r.
  - unfold rounds_client. rewrite foldl_app, H2. done.
  - exact (rounds_snoc (fun l r => answered r ∈ stamps t0 l) rs r H3 Hs).
  - rewrite stamps_snoc, Forall_app. split; [done | by constructor].
  - rewrite stamps_snoc, Forall_forall. intros z [Hz | ->]%Hin.
    + assert (Forall (fun x => exists t, t ∈ stamps t0 rs /\ take 16 x = ts_bytes t) (to_server y ++ q)) as Hall by by apply Forall_app.
      rewrite Forall_forall in Hall. destruct (Hall z Hz) as (u & Hu & E). exists u. set_solver.
    + exists t. rewrite take_ge by (rewrite length_stamp; lia). cbn [r next]. set_solver.
  - rewrite !length_app. destruct sent; cbn [length]; lia.
  - intros Hz. destruct (H8 Hz) as (_ & Hxn & _).
    refine (rounds_snoc (fun l r => answered r = newest t0 l) rs r (H7 Hz) _).
    assert (ts_bytes s = ts_bytes (newest t0 rs)) as E by congruence. cbn [r answered].
    assert (ts_clock (newest t0 rs)) as Hcn by (rewrite Forall_forall in H4; apply H4, newest_in).
    pose proof (ts_at_bytes s (clock_norm _ Hcs)) as E1. rewrite E, (ts_at_bytes _ (clock_norm _ Hcn)) in E1. by injection E1.
  - intros Hz. rewrite newest_snoc. assert (to_server y = [] /\ q = []) as [Hts ->] by (split; apply nil_length_inv; lia).
    rewrite Hts. cbn [app r next]. destruct sent; [ | constructor]. constructor; [ | constructor].
    by rewrite take_ge by (rewrite length_stamp; lia).
Qed.

(** One action: a round more or none, and none when nothing is under way. *)
Lemma net_act_ok c0 t0 rs a y n : allowed a -> droom (server y) (cost a + n) -> consistent c0 t0 rs y ->
  exists y' rs', act a y = Ok y' /\ droom (server y') n /\ consistent c0 t0 (rs ++ rs') y' /\
    timing <$> rs' `sublist_of` replies_of [a] /\ (under_way y = [] -> rs' = [] /\ under_way y' = []).
Proof.
  intros Ha Hr Hc.
  assert (forall y', consistent c0 t0 rs y' -> copied y' = copied y -> (lost y <= lost y')%nat -> under_way y = [] -> under_way y' = []) as Hsil.
  { intros y' Hc' E1 E2 E3. pose proof (co_count _ _ _ _ Hc) as N. pose proof (co_count _ _ _ _ Hc') as N'.
    rewrite E3 in N. apply nil_length_inv. cbn [length] in N. lia. }
  destruct a as [pattern sent | | e t sent | side w].
  - destruct (serve_step _ _ _ _ _ _ _ Ha Hr Hc) as (y' & E & Hr' & Hc' & E1 & E2). exists y', []. rewrite app_nil_r. eauto 10.
  - destruct (tick_step _ _ _ _ _ Hr Hc) as (y' & E & Hr' & Hc' & E1 & E2). exists y', []. rewrite app_nil_r. eauto 10.
  - destruct (to_client y) as [ | x q] eqn:Eq.
    + exists y, []. cbn [act]. rewrite Eq, app_nil_r. do 3 (split; [done | ]). split; [apply sublist_nil_l | done].
    + destruct (reply_step c0 t0 rs e t sent y (proj1 Ha) (proj2 Ha) Hc) as (y' & s & E & Hs & Hc' & Hn); [by rewrite Eq | ].
      exists y', [MkRound s e t sent]. rewrite Hs. done.
  - destruct (network_step c0 t0 rs side w y Hc) as (y' & E & Hs & Hc' & Hw). exists y', []. rewrite app_nil_r, Hs. eauto 10.
Qed.
Lemma replies_cons a acts : replies_of (a :: acts) = replies_of [a] ++ replies_of acts.
Proof. unfold replies_of. cbn. by destruct a. Qed.
Lemma net_perform_ok c0 t0 m acts : forall rs y, Forall allowed acts -> droom (server y) (total acts + m) -> consistent c0 t0 rs y ->
  exists y' rs', perform acts y = Ok y' /\ droom (server y') m /\ consistent c0 t0 (rs ++ rs') y' /\
    timing <$> rs' `sublist_of` replies_of acts /\ (under_way y = [] -> rs' = [] /\ under_way y' = []).
Proof.
  induction acts as [ | a acts IH]; intros rs y Ha Hr Hc; cbn [perform].
  { exists y, []. by rewrite app_nil_r. }
  apply Forall_cons in Ha as [Ha Hall]. unfold total in Hr. cbn [sum_list_with] in Hr. rewrite <- Nat.add_assoc in Hr.
  destruct (net_act_ok c0 t0 rs a y _ Ha Hr Hc) as (y1 & rs1 & -> & Hr1 & Hc1 & Hs1 & Hw1). rewrite obind_ok.
  destruct (IH (rs ++ rs1) y1 Hall Hr1 Hc1) as (y2 & rs2 & -> & Hr2 & Hc2 & Hs2 & Hw2).
  exists y2, (rs1 ++ rs2). rewrite app_assoc. split; [done | ]. split; [done | ]. split; [done | ]. split.
  - rewrite fmap_app, replies_cons. by apply sublist_app.
  - intros [-> Hu]%Hw1. by destruct (Hw2 Hu) as [-> ?].
Qed.
Lemma opened_consistent s c0 t0 : ts_clock t0 -> consistent c0 t0 [] (opened s c0 t0).
Proof.
  intros H0'. assert (take 16 (ts_bytes t0) = ts_bytes t0) as Ht by (apply take_ge; rewrite length_stamp; lia).
  split; try done.
  - apply Forall_singleton. done.
  - apply Forall_singleton. exists t0. split; [left | done].
  - intros _. by apply Forall_singleton.
Qed.
(** Whatever is under way is answered when it is delivered. *)
Lemma round_possible c0 t0 rs y e t : ts_clock e -> ts_clock t -> consistent c0 t0 rs y -> droom (server y) 1 -> under_way y <> [] ->
  exists y' s, perform [Serve [None] true; Reply e t true] y = Ok y' /\ consistent c0 t0 (rs ++ [MkRound s e t true]) y'.
Proof.
  intros He Ht Hc Hr Hu. cbn [perform].
  assert (allowed (Serve [None] true)) as Ha by (split; [apply batch_pos | by repeat constructor]).
  destruct (serve_step c0 t0 rs [None] true y 0 Ha Hr Hc) as (y1 & E1 & _ & Hc1 & Hk & Hl).
  rewrite E1, obind_ok.
  assert (to_client y1 <> []) as Hn.
  { cbn [act fill] in E1. unfold under_way in Hu. destruct (to_server y) as [ | x q] eqn:Eq; [by injection E1 as <- | ].
    destruct (serve_ok [mk_dgram me x] true (server y) 0) as (s' & es & Es & _ & Hes); [pose proof batch_pos; cbn [length]; lia | done | ].
    rewrite Es, obind_ok in E1. injection E1 as <-. cbn [to_client].
    pose proof (Forall2_length _ _ _ (mine_echoes _ _ (Hes eq_refl))) as Hlen.
    assert (mine (pairs [mk_dgram me x]) = [x]) as Em by (unfold mine; cbn; by rewrite Z.eqb_refl). rewrite Em in Hlen.
    intros [_ E]%app_eq_nil. by rewrite E in Hlen. }
  destruct (reply_step c0 t0 rs e t true y1 He Ht Hc1 Hn) as (y2 & s & E2 & _ & Hc2 & _).
  rewrite E2, obind_ok. by exists y2, s.
Qed.
End Pair.

(** ** The servers and the clients *)
Definition ctx_room (c : server_context) (n : nat) : Prop :=
  0 <= at_second c /\ at_second c + Z.of_nat n <= INT_MAX /\ 0 <= message_per_second c /\ message_per_second c + Z.of_nat n <= INT_MAX.
Lemma ctx_room_weaken c n m : (n <= m)%nat -> ctx_room c m -> ctx_room c n.
Proof. unfold ctx_room. lia. Qed.
Lemma on_perf_room c n : ctx_room c (S n) -> exists c' es, on_perf c = Ok (c', es) /\ ctx_room c' n.
Proof.
  intros (H1 & H2 & H3 & H4). unfold on_perf. rewrite cint_ok, obind_ok by int_bounds.
  eexists _, _. split; [done | ]. unfold ctx_room. cbn [at_second message_per_second]. lia.
Qed.
Lemma take_16_take n (l : bytes) : (16 <= n)%nat -> take 16 (take n l) = take 16 l.
Proof. intros H. by rewrite take_take, Nat.min_l. Qed.
#[export, refine] Instance udp_server : DatagramServer server_context :=
  {| batch := 1; tick := on_perf; droom := ctx_room;
     serve ds sent c :=
       match ds with
       | d :: _ => on_read (Some d) (if sent : bool then len (take 1024 (data d)) else -1) c
       | [] => on_read None 0 c
       end |}.
Proof.
  - done.
  - exact ctx_room_weaken.
  - exact on_perf_room.
  - intros [ | d [ | d' ds]] sent c n Hl (H1 & H2 & H3 & H4); cbn [length] in *; try lia.
    unfold on_read. rewrite cint_ok, obind_ok by int_bounds. eexists _, _. split; [done | ].
    split; [unfold ctx_room; cbn [at_second message_per_second]; lia | ]. intros ->.
    rewrite (proj2 (Z.ltb_ge (len (take 1024 (data d))) 0)) by lia.
    apply Forall2_cons_2; [ | by apply Forall2_nil_2]. split; [done | ]. intros _. apply (take_16_take 1024). lia.
Defined.

Lemma batch_echoes bufs : forall ds, (length ds <= length bufs)%nat -> Forall2 echoes ds (answers (zip_with reply_of bufs ds)).
Proof.
  induction bufs as [ | b bufs IH]; intros [ | d ds] Hl; cbn [length] in Hl; try lia; [constructor.. | ].
  unfold answers in *. cbn. constructor; [ | apply IH; lia]. split; [done | ]. cbn [snd]. intros Hd.
  rewrite take_16_take by lia. unfold buffer_after. cbn zeta.
  rewrite take_app_le by (rewrite length_take; lia). apply take_16_take. lia.
Qed.
#[export, refine] Instance mmsg_server : DatagramServer (list bytes * server_context) :=
  {| batch := 32; droom s n := bufs_ok s.1 /\ ctx_room s.2 n;
     tick s := let! '(c, es) := on_perf s.2 in Ok (s.1, c, es);
     serve ds sent s :=
       let! '(bufs, c, es) := Datagram.mmsg_on_read (Some ds) (if sent : bool then len ds else -1) s.1 s.2 in
       Ok (bufs, c, es) |}.
Proof.
  - lia.
  - intros s n m Hn [Hb Hr]. split; [done | ]. by apply (ctx_room_weaken _ n m).
  - intros [bufs c] n [Hb Hr]. destruct (on_perf_room c n Hr) as (c' & es & E & Hr'). cbn [fst snd]. rewrite E, obind_ok.
    by eexists _, _.
  - intros ds sent [bufs c] n Hl [Hb (H1 & H2 & H3 & H4)]. cbn [fst snd] in *.
    destruct (mmsg_on_read_sent ds (if sent then len ds else -1) bufs c Hb) as [E Hb']; [lia | int_bounds | ].
    rewrite E, obind_ok. eexists _, _. split; [done | ]. split; [split; [done | ] | ].
    + unfold ctx_room. cbn [snd at_second message_per_second]. lia.
    + intros ->. rewrite (proj2 (Z.eqb_neq (len ds) (-1))) by lia. apply batch_echoes. destruct Hb as [-> _]. lia.
Defined.

#[export, refine] Instance udp_client : DatagramClient unit :=
  {| on_reply fd addr _ := udp_on_read fd addr; report := udp_report; measure _ _ c := c |}.
Proof.
  - intros s e. unfold udp_report. by destruct (_ <? _).
  - intros fd addr [] x s e t sent Hs He Ht Hx. unfold reply_answers. rewrite Hx, length_stamp.
    change (Z.of_nat 16) with 16. rewrite (udp_round_sent fd addr s e t _ [] Hs He Ht). by destruct sent.
Defined.
#[export, refine] Instance mmsg_client : DatagramClient mstat :=
  {| on_reply := Clients.mmsg_on_read; report _ _ := []; measure := round_stat |}.
Proof.
  - done.
  - intros fd addr c x s e t sent Hs He Ht Hx. unfold reply_answers. rewrite Hx, length_stamp.
    change (Z.of_nat 16) with 16. rewrite (mmsg_round_sent fd addr s e t _ c [] Hs He Ht). by destruct sent.
Defined.

(** ** Properties *)

(** C7. A datagram latency client with a datagram echo server over a network that loses,
    copies and reorders datagrams, while the server answers others and its timer runs:
    every run is defined; the client's trace and statistics are those of a sequence of
    rounds, each with the clock of one of its callbacks and with the stamp of a request
    sent before, and of the last one if no datagram was copied; the requests and replies
    under way plus the lost ones are one more than the copies, so that while any is under way
    the next round can be completed, and once all are lost nothing that can happen makes
    the client measure again: it never repeats a request.  Both clients and both servers
    are instances. *)
Theorem datagram_pair {S C : Type} `{DatagramServer S} `{DatagramClient C} (me fd : Z) (addr : bytes) (s : S) (c : C)
    (t0 : timespec) (acts : list action) :
  droom s (total acts + 1) -> Forall (allowed me) acts -> ts_clock t0 ->
  exists y rs, perform me fd addr acts (opened s c t0) = Ok y /\
    trace y = rounds_trace fd addr rs /\ client y = rounds_client c rs /\
    timing <$> rs `sublist_of` replies_of acts /\
    answers_some t0 rs /\ (copied y = 0%nat -> answers_last t0 rs) /\
    (length (under_way y) + lost y = 1 + copied y)%nat /\
    ((lost y < 1 + copied y)%nat -> forall e t, ts_clock e -> ts_clock t ->
       exists y' u, perform me fd addr [Serve [None] true; Reply e t true] y = Ok y' /\
         u ∈ stamps t0 rs /\ trace y' = trace y ++ round_trace fd addr (MkRound u e t true)) /\
    (lost y = (1 + copied y)%nat -> forall acts' , Forall (allowed me) acts' -> droom (server y) (total acts') ->
       exists y', perform me fd addr acts' y = Ok y' /\ trace y' = trace y /\ client y' = client y).
Proof.
  intros Hr Ha H0'. destruct (net_perform_ok me fd addr c t0 1 acts [] (opened s c t0) Ha Hr (opened_consistent fd addr s c t0 H0'))
    as (y & rs & E & Hr1 & Hc & Hsub & _). cbn [app] in Hc. pose proof Hc as [H1 H2 H3 H4 H5 H6 H7 H8].
  exists y, rs. do 7 (split; [done | ]). split.
  - intros Hl e t He Ht. assert (under_way y <> []) as Hu by (intros Hu; rewrite Hu in H6; cbn [length] in H6; lia).
    destruct (round_possible me fd addr c t0 rs y e t He Ht Hc Hr1 Hu) as (y' & u & E' & [T1 _ T3 _ _ _ _ _]).
    exists y', u. split; [done | ]. split.
    + specialize (T3 (length rs) (MkRound u e t true)). rewrite take_app_length in T3. apply T3.
      rewrite lookup_app_r, Nat.sub_diag by lia. done.
    + rewrite T1, H1. unfold rounds_trace. rewrite fmap_app, concat_app. cbn. by rewrite app_nil_r.
  - intros Hl acts' Ha' Hr'. assert (under_way y = []) as Hu by (apply nil_length_inv; lia).
    rewrite <- (Nat.add_0_r (total acts')) in Hr'.
    destruct (net_perform_ok me fd addr c t0 0 acts' rs y Ha' Hr' Hc) as (y' & rs' & E' & _ & [T1 T2 _ _ _ _ _ _] & _ & Hw).
    destruct (Hw Hu) as [-> _]. rewrite app_nil_r in T1, T2. exists y'. rewrite T1, T2, H1, H2. done.
Qed.

(** A batch with another sender's datagram, a copied reply, a lost request and a failed
    send: the client measures twice against the same request and is then silent. *)
Lemma datagram_pair_witness :
  let acts := [Serve [Some (mk_dgram 9 [1; 2]); None] true; Network true (Copy 0); Reply (mk_ts 5 3) (mk_ts 5 4) true; Tick;
               Network false (Lose 0); Reply (mk_ts 6 2) (mk_ts 6 3) false] in
  exists y rs, perform (S := list bytes * server_context) (C := mstat) 7 3 [] acts (opened (init_bufs, mk_ctx 0 0) (mk_mstat 0 0) (mk_ts 5 2)) = Ok y /\
    client y = rounds_client (mk_mstat 0 0) rs /\ trace y = rounds_trace (C := mstat) 3 [] rs /\ answers_some (mk_ts 5 2) rs.
Proof.
  intros acts.
  destruct (datagram_pair (S := list bytes * server_context) (C := mstat) 7 3 [] (init_bufs, mk_ctx 0 0) (mk_mstat 0 0) (mk_ts 5 2) acts)
    as (y & rs & E & Ht & Hc & _ & Hs & _).
  - split; [exact init_bufs_ok | ]. repeat split; vm_compute; discriminate.
  - apply Forall_cons_2; [ | repeat (apply Forall_cons_2; [(exact I || (cbn; unfold ts_clock, BILLION; cbn; lia)) | ]); apply Forall_nil_2].
    split; [cbn; lia | ]. apply Forall_cons_2; [discriminate | ]. apply Forall_cons_2; [exact I | apply Forall_nil_2].
  - repeat split; vm_compute; (discriminate || reflexivity).
  - exists y, rs. exact (conj E (conj Hc (conj Ht Hs))).
Defined.
End DatagramPair.
