(* ===== verification/Message.v ===== *)
(** * Messages with a header: [struct_serialization]

    [message.c] lays out a request of variable length; the client sends one with a
    random string and its time, the server prints the string and echoes the
    message.  The event loops and the start-up code are those of [Clients] and
    [Echo]. *)
From S2P Require Import Prelude CLib Bytes Sys Clients Echo.

Module Message.
Import Clients Echo.

(** [struct client_request]: [length] at 0, [ts] at 8, [content] at 24, 32 bytes. *)
Definition SIZEOF_REQUEST : Z := 32.
Definition OFF_TS : Z := 8.
Definition OFF_CONTENT : Z := 24.

(** ** [message.c] *)
Definition message_length (request : bytes) : outcome Z :=
  let! l := get32 request 0 in Ok (u32 (l - (SIZEOF_REQUEST - 1))).

(** [malloc] gives a block with arbitrary contents or none; the result of a failure
    is dereferenced. *)
Definition create_client_request (malloc : Z -> option bytes) (data : bytes) (data_size : Z) : outcome bytes :=
  let message_size := u32 (SIZEOF_REQUEST + data_size - 1) in
  match malloc message_size with
  | None => Ub
  | Some request =>
      let! request := set32 request 0 message_size in
      let! d := load data 0 data_size in
      store request OFF_CONTENT d
  end.

(** ** [client.c] *)
Definition DATA_SIZE : Z := 16.
Definition alphanum : bytes := lit "0123456789abcdefghijklmnopqrstuvwxyz".

(** [random_string]: one [rand()] per character and a final zero. *)
Fixpoint random_chars (n : nat) : io bytes :=
  match n with
  | O => iret []
  | S n =>
      let? r := ask "rand" [] [] in
      let? c := lift (rd alphanum (ret r mod 36)) in
      let? s := random_chars n in
      iret (c :: s)
  end.
Definition random_string (n : Z) : io bytes :=
  let? s := random_chars (Z.to_nat (n - 1)) in iret (s ++ [0]).

Section Programs.
Context (malloc : Z -> option bytes).

Definition send_request : io unit :=
  let? data := random_string DATA_SIZE in
  let? request := lift (create_client_request malloc data DATA_SIZE) in
  let? ts := clock in
  let? request := lift (store request OFF_TS (ts_bytes ts)) in
  let? n := lift (get32 request 0) in
  let? m := lift (load request 0 n) in
  tell (Call "bufferevent_write" [n] m).

Definition readcb : io unit :=
  let? r := ask "evbuffer_remove" [128] [] in
  if ret r <? 0 then iret tt
  else
    let? buffer := lift (store (replicate 128 0) 0 (filled r)) in
    let? content := lift (cstr buffer OFF_CONTENT) in
    let? size := lift (message_length buffer) in
    let? _ := tell (Out (lit "content: " ++ content ++ lit " -- size: " ++ dec (i32 size))) in
    let? end_ := clock in
    let? start := lift (ts_at buffer OFF_TS) in
    let? '(result, _) := lift (timespec_diff end_ start) in
    let? _ := tell (Out (dec_long (tv_sec result) ++ lit "." ++ dec_prec9 (tv_nsec result))) in
    send_request.

Definition client_main : list bytes -> list callback -> io Z := bev_main send_request readcb.

(** ** [server.c] *)
Context {W : Type} `{BufferEvents W}.

(** [buffer] is not initialised: the string has to end inside the bytes removed. *)
Definition echo_read_cb (bev : Z) (mem : bool) (s : srv (W := W) stat) : outcome (srv (W := W) stat) :=
  let '(buffer, w) := evbuffer_remove bev 128 (world s) in
  let! content := cstr buffer OFF_CONTENT in
  let '(n, w) := evbuffer_add bev buffer w in
  let lg := log s ++ [Out (lit "content " ++ content)] ++ (if n <? 0 then [Err (lit "evbuffer_add")] else []) in
  let! p := cint (pps (ctx s) + 1) in
  Ok (mk_srv (mk_stat p (ts (ctx s))) w lg (exiting s)).

Definition server_callbacks : callbacks (W := W) stat :=
  mk_callbacks _ echo_read_cb on_stats (fun bev => [Call "bufferevent_priority_set" [bev; 2] []]).
Definition message_server_main : list bytes -> list sev -> W -> io Z :=
  server_main server_callbacks (mk_stat 0 0) (iret tt) (fun _ => iret tt).
End Programs.

(** ** Specification *)

(** A request on the wire: length, padding, time, content and the unused end of the
    block. *)
Definition wire (n : Z) (pad : bytes) (t : timespec) (content rest : bytes) : bytes :=
  le_bytes 4 (n + 31) ++ pad ++ ts_bytes t ++ content ++ rest.
(** The string chosen by the results of [rand]. *)
Definition chosen (rs : list Z) : bytes := (fun r => nth (Z.to_nat (r mod 36)) alphanum 0) <$> rs.

(** ** Lemmas *)
Lemma length_ts_bytes t : length (ts_bytes t) = 16%nat.
Proof. unfold ts_bytes. by rewrite length_app, !length_le_bytes. Qed.

(** A block cut at the fields of a request with [n] bytes of content. *)
Lemma block_fields (blk : bytes) n :
  length blk = (n + 31)%nat ->
  exists l4 pad ts0 c0 rest, blk = l4 ++ pad ++ ts0 ++ c0 ++ rest /\
    length l4 = 4%nat /\ length pad = 4%nat /\ length ts0 = 16%nat /\ length c0 = n /\ length rest = 7%nat.
Proof.
  intros Hl. exists (take 4 blk), (take 4 (drop 4 blk)), (take 16 (drop 8 blk)), (take n (drop 24 blk)), (drop (24 + n) blk).
  split; [ | rewrite !length_take, !length_drop; lia].
  rewrite <- (take_drop 4 blk) at 1. f_equal. rewrite <- (take_drop 4 (drop 4 blk)) at 1. f_equal.
  rewrite drop_drop. rewrite <- (take_drop 16 (drop (4 + 4) blk)) at 1. f_equal. rewrite drop_drop.
  rewrite <- (take_drop n (drop (4 + 4 + 16) blk)) at 1. f_equal. by rewrite drop_drop.
Qed.

Lemma create_ok malloc data l4 pad ts0 c0 rest :
  let n := len c0 in
  n + 31 < 2 ^ 32 -> n <= len data ->
  malloc (n + 31) = Some (l4 ++ pad ++ ts0 ++ c0 ++ rest) ->
  length l4 = 4%nat -> length pad = 4%nat -> length ts0 = 16%nat ->
  create_client_request malloc data n = Ok (le_bytes 4 (n + 31) ++ pad ++ ts0 ++ take (Z.to_nat n) data ++ rest).
Proof.
  intros n Hn Hd Hm H1 H2 H3. unfold create_client_request, SIZEOF_REQUEST, OFF_CONTENT.
  assert (u32 (32 + n - 1) = n + 31) as -> by (unfold u32, uwrap; rewrite Z.mod_small; lia).
  rewrite Hm. unfold set32, set_le.
  rewrite (store_prefix l4), obind_ok by (rewrite ?length_le_bytes; done).
  rewrite load_ok, obind_ok by lia. unfold slice. rewrite drop_0.
  replace (le_bytes 4 (n + 31) ++ pad ++ ts0 ++ c0 ++ rest) with ((le_bytes 4 (n + 31) ++ pad ++ ts0) ++ c0 ++ rest)
    by (rewrite <- !app_assoc; done).
  rewrite store_mid; [by rewrite <- !app_assoc | rewrite !length_app, length_le_bytes; lia | rewrite length_take; lia].
Qed.

Lemma cstr_mid p s r off : off = len p -> Forall (fun c => c <> 0) s -> cstr (p ++ s ++ 0 :: r) off = Ok s.
Proof.
  intros -> Hs. unfold cstr. rewrite (proj2 (Z.ltb_ge _ _)) by lia.
  by rewrite Nat2Z.id, drop_app_length, until_nul_app.
Qed.
Lemma ts_at_mid p t r off : off = len p -> ts_norm t -> ts_at (p ++ ts_bytes t ++ r) off = Ok t.
Proof.
  intros -> Ht. rewrite <- (ts_at_bytes t Ht). unfold ts_at, get64, get_le, ts_bytes.
  pose proof (length_le_bytes 8 (tv_sec t)). pose proof (length_le_bytes 8 (tv_nsec t)).
  rewrite <- !app_assoc. rewrite (load_mid p), obind_ok by (rewrite ?length_le_bytes; done).
  rewrite (load_prefix (le_bytes 8 (tv_sec t))), obind_ok by (rewrite ?length_le_bytes; done).
  rewrite (app_assoc p), load_mid, obind_ok by (rewrite ?length_app, ?length_le_bytes; lia).
  pose proof (load_mid (le_bytes 8 (tv_sec t)) (le_bytes 8 (tv_nsec t)) [] (0 + 8) (Z.of_nat 8)) as E.
  rewrite app_nil_r in E. rewrite E, !obind_ok by (rewrite ?length_le_bytes; lia). done.
Qed.

Lemma alphanum_at r : exists c, rd alphanum (r mod 36) = Ok c /\ nth (Z.to_nat (r mod 36)) alphanum 0 = c /\ c <> 0.
Proof.
  pose proof (Z.mod_pos_bound r 36 ltac:(lia)) as Hb.
  assert (Forall (fun c => c <> 0) alphanum) as Hall by (vm_compute; repeat constructor; discriminate).
  destruct (lookup_lt_is_Some_2 alphanum (Z.to_nat (r mod 36))) as [c Hc]; [change (length alphanum) with 36%nat; lia | ].
  exists c. split; [apply rd_ok; [lia | done] | ]. split; [by apply nth_lookup_Some | by eapply Forall_lookup_1 in Hall].
Qed.

Lemma random_chars_ok rs ans :
  random_chars (length rs) ((ok <$> rs) ++ ans) = (replicate (length rs) (Call "rand" [] []), Ok (chosen rs, ans)) /\
  Forall (fun c => c <> 0) (chosen rs).
Proof.
  induction rs as [ | r rs [IH1 IH2]]; [by split | ]. destruct (alphanum_at r) as (c & E1 & E2 & E3).
  cbn [length random_chars fmap list_fmap app replicate chosen]. rewrite E2. split; [ | by constructor].
  erewrite ibind_ok by reflexivity. cbn [ret ok]. rewrite (ibind_lift _ _ _ _ E1).
  rewrite (ibind_ok _ _ _ _ _ _ IH1). cbn [iret fst snd app]. by rewrite app_nil_r.
Qed.

(** What is read from a request on the wire, in a buffer that holds more. *)
Lemma wire_fields n pad t content rest r :
  length pad = 4%nat -> ts_norm t -> 0 <= n -> n + 31 < 2 ^ 32 ->
  message_length (wire n pad t content rest ++ r) = Ok n /\
  ts_at (wire n pad t content rest ++ r) OFF_TS = Ok t.
Proof.
  intros Hp Ht Hn1 Hn2. unfold wire, message_length, get32, OFF_TS, SIZEOF_REQUEST. rewrite <- !app_assoc. split.
  - rewrite get_le_prefix, obind_ok. f_equal. unfold u32, uwrap. change (256 ^ Z.of_nat 4) with (2 ^ 32).
    rewrite (Z.mod_small (n + 31)) by lia. rewrite Z.mod_small; lia.
  - rewrite (app_assoc _ pad). apply ts_at_mid; [rewrite length_app, length_le_bytes; lia | done].
Qed.
Lemma wire_content n pad t str rest r :
  length pad = 4%nat -> Forall (fun c => c <> 0) str ->
  cstr (wire n pad t (str ++ [0]) rest ++ r) OFF_CONTENT = Ok str.
Proof.
  intros Hp Hs. unfold wire, OFF_CONTENT. rewrite <- !app_assoc, (app_assoc pad), (app_assoc (le_bytes _ _)). cbn [app].
  apply cstr_mid; [rewrite !length_app, length_le_bytes, length_ts_bytes; lia | done].
Qed.
Lemma length_wire n pad t content rest :
  length pad = 4%nat -> length rest = 7%nat -> length (wire n pad t content rest) = (length content + 31)%nat.
Proof. intros H1 H2. unfold wire. rewrite !length_app, length_le_bytes, length_ts_bytes. lia. Qed.

Lemma send_request_ok malloc rs t blk ans :
  malloc 47 = Some blk -> length blk = 47%nat -> length rs = 15%nat -> ts_norm t ->
  exists pad rest, length pad = 4%nat /\ length rest = 7%nat /\
    send_request malloc ((ok <$> rs) ++ stamp t :: ans) =
      (replicate 15 (Call "rand" [] []) ++
       [Call "clock_gettime" [0] []; Call "bufferevent_write" [47] (wire 16 pad t (chosen rs ++ [0]) rest)], Ok (tt, ans)).
Proof.
  intros Hm Hb Hr Ht. destruct (block_fields blk 16 Hb) as (l4 & pad & ts0 & c0 & rest & -> & H1 & H2 & H3 & H4 & H5).
  exists pad, rest. split; [done | ]. split; [done | ].
  destruct (random_chars_ok rs (stamp t :: ans)) as [E _]. rewrite Hr in E.
  assert (length (chosen rs) = 15%nat) as Hc by (unfold chosen; by rewrite length_fmap).
  unfold send_request, random_string. change (Z.to_nat (DATA_SIZE - 1)) with 15%nat.
  erewrite ibind_ok by (erewrite ibind_ok by apply E; reflexivity). cbn [fst snd].
  pose proof (create_ok malloc (chosen rs ++ [0]) l4 pad ts0 c0 rest) as Ec. rewrite H4 in Ec.
  specialize (Ec ltac:(lia) ltac:(rewrite length_app; cbn [length]; lia) Hm H1 H2 H3).
  rewrite (take_ge (chosen rs ++ [0])) in Ec by (rewrite length_app; cbn [length]; lia).
  erewrite ibind_lift by apply Ec. erewrite ibind_ok by apply (clock_stamp t ans Ht). cbn [fst snd].
  set (content := chosen rs ++ [0]) in *.
  assert (store (le_bytes 4 (Z.of_nat 16 + 31) ++ pad ++ ts0 ++ content ++ rest) OFF_TS (ts_bytes t) =
          Ok (wire 16 pad t content rest)) as Es.
  { rewrite (app_assoc _ pad), store_mid; [unfold wire; by rewrite <- app_assoc | | by rewrite length_ts_bytes].
    unfold OFF_TS. rewrite length_app, length_le_bytes. lia. }
  erewrite ibind_lift by apply Es.
  erewrite ibind_lift by apply (get_le_prefix 4 (16 + 31)). change ((16 + 31) mod _) with 47.
  erewrite ibind_lift.
  2:{ rewrite <- (app_nil_r (wire 16 pad t content rest)). apply load_prefix. rewrite length_wire by done.
      unfold content. rewrite length_app. cbn [length]. lia. }
  cbn [fst snd tell]. rewrite !app_nil_r. done.
Qed.

(** ** Properties *)

(** C25. [create_client_request]: for every size below 2^32 - 31 and a block of the
    size asked for, the result has the content at its offset and
    [message_length] gives the size back; for a larger size the size of the block
    wraps around and the copy of the content is out of bounds. *)
Theorem message_roundtrip malloc data n :
  0 <= n < 2 ^ 32 -> n <= len data ->
  (forall k blk, malloc k = Some blk -> len blk = k) -> is_Some (malloc (u32 (n + 31))) ->
  (n < 2 ^ 32 - 31 ->
     exists m, create_client_request malloc data n = Ok m /\ len m = n + 31 /\
       message_length m = Ok n /\ load m OFF_CONTENT n = Ok (take (Z.to_nat n) data)) /\
  (2 ^ 32 - 31 <= n -> create_client_request malloc data n = Ub).
Proof.
  intros Hn Hd Hlen [blk Hblk]. split; intros Hb.
  - assert (u32 (n + 31) = n + 31) as Eu by (unfold u32, uwrap; rewrite Z.mod_small; lia). rewrite Eu in Hblk.
    destruct (block_fields blk (Z.to_nat n)) as (l4 & pad & ts0 & c0 & rest & -> & H1 & H2 & H3 & H4 & H5).
    { specialize (Hlen _ _ Hblk). lia. }
    pose proof (create_ok malloc data l4 pad ts0 c0 rest) as Ec. cbv zeta in Ec. rewrite H4, Z2Nat.id in Ec by lia.
    specialize (Ec ltac:(lia) Hd Hblk H1 H2 H3). eexists. split; [exact Ec | ]. split.
    { rewrite !length_app, length_le_bytes, length_take. lia. }
    split.
    + unfold message_length, get32, SIZEOF_REQUEST. rewrite get_le_prefix, obind_ok.
      f_equal. unfold u32, uwrap. change (256 ^ Z.of_nat 4) with (2 ^ 32). rewrite (Z.mod_small (n + 31)), Z.mod_small; lia.
    + rewrite (app_assoc pad), (app_assoc (le_bytes _ _)). unfold OFF_CONTENT.
      apply load_mid; [rewrite !length_app, length_le_bytes; lia | rewrite length_take; lia].
  - unfold create_client_request, SIZEOF_REQUEST, OFF_CONTENT. replace (32 + n - 1) with (n + 31) by lia.
    rewrite Hblk. specialize (Hlen _ _ Hblk).
    assert (u32 (n + 31) = n + 31 - 2 ^ 32) as Eu.
    { unfold u32, uwrap. symmetry. apply (Z.mod_unique _ _ 1); lia. }
    rewrite Eu in *. unfold set32, set_le, store at 1. destruct (in_buf blk 0 _) eqn:Es; [ | done].
    apply in_buf_spec in Es. rewrite obind_ok, load_ok, obind_ok by lia.
    apply store_oob. right. rewrite length_splice by lia. rewrite length_slice by lia. lia.
Qed.

Section Exchange.
Context {W : Type} `{BufferEventLaws W}.

(** The server on a message that fits its buffer and ends its string. *)
Lemma message_served b mem (s : srv (W := W) stat) m str :
  (length m <= 128)%nat -> cstr m OFF_CONTENT = Ok str ->
  input (world s) b = [] -> 0 <= pps (ctx s) < INT_MAX -> (forall d w, 0 <= fst (evbuffer_add (W := W) b d w)) ->
  exists s', handle server_callbacks (EvRead b m mem) s = Ok s' /\
    log s' = log s ++ [Out (lit "content " ++ str)] /\
    output (world s') b = output (world s) b ++ m /\ input (world s') b = [].
Proof.
  intros Hlm Hcs Hi Hp Hadd. cbn [handle on_read_cb server_callbacks]. unfold echo_read_cb. cbn [world ctx log exiting].
  destruct (evbuffer_remove b 128 (arrive b m (world s))) as [buffer w1] eqn:Er.
  pose proof (remove_bytes (arrive b m (world s)) b 128) as E1. pose proof (input_remove (arrive b m (world s)) b 128 b) as E2.
  pose proof (output_remove (arrive b m (world s)) b 128 b) as E3.
  rewrite Er, input_arrive, decide_True, Hi in E1 by done. rewrite Er, !decide_True, input_arrive, decide_True, Hi in E2 by done.
  rewrite Er, output_arrive in E3. cbn [fst snd app] in E1, E2, E3.
  rewrite take_ge in E1 by lia. rewrite drop_ge in E2 by lia. subst buffer.
  rewrite Hcs, obind_ok. pose proof (Hadd m w1) as Hn. pose proof (output_add w1 b m b Hn) as E4. pose proof (input_add w1 b m b) as E5.
  destruct (evbuffer_add b m w1) as [n w2]. cbn [fst snd] in *. rewrite decide_True in E4 by done.
  rewrite (proj2 (Z.ltb_ge n 0)), cint_ok, obind_ok by int_bounds.
  eexists. split; [done | ]. cbn [log world]. rewrite app_nil_r, E4, E5, E2, E3. done.
Qed.

(** One exchange: for any fifteen results of [rand] and any times, the client
    writes a 47-byte request; the server prints its string and sends the very
    bytes back; the client then prints the string, the size 16 and the exact time
    since it sent the request. *)
Theorem request_exchange malloc rs t e b mem (s : srv (W := W) stat) blk :
  malloc 47 = Some blk -> length blk = 47%nat -> length rs = 15%nat -> ts_clock t -> ts_clock e ->
  input (world s) b = [] -> 0 <= pps (ctx s) < INT_MAX ->
  (forall d w, 0 <= fst (evbuffer_add (W := W) b d w)) ->
  exists m tr s',
    send_request malloc ((ok <$> rs) ++ [stamp t]) = (tr ++ [Call "bufferevent_write" [47] m], Ok (tt, [])) /\
    handle server_callbacks (EvRead b m mem) s = Ok s' /\
    log s' = log s ++ [Out (lit "content " ++ chosen rs)] /\
    output (world s') b = output (world s) b ++ m /\ input (world s') b = [] /\
    exists tr' o, readcb malloc (mk_answer 47 0 m :: [stamp e]) =
      ([Call "evbuffer_remove" [128] []; Out (lit "content: " ++ chosen rs ++ lit " -- size: 16");
        Call "clock_gettime" [0] []; Out (show_ns (ns e - ns t))] ++ tr', o).
Proof.
  intros Hm Hb Hr Ht He Hi Hp Hadd. pose proof (clock_norm _ Ht) as Nt. pose proof (clock_norm _ He) as Ne.
  destruct (send_request_ok malloc rs t blk [] Hm Hb Hr Nt) as (pad & rest & Hpad & Hrest & Esend).
  destruct (random_chars_ok rs []) as [_ Hch].
  assert (length (chosen rs ++ [0]) = 16%nat) as Hc by (unfold chosen; rewrite length_app, length_fmap; cbn; lia).
  set (m := wire 16 pad t (chosen rs ++ [0]) rest) in *.
  assert (length m = 47%nat) as Hlm by (unfold m; rewrite length_wire by done; lia).
  destruct (message_served b mem s m (chosen rs)) as (s' & Es & Hl & Ho & Hin); try done; [lia | | ].
  { rewrite <- (app_nil_r m). by apply wire_content. }
  eexists m, _, s'. split.
  { rewrite Esend. f_equal. exact (app_assoc (replicate 15 (Call "rand" [] [])) [Call "clock_gettime" [0] []] _). }
  split; [done | ]. split; [done | ]. split; [done | ]. split; [done | ].
  unfold readcb. erewrite ibind_ok by reflexivity. cbn [ret filled Z.ltb Z.compare].
  assert (store (replicate 128 0) 0 m = Ok (m ++ replicate 81 0)) as Est.
  { change (replicate 128 0) with (replicate 47 0 ++ replicate 81 0). apply store_prefix. by rewrite length_replicate. }
  destruct (wire_fields 16 pad t (chosen rs ++ [0]) rest (replicate 81 0) Hpad Nt ltac:(lia) ltac:(lia)) as [El Ets].
  fold m in El, Ets. erewrite ibind_lift by apply Est.
  erewrite ibind_lift by (apply wire_content; done). erewrite ibind_lift by apply El.
  erewrite ibind_ok by reflexivity. erewrite ibind_ok by apply (clock_stamp e [] Ne).
  erewrite ibind_lift by apply Ets. erewrite ibind_lift by apply (timespec_diff_ok _ _ Ne Nt). cbv beta iota.
  erewrite ibind_ok by reflexivity. eexists _, _. reflexivity.
Qed.
End Exchange.

(** ** Witnesses *)
Definition heap0 (n : Z) : option bytes := Some (replicate (Z.to_nat n) 170).

Lemma message_roundtrip_witness :
  exists m, create_client_request heap0 [104; 105; 0] 3 = Ok m /\ message_length m = Ok 3 /\
    load m OFF_CONTENT 3 = Ok [104; 105; 0].
Proof.
  destruct (message_roundtrip (fun n => if n <? 0 then None else heap0 n) [104; 105; 0] 3) as [H _];
    [lia | cbn; lia | | eexists; reflexivity | ].
  - intros k blk. destruct (k <? 0) eqn:E; [discriminate | ]. intros [= <-]. rewrite length_replicate.
    apply Z.ltb_ge in E. lia.
  - destruct H as (m & E & _ & H1 & H2); [lia | ]. exists m. split; [exact E | split; [exact H1 | exact H2]].
Defined.

Lemma request_exchange_witness :
  exists m s', handle (W := gmap Z (bytes * bytes)) server_callbacks (EvRead 1 m true)
      (mk_srv (mk_stat 0 0) ∅ [] false) = Ok s' /\
    log s' = [Out (lit "content aaaaaaaaaaaaaaa")] /\ output (world s') 1 = m.
Proof.
  destruct (request_exchange (W := gmap Z (bytes * bytes)) heap0 (replicate 15 10) (mk_ts 7 2) (mk_ts 7 9) 1 true
    (mk_srv (mk_stat 0 0) ∅ [] false) (replicate 47 170)) as (m & tr & s' & _ & E & Hl & Ho & _);
    try reflexivity; try (repeat split; cbn; lia).
  - intros d w. cbn. destruct (default ([], []) (w !! 1)). reflexivity.
  - exists m, s'. split; [exact E | split; [exact Hl | exact Ho]].
Defined.
End Message.
