(* ===== verification/CppSort.v ===== *)
(** * Sorting and searching in C++: [c++/src/sorting.cpp], [c++/src/searching.cpp]

    Arrays are lists of [int] values with bounds; a loop counter [i < n] of type
    [int] cannot overflow.  The three quadratic sorts equal the reference
    [merge_sort] of the library; [merge_sort] and [quick_sort] of the program do
    not work, which is stated too.  Searches on sorted arrays: the linear and
    the binary search are right, the interpolation search divides by zero. *)
From Stdlib Require Import Permutation.
From stdpp Require Import sorting.
From S2P Require Import Prelude CLib.

Module CppSort.

(** ** [sorting.cpp] *)
Definition swap (a : list Z) (i j : Z) : outcome (list Z) :=
  let! c := rd a i in
  let! d := rd a j in
  let! a := wr a i d in
  wr a j c.

(** [for (int j = i+1; j < n; j++)] of bubble_sort; [fuel] is [n - j]. *)
Fixpoint bubble_inner (a : list Z) (fuel : nat) (i j : Z) : outcome (list Z) :=
  match fuel with
  | O => Ok a
  | S fuel =>
      let! x := rd a j in
      let! y := rd a i in
      let! a := if x <? y then swap a i j else Ok a in
      bubble_inner a fuel i (j + 1)
  end.
(** [for (int i = 0; i < n-1; i++)]; [fuel] is [n - 1 - i]. *)
Fixpoint bubble_outer (a : list Z) (fuel : nat) (i n : Z) : outcome (list Z) :=
  match fuel with
  | O => Ok a
  | S fuel =>
      let! a := bubble_inner a (Z.to_nat (n - (i + 1))) i (i + 1) in
      bubble_outer a fuel (i + 1) n
  end.
Definition bubble_sort (a : list Z) (n : Z) : outcome (list Z) := bubble_outer a (Z.to_nat (n - 1)) 0 n.

(** [while (hole_postion > 0 && a[hole_postion-1] > value_to_insert)] *)
Fixpoint insert_loop (a : list Z) (fuel : nat) (hole value : Z) : outcome (list Z * Z) :=
  if hole >? 0 then
    match fuel with
    | O => NoFuel
    | S fuel =>
        let! x := rd a (hole - 1) in
        if x >? value then
          let! a := wr a hole x in
          insert_loop a fuel (hole - 1) value
        else Ok (a, hole)
    end
  else Ok (a, hole).
Fixpoint insertion_outer (a : list Z) (fuel : nat) (i : Z) : outcome (list Z) :=
  match fuel with
  | O => Ok a
  | S fuel =>
      let! v := rd a i in
      let! '(a, hole) := insert_loop a (Z.to_nat i) i v in
      let! a := wr a hole v in
      insertion_outer a fuel (i + 1)
  end.
Definition insertion_sort (a : list Z) (n : Z) : outcome (list Z) := insertion_outer a (Z.to_nat (n - 1)) 1.

(** The index of the smallest element. *)
Fixpoint select_min (a : list Z) (fuel : nat) (j min_index : Z) : outcome Z :=
  match fuel with
  | O => Ok min_index
  | S fuel =>
      let! x := rd a j in
      let! m := rd a min_index in
      select_min a fuel (j + 1) (if x <? m then j else min_index)
  end.
Fixpoint selection_outer (a : list Z) (fuel : nat) (i n : Z) : outcome (list Z) :=
  match fuel with
  | O => Ok a
  | S fuel =>
      let! m := select_min a (Z.to_nat (n - (i + 1))) (i + 1) i in
      let! a := if m =? i then Ok a else swap a m i in
      selection_outer a fuel (i + 1) n
  end.
Definition selection_sort (a : list Z) (n : Z) : outcome (list Z) := selection_outer a (Z.to_nat n) 0 n.

(** [merge]: [b] is written from index [low] on. *)
Fixpoint merge_copy (a b : list Z) (fuel : nat) (i l last : Z) : outcome (list Z * Z) :=
  if l <=? last then
    match fuel with
    | O => NoFuel
    | S fuel =>
        let! x := rd a l in
        let! b := wr b i x in
        merge_copy a b fuel (i + 1) (l + 1) last
    end
  else Ok (b, i).
Fixpoint merge_both (a b : list Z) (fuel : nat) (i l1 l2 mid high : Z) : outcome (list Z * Z * Z * Z) :=
  if (l1 <=? mid) && (l2 <=? high) then
    match fuel with
    | O => NoFuel
    | S fuel =>
        let! x := rd a l1 in
        let! y := rd a l2 in
        if x <? y then
          let! b := wr b i x in merge_both a b fuel (i + 1) (l1 + 1) l2 mid high
        else
          let! b := wr b i y in merge_both a b fuel (i + 1) l1 (l2 + 1) mid high
    end
  else Ok (b, i, l1, l2).
Definition merge (a b : list Z) (low mid high : Z) : outcome (list Z) :=
  let n := Z.to_nat (high - low + 1) in
  let! '(b, i, l1, l2) := merge_both a b n low low (mid + 1) mid high in
  let! '(b, i) := merge_copy a b n i l1 mid in
  let! '(b, _) := merge_copy a b n i l2 high in
  Ok b.
(** [while (low <= high) { a[low] = b[low]; low++; }] *)
Fixpoint copy_back (a b : list Z) (fuel : nat) (low high : Z) : outcome (list Z) :=
  if low <=? high then
    match fuel with
    | O => NoFuel
    | S fuel =>
        let! x := rd b low in
        let! a := wr a low x in
        copy_back a b fuel (low + 1) high
    end
  else Ok a.
(** [int b[high - low + 1]] is uninitialised; its cells are written before they are
    read, so their first values do not matter ([junk]).  An array of no cells is
    undefined. *)
Fixpoint merge_sort_fuel (junk : Z) (fuel : nat) (a : list Z) (low high : Z) : outcome (list Z) :=
  if low =? high then Ok a
  else
    match fuel with
    | O => NoFuel
    | S fuel =>
        if high - low + 1 <=? 0 then Ub else
        let b := replicate (Z.to_nat (high - low + 1)) junk in
        let! sum := cint (low + high) in
        let! mid := cdiv sum 2 in
        let! a := merge_sort_fuel junk fuel a low mid in
        let! a := merge_sort_fuel junk fuel a (mid + 1) high in
        let! b := merge a b low mid high in
        copy_back a b (Z.to_nat (high - low + 1)) low high
    end.
Definition merge_sort (junk : Z) (a : list Z) (low high : Z) : outcome (list Z) :=
  merge_sort_fuel junk (length a) a low high.

(** [while (a[lp++] < pivot)] and [while (a[rp--] > pivot)] *)
Fixpoint scan_up (a : list Z) (fuel : nat) (lp pivot : Z) : outcome Z :=
  match fuel with
  | O => NoFuel
  | S fuel => let! x := rd a lp in if x <? pivot then scan_up a fuel (lp + 1) pivot else Ok (lp + 1)
  end.
Fixpoint scan_down (a : list Z) (fuel : nat) (rp pivot : Z) : outcome Z :=
  match fuel with
  | O => NoFuel
  | S fuel => let! x := rd a rp in if x >? pivot then scan_down a fuel (rp - 1) pivot else Ok (rp - 1)
  end.
Fixpoint partition_loop (a : list Z) (fuel : nat) (lp rp pivot : Z) : outcome (list Z * Z) :=
  match fuel with
  | O => NoFuel
  | S fuel =>
      let! lp := scan_up a (S (length a)) lp pivot in
      let! rp := scan_down a (S (length a)) rp pivot in
      if lp >=? rp then Ok (a, lp)
      else let! a := swap a lp rp in partition_loop a fuel lp rp pivot
  end.
(** The last [swap(lp, right)] exchanges the two local variables. *)
Definition partitionFunc (a : list Z) (fuel : nat) (left right_ pivot : Z) : outcome (list Z * Z) :=
  let! '(a, lp) := partition_loop a fuel left (right_ - 1) pivot in
  let '(lp, right_) := (right_, lp) in
  Ok (a, lp).
Fixpoint quick_sort (a : list Z) (fuel : nat) (left right : Z) : outcome (list Z) :=
  if left >=? right then Ok a
  else
    match fuel with
    | O => NoFuel
    | S fuel =>
        let! pivot := rd a right in
        let! '(a, partition) := partitionFunc a fuel left right pivot in
        let! a := quick_sort a fuel left partition in
        quick_sort a fuel (partition + 1) right
    end.

(** [for (int i = 0; i < length; i++) cout << a[i] << " "] *)
Fixpoint numbers_loop (a : list Z) (fuel : nat) (i : Z) : outcome bytes :=
  match fuel with
  | O => Ok []
  | S fuel =>
      let! x := rd a i in
      let! r := numbers_loop a fuel (i + 1) in
      Ok (dec x ++ lit " " ++ r)
  end.
Definition sorting_input : list Z := [14; 33; 27; 10; 35; 30; 19; 42; 44].
Definition sorting_main (junk : Z) : outcome (list bytes) :=
  let a := sorting_input in
  let! first := numbers_loop a (length a) 0 in
  let! a := merge_sort junk a 0 (len a - 1) in
  let! second := numbers_loop a (length a) 0 in
  Ok [first; second].

(** ** [searching.cpp] *)
Definition traversing (a : list Z) (n : Z) : outcome bytes := numbers_loop a (Z.to_nat n) 0.

(** [for (int i = 0; i < n; i++)]; [fuel] is [n - i]. *)
Fixpoint linear_loop (a : list Z) (x : Z) (fuel : nat) (i : Z) : outcome Z :=
  match fuel with
  | O => Ok (-1)
  | S fuel =>
      let! v := rd a i in
      if v >? x then Ok (-1)
      else if v =? x then Ok i
      else linear_loop a x fuel (i + 1)
  end.
Definition linear_search (a : list Z) (n x : Z) : outcome Z := linear_loop a x (Z.to_nat n) 0.

(** The line each probe prints. *)
Definition probe_line (count mid : Z) : bytes := lit "Count is " ++ dec count ++ lit " Mid is " ++ dec mid.

Fixpoint binary_loop (a : list Z) (x : Z) (fuel : nat) (low high count : Z) : outcome (list bytes * Z) :=
  if low <=? high then
    match fuel with
    | O => NoFuel
    | S fuel =>
        let! count := cint (count + 1) in
        let! half := cdiv (high - low) 2 in
        let mid := low + half in
        let! v := rd a mid in
        if v =? x then Ok ([probe_line count mid], mid)
        else
          let! '(log, r) := if v <? x then binary_loop a x fuel (mid + 1) high count
                            else binary_loop a x fuel low (mid - 1) count in
          Ok (probe_line count mid :: log, r)
    end
  else Ok ([], -1).
Definition binary_search (fuel : nat) (a : list Z) (n x : Z) : outcome (list bytes * Z) := binary_loop a x fuel 0 (n - 1) 0.

Fixpoint interpolation_loop (a : list Z) (x : Z) (fuel : nat) (low high count : Z) : outcome (list bytes * Z) :=
  if low <=? high then
    match fuel with
    | O => NoFuel
    | S fuel =>
        let! count := cint (count + 1) in
        let! ah := rd a high in
        let! al := rd a low in
        let! span := cint (ah - al) in
        let! q := cdiv (high - low) span in
        let! d := cint (x - al) in
        let! step := cint (q * d) in
        let! mid := cint (low + step) in
        let! v := rd a mid in
        if v =? x then Ok ([probe_line count mid], mid)
        else
          let! '(log, r) := if v <? x then interpolation_loop a x fuel (mid + 1) high count
                            else interpolation_loop a x fuel low (mid - 1) count in
          Ok (probe_line count mid :: log, r)
    end
  else Ok ([], -1).
Definition interpolation_search (fuel : nat) (a : list Z) (n x : Z) : outcome (list bytes * Z) :=
  interpolation_loop a x fuel 0 (n - 1) 0.

Definition searching_input : list Z := [10; 14; 19; 27; 33; 35; 42; 44].
Definition located_line (x ret : Z) : bytes := dec x ++ lit " is located at " ++ dec ret.
Definition searching_main (fuel : nat) : outcome (list bytes) :=
  let a := searching_input in
  let! all := traversing a (len a) in
  let x := 42 in
  let! r1 := linear_search a (len a) x in
  let! '(log2, r2) := binary_search fuel a (len a) x in
  let! '(log3, r3) := interpolation_search fuel a (len a) x in
  Ok ([all; located_line x r1] ++ log2 ++ [located_line x r2] ++ log3 ++ [located_line x r3]).

(** ** Lemmas *)
Lemma rd_second (P S R : list Z) x y : rd (P ++ x :: S ++ y :: R) (len P + 1 + len S) = Ok y.
Proof.
  assert (P ++ x :: S ++ y :: R = (P ++ x :: S) ++ y :: R) as -> by (by rewrite <- app_assoc).
  apply rd_app. rewrite length_app. cbn [length]. lia.
Qed.
Lemma swap_mid P x S y R : swap (P ++ x :: S ++ y :: R) (len P) (len P + 1 + len S) = Ok (P ++ y :: S ++ x :: R).
Proof.
  unfold swap. rewrite (rd_app P (S ++ y :: R) x), obind_ok by done.
  rewrite rd_second, obind_ok.
  rewrite (wr_app P (S ++ y :: R) x y), obind_ok by done.
  assert (P ++ y :: S ++ y :: R = (P ++ y :: S) ++ y :: R) as -> by (by rewrite <- app_assoc).
  rewrite wr_app by (rewrite length_app; cbn [length]; lia). by rewrite <- app_assoc.
Qed.

(** A sorted prefix that no element of the rest precedes. *)
Definition front (P R : list Z) : Prop := Sorted Z.le P /\ forall x y, x ∈ P -> y ∈ R -> x <= y.
Lemma front_snoc P x R : front P (x :: R) -> (forall y, y ∈ R -> x <= y) -> front (P ++ [x]) R.
Proof.
  intros [Hs Hf] Hx. split.
  - apply StronglySorted_Sorted. apply Sorted_StronglySorted in Hs; [ | intros a b c; lia].
    apply StronglySorted_app_2; [ | done | repeat constructor].
    intros y ? Hy ->%list_elem_of_singleton. apply Hf; [done | left].
  - intros a b [Ha | ->%list_elem_of_singleton]%elem_of_app Hb; [ | auto]. apply Hf; [done | by right].
Qed.
Lemma front_perm P R R' : R ≡ₚ R' -> front P R -> front P R'.
Proof. intros Hp [Hs Hf]. split; [done | ]. intros x y Hx Hy. apply Hf; [done | by rewrite Hp]. Qed.
Lemma sorted_is_merge_sort (a b : list Z) : Sorted Z.le a -> a ≡ₚ b -> a = sorting.merge_sort Z.le b.
Proof.
  intros Hs Hp. apply (Sorted_unique Z.le); [done | apply Sorted_merge_sort; apply _ | ].
  by rewrite merge_sort_Permutation.
Qed.

(** *** bubble_sort *)
Lemma bubble_inner_ok P R : forall x S, (forall y, y ∈ S -> x <= y) ->
  exists x' T, bubble_inner (P ++ x :: S ++ R) (length R) (len P) (len P + 1 + len S) = Ok (P ++ x' :: T) /\
    x' :: T ≡ₚ x :: S ++ R /\ (forall y, y ∈ T -> x' <= y).
Proof.
  induction R as [ | y R IH]; intros x S HS; cbn [length bubble_inner].
  { exists x, S. rewrite app_nil_r. done. }
  rewrite rd_second, obind_ok.
  rewrite (rd_app P (S ++ y :: R) x), obind_ok by done. destruct (y <? x) eqn:Exy; zbool.
  - rewrite swap_mid, obind_ok.
    assert (P ++ y :: S ++ x :: R = P ++ y :: (S ++ [x]) ++ R) as -> by (by rewrite <- app_assoc).
    destruct (IH y (S ++ [x])) as (x' & T & E' & Hp & HT).
    { intros z [Hz | ->%list_elem_of_singleton]%elem_of_app; [specialize (HS z Hz); lia | lia]. }
    rewrite length_app in E'. cbn [length] in E'.
    replace (len P + 1 + len S + 1) with (len P + 1 + Z.of_nat (length S + 1)) by lia. exists x', T. split; [done | ].
    split; [ | done]. rewrite Hp, <- app_assoc. cbn. solve_Permutation.
  - rewrite obind_ok. assert (P ++ x :: S ++ y :: R = P ++ x :: (S ++ [y]) ++ R) as -> by (by rewrite <- app_assoc).
    destruct (IH x (S ++ [y])) as (x' & T & E' & Hp & HT).
    { intros z [Hz | ->%list_elem_of_singleton]%elem_of_app; [auto | lia]. }
    rewrite length_app in E'. cbn [length] in E'.
    replace (len P + 1 + len S + 1) with (len P + 1 + Z.of_nat (length S + 1)) by lia. exists x', T. split; [done | ].
    split; [ | done]. by rewrite Hp, <- app_assoc.
Qed.
Lemma bubble_outer_ok fuel : forall P R, length R = S fuel -> front P R ->
  exists a, bubble_outer (P ++ R) fuel (len P) (len (P ++ R)) = Ok a /\ Sorted Z.le a /\ a ≡ₚ P ++ R.
Proof.
  induction fuel as [ | fuel IH]; intros P R HR Hf; cbn [bubble_outer].
  - destruct R as [ | x [ | ? ?]]; [done | | done]. exists (P ++ [x]). split; [done | ]. split; [ | done].
    apply (front_snoc P x []); [done | ]. by intros y ?%elem_of_nil.
  - destruct R as [ | x R]; [done | ]. injection HR as HR.
    replace (Z.to_nat (len (P ++ x :: R) - (len P + 1))) with (length R) by (rewrite length_app; cbn [length]; lia).
    destruct (bubble_inner_ok P R x []) as (x' & T & E & Hp & HT); [by intros y ?%elem_of_nil | ].
    cbn [app length] in E. rewrite Z.add_0_r in E. rewrite E, obind_ok. cbn [app] in Hp.
    assert (length T = length R) as HlT by (apply Permutation_length in Hp; cbn in Hp; lia).
    destruct (IH (P ++ [x']) T) as (a & Ea & Hs & Hpa); [lia | | ].
    { apply front_snoc; [by eapply front_perm | done]. }
    rewrite <- app_assoc in Ea, Hpa. cbn [app] in Ea, Hpa. rewrite length_app in Ea. cbn [length] in Ea.
    exists a. replace (len P + 1) with (Z.of_nat (length P + 1)) by lia.
    replace (len (P ++ x :: R)) with (len (P ++ x' :: T)) by (rewrite !length_app; cbn [length]; lia).
    split; [done | ]. split; [done | ]. by rewrite Hpa, Hp.
Qed.

(** *** insertion_sort *)
Lemma insert_loop_ok v : forall P w Q fuel, (length P <= fuel)%nat -> StronglySorted Z.le P ->
  exists P1 P2 w', P = P1 ++ P2 /\ insert_loop (P ++ w :: Q) fuel (len P) v = Ok (P1 ++ w' :: P2 ++ Q, len P1) /\
    (forall x, x ∈ P1 -> x <= v) /\ (forall x, x ∈ P2 -> v <= x).
Proof.
  induction P as [ | p P IH] using rev_ind; intros w Q fuel Hfu Hs.
  { exists [], [], w. repeat split; try (by intros ? ?%elem_of_nil). by destruct fuel. }
  rewrite length_app in Hfu |- *. cbn [length] in Hfu |- *. destruct fuel as [ | fuel]; [lia | ].
  apply StronglySorted_app in Hs as (Hpp & Hs & _). cbn [insert_loop].
  rewrite (proj2 (Z.gtb_lt _ 0)) by lia. rewrite <- app_assoc. cbn [app].
  rewrite (rd_app P (w :: Q) p), obind_ok by lia. destruct (p >? v) eqn:E; zbool.
  - assert (P ++ p :: w :: Q = (P ++ [p]) ++ w :: Q) as -> by (by rewrite <- app_assoc).
    rewrite wr_app, obind_ok by (rewrite length_app; cbn; lia). rewrite <- app_assoc. cbn [app].
    replace (Z.of_nat (length P + 1) - 1) with (len P) by lia.
    destruct (IH p (p :: Q) fuel ltac:(lia) Hs) as (P1 & P2 & w' & -> & Er & H1 & H2).
    exists P1, (P2 ++ [p]), w'. rewrite <- !app_assoc in *. split; [done | ]. split; [done | ]. split; [done | ].
    intros x [Hx | ->%list_elem_of_singleton]%elem_of_app; [auto | lia].
  - exists (P ++ [p]), [], w. rewrite app_nil_r, length_app, <- app_assoc. split; [done | ]. split; [done | ].
    split; [ | by intros ? ?%elem_of_nil]. intros x [Hx | ->%list_elem_of_singleton]%elem_of_app; [ | lia].
    specialize (Hpp x p Hx ltac:(left)). lia.
Qed.
Lemma insertion_outer_ok R : forall P, Sorted Z.le P ->
  exists a, insertion_outer (P ++ R) (length R) (len P) = Ok a /\ Sorted Z.le a /\ a ≡ₚ P ++ R.
Proof.
  induction R as [ | v R IH]; intros P Hs; cbn [length insertion_outer].
  { exists P. by rewrite app_nil_r. }
  rewrite (rd_app P R v), obind_ok, Nat2Z.id by done.
  apply Sorted_StronglySorted in Hs; [ | intros a b c; lia].
  destruct (insert_loop_ok v P v R (length P)) as (P1 & P2 & w & -> & E & H1 & H2); [done | done | ].
  rewrite E, obind_ok, wr_app, obind_ok by done.
  apply StronglySorted_app in Hs as (Hpp & Hs1 & Hs2).
  destruct (IH (P1 ++ v :: P2)) as (a & Ea & Hsa & Hp).
  { apply StronglySorted_Sorted, StronglySorted_app_2; [ | done | ].
    - intros x y Hx [-> | Hy]%elem_of_cons; auto.
    - constructor; [done | by apply Forall_forall]. }
  exists a. rewrite <- app_assoc in Ea. cbn [app] in Ea. rewrite length_app in Ea |- *. cbn [length] in Ea.
  replace (Z.of_nat (length P1 + length P2) + 1) with (Z.of_nat (length P1 + S (length P2))) by lia.
  split; [done | ]. split; [done | ]. rewrite Hp, <- !app_assoc. cbn. solve_Permutation.
Qed.

(** *** selection_sort *)
Lemma select_min_ok fuel a i : forall j m vm, 0 <= i <= m -> m < j -> j + Z.of_nat fuel = len a ->
  a !! Z.to_nat m = Some vm -> (forall k v, i <= k < j -> a !! Z.to_nat k = Some v -> vm <= v) ->
  exists m' vm', select_min a fuel j m = Ok m' /\ i <= m' < len a /\ a !! Z.to_nat m' = Some vm' /\
    forall k v, i <= k < len a -> a !! Z.to_nat k = Some v -> vm' <= v.
Proof.
  induction fuel as [ | fuel IH]; intros j m vm Him Hmj Hj Hm Hmin; cbn [select_min].
  { exists m, vm. split; [done | ]. split; [lia | ]. split; [done | ]. intros k v Hk. apply Hmin. lia. }
  destruct (lookup_lt_is_Some_2 a (Z.to_nat j)) as [x Hx]; [lia | ].
  rewrite (rd_ok a j x), obind_ok, (rd_ok a m vm), obind_ok by (done || lia).
  destruct (x <? vm) eqn:E; zbool; (eapply IH; [lia | lia | lia | done | ]); intros k v Hk Hv;
    (destruct (decide (k = j)) as [-> | ]; [simplify_eq; lia | ]);
    specialize (Hmin k v ltac:(lia) Hv); lia.
Qed.
Lemma swap_mid_rev P x S y R : swap (P ++ x :: S ++ y :: R) (len P + 1 + len S) (len P) = Ok (P ++ y :: S ++ x :: R).
Proof.
  unfold swap. rewrite rd_second, obind_ok, (rd_app P (S ++ y :: R) x), obind_ok by done.
  assert (P ++ x :: S ++ y :: R = (P ++ x :: S) ++ y :: R) as -> by (by rewrite <- app_assoc).
  rewrite wr_app, obind_ok by (rewrite length_app; cbn [length]; lia). rewrite <- app_assoc.
  by rewrite (wr_app P (S ++ x :: R) x y) by done.
Qed.
Lemma selection_step P x R :
  exists y T, (let! m := select_min (P ++ x :: R) (length R) (len P + 1) (len P) in
     if m =? len P then Ok (P ++ x :: R) else swap (P ++ x :: R) m (len P)) = Ok (P ++ y :: T) /\
    y :: T ≡ₚ x :: R /\ forall z, z ∈ T -> y <= z.
Proof.
  assert (len (P ++ x :: R) = len P + 1 + len R) as Hlen by (rewrite length_app; cbn [length]; lia).
  destruct (select_min_ok (length R) (P ++ x :: R) (len P) (len P + 1) (len P) x) as (m & y & E & Hm & Hy & Hmin);
    [lia | lia | lia | by rewrite Nat2Z.id, list_lookup_middle | | ].
  { intros k v Hk. replace k with (len P) by lia. rewrite Nat2Z.id, list_lookup_middle by done. intros [= ->]. lia. }
  rewrite E, obind_ok.
  assert (forall z, z ∈ x :: R -> y <= z) as Hall.
  { intros z (k & Hk)%list_elem_of_lookup. apply (Hmin (len P + Z.of_nat k) z).
    - apply lookup_lt_Some in Hk. cbn in Hk. lia.
    - replace (Z.to_nat (len P + Z.of_nat k)) with (length P + k)%nat by lia. rewrite lookup_app_r by lia. by replace (length P + k - length P)%nat with k by lia. }
  destruct (m =? len P) eqn:Em; zbool.
  - subst m. rewrite Nat2Z.id, list_lookup_middle in Hy by done. injection Hy as ->.
    exists y, R. split; [done | ]. split; [done | ]. intros z Hz. apply Hall. by right.
  - rewrite lookup_app_r in Hy by lia. destruct (Z.to_nat m - length P)%nat as [ | k] eqn:Ek; [lia | ].
    cbn in Hy. apply list_elem_of_split_length in Hy as (S & T & -> & HS).
    exists y, (S ++ x :: T). replace m with (len P + 1 + len S) by lia. rewrite swap_mid_rev. split; [done | ].
    split; [solve_Permutation | ]. intros z Hz. apply Hall. set_solver.
Qed.
Lemma selection_outer_ok fuel : forall P R, length R = fuel -> front P R ->
  exists a, selection_outer (P ++ R) fuel (len P) (len (P ++ R)) = Ok a /\ Sorted Z.le a /\ a ≡ₚ P ++ R.
Proof.
  induction fuel as [ | fuel IH]; intros P R HR Hf; cbn [selection_outer].
  { destruct R; [ | done]. exists P. rewrite app_nil_r. split; [done | ]. by split; [apply Hf | ]. }
  destruct R as [ | x R]; [done | ]. injection HR as HR.
  replace (Z.to_nat (len (P ++ x :: R) - (len P + 1))) with (length R) by (rewrite length_app; cbn [length]; lia).
  rewrite <- obind_assoc. destruct (selection_step P x R) as (y & T & E & Hp & HT). rewrite E, obind_ok.
  assert (length T = length R) as HlT by (apply Permutation_length in Hp; cbn in Hp; lia).
  destruct (IH (P ++ [y]) T) as (a & Ea & Hs & Hpa); [lia | | ].
  { apply front_snoc; [by eapply front_perm | done]. }
  rewrite <- app_assoc in Ea, Hpa. cbn [app] in Ea, Hpa. rewrite length_app in Ea. cbn [length] in Ea.
  exists a. replace (len P + 1) with (Z.of_nat (length P + 1)) by lia.
  replace (len (P ++ x :: R)) with (len (P ++ y :: T)) by (rewrite !length_app; cbn [length]; lia).
  split; [done | ]. split; [done | ]. by rewrite Hpa, Hp.
Qed.
Lemma front_nil R : front [] R.
Proof. split; [constructor | by intros x y ?%elem_of_nil]. Qed.

(** C36. The three quadratic sorts are right on every array: bubble_sort, insertion_sort
    and selection_sort stay inside the array, end, and leave the sorted array, the one
    a reference merge sort computes. *)
Theorem quadratic_sorts (a : list Z) :
  bubble_sort a (len a) = Ok (sorting.merge_sort Z.le a) /\
  insertion_sort a (len a) = Ok (sorting.merge_sort Z.le a) /\
  selection_sort a (len a) = Ok (sorting.merge_sort Z.le a).
Proof.
  split; [ | split].
  - unfold bubble_sort. destruct a as [ | x a]; [done | ].
    destruct (bubble_outer_ok (length a) [] (x :: a)) as (b & E & Hs & Hp); [done | apply front_nil | ].
    replace (Z.to_nat (len (x :: a) - 1)) with (length a) by (cbn [length]; lia).
    cbn [app length] in E |- *. change (Z.of_nat 0) with 0 in E. rewrite E. f_equal. by apply sorted_is_merge_sort.
  - unfold insertion_sort. destruct a as [ | x a]; [done | ].
    destruct (insertion_outer_ok a [x]) as (b & E & Hs & Hp); [repeat constructor | ].
    replace (Z.to_nat (len (x :: a) - 1)) with (length a) by (cbn [length]; lia).
    cbn [app length] in E. change (Z.of_nat 1) with 1 in E. rewrite E. f_equal. by apply sorted_is_merge_sort.
  - unfold selection_sort. rewrite Nat2Z.id.
    destruct (selection_outer_ok (length a) [] a) as (b & E & Hs & Hp); [done | apply front_nil | ].
    cbn [app length] in E. change (Z.of_nat 0) with 0 in E. rewrite E. f_equal. by apply sorted_is_merge_sort.
Qed.

(** *** merge_sort: [b] is too short for a segment that does not start at 0 *)
Lemma merge_copy_ub a fuel : forall b i l last, 0 <= l <= last -> last < len a -> 0 <= i ->
  last - l < Z.of_nat fuel -> len b <= i + (last - l) -> merge_copy a b fuel i l last = Ub.
Proof.
  induction fuel as [ | fuel IH]; intros b i l last Hl Hlast Hi Hf Hb; [lia | ]. cbn [merge_copy].
  rewrite (proj2 (Z.leb_le l last)) by lia.
  destruct (lookup_lt_is_Some_2 a (Z.to_nat l)) as [x Hx]; [lia | ]. rewrite (rd_ok a l x), obind_ok by (done || lia).
  destruct (decide (i < len b)) as [Hib | Hib]; [ | by rewrite wr_oob by lia].
  rewrite wr_ok, obind_ok by lia. destruct (decide (l = last)) as [-> | ]; [lia | ].
  apply IH; try lia. rewrite length_insert. lia.
Qed.
(** The loop of [merge] runs into the end of [b] or leaves one run to copy. *)
Lemma merge_both_cases a mid high fuel : forall b i l1 l2,
  0 <= l1 <= mid + 1 -> l1 <= l2 -> mid < l2 <= high + 1 -> high < len a -> 0 <= i ->
  (mid + 1 - l1) + (high + 1 - l2) <= Z.of_nat fuel ->
  merge_both a b fuel i l1 l2 mid high = Ub \/
  exists b' i' l1' l2', merge_both a b fuel i l1 l2 mid high = Ok (b', i', l1', l2') /\ length b' = length b /\
    i' - i = (l1' - l1) + (l2' - l2) /\ l1 <= l1' <= mid + 1 /\ l2 <= l2' <= high + 1 /\ (l1' = mid + 1 \/ l2' = high + 1) /\
    (i' = i \/ i' <= len b).
Proof.
  induction fuel as [ | fuel IH]; intros b i l1 l2 H1 H12 H2 Ha Hi Hf; cbn [merge_both];
    (destruct ((l1 <=? mid) && (l2 <=? high)) eqn:E;
      [zbool | right; exists b, i, l1, l2; apply andb_false_iff in E as [E | E]; zbool; repeat split; try lia; by left]); [lia | ].
  destruct (lookup_lt_is_Some_2 a (Z.to_nat l1)) as [x Hx]; [lia | ].
  destruct (lookup_lt_is_Some_2 a (Z.to_nat l2)) as [y Hy]; [lia | ].
  rewrite (rd_ok a l1 x), obind_ok, (rd_ok a l2 y), obind_ok by (done || lia).
  destruct (decide (i < len b)) as [Hib | Hib]; [ | left; case_if; by rewrite wr_oob by lia].
  case_if; rewrite wr_ok, obind_ok by lia.
  - destruct (IH (<[Z.to_nat i:=x]> b) (i + 1) (l1 + 1) l2) as [-> | (b' & i' & l1' & l2' & -> & Hlb & ?)]; try lia; [by left | ].
    right. exists b', i', l1', l2'. rewrite length_insert in *. repeat split; try done; lia.
  - destruct (IH (<[Z.to_nat i:=y]> b) (i + 1) l1 (l2 + 1)) as [-> | (b' & i' & l1' & l2' & -> & Hlb & ?)]; try lia; [by left | ].
    right. exists b', i', l1', l2'. rewrite length_insert in *. repeat split; try done; lia.
Qed.
Lemma merge_ub a b low mid high : 0 <= low <= mid -> mid < high < len a -> len b <= high -> merge a b low mid high = Ub.
Proof.
  intros Hl Hh Hb. unfold merge. set (n := Z.to_nat (high - low + 1)).
  destruct (merge_both_cases a mid high n b low low (mid + 1)) as [-> | (b' & i & l1 & l2 & -> & Hlb & Hi & H1 & H2 & Hend & Hw)];
    try lia; [done | ]. rewrite obind_ok.
  destruct (decide (l1 = mid + 1)) as [-> | Hl1].
  - assert (merge_copy a b' n i (mid + 1) mid = Ok (b', i)) as ->.
    { destruct n; cbn [merge_copy]; by rewrite (proj2 (Z.leb_gt (mid + 1) mid)) by lia. }
    rewrite obind_ok. destruct (decide (l2 = high + 1)) as [-> | Hl2]; [ | by rewrite merge_copy_ub by lia].
    lia.
  - by rewrite merge_copy_ub by lia.
Qed.

(** The other outcomes of the parts of [merge_sort]. *)
Definition keeps_length (a : list Z) (r : outcome (list Z)) : Prop :=
  r = Ub \/ exists a', r = Ok a' /\ length a' = length a.
Lemma merge_copy_cases a fuel : forall b i l last, 0 <= l -> last < len a -> 0 <= i -> last - l < Z.of_nat fuel ->
  merge_copy a b fuel i l last = Ub \/
  exists b' i', merge_copy a b fuel i l last = Ok (b', i') /\ length b' = length b /\ 0 <= i'.
Proof.
  induction fuel as [ | fuel IH]; intros b i l last Hl Hlast Hi Hf; cbn [merge_copy];
    (destruct (l <=? last) eqn:E; zbool; [ | right; by exists b, i]); [lia | ].
  destruct (lookup_lt_is_Some_2 a (Z.to_nat l)) as [x Hx]; [lia | ]. rewrite (rd_ok a l x), obind_ok by (done || lia).
  destruct (decide (i < len b)) as [Hib | Hib]; [ | left; by rewrite wr_oob by lia].
  rewrite wr_ok, obind_ok by lia.
  destruct (IH (<[Z.to_nat i:=x]> b) (i + 1) (l + 1) last) as [-> | (b' & i' & -> & Hb & ?)]; try lia; [by left | ].
  right. exists b', i'. by rewrite length_insert in Hb.
Qed.
Lemma merge_cases a b low mid high : 0 <= low <= mid -> mid < high < len a -> keeps_length b (merge a b low mid high).
Proof.
  intros Hl Hh. unfold merge, keeps_length. set (n := Z.to_nat (high - low + 1)).
  destruct (merge_both_cases a mid high n b low low (mid + 1)) as [-> | (b1 & i & l1 & l2 & -> & Hlb & Hi & H1 & H2 & _)];
    try lia; [by left | ]. rewrite obind_ok.
  destruct (merge_copy_cases a n b1 i l1 mid) as [-> | (b2 & i2 & -> & Hb2 & ?)]; try lia; [by left | ]. rewrite obind_ok.
  destruct (merge_copy_cases a n b2 i2 l2 high) as [-> | (b3 & i3 & -> & Hb3 & ?)]; try lia; [by left | ].
  right. exists b3. split; [done | congruence].
Qed.
Lemma copy_back_cases b fuel : forall a low high, 0 <= low -> high < len a -> high - low < Z.of_nat fuel ->
  keeps_length a (copy_back a b fuel low high).
Proof.
  unfold keeps_length. induction fuel as [ | fuel IH]; intros a low high Hl Hh Hf; cbn [copy_back];
    (destruct (low <=? high) eqn:E; zbool; [ | right; by exists a]); [lia | ].
  destruct (decide (low < len b)) as [Hlb | Hlb].
  2: { left. unfold rd. case_if; [done | ]. by rewrite lookup_ge_None_2 by lia. }
  destruct (lookup_lt_is_Some_2 b (Z.to_nat low)) as [x Hx]; [lia | ].
  rewrite (rd_ok b low x), obind_ok, wr_ok, obind_ok by (done || lia).
  destruct (IH (<[Z.to_nat low:=x]> a) (low + 1) high) as [-> | (a' & -> & Ha)]; rewrite ?length_insert in *; try lia; [by left | ].
  right. by exists a'.
Qed.
Section MergeSort.
Variable junk : Z.
Variable limit : nat.
Hypothesis Hlimit : 2 * Z.of_nat limit <= INT_MAX.
Lemma merge_sort_one fuel a low : merge_sort_fuel junk fuel a low low = Ok a.
Proof. destruct fuel; cbn [merge_sort_fuel]; by rewrite Z.eqb_refl. Qed.
Lemma merge_sort_eq fuel a low high : 0 <= low < high -> high < Z.of_nat limit ->
  merge_sort_fuel junk (S fuel) a low high =
    let mid := (low + high) / 2 in
    let! a := merge_sort_fuel junk fuel a low mid in
    let! a := merge_sort_fuel junk fuel a (mid + 1) high in
    let! b := merge a (replicate (Z.to_nat (high - low + 1)) junk) low mid high in
    copy_back a b (Z.to_nat (high - low + 1)) low high.
Proof.
  intros Hl Hh. cbn [merge_sort_fuel]. rewrite (proj2 (Z.eqb_neq low high)), (proj2 (Z.leb_gt _ 0)) by lia.
  rewrite cint_ok, obind_ok by int_bounds. by rewrite cdiv_ok, obind_ok by int_bounds.
Qed.
Lemma merge_sort_cases fuel : forall a low high, 0 <= low <= high -> high < len a -> (length a <= limit)%nat ->
  high - low <= Z.of_nat fuel -> keeps_length a (merge_sort_fuel junk fuel a low high).
Proof.
  unfold keeps_length. induction fuel as [ | fuel IH]; intros a low high Hl Hh Ha Hf;
    (destruct (decide (low = high)) as [-> | Hne]; [rewrite merge_sort_one; right; by exists a | ]); [lia | ].
  rewrite merge_sort_eq by lia. cbv zeta. set (mid := (low + high) / 2).
  assert (low <= mid < high) as Hm by (subst mid; split; [apply Z.div_le_lower_bound | apply Z.div_lt_upper_bound]; lia).
  destruct (IH a low mid) as [-> | (a1 & -> & H1)]; try lia; [by left | ]. rewrite obind_ok.
  destruct (IH a1 (mid + 1) high) as [-> | (a2 & -> & H2)]; try lia; [by left | ]. rewrite obind_ok.
  destruct (merge_cases a2 (replicate (Z.to_nat (high - low + 1)) junk) low mid high) as [-> | (b & -> & _)]; try lia; [by left | ].
  rewrite obind_ok. destruct (copy_back_cases b (Z.to_nat (high - low + 1)) a2 low high) as [-> | (a3 & -> & ?)]; try lia; [by left | ].
  right. exists a3. split; [done | congruence].
Qed.
Lemma merge_sort_shifted fuel a low high : 1 <= low < high -> high < len a -> (length a <= limit)%nat ->
  high - low <= Z.of_nat fuel -> merge_sort_fuel junk fuel a low high = Ub.
Proof.
  intros Hl Hh Ha Hf. destruct fuel as [ | fuel]; [lia | ].
  rewrite merge_sort_eq by lia. cbv zeta. set (mid := (low + high) / 2).
  assert (low <= mid < high) as Hm by (subst mid; split; [apply Z.div_le_lower_bound | apply Z.div_lt_upper_bound]; lia).
  destruct (merge_sort_cases fuel a low mid) as [-> | (a1 & -> & H1)]; try lia; [done | ]. rewrite obind_ok.
  destruct (merge_sort_cases fuel a1 (mid + 1) high) as [-> | (a2 & -> & H2)]; try lia; [done | ]. rewrite obind_ok.
  rewrite merge_ub; [done | lia | lia | ]. rewrite length_replicate. lia.
Qed.
Lemma merge_sort_long a : (length a <= limit)%nat -> 4 <= len a -> merge_sort junk a 0 (len a - 1) = Ub.
Proof.
  intros Ha H4. unfold merge_sort. destruct (length a) as [ | fuel] eqn:E; [lia | ].
  rewrite merge_sort_eq by lia. cbv zeta. set (mid := (0 + (Z.of_nat (S fuel) - 1)) / 2).
  assert (1 <= mid < Z.of_nat (S fuel) - 2) as Hm
    by (subst mid; split; [apply Z.div_le_lower_bound | apply Z.div_lt_upper_bound]; lia).
  destruct (merge_sort_cases fuel a 0 mid) as [-> | (a1 & -> & H1)]; try lia; [done | ]. rewrite obind_ok.
  rewrite merge_sort_shifted; [done | lia | lia | lia | lia].
Qed.
End MergeSort.
(** Run the program on a list of known length: only comparisons of elements remain. *)
Ltac eval_in t := let v := eval vm_compute in t in progress change t with v.
Ltac run_sort :=
  repeat first
    [ rewrite obind_ok; cbv beta iota
    | match goal with
      | |- context [if ?x <? ?y then _ else _] => is_var x; is_var y; destruct (x <? y) eqn:?; zbool
      | |- context [if ?b then _ else _] => eval_in b; cbv beta iota
      | |- context [rd ?l ?i] => eval_in (rd l i)
      | |- context [wr ?l ?i ?v] => eval_in (wr l i v)
      | |- context [cint ?z] => eval_in (cint z)
      | |- context [cdiv ?a ?b] => eval_in (cdiv a b)
      | |- context [replicate ?n ?v] => eval_in (replicate n v)
      | |- context [Z.to_nat ?n] => eval_in (Z.to_nat n)
      | |- context [merge ?a ?b ?l ?m ?h] => unfold merge
      end
    | progress cbn [merge_sort_fuel merge_both merge_copy copy_back length] ].
Lemma merge_sort_short junk a : 1 <= len a <= 3 -> merge_sort junk a 0 (len a - 1) = Ok (sorting.merge_sort Z.le a).
Proof.
  intros H. destruct a as [ | x [ | y [ | z [ | ? ?]]]]; cbn [length] in H; [lia | done | | | lia]; unfold merge_sort;
    run_sort; f_equal; (apply sorted_is_merge_sort;
      [by repeat first [apply Sorted_nil | apply Sorted_cons | apply HdRel_nil | apply HdRel_cons; lia] | solve_Permutation]).
Qed.
(** C39. The C++ merge_sort sorts arrays of one to three elements and no other: its buffer
    [b] has [high - low + 1] cells and is indexed from [low], so from four elements on
    the second half is written outside of [b]; the program, which sorts nine elements,
    does so after its first line. *)
Theorem merge_sort_bounds (junk : Z) (a : list Z) :
  2 * len a <= INT_MAX ->
  (1 <= len a <= 3 -> merge_sort junk a 0 (len a - 1) = Ok (sorting.merge_sort Z.le a)) /\
  (4 <= len a -> merge_sort junk a 0 (len a - 1) = Ub) /\
  sorting_main junk = Ub.
Proof.
  intros Ha. split; [apply merge_sort_short | ]. split; [intros H4; by apply (merge_sort_long junk (length a)) | ].
  unfold sorting_main. destruct (numbers_loop sorting_input (length sorting_input) 0) eqn:E; [ | by vm_compute in E ..].
  by rewrite obind_ok, (merge_sort_long junk 9) by (cbn; int_bounds).
Qed.
Lemma merge_sort_bounds_witness :
  merge_sort 7 [3; 1; 2] 0 2 = Ok [1; 2; 3] /\ merge_sort 7 [4; 3; 2; 1] 0 3 = Ub.
Proof.
  split; [exact (proj1 (merge_sort_bounds 7 [3; 1; 2] ltac:(done)) ltac:(cbn; lia)) | ].
  apply (proj1 (proj2 (merge_sort_bounds 7 [4; 3; 2; 1] ltac:(done)))). cbn. lia.
Defined.

(** quick_sort returns on no segment of two or more elements: partitionFunc exchanges
    its local variables instead of the array's cells and returns [right], and the
    first recursive call has the same bounds. *)
Theorem quick_sort_never_returns (fuel : nat) (a : list Z) (l r : Z) :
  l < r -> forall a', quick_sort a fuel l r <> Ok a'.
Proof.
  intros Hlr. revert a. induction fuel as [ | fuel IH]; intros a a' E; cbn [quick_sort] in E; rewrite Z.geb_leb, (proj2 (Z.leb_gt r l)) in E by lia; [done | ].
  run_inv E. run_inv E. destruct r1 as [a1 p]. run_inv E. unfold partitionFunc in E1. run_inv E1. destruct r2 as [a2 lp]. injection E1 as <- <-. by eapply IH.
Qed.
Lemma quick_sort_never_returns_witness : 0 < 1 /\ forall a', quick_sort [2; 1] 10 0 1 <> Ok a'.
Proof. split; [lia | ]. apply quick_sort_never_returns. lia. Defined.

(** *** Searches *)
Lemma strongly_sorted_at (R : relation Z) a i j u v :
  StronglySorted R a -> (i < j)%nat -> a !! i = Some u -> a !! j = Some v -> R u v.
Proof.
  intros Hs Hij Hi Hj. apply list_elem_of_split_length in Hi as (P & Q & -> & ->).
  rewrite lookup_app_r in Hj by lia. destruct (j - length P)%nat as [ | k] eqn:E; [lia | ]. cbn in Hj.
  apply StronglySorted_app in Hs as (_ & _ & Hs). apply StronglySorted_inv in Hs as [_ Hs].
  rewrite Forall_forall in Hs. apply Hs. by eapply list_elem_of_lookup_2.
Qed.
Lemma linear_loop_ok a x : StronglySorted Z.le a -> forall fuel i, 0 <= i -> i + Z.of_nat fuel = len a ->
  (forall k, (k < Z.to_nat i)%nat -> a !! k <> Some x) ->
  (linear_loop a x fuel i = Ok (-1) /\ x ∉ a) \/
  exists k, linear_loop a x fuel i = Ok (Z.of_nat k) /\ a !! k = Some x /\ forall j, (j < k)%nat -> a !! j <> Some x.
Proof.
  intros Hs. induction fuel as [ | fuel IH]; intros i Hi Hf Hk; cbn [linear_loop].
  { left. split; [done | ]. intros (k & Hx)%list_elem_of_lookup. apply (Hk k); [ | done].
    apply lookup_lt_Some in Hx. lia. }
  destruct (lookup_lt_is_Some_2 a (Z.to_nat i)) as [v Hv]; [lia | ]. rewrite (rd_ok a i v), obind_ok by done.
  destruct (v >? x) eqn:E1; zbool.
  - left. split; [done | ]. intros (k & Hx)%list_elem_of_lookup.
    destruct (decide (k < Z.to_nat i)%nat) as [Hlt | Hge]; [by eapply Hk | ].
    destruct (decide (k = Z.to_nat i)) as [-> | Hne]; [simplify_eq; lia | ].
    pose proof (strongly_sorted_at Z.le a (Z.to_nat i) k v x Hs ltac:(lia) Hv Hx). lia.
  - destruct (v =? x) eqn:E2; zbool.
    + subst v. right. exists (Z.to_nat i). rewrite Z2Nat.id by done. done.
    + apply IH; [lia | lia | ]. intros k Hlt Hx.
      destruct (decide (k = Z.to_nat i)) as [-> | Hne]; [congruence | ]. apply (Hk k); [lia | done].
Qed.

(** The part of the array the search has left holds every [x]. *)
Definition narrowed (a : list Z) (x low high : Z) : Prop :=
  forall k, a !! k = Some x -> low <= Z.of_nat k <= high.
Lemma narrow a x low high mid v : StronglySorted Z.le a -> narrowed a x low high -> 0 <= mid ->
  a !! Z.to_nat mid = Some v ->
  (v < x -> narrowed a x (mid + 1) high) /\ (x < v -> narrowed a x low (mid - 1)).
Proof.
  intros Hs Hn Hm Hv. split; intros Hlt k Hk; specialize (Hn k Hk).
  - destruct (decide (mid < Z.of_nat k)) as [ | Hge]; [lia | exfalso].
    destruct (decide (k = Z.to_nat mid)) as [-> | ]; [simplify_eq; lia | ].
    pose proof (strongly_sorted_at Z.le a k (Z.to_nat mid) x v Hs ltac:(lia) Hk Hv). lia.
  - destruct (decide (Z.of_nat k < mid)) as [ | Hge]; [lia | exfalso].
    destruct (decide (k = Z.to_nat mid)) as [-> | ]; [simplify_eq; lia | ].
    pose proof (strongly_sorted_at Z.le a (Z.to_nat mid) k v x Hs ltac:(lia) Hv Hk). lia.
Qed.
(** What a search may return: a place of [x], or -1 when there is none. *)
Definition found (a : list Z) (x r : Z) : Prop := (r = -1 /\ x ∉ a) \/ (0 <= r /\ a !! Z.to_nat r = Some x).
Lemma binary_loop_ok a x : StronglySorted Z.le a -> len a <= INT_MAX -> forall n fuel low high count,
  (n <= fuel)%nat -> 0 <= low -> low <= high + 1 -> high < len a -> high - low + 1 < 2 ^ Z.of_nat n ->
  0 <= count -> count + Z.of_nat n <= INT_MAX -> narrowed a x low high ->
  exists log r, binary_loop a x fuel low high count = Ok (log, r) /\ (length log <= n)%nat /\ found a x r.
Proof.
  intros Hs Ha. induction n as [ | n IH]; intros fuel low high count Hn Hl Hlh Hh Hp Hc Hcn Hnar.
  { exists [], (-1). rewrite Z.pow_0_r in Hp. destruct fuel; cbn [binary_loop];
      rewrite (proj2 (Z.leb_gt low high)) by lia; (split; [done | ]); (split; [done | ]); left; (split; [done | ]);
      intros (k & Hk)%list_elem_of_lookup; specialize (Hnar k Hk); lia. }
  destruct fuel as [ | fuel]; [lia | ]. cbn [binary_loop]. destruct (low <=? high) eqn:E; zbool.
  2: { exists [], (-1). split; [done | ]. split; [cbn; lia | ]. left. split; [done | ].
       intros (k & Hk)%list_elem_of_lookup. specialize (Hnar k Hk). lia. }
  rewrite cint_ok, obind_ok, cdiv_ok, obind_ok by int_bounds. cbv zeta.
  pose proof (Z.div_mod (high - low) 2 ltac:(lia)). pose proof (Z.mod_pos_bound (high - low) 2 ltac:(lia)).
  rewrite Nat2Z.inj_succ, Z.pow_succ_r in Hp by lia.
  set (half := (high - low) / 2) in *. destruct (lookup_lt_is_Some_2 a (Z.to_nat (low + half))) as [v Hv]; [lia | ].
  rewrite (rd_ok a (low + half) v), obind_ok by (done || lia).
  destruct (v =? x) eqn:Ev; zbool.
  { subst v. eexists _, _. split; [done | ]. split; [cbn; lia | ]. right. split; [lia | done]. }
  destruct (narrow a x low high (low + half) v Hs Hnar ltac:(lia) Hv) as [Hn1 Hn2]. destruct (v <? x) eqn:Elt; zbool.
  - destruct (IH fuel (low + half + 1) high (count + 1)) as (log & r & -> & Hlog & Hr); [lia .. | auto | ].
    rewrite obind_ok. eexists _, _. split; [done | ]. split; [cbn; lia | done].
  - destruct (IH fuel low (low + half - 1) (count + 1)) as (log & r & -> & Hlog & Hr); [lia .. | apply Hn2; lia | ].
    rewrite obind_ok. eexists _, _. split; [done | ]. split; [cbn; lia | done].
Qed.

(** On a sorted array linear_search returns the first place of [x], or -1 when [x]
    is absent; binary_search returns a place of [x], or -1, after at most
    [log2 n + 1] probes, without leaving the array. *)
Theorem searches_sorted (a : list Z) (x : Z) (fuel : nat) :
  StronglySorted Z.le a -> len a <= INT_MAX -> Z.log2 (len a) + 1 <= Z.of_nat fuel ->
  (exists r, linear_search a (len a) x = Ok r /\ found a x r /\ forall j, Z.of_nat j < r -> a !! j <> Some x) /\
  (exists log r, binary_search fuel a (len a) x = Ok (log, r) /\ found a x r /\ len log <= Z.log2 (len a) + 1).
Proof.
  intros Hs Ha Hf. split.
  - unfold linear_search. rewrite Nat2Z.id.
    destruct (linear_loop_ok a x Hs (length a) 0) as [[-> Hx] | (k & -> & Hk & Hmin)]; [lia | lia | intros; lia | | ].
    + exists (-1). split; [done | ]. split; [by left | intros; lia].
    + exists (Z.of_nat k). split; [done | ]. split; [right; rewrite Nat2Z.id; split; [lia | done] | ]. intros j Hj. apply Hmin. lia.
  - pose proof (Z.log2_nonneg (len a)) as Hn0. set (n := Z.to_nat (Z.log2 (len a) + 1)).
    assert (len a < 2 ^ Z.of_nat n) as Hn.
    { subst n. rewrite Z2Nat.id by lia. destruct (decide (len a = 0)) as [-> | ]; [done | ].
      apply (Z.log2_spec (len a)). lia. }
    assert (Z.log2 (len a) < 31) as H31.
    { destruct (decide (len a = 0)) as [-> | ]; [done | ]. apply Z.log2_lt_pow2; int_bounds. }
    destruct (binary_loop_ok a x Hs Ha n fuel 0 (len a - 1) 0) as (log & r & E & Hlog & Hr); try int_bounds.
    { intros k Hk. apply lookup_lt_Some in Hk. lia. }
    exists log, r. split; [done | ]. split; [done | ]. lia.
Qed.
Lemma searches_sorted_witness :
  (exists r, linear_search searching_input 8 42 = Ok r /\ found searching_input 42 r) /\
  (exists log r, binary_search 4 searching_input 8 42 = Ok (log, r) /\ found searching_input 42 r).
Proof.
  destruct (searches_sorted searching_input 42 4) as [(r & E & Hr & _) (log & r' & E' & Hr' & _)];
    [by repeat constructor | done | done | ].
  split; [by exists r | by exists log, r'].
Defined.

(** *** interpolation_search *)
Lemma strict_gap a i j u v : StronglySorted Z.lt a -> (i <= j)%nat -> a !! i = Some u -> a !! j = Some v ->
  Z.of_nat j - Z.of_nat i <= v - u.
Proof.
  intros Hs Hij Hi. revert v. induction Hij as [ | j Hij IH]; intros v Hj; [simplify_eq; lia | ].
  destruct (lookup_lt_is_Some_2 a j) as [w Hw]; [apply lookup_lt_Some in Hj; lia | ].
  specialize (IH w Hw). pose proof (strongly_sorted_at Z.lt a j (S j) w v Hs ltac:(lia) Hw Hj). lia.
Qed.
(** The quotient of the interpolation formula is 1 on a run of consecutive numbers and 0 otherwise. *)
Lemma interpolation_quot d g : 0 < d <= INT_MAX -> d <= g -> cdiv d g = Ok (if g =? d then 1 else 0).
Proof.
  intros Hd Hg. rewrite cdiv_ok by lia. f_equal. destruct (g =? d) eqn:E; zbool.
  - subst g. apply Z.div_same. lia.
  - apply Z.div_small. lia.
Qed.
Section Interpolation.
Variables (a : list Z) (x : Z).
Hypothesis Hs : StronglySorted Z.lt a.
Hypothesis Hlen : len a <= INT_MAX.
Hypothesis Hrange : forall v, v ∈ a -> 0 <= v <= INT_MAX.
Hypothesis Hx : x ∈ a.
(** One probe, at a place not after [x] and before the last. *)
Lemma interpolation_probe fuel low count al ah : 0 <= low < len a - 1 -> 0 <= count < INT_MAX ->
  a !! Z.to_nat low = Some al -> a !! Z.to_nat (len a - 1) = Some ah ->
  interpolation_loop a x (S fuel) low (len a - 1) count =
    let! mid := cint (low + (if ah - al =? len a - 1 - low then x - al else 0)) in
    let! v := rd a mid in
    if v =? x then Ok ([probe_line (count + 1) mid], mid)
    else
      let! '(log, r) := if v <? x then interpolation_loop a x fuel (mid + 1) (len a - 1) (count + 1)
                        else interpolation_loop a x fuel low (mid - 1) (count + 1) in
      Ok (probe_line (count + 1) mid :: log, r).
Proof.
  intros Hl Hc Hal Hah. cbn [interpolation_loop]. rewrite (proj2 (Z.leb_le low (len a - 1))) by lia.
  pose proof (strict_gap a (Z.to_nat low) (Z.to_nat (len a - 1)) al ah Hs ltac:(lia) Hal Hah) as Hg.
  pose proof (Hrange x Hx). pose proof (Hrange al ltac:(by eapply list_elem_of_lookup_2)).
  pose proof (Hrange ah ltac:(by eapply list_elem_of_lookup_2)).
  rewrite (cint_ok (count + 1)), obind_ok, (rd_ok a (len a - 1) ah), obind_ok, (rd_ok a low al), obind_ok by (done || int_bounds).
  rewrite (cint_ok (ah - al)), obind_ok, interpolation_quot, obind_ok, (cint_ok (x - al)), obind_ok by int_bounds.
  destruct (ah - al =? len a - 1 - low); rewrite ?Z.mul_1_l, ?Z.mul_0_l, (cint_ok) by int_bounds; by rewrite obind_ok.
Qed.
Lemma interpolation_found k : a !! k = Some x -> Z.of_nat k < len a - 1 -> forall fuel low count,
  0 <= low <= Z.of_nat k -> Z.of_nat k - low < Z.of_nat fuel -> 0 <= count -> count + Z.of_nat k - low < INT_MAX ->
  exists log, interpolation_loop a x fuel low (len a - 1) count = Ok (log, Z.of_nat k).
Proof.
  intros Hk Hlast. induction fuel as [ | fuel IH]; intros low count Hl Hf Hc Hcf; [lia | ].
  destruct (lookup_lt_is_Some_2 a (Z.to_nat low)) as [al Hal]; [lia | ].
  destruct (lookup_lt_is_Some_2 a (Z.to_nat (len a - 1))) as [ah Hah]; [lia | ].
  rewrite (interpolation_probe _ _ _ al ah) by (done || lia).
  pose proof (strict_gap a (Z.to_nat low) k al x Hs ltac:(lia) Hal Hk) as G1.
  pose proof (strict_gap a k (Z.to_nat (len a - 1)) x ah Hs ltac:(lia) Hk Hah) as G2.
  destruct (ah - al =? len a - 1 - low) eqn:E; zbool.
  - replace (low + (x - al)) with (Z.of_nat k) by lia. rewrite cint_ok, obind_ok by int_bounds.
    rewrite (rd_ok a (Z.of_nat k) x), obind_ok by (by rewrite ?Nat2Z.id || lia). rewrite Z.eqb_refl. by eexists.
  - rewrite Z.add_0_r, cint_ok, obind_ok, (rd_ok a low al), obind_ok by (done || int_bounds).
    destruct (decide (low = Z.of_nat k)) as [-> | Hne].
    + rewrite Nat2Z.id in Hal. assert (al = x) as -> by congruence. rewrite Z.eqb_refl. by eexists.
    + rewrite (proj2 (Z.eqb_neq al x)), (proj2 (Z.ltb_lt al x)) by lia.
      destruct (IH (low + 1) (count + 1)) as [log ->]; [lia .. | ]. rewrite obind_ok. by eexists.
Qed.
Lemma interpolation_last u : a !! Z.to_nat (len a - 2) = Some u -> a !! Z.to_nat (len a - 1) = Some x -> u + 1 < x ->
  2 <= len a -> forall fuel low count,
  0 <= low <= len a - 1 -> len a - 1 - low < Z.of_nat fuel -> 0 <= count -> count + len a - 1 - low < INT_MAX ->
  interpolation_loop a x fuel low (len a - 1) count = Ub.
Proof.
  intros Hu Hk Hgap H2. induction fuel as [ | fuel IH]; intros low count Hl Hf Hc Hcf; [lia | ].
  destruct (decide (low = len a - 1)) as [-> | Hne].
  { cbn [interpolation_loop]. rewrite Z.leb_refl, cint_ok, obind_ok, (rd_ok a (len a - 1) x), !obind_ok by (done || int_bounds).
    rewrite cint_ok, obind_ok by int_bounds. unfold cdiv. by rewrite Z.sub_diag. }
  destruct (lookup_lt_is_Some_2 a (Z.to_nat low)) as [al Hal]; [lia | ].
  pose proof (strict_gap a (Z.to_nat low) (Z.to_nat (len a - 2)) al u Hs ltac:(lia) Hal Hu) as G1.
  rewrite (interpolation_probe _ _ _ al x) by (done || lia). rewrite (proj2 (Z.eqb_neq _ _)) by lia.
  rewrite Z.add_0_r, cint_ok, obind_ok, (rd_ok a low al), obind_ok by (done || int_bounds).
  rewrite (proj2 (Z.eqb_neq al x)), (proj2 (Z.ltb_lt al x)) by lia. by rewrite IH by lia.
Qed.
End Interpolation.
Lemma interpolation_endless fuel : forall count, interpolation_loop [0; 5; 6] 4 fuel 1 2 count = Ub \/
  interpolation_loop [0; 5; 6] 4 fuel 1 2 count = NoFuel.
Proof.
  induction fuel as [ | fuel IH]; intros count; [by right | ].
  change (interpolation_loop [0; 5; 6] 4 (S fuel) 1 2 count) with
    (let! count := cint (count + 1) in
     let! '(log, r) := interpolation_loop [0; 5; 6] 4 fuel 1 2 count in Ok (probe_line count 0 :: log, r)).
  unfold cint. destruct (in_int (count + 1)); [ | by left]. rewrite obind_ok.
  by destruct (IH (count + 1)) as [-> | ->]; [left | right].
Qed.

(** interpolation_search divides integers: on a strictly increasing array it finds
    every element but the last, mostly by a linear scan; on the last element it
    divides by zero when there is a gap before it; and it may search an absent
    number for ever. *)
Theorem interpolation_search_ok (a : list Z) (k : nat) (x : Z) (fuel : nat) :
  StronglySorted Z.lt a -> len a <= INT_MAX -> (forall v, v ∈ a -> 0 <= v <= INT_MAX) ->
  a !! k = Some x -> (length a <= fuel)%nat ->
  (Z.of_nat k < len a - 1 -> exists log, interpolation_search fuel a (len a) x = Ok (log, Z.of_nat k)) /\
  (Z.of_nat k = len a - 1 -> (forall u, a !! Nat.pred k = Some u -> (0 < k)%nat -> u + 1 < x) ->
     interpolation_search fuel a (len a) x = Ub) /\
  (forall fuel r, interpolation_search fuel [0; 5; 6] 3 4 <> Ok r).
Proof.
  intros Hs Hl Hr Hk Hf. pose proof (lookup_lt_Some _ _ _ Hk) as Hkl.
  assert (x ∈ a) as Hx by (by eapply list_elem_of_lookup_2). unfold interpolation_search. split; [ | split].
  - intros Hlast. apply interpolation_found; try done; lia.
  - intros Hlast Hgap. destruct (decide (k = 0%nat)) as [-> | Hk0].
    + assert (len a = 1) as E1 by lia. rewrite E1. destruct fuel as [ | fuel]; [lia | ]. destruct a as [ | y [ | ? ?]]; [done | | cbn [length] in E1; lia].
      injection Hk as ->. cbn [interpolation_loop]. specialize (Hr x Hx). rewrite Z.leb_refl, cint_ok, obind_ok by int_bounds.
      rewrite !(rd_ok [x] _ x), !obind_ok by done. by rewrite cint_ok, obind_ok by int_bounds; unfold cdiv; rewrite Z.sub_diag.
    + destruct (lookup_lt_is_Some_2 a (Nat.pred k)) as [u Hu]; [lia | ].
      apply (interpolation_last a x Hs Hl Hr Hx u); try lia.
      * by replace (Z.to_nat (len a - 2)) with (Nat.pred k) by lia.
      * by replace (Z.to_nat (len a - 1)) with k by lia.
      * apply Hgap; [done | lia].
  - intros [ | f] r; [done | ]. change (interpolation_loop [0; 5; 6] 4 (S f) 0 (3 - 1) 0) with
      (let! '(log, r) := interpolation_loop [0; 5; 6] 4 f 1 2 1 in Ok (probe_line 1 0 :: log, r)).
    by destruct (interpolation_endless f 1) as [-> | ->].
Qed.
Lemma interpolation_search_ok_witness :
  (exists log, interpolation_search 8 searching_input 8 42 = Ok (log, 6)) /\ interpolation_search 8 searching_input 8 44 = Ub.
Proof.
  assert (StronglySorted Z.lt searching_input) as Hs by (by repeat constructor).
  assert (forall v, v ∈ searching_input -> 0 <= v <= INT_MAX) as Hr by (apply Forall_forall; by repeat constructor).
  split.
  - apply (interpolation_search_ok searching_input 6 42 8 Hs ltac:(done) Hr eq_refl ltac:(cbn; lia)). cbn. lia.
  - apply (proj1 (proj2 (interpolation_search_ok searching_input 7 44 8 Hs ltac:(done) Hr eq_refl ltac:(cbn; lia)))); [done | ].
    intros u [= <-] _. lia.
Defined.
(** The output of the program. *)
Example searching_output : searching_main 8 = Ok
  ([lit "10 14 19 27 33 35 42 44 "; lit "42 is located at 6";
    lit "Count is 1 Mid is 3"; lit "Count is 2 Mid is 5"; lit "Count is 3 Mid is 6"; lit "42 is located at 6"] ++
   map (fun i => probe_line (i + 1) i) [0; 1; 2; 3; 4; 5; 6] ++ [lit "42 is located at 6"]).
Proof. vm_compute. reflexivity. Qed.
End CppSort.
