(* ===== verification/CppStack.v ===== *)
(** * The class Stack and the tower of Hanoi: [c++/include/stack.h],
    [c++/src/stack.cpp], [c++/src/hanoi_tower.cpp]

    A value that has not been assigned is [None]; reading it is undefined.  The
    class [Stack] refines a bounded stack of integers, and the tower of Hanoi moves
    its disks legally. *)
From stdpp Require Import sorting.
From S2P Require Import Prelude CLib.

Module CppStack.

(** Use of a value: an indeterminate one is undefined. *)
Definition init {A} (o : option A) : outcome A := match o with Some v => Ok v | None => Ub end.
Definition rdi {A} (l : list (option A)) (i : Z) : outcome A := let! c := rd l i in init c.
(** [new T[n]] with a negative [n] throws, and nothing catches it: abort.  A size that is not
    negative is granted: an [int] number of cells is at most 8 gigabytes, which memory is
    taken to have. *)
Definition ABORT : Z := 134.
Definition new_array {A} (n : Z) (a : A) : outcome (list A) :=
  if n <? 0 then Exit ABORT else Ok (replicate (Z.to_nat n) a).

(** ** [class Stack] *)
Record stack := MkStack { top : option Z; capacity : option Z; cells : list (option Z); id : option Z }.

Definition Stack_cap (cap : Z) : outcome stack :=
  let! cells := new_array cap None in
  Ok (MkStack (Some (-1)) (Some cap) cells None).
Definition Stack_cap_id (cap stack_id : Z) : outcome stack :=
  let! cells := new_array cap None in
  Ok (MkStack (Some (-1)) (Some cap) cells (Some stack_id)).
(** [Stack(5);] in the body makes another, temporary object. *)
Definition Stack_default : outcome stack :=
  let! _temporary := Stack_cap 5 in
  Ok (MkStack None None [] None).

(** Operations return what they print with the new state. *)
Definition push (s : stack) (value : Z) : outcome (list bytes * stack) :=
  let! top := init (top s) in
  let! cap := init (capacity s) in
  if top =? cap - 1 then Ok ([lit "stack is full"], s)
  else
    let top := top + 1 in
    let! cells := wr (cells s) top (Some value) in
    Ok ([], MkStack (Some top) (capacity s) cells (id s)).
Definition pop (s : stack) : outcome (list bytes * stack * Z) :=
  let! top := init (top s) in
  if top <? 0 then Ok ([lit "stack is empty"], s, -1)
  else
    let! v := rdi (cells s) top in
    Ok ([], MkStack (Some (top - 1)) (capacity s) (cells s) (id s), v).
Definition peek (s : stack) : outcome Z := let! top := init (top s) in rdi (cells s) top.
Definition is_empty (s : stack) : outcome bool := let! top := init (top s) in Ok (top =? -1).

(** The values [display] prints, and its line. *)
Fixpoint display_loop (l : list (option Z)) (fuel : nat) (i : Z) : outcome (list Z) :=
  match fuel with
  | O => Ok []
  | S fuel =>
      let! v := rdi l i in
      let! r := display_loop l fuel (i + 1) in
      Ok (v :: r)
  end.
Definition display (s : stack) : outcome (list Z) :=
  let! e := is_empty s in
  let! top := init (top s) in
  if negb e then display_loop (cells s) (Z.to_nat (top + 1)) 0 else Ok [].
Definition display_line (vs : list Z) : bytes := concat (map (fun v => dec v ++ lit " | ") vs).

(** ** [hanoi_tower.cpp]

    One move as it is printed: the disk, and the number and the contents of the
    three stacks after it. *)
Record step := MkStep { moved : Z; from_ : Z * list Z; to_ : Z * list Z; other_ : Z * list Z }.
Definition step_lines (s : step) : list bytes :=
  [lit "Move " ++ dec (moved s) ++ lit " from " ++ dec (from_ s).1 ++ lit " to " ++ dec (to_ s).1;
   lit "Src " ++ dec (from_ s).1 ++ lit " : " ++ display_line (from_ s).2;
   lit "Dst " ++ dec (to_ s).1 ++ lit " : " ++ display_line (to_ s).2;
   lit "Aux " ++ dec (other_ s).1 ++ lit " : " ++ display_line (other_ s).2].
(** The stacks may print on their own (full, empty): those lines are kept too. *)
Inductive event := Said (line : bytes) | Moved (s : step).
Definition shown (s : stack) : outcome (Z * list Z) :=
  let! i := init (id s) in
  let! vs := display s in
  Ok (i, vs).
Definition report (disk : Z) (src dest aux : stack) : outcome event :=
  let! f := shown src in
  let! t := shown dest in
  let! o := shown aux in
  Ok (Moved (MkStep disk f t o)).
(** [dest.push(src.pop())] *)
Definition transfer (src dest : stack) : outcome (list event * stack * stack * Z) :=
  let! '(o1, src, value) := pop src in
  let! '(o2, dest) := push dest value in
  Ok (map Said (o1 ++ o2), src, dest, value).
Fixpoint move_disk (fuel : nat) (disk : Z) (src dest aux : stack) : outcome (list event * stack * stack * stack) :=
  if disk =? 0 then
    let! '(o, src, dest, value) := transfer src dest in
    let! e := report value src dest aux in
    Ok (o ++ [e], src, dest, aux)
  else
    match fuel with
    | O => NoFuel
    | S fuel =>
        let! '(o1, src, aux, dest) := move_disk fuel (disk - 1) src aux dest in
        let! '(o2, src, dest, _) := transfer src dest in
        let! e := report disk src dest aux in
        let! '(o3, aux, dest, src) := move_disk fuel (disk - 1) aux dest src in
        Ok (o1 ++ o2 ++ [e] ++ o3, src, dest, aux)
    end.
Fixpoint push_all (s : stack) (vs : list Z) : outcome (list event * stack) :=
  match vs with
  | [] => Ok ([], s)
  | v :: vs =>
      let! '(o, s) := push s v in
      let! '(o', s) := push_all s vs in
      Ok (map Said o ++ o', s)
  end.
Definition hanoi_main : outcome (list event) :=
  let number_disks := 5 in
  let! src := Stack_cap_id number_disks 1 in
  let! dst := Stack_cap_id number_disks 2 in
  let! aux := Stack_cap_id number_disks 3 in
  let! '(o, src) := push_all src [4; 3; 2; 1; 0] in
  let! '(o', _, _, _) := move_disk (Z.to_nat number_disks) (number_disks - 1) src dst aux in
  Ok (o ++ o').

(** ** The stack against a list

    [is_stack cap i l s]: the members of [s] hold the list [l], bottom first. *)
Definition is_stack (cap : Z) (i : option Z) (l : list Z) (s : stack) : Prop :=
  top s = Some (len l - 1) /\ capacity s = Some cap /\ id s = i /\ len (cells s) = cap /\
  exists junk, cells s = map Some l ++ junk.

Lemma is_stack_new cap i : 0 <= cap ->
  is_stack cap i [] (MkStack (Some (-1)) (Some cap) (replicate (Z.to_nat cap) None) i).
Proof.
  intros Hc. repeat split; cbn [cells]; [rewrite length_replicate; lia | ]. by exists (replicate (Z.to_nat cap) None).
Qed.
Lemma is_stack_len cap i l s : is_stack cap i l s -> len l <= cap.
Proof. intros (_ & _ & _ & <- & junk & ->). rewrite length_app, length_map. lia. Qed.
Lemma push_ok cap i l s v : is_stack cap i l s ->
  exists s', push s v = Ok (if len l =? cap then [lit "stack is full"] else [], s') /\
    is_stack cap i (if len l =? cap then l else l ++ [v]) s'.
Proof.
  intros H. pose proof (is_stack_len _ _ _ _ H) as Hle. destruct H as (Ht & Hc & Hi & Hlen & junk & Hcells).
  unfold push. rewrite Ht, Hc. cbn [init]. rewrite !obind_ok. destruct (len l =? cap) eqn:E; zbool.
  - rewrite (proj2 (Z.eqb_eq _ _)) by lia. exists s. split; [done | ]. repeat split; try done. by exists junk.
  - rewrite (proj2 (Z.eqb_neq _ _)) by lia. rewrite Hcells in Hlen |- *. rewrite length_app, length_map in Hlen.
    destruct junk as [ | c junk]; [cbn in Hlen; lia | ].
    rewrite wr_app, obind_ok by (rewrite length_map; lia). eexists. split; [done | ].
    repeat split; cbn [top capacity cells CppStack.id]; try done.
    + f_equal. rewrite length_app. cbn. lia.
    + rewrite length_app, length_map. cbn in *. lia.
    + exists junk. by rewrite map_app, <- app_assoc.
Qed.
Lemma pop_ok cap i l s v : is_stack cap i (l ++ [v]) s -> exists s', pop s = Ok ([], s', v) /\ is_stack cap i l s'.
Proof.
  intros (Ht & Hc & Hi & Hlen & junk & Hcells). unfold pop. rewrite Ht. cbn [init]. rewrite obind_ok.
  rewrite length_app in *. cbn [length] in *. rewrite (proj2 (Z.ltb_ge _ _)) by lia.
  unfold rdi. rewrite Hcells in Hlen |- *. rewrite map_app, <- app_assoc in *. cbn [map app] in *.
  rewrite rd_app, !obind_ok by (rewrite length_map; lia). cbn [init]. rewrite obind_ok. eexists. split; [done | ].
  repeat split; cbn [top capacity cells CppStack.id]; try done; [f_equal; lia | ]. by eexists.
Qed.
Lemma pop_empty cap i s : is_stack cap i [] s -> pop s = Ok ([lit "stack is empty"], s, -1).
Proof. intros (Ht & _). unfold pop. by rewrite Ht. Qed.
Lemma peek_ok cap i l s : is_stack cap i l s -> peek s = match last l with Some v => Ok v | None => Ub end.
Proof.
  intros (Ht & Hc & Hi & Hlen & junk & Hcells). unfold peek. rewrite Ht. cbn [init]. rewrite obind_ok.
  induction l as [ | v l _] using rev_ind; [done | ]. rewrite last_snoc. unfold rdi.
  rewrite Hcells, map_app, <- app_assoc, length_app. cbn [length map app].
  by rewrite rd_app, obind_ok by (rewrite length_map; lia).
Qed.
Lemma is_empty_ok cap i l s : is_stack cap i l s -> is_empty s = Ok (bool_decide (l = [])).
Proof.
  intros (Ht & _). unfold is_empty. rewrite Ht. cbn [init]. rewrite obind_ok. f_equal.
  destruct l; [done | ]. cbn [length]. rewrite (proj2 (Z.eqb_neq _ _)) by lia. done.
Qed.
Lemma display_loop_ok l : forall P junk, display_loop (P ++ map Some l ++ junk) (length l) (len P) = Ok l.
Proof.
  induction l as [ | v l IH]; intros P junk; [done | ]. cbn [length map app display_loop]. unfold rdi.
  rewrite rd_app, !obind_ok by done. cbn [init]. rewrite obind_ok. specialize (IH (P ++ [Some v]) junk).
  rewrite <- app_assoc, length_app in IH. cbn [app length] in IH.
  replace (len P + 1) with (Z.of_nat (length P + 1)) by lia. by rewrite IH.
Qed.
Lemma display_ok cap i l s : is_stack cap i l s -> display s = Ok l.
Proof.
  intros H. unfold display. rewrite (is_empty_ok _ _ _ _ H), obind_ok. destruct H as (Ht & _ & _ & _ & junk & Hc).
  rewrite Ht, Hc. cbn [init]. rewrite obind_ok. destruct l as [ | v l]; [done | ]. rewrite bool_decide_eq_false_2 by done.
  cbn [negb]. replace (Z.to_nat (len (v :: l) - 1 + 1)) with (length (v :: l)) by lia.
  apply (display_loop_ok (v :: l) []).
Qed.

(** *** Sessions *)
Inductive op := Push (v : Z) | Pop | Peek | IsEmpty | Display.
(** What a caller sees: printed lines and the returned value. *)
Inductive obs := Lines (ls : list bytes) | Ret (ls : list bytes) (v : Z) | Bool (b : bool).
Definition exec (s : stack) (o : op) : outcome (obs * stack) :=
  match o with
  | Push v => let! '(ls, s) := push s v in Ok (Lines ls, s)
  | Pop => let! '(ls, s, v) := pop s in Ok (Ret ls v, s)
  | Peek => let! v := peek s in Ok (Ret [] v, s)
  | IsEmpty => let! b := is_empty s in Ok (Bool b, s)
  | Display => let! vs := display s in Ok (Lines [display_line vs], s)
  end.
(** The promise: a stack of at most [cap] numbers, bottom first. *)
Definition spec (cap : Z) (l : list Z) (o : op) : outcome (obs * list Z) :=
  match o with
  | Push v => Ok (if len l =? cap then (Lines [lit "stack is full"], l) else (Lines [], l ++ [v]))
  | Pop => Ok (match last l with
               | Some v => (Ret [] v, removelast l)
               | None => (Ret [lit "stack is empty"] (-1), l)
               end)
  | Peek => match last l with Some v => Ok (Ret [] v, l) | None => Ub end
  | IsEmpty => Ok (Bool (bool_decide (l = [])), l)
  | Display => Ok (Lines [display_line l], l)
  end.
Fixpoint session {S} (step : S -> op -> outcome (obs * S)) (s : S) (ops : list op) : outcome (list obs) :=
  match ops with
  | [] => Ok []
  | o :: ops =>
      let! '(r, s) := step s o in
      let! rs := session step s ops in
      Ok (r :: rs)
  end.
Lemma exec_ok cap i l s o : is_stack cap i l s ->
  match spec cap l o with
  | Ok (r, l') => exists s', exec s o = Ok (r, s') /\ is_stack cap i l' s'
  | _ => exec s o = Ub
  end.
Proof.
  intros H. destruct o as [v | | | | ]; cbn [exec spec].
  - destruct (push_ok cap i l s v H) as (s' & -> & H'). destruct (len l =? cap); by exists s'.
  - destruct l as [ | v l _] using rev_ind; [rewrite (pop_empty _ _ _ H); by exists s | ].
    rewrite last_snoc, removelast_last. destruct (pop_ok _ _ _ _ _ H) as (s' & -> & H'). by exists s'.
  - rewrite (peek_ok _ _ _ _ H). destruct (last l); [by exists s | done].
  - rewrite (is_empty_ok _ _ _ _ H). by exists s.
  - rewrite (display_ok _ _ _ _ H). by exists s.
Qed.
Lemma session_ok cap i ops : forall l s, is_stack cap i l s -> session exec s ops = session (spec cap) l ops.
Proof.
  induction ops as [ | o ops IH]; intros l s H; [done | ]. cbn [session].
  pose proof (exec_ok cap i l s o H) as Ho. destruct (spec cap l o) as [[r l'] | c | | ] eqn:E.
  - destruct Ho as (s' & -> & H'). rewrite !obind_ok. by rewrite (IH l' s' H').
  - by destruct o; cbn in E; repeat case_match.
  - by rewrite Ho.
  - by destruct o; cbn in E; repeat case_match.
Qed.

(** C19. The class Stack of a capacity [cap] refines a bounded stack: every session of
    push, pop, peek, is_empty and display shows what the list of at most [cap]
    numbers shows, a push on a full stack and a pop on an empty one change nothing
    but print, and peek on an empty stack is undefined.  The default constructor
    leaves the members unset: every operation after it is undefined. *)
Theorem stack_refines (cap : Z) (ops : list op) :
  0 <= cap ->
  (let! s := Stack_cap cap in session exec s ops) = session (spec cap) [] ops /\
  (forall o, (let! s := Stack_default in exec s o) = Ub).
Proof.
  intros Hc. split; [ | by intros [ ]]. unfold Stack_cap, new_array. rewrite (proj2 (Z.ltb_ge cap 0)), !obind_ok by lia.
  eapply session_ok. by apply is_stack_new.
Qed.
Lemma stack_refines_witness :
  (let! s := Stack_cap 1 in session exec s [Push 7; Push 8; Peek; Pop; Pop]) =
  Ok [Lines []; Lines [lit "stack is full"]; Ret [] 7; Ret [] 7; Ret [lit "stack is empty"] (-1)].
Proof. rewrite (proj1 (stack_refines 1 [Push 7; Push 8; Peek; Pop; Pop] ltac:(lia))). reflexivity. Defined.

(** ** The tower of Hanoi *)
(** The disks [n], ..., 0, the largest at the bottom. *)
Fixpoint disks (n : nat) : list Z := match n with O => [0] | S m => Z.of_nat n :: disks m end.
Definition tower (l : list Z) : Prop := StronglySorted Z.gt l.
(** A legal move: each stack decreases upwards and the disk is on top of its goal. *)
Definition legal (e : event) : Prop :=
  match e with
  | Said _ => False
  | Moved s => tower (from_ s).2 /\ tower (to_ s).2 /\ tower (other_ s).2 /\ last (to_ s).2 = Some (moved s)
  end.
Lemma disks_length n : length (disks n) = S n.
Proof. induction n as [ | n IH]; [done | ]. cbn [disks length]. by rewrite IH. Qed.
Lemma tower_prefix l l' : tower (l ++ l') -> tower l.
Proof. apply StronglySorted_app_1_l. Qed.
Lemma tower_under l n : tower (l ++ disks (S n)) -> tower (l ++ disks n).
Proof.
  unfold tower. cbn [disks]. rewrite !StronglySorted_app. intros (H1 & H2 & H3).
  apply StronglySorted_inv in H3 as [H3 _]. repeat split; try done. intros x y Hx Hy. apply H1; [done | by right].
Qed.
Lemma tower_put l n : tower (l ++ disks (S n)) -> tower (l ++ [Z.of_nat (S n)]).
Proof.
  change (disks (S n)) with ([Z.of_nat (S n)] ++ disks n). rewrite app_assoc. apply tower_prefix.
Qed.
Lemma transfer_ok c1 i1 l1 s1 c2 i2 l2 s2 v :
  is_stack c1 i1 (l1 ++ [v]) s1 -> is_stack c2 i2 l2 s2 -> len l2 < c2 ->
  exists s1' s2', transfer s1 s2 = Ok ([], s1', s2', v) /\ is_stack c1 i1 l1 s1' /\ is_stack c2 i2 (l2 ++ [v]) s2'.
Proof.
  intros H1 H2 Hc. unfold transfer. destruct (pop_ok _ _ _ _ _ H1) as (s1' & -> & H1'). rewrite obind_ok.
  destruct (push_ok _ _ _ _ v H2) as (s2' & -> & H2'). rewrite (proj2 (Z.eqb_neq _ _)) in H2' |- * by lia.
  by exists s1', s2'.
Qed.
Lemma report_ok d c1 c2 c3 i1 i2 i3 l1 l2 l3 s1 s2 s3 :
  is_stack c1 (Some i1) l1 s1 -> is_stack c2 (Some i2) l2 s2 -> is_stack c3 (Some i3) l3 s3 ->
  report d s1 s2 s3 = Ok (Moved (MkStep d (i1, l1) (i2, l2) (i3, l3))).
Proof.
  intros H1 H2 H3. unfold report, shown.
  rewrite (display_ok _ _ _ _ H1), (display_ok _ _ _ _ H2), (display_ok _ _ _ _ H3).
  destruct H1 as (_ & _ & -> & _), H2 as (_ & _ & -> & _), H3 as (_ & _ & -> & _). done.
Qed.
Lemma move_disk_ok n : forall fuel c1 c2 c3 i1 i2 i3 l1 l2 l3 s1 s2 s3, (n <= fuel)%nat ->
  is_stack c1 (Some i1) (l1 ++ disks n) s1 -> is_stack c2 (Some i2) l2 s2 -> is_stack c3 (Some i3) l3 s3 ->
  tower (l1 ++ disks n) -> tower (l2 ++ disks n) -> tower (l3 ++ disks n) ->
  len l2 + Z.of_nat n + 1 <= c2 -> len l3 + Z.of_nat n <= c3 ->
  exists es s1' s2' s3', move_disk fuel (Z.of_nat n) s1 s2 s3 = Ok (es, s1', s2', s3') /\
    is_stack c1 (Some i1) l1 s1' /\ is_stack c2 (Some i2) (l2 ++ disks n) s2' /\ is_stack c3 (Some i3) l3 s3' /\
    Forall legal es /\ len es = 2 ^ (Z.of_nat n + 1) - 1.
Proof.
  induction n as [ | n IH]; intros fuel c1 c2 c3 i1 i2 i3 l1 l2 l3 s1 s2 s3 Hf H1 H2 H3 T1 T2 T3 L2 L3.
  - destruct (transfer_ok _ _ _ _ _ _ _ _ _ H1 H2) as (s1' & s2' & E & H1' & H2'); [lia | ].
    pose proof (report_ok 0 _ _ _ _ _ _ _ _ _ _ _ _ H1' H2' H3) as Er.
    exists [Moved (MkStep 0 (i1, l1) (i2, l2 ++ [0]) (i3, l3))], s1', s2', s3.
    split. { destruct fuel; cbn [move_disk]; by rewrite Z.eqb_refl, E, obind_ok, Er. }
    repeat (split; [done | ]). split; [ | done]. apply Forall_singleton. cbn.
    repeat split; [by eapply tower_prefix | done | by eapply tower_prefix | apply last_snoc].
  - destruct fuel as [ | fuel]; [lia | ]. cbn [move_disk]. rewrite (proj2 (Z.eqb_neq _ 0)) by lia.
    replace (Z.of_nat (S n) - 1) with (Z.of_nat n) by lia.
    assert (l1 ++ disks (S n) = (l1 ++ [Z.of_nat (S n)]) ++ disks n) as E1 by (by rewrite <- app_assoc).
    assert (l2 ++ disks (S n) = (l2 ++ [Z.of_nat (S n)]) ++ disks n) as E2 by (by rewrite <- app_assoc).
    assert (len l1 + Z.of_nat n <= c1) as L1 by (apply is_stack_len in H1; rewrite length_app, disks_length in H1; lia).
    destruct (IH fuel c1 c3 c2 i1 i3 i2 (l1 ++ [Z.of_nat (S n)]) l3 l2 s1 s3 s2)
      as (es1 & s1' & s3' & s2' & -> & H1' & H3' & H2' & F1 & N1);
      [lia | by rewrite <- E1 | done | done | by rewrite <- E1 | by apply tower_under | by apply tower_under | lia | lia | ].
    rewrite obind_ok. destruct (transfer_ok _ _ _ _ _ _ _ _ _ H1' H2') as (u1 & u2 & -> & G1 & G2); [lia | ].
    rewrite obind_ok. rewrite (report_ok _ _ _ _ _ _ _ _ _ _ _ _ _ G1 G2 H3'), obind_ok.
    destruct (IH fuel c3 c2 c1 i3 i2 i1 l3 (l2 ++ [Z.of_nat (S n)]) l1 s3' u2 u1)
      as (es2 & t3 & t2 & t1 & -> & J3 & J2 & J1 & F2 & N2);
      [lia | done | done | done | by apply tower_under | by rewrite <- E2 | by apply tower_under | rewrite length_app; cbn; lia | done | ].
    rewrite obind_ok. eexists _, _, _, _. split; [done | ]. split; [done | ]. split; [by rewrite E2 | ]. split; [done | ]. split.
    + apply Forall_app. split; [done | ]. apply Forall_cons. split; [ | done]. cbn.
      repeat split; [by eapply tower_prefix | by apply tower_put | by apply tower_under | apply last_snoc].
    + rewrite !length_app. cbn [length]. rewrite Nat2Z.inj_succ, <- Z.add_1_r, Z.pow_add_r by lia. lia.
Qed.
Lemma push_all_ok cap i vs : forall l s, is_stack cap i l s -> len l + len vs <= cap ->
  exists s', push_all s vs = Ok ([], s') /\ is_stack cap i (l ++ vs) s'.
Proof.
  induction vs as [ | v vs IH]; intros l s H Hc; cbn [push_all]; cbn [length] in Hc.
  { exists s. by rewrite app_nil_r. }
  destruct (push_ok _ _ _ _ v H) as (s1 & -> & H1). rewrite (proj2 (Z.eqb_neq _ _)) in H1 |- * by lia. rewrite obind_ok.
  destruct (IH (l ++ [v]) s1 H1) as (s2 & -> & H2); [rewrite length_app; cbn; lia | ].
  exists s2. by rewrite <- app_assoc in H2.
Qed.
Lemma tower_disks n : tower (disks n).
Proof.
  assert (forall m x, x ∈ disks m -> x <= Z.of_nat m) as Hb.
  { intros m. induction m as [ | m IH]; intros x; cbn [disks].
    - intros ->%list_elem_of_singleton. lia.
    - intros [-> | Hx]%elem_of_cons; [lia | ]. specialize (IH x Hx). lia. }
  induction n as [ | n IH]; cbn [disks]; [repeat constructor | ]. constructor; [done | ].
  apply Forall_forall. intros x Hx%Hb. lia.
Qed.

(** The tower of Hanoi: move_disk carries the disks [n], ..., 0 from its first stack
    to its second and leaves the third as it was, in [2^(n+1) - 1] moves; after
    every move each stack decreases from bottom to top and the moved disk lies on
    top of its goal; no stack is full or empty when it is used.  The program makes
    the 31 moves of five disks. *)
Theorem hanoi_moves (n fuel : nat) (c1 c2 c3 i1 i2 i3 : Z) (s1 s2 s3 : stack) :
  (n <= fuel)%nat -> Z.of_nat n < c2 -> Z.of_nat n < c3 ->
  is_stack c1 (Some i1) (disks n) s1 -> is_stack c2 (Some i2) [] s2 -> is_stack c3 (Some i3) [] s3 ->
  (exists es s1' s2' s3', move_disk fuel (Z.of_nat n) s1 s2 s3 = Ok (es, s1', s2', s3') /\
    is_stack c1 (Some i1) [] s1' /\ is_stack c2 (Some i2) (disks n) s2' /\ is_stack c3 (Some i3) [] s3' /\
    Forall legal es /\ len es = 2 ^ (Z.of_nat n + 1) - 1) /\
  (exists es, hanoi_main = Ok es /\ Forall legal es /\ length es = 31%nat).
Proof.
  intros Hf Hc2 Hc3 H1 H2 H3. split.
  - apply (move_disk_ok n fuel c1 c2 c3 i1 i2 i3 [] [] []); try done; try apply tower_disks; cbn; lia.
  - unfold hanoi_main, Stack_cap_id, new_array. change (5 <? 0) with false. cbv iota zeta. rewrite !obind_ok.
    destruct (push_all_ok 5 (Some 1) [4; 3; 2; 1; 0] [] _ (is_stack_new 5 (Some 1) ltac:(lia))) as (s & Es & Hs); [done | ].
    rewrite Es, obind_ok. destruct (move_disk_ok 4 (Z.to_nat 5) 5 5 5 1 2 3 [] [] [] s _ _ ltac:(lia) Hs
      (is_stack_new 5 (Some 2) ltac:(lia)) (is_stack_new 5 (Some 3) ltac:(lia))) as (es & t1 & t2 & t3 & E & _ & _ & _ & Hl & Hn);
      try apply (tower_disks 4); try done.
    change (5 - 1) with (Z.of_nat 4). rewrite E, obind_ok. exists es. split; [done | ]. split; [done | ].
    change (2 ^ (Z.of_nat 4 + 1) - 1) with 31 in Hn. lia.
Qed.
Lemma hanoi_moves_witness : exists es, hanoi_main = Ok es /\ Forall legal es /\ length es = 31%nat.
Proof.
  eapply (hanoi_moves 0 0 1 1 1 1 2 3 (MkStack (Some 0) (Some 1) [Some 0] (Some 1)) _ _ ltac:(lia) ltac:(lia) ltac:(lia));
    [ | apply (is_stack_new 1 (Some 2)); lia | apply (is_stack_new 1 (Some 3)); lia].
  repeat split. by exists [].
Defined.
End CppStack.
