(* ===== verification/CppGraph.v ===== *)
(** * Graph search: [c++/src/graph.cpp]

    The queue and the graph of the program.  The two searches are one loop over a
    container (the class [Frontier], with the stack of [CppStack] and the queue as
    instances) and visit the vertices that can be reached, provided the allocator
    returns zeroed memory ([fresh]): the matrix of edges is never initialised by
    the program. *)
From stdpp Require Import sorting.
From S2P Require Import Prelude CLib CppStack.

Module CppGraph.
Import CppStack.

(** ** [graph.cpp]: [class Queue]; the member [head] is never used *)
Record queue := MkQueue { tail : option Z; qcapacity : option Z; qcells : list (option Z) }.
Definition Queue_cap (cap : Z) : outcome queue :=
  let! cells := new_array cap None in
  Ok (MkQueue (Some (-1)) (Some cap) cells).
Definition Queue_default : outcome queue :=
  let! _temporary := Queue_cap 5 in
  Ok (MkQueue None None []).
Definition is_full (q : queue) : outcome bool :=
  let! t := init (tail q) in
  let! c := init (qcapacity q) in
  Ok (t =? c - 1).
Definition queue_is_empty (q : queue) : outcome bool := let! t := init (tail q) in Ok (t =? -1).
Definition enqueue (q : queue) (value : Z) : outcome (list bytes * queue) :=
  let! full := is_full q in
  if full then Ok ([lit "queue is full"], q)
  else
    let! t := init (tail q) in
    let! cells := wr (qcells q) (t + 1) (Some value) in
    Ok ([], MkQueue (Some (t + 1)) (qcapacity q) cells).
(** [for (int i = 0; i < tail; i++) queue[i] = queue[i+1]]; [fuel] is [tail - i]. *)
Fixpoint shift (l : list (option Z)) (fuel : nat) (i : Z) : outcome (list (option Z)) :=
  match fuel with
  | O => Ok l
  | S fuel =>
      let! v := rdi l (i + 1) in
      let! l := wr l i (Some v) in
      shift l fuel (i + 1)
  end.
Definition dequeue (q : queue) : outcome (list bytes * queue * Z) :=
  let! e := queue_is_empty q in
  if e then Ok ([lit "queue is empty"], q, -1)
  else
    let! t := init (tail q) in
    let! ret := rdi (qcells q) 0 in
    let! cells := shift (qcells q) (Z.to_nat t) 0 in
    Ok ([], MkQueue (Some (t - 1)) (qcapacity q) cells, ret).
Definition queue_peek (q : queue) : outcome Z := rdi (qcells q) 0.

Definition is_queue (cap : Z) (l : list Z) (q : queue) : Prop :=
  tail q = Some (len l - 1) /\ qcapacity q = Some cap /\ len (qcells q) = cap /\
  exists junk, qcells q = map Some l ++ junk.
Lemma enqueue_ok cap l q v : is_queue cap l q -> len l < cap ->
  exists q', enqueue q v = Ok ([], q') /\ is_queue cap (l ++ [v]) q'.
Proof.
  intros (Ht & Hc & Hlen & junk & Hq) Hl. unfold enqueue, is_full. rewrite Ht, Hc. cbn [init]. rewrite !obind_ok.
  rewrite (proj2 (Z.eqb_neq _ _)) by lia. rewrite Hq in Hlen |- *. rewrite length_app, length_map in Hlen.
  destruct junk as [ | c junk]; [cbn in Hlen; lia | ]. rewrite wr_app, obind_ok by (rewrite length_map; lia).
  eexists. split; [done | ]. repeat split; cbn [tail qcapacity qcells]; try done.
  - f_equal. rewrite length_app. cbn. lia.
  - rewrite length_app, length_map. cbn in *. lia.
  - exists junk. by rewrite map_app, <- app_assoc.
Qed.
Lemma shift_ok l : forall P v junk, exists w,
  shift (P ++ Some v :: map Some l ++ junk) (length l) (len P) = Ok (P ++ map Some l ++ Some w :: junk).
Proof.
  induction l as [ | u l IH]; intros P v junk; [by exists v | ]. cbn [length shift map app]. unfold rdi.
  assert (P ++ Some v :: Some u :: map Some l ++ junk = (P ++ [Some v]) ++ Some u :: map Some l ++ junk) as E
    by (by rewrite <- app_assoc).
  rewrite E, rd_app, !obind_ok by (rewrite length_app; cbn; lia). cbn [init]. rewrite obind_ok, <- E.
  rewrite wr_app, obind_ok by done. destruct (IH (P ++ [Some u]) u junk) as (w & Ew).
  rewrite <- !app_assoc, length_app in Ew. cbn [app length] in Ew.
  exists w. by replace (len P + 1) with (Z.of_nat (length P + 1)) by lia.
Qed.
Lemma dequeue_ok cap v l q : is_queue cap (v :: l) q -> exists q', dequeue q = Ok ([], q', v) /\ is_queue cap l q'.
Proof.
  intros (Ht & Hc & Hlen & junk & Hq). unfold dequeue, queue_is_empty. rewrite Ht. cbn [init]. rewrite !obind_ok.
  rewrite (proj2 (Z.eqb_neq _ _)) by (cbn [length]; lia). rewrite Hq in Hlen |- *. cbn [map app] in Hlen |- *. unfold rdi.
  rewrite (rd_ok _ 0 (Some v)), !obind_ok by done. cbn [init]. rewrite obind_ok.
  replace (Z.to_nat (len (v :: l) - 1)) with (length l) by (cbn [length]; lia).
  destruct (shift_ok l [] v junk) as (w & Ew). cbn [app length] in Ew. change (Z.of_nat 0) with 0 in Ew. rewrite Ew, obind_ok.
  eexists. split; [done | ]. repeat split; cbn [tail qcapacity qcells]; try done.
  - f_equal. cbn [length]. lia.
  - rewrite length_app, length_map in *. cbn [length] in *. rewrite length_app, length_map in Hlen. lia.
  - by exists (Some w :: junk).
Qed.
Lemma queue_peek_ok cap v l q : is_queue cap (v :: l) q -> queue_peek q = Ok v.
Proof. intros (Ht & Hc & Hlen & junk & Hq). unfold queue_peek, rdi. rewrite Hq. by rewrite (rd_ok _ 0 (Some v)). Qed.
Lemma queue_is_empty_ok cap l q : is_queue cap l q -> queue_is_empty q = Ok (bool_decide (l = [])).
Proof.
  intros (Ht & _). unfold queue_is_empty. rewrite Ht. cbn [init]. rewrite obind_ok. f_equal.
  destruct l; [done | ]. cbn [length]. rewrite (proj2 (Z.eqb_neq _ _)) by lia. done.
Qed.

(** ** What the searches need of a container *)
Class Frontier (F : Type) := {
  fr_new : Z -> outcome F;
  fr_push : F -> Z -> outcome (list bytes * F);
  fr_pop : F -> outcome (list bytes * F * Z);
  fr_peek : F -> outcome Z;
  fr_is_empty : F -> outcome bool;
}.
#[export] Instance stack_frontier : Frontier stack :=
  {| fr_new := Stack_cap; fr_push := push; fr_pop := pop; fr_peek := peek; fr_is_empty := is_empty |}.
#[export] Instance queue_frontier : Frontier queue :=
  {| fr_new := Queue_cap; fr_push := enqueue; fr_pop := dequeue; fr_peek := queue_peek; fr_is_empty := queue_is_empty |}.

(** Laws: the container holds a list of at most [cap] numbers; new ones are added at
    its end, [fr_pick] is the one looked at and removed next. *)
Class FrontierLaws (F : Type) `{Frontier F} := {
  fr_repr : Z -> list Z -> F -> Prop;
  fr_pick : list Z -> Z;
  fr_drop : list Z -> list Z;
  fr_new_ok cap : 0 <= cap -> exists f, fr_new cap = Ok f /\ fr_repr cap [] f;
  fr_push_ok cap l f v : fr_repr cap l f -> len l < cap ->
    exists f', fr_push f v = Ok ([], f') /\ fr_repr cap (l ++ [v]) f';
  fr_pop_ok cap l f : fr_repr cap l f -> l <> [] ->
    exists f', fr_pop f = Ok ([], f', fr_pick l) /\ fr_repr cap (fr_drop l) f';
  fr_peek_ok cap l f : fr_repr cap l f -> l <> [] -> fr_peek f = Ok (fr_pick l);
  fr_is_empty_ok cap l f : fr_repr cap l f -> fr_is_empty f = Ok (bool_decide (l = []));
  fr_pick_drop l : l <> [] -> l ≡ₚ fr_pick l :: fr_drop l;
}.

(** ** The graph *)
Record vertex := MkVertex { label : option Z; visited : option bool }.
Record graph := MkGraph {
  vertices : list vertex; adjMatrix : list (list (option Z)); vertex_count : Z; graph_capacity : Z }.

(** [fresh i j] is what the new row [i] holds at [j]. *)
Definition Graph (fresh : Z -> Z -> option Z) (n : Z) : outcome graph :=
  let! vs := new_array n (MkVertex None None) in
  let rows := map (fun i => map (fun j => fresh (Z.of_nat i) (Z.of_nat j)) (seq 0 (Z.to_nat n))) (seq 0 (Z.to_nat n)) in
  Ok (MkGraph vs rows 0 n).
Definition addVertex (g : graph) (lab : Z) : outcome graph :=
  let! vs := wr (vertices g) (vertex_count g) (MkVertex (Some lab) (Some false)) in
  Ok (MkGraph vs (adjMatrix g) (vertex_count g + 1) (graph_capacity g)).
(** [adjMatrix[i][j] = 1] *)
Definition set_cell (m : list (list (option Z))) (i j : Z) : outcome (list (list (option Z))) :=
  let! row := rd m i in
  let! row := wr row j (Some 1) in
  wr m i row.
Definition addEdge (g : graph) (s e : Z) : outcome graph :=
  let! m := set_cell (adjMatrix g) s e in
  let! m := set_cell m e s in
  Ok (MkGraph (vertices g) m (vertex_count g) (graph_capacity g)).
(** [for (int i = 0; i < vertex_count; i++)]; [fuel] is [vertex_count - i]. *)
Fixpoint adj_loop (g : graph) (v : Z) (fuel : nat) (i : Z) : outcome Z :=
  match fuel with
  | O => Ok (-1)
  | S fuel =>
      let! row := rd (adjMatrix g) v in
      let! c := rdi row i in
      let! hit := if c =? 1 then let! x := rd (vertices g) i in let! b := init (visited x) in Ok (negb b) else Ok false in
      if hit then Ok i else adj_loop g v fuel (i + 1)
  end.
Definition getAdjUnvisitedVertex (g : graph) (v : Z) : outcome Z := adj_loop g v (Z.to_nat (vertex_count g)) 0.
(** [vertices[j].visited = true; vertices[j].display();] *)
Definition visit (g : graph) (j : Z) : outcome (bytes * graph) :=
  let! x := rd (vertices g) j in
  let! vs := wr (vertices g) j (MkVertex (label x) (Some true)) in
  let! c := init (label x) in
  Ok ([c; 32], MkGraph vs (adjMatrix g) (vertex_count g) (graph_capacity g)).
Definition said (ls : list bytes) : bytes := concat (map (fun l => l ++ [10]) ls).

Fixpoint search_loop {F} `{Frontier F} (fuel : nat) (g : graph) (f : F) : outcome (bytes * graph) :=
  let! e := fr_is_empty f in
  if e then Ok ([], g)
  else
    match fuel with
    | O => NoFuel
    | S fuel =>
        let! i := fr_peek f in
        let! j := getAdjUnvisitedVertex g i in
        if negb (j =? -1) then
          let! '(out, g) := visit g j in
          let! '(ls, f) := fr_push f j in
          let! '(rest, g) := search_loop fuel g f in
          Ok (out ++ said ls ++ rest, g)
        else
          let! '(ls, f, _) := fr_pop f in
          let! '(rest, g) := search_loop fuel g f in
          Ok (said ls ++ rest, g)
    end.
Definition search (F : Type) `{Frontier F} (fuel : nat) (g : graph) : outcome (bytes * graph) :=
  let! f := fr_new (F := F) (graph_capacity g) in
  let! '(out, g) := visit g 0 in
  let! '(ls, f) := fr_push f 0 in
  let! '(rest, g) := search_loop fuel g f in
  Ok (out ++ said ls ++ rest, g).
Definition depthFirstSearch : nat -> graph -> outcome (bytes * graph) := search stack.
Definition breadthFirstSearch : nat -> graph -> outcome (bytes * graph) := search queue.

Fixpoint addVertices (g : graph) (labels : list Z) : outcome graph :=
  match labels with
  | [] => Ok g
  | c :: labels => let! g := addVertex g c in addVertices g labels
  end.
Fixpoint addEdges (g : graph) (es : list (Z * Z)) : outcome graph :=
  match es with
  | [] => Ok g
  | (s, e) :: es => let! g := addEdge g s e in addEdges g es
  end.
Definition build (fresh : Z -> Z -> option Z) (n : Z) (labels : list Z) (es : list (Z * Z)) : outcome graph :=
  let! g := Graph fresh n in
  let! g := addVertices g labels in
  addEdges g es.
Definition graph_main (fresh : Z -> Z -> option Z) (fuel : nat) : outcome bytes :=
  let! g := build fresh 5 (lit "SABCD") [(0, 1); (0, 2); (0, 3); (1, 4); (2, 4); (3, 4)] in
  let! '(out, _) := depthFirstSearch fuel g in
  Ok (lit "Depth First Search " ++ out).
Example graph_main_zeroed : graph_main (fun _ _ => Some 0) 10 = Ok (lit "Depth First Search S A D B C ").
Proof. reflexivity. Qed.
Example graph_main_indeterminate : graph_main (fun _ _ => None) 10 = Ub.
Proof. reflexivity. Qed.

(** ** The containers keep their laws *)
#[export, refine] Instance stack_frontier_laws : FrontierLaws stack :=
  {| fr_repr cap l s := is_stack cap None l s; fr_pick l := default 0 (last l); fr_drop l := removelast l |}.
Proof.
  - intros cap Hc. cbn. unfold Stack_cap, new_array. rewrite (proj2 (Z.ltb_ge cap 0)), obind_ok by lia.
    eexists. split; [done | by apply is_stack_new].
  - intros cap l f v H Hl. destruct (push_ok _ _ _ _ v H) as (f' & E & H').
    rewrite (proj2 (Z.eqb_neq _ _)) in E, H' by lia. by exists f'.
  - intros cap l f H Hl. destruct l as [ | v l _] using rev_ind; [done | ].
    rewrite last_snoc, removelast_last. by apply pop_ok.
  - intros cap l f H Hl. cbn. rewrite (peek_ok _ _ _ _ H). destruct l as [ | v l _] using rev_ind; [done | by rewrite last_snoc].
  - intros cap l f H. cbn. by eapply is_empty_ok.
  - intros l Hl. destruct l as [ | v l _] using rev_ind; [done | ]. rewrite last_snoc, removelast_last. cbn. solve_Permutation.
Defined.
#[export, refine] Instance queue_frontier_laws : FrontierLaws queue :=
  {| fr_repr cap l q := is_queue cap l q; fr_pick l := hd 0 l; fr_drop l := tl l |}.
Proof.
  - intros cap Hc. cbn. unfold Queue_cap, new_array. rewrite (proj2 (Z.ltb_ge cap 0)), obind_ok by lia.
    eexists. split; [done | ]. repeat split; cbn [qcells]; [rewrite length_replicate; lia | ]. by eexists.
  - intros cap l f v H Hl. by apply enqueue_ok.
  - intros cap [ | v l] f H Hl; [done | ]. by apply dequeue_ok.
  - intros cap [ | v l] f H Hl; [done | ]. by eapply queue_peek_ok.
  - intros cap l f H. by eapply queue_is_empty_ok.
  - intros [ | v l] Hl; [done | done].
Defined.

(** ** The searches

    [edge i j]: an entry 1 of the matrix.  [graph_ok labels edge V g]: the graph of
    the labels and the edges in which the vertices of [V] are marked. *)
Definition graph_ok (labels : list Z) (edge : Z -> Z -> Prop) (V : list Z) (g : graph) : Prop :=
  vertex_count g = len labels /\ len labels <= graph_capacity g /\
  (forall i c, labels !! i = Some c -> vertices g !! i = Some (MkVertex (Some c) (Some (bool_decide (Z.of_nat i ∈ V))))) /\
  (forall i j, 0 <= i < len labels -> 0 <= j < len labels ->
     exists row c, adjMatrix g !! Z.to_nat i = Some row /\ row !! Z.to_nat j = Some (Some c) /\ (c = 1 <-> edge i j)).
Section Search.
Context {F : Type} `{FrontierLaws F}.
Variables (labels : list Z) (edge : Z -> Z -> Prop).
Hypothesis edge_range : forall i j, edge i j -> 0 <= i < len labels /\ 0 <= j < len labels.

Lemma vertex_at V g i : graph_ok labels edge V g -> 0 <= i < len labels ->
  exists c, labels !! Z.to_nat i = Some c /\ rd (vertices g) i = Ok (MkVertex (Some c) (Some (bool_decide (i ∈ V)))).
Proof.
  intros (_ & _ & Hv & _) Hi. destruct (lookup_lt_is_Some_2 labels (Z.to_nat i)) as [c Hc]; [lia | ].
  exists c. split; [done | ]. apply rd_ok; [lia | ]. rewrite (Hv _ _ Hc). by rewrite Z2Nat.id by lia.
Qed.
Lemma adj_loop_ok V g v : graph_ok labels edge V g -> 0 <= v < len labels ->
  forall fuel i, 0 <= i -> i + Z.of_nat fuel = len labels -> (forall j, 0 <= j < i -> edge v j -> j ∈ V) ->
  (exists j, adj_loop g v fuel i = Ok j /\ 0 <= j < len labels /\ edge v j /\ j ∉ V /\ forall k, 0 <= k < j -> edge v k -> k ∈ V) \/
  (adj_loop g v fuel i = Ok (-1) /\ forall j, edge v j -> j ∈ V).
Proof.
  intros Hg Hv. induction fuel as [ | fuel IH]; intros i Hi Hf Hdone; cbn [adj_loop].
  { right. split; [done | ]. intros j Hj. apply Hdone; [ | done]. apply edge_range in Hj. lia. }
  pose proof Hg as (_ & _ & _ & Hm). destruct (Hm v i) as (row & c & Hrow & Hc & Hce); [done | lia | ].
  rewrite (rd_ok _ _ _ (proj1 Hv) Hrow), obind_ok. unfold rdi. rewrite (rd_ok _ _ _ Hi Hc), !obind_ok. cbn [init]. rewrite obind_ok.
  destruct (vertex_at V g i Hg ltac:(lia)) as (lab & _ & Hx).
  destruct (c =? 1) eqn:E1; zbool.
  - rewrite Hx, obind_ok. cbn [visited init]. rewrite !obind_ok. destruct (decide (i ∈ V)) as [HV | HV].
    + rewrite bool_decide_eq_true_2 by done. cbn [negb]. apply IH; [lia | lia | ].
      intros j Hj Hje. destruct (decide (j = i)) as [-> | ]; [done | ]. apply Hdone; [lia | done].
    + rewrite bool_decide_eq_false_2 by done. cbn [negb]. left. exists i. split; [done | ]. split; [lia | ]. split; [by apply Hce | ]. by split.
  - rewrite obind_ok. apply IH; [lia | lia | ].
    intros j Hj Hje. destruct (decide (j = i)) as [-> | ]; [by apply Hce in Hje | ]. apply Hdone; [lia | done].
Qed.
Lemma getAdj_ok V g v : graph_ok labels edge V g -> 0 <= v < len labels ->
  (exists j, getAdjUnvisitedVertex g v = Ok j /\ 0 <= j < len labels /\ edge v j /\ j ∉ V /\ forall k, 0 <= k < j -> edge v k -> k ∈ V) \/
  (getAdjUnvisitedVertex g v = Ok (-1) /\ forall j, edge v j -> j ∈ V).
Proof.
  intros Hg Hv. unfold getAdjUnvisitedVertex. pose proof (proj1 Hg) as ->. rewrite Nat2Z.id.
  apply (adj_loop_ok V); [done | done | lia | lia | intros; lia].
Qed.
(** The line printed for the vertices of [V]. *)
Definition text (V : list Z) : bytes := concat (map (fun v => [labels !!! Z.to_nat v; 32]) V).
Lemma visit_capacity g j o g' : visit g j = Ok (o, g') -> graph_capacity g' = graph_capacity g.
Proof. unfold visit. intros E. repeat run_inv E. by injection E as <- <-. Qed.
Lemma visit_ok V g j : graph_ok labels edge V g -> 0 <= j < len labels ->
  exists g', visit g j = Ok (text [j], g') /\ graph_ok labels edge (V ++ [j]) g'.
Proof.
  intros Hg Hj. unfold visit. destruct (vertex_at V g j Hg Hj) as (c & Hc & Hx). rewrite Hx, obind_ok.
  apply rd_inv in Hx as [_ Hx]. pose proof (lookup_lt_Some _ _ _ Hx). rewrite wr_ok, obind_ok by lia. cbn [label init].
  rewrite obind_ok. eexists. split. { unfold text. cbn. by rewrite (list_lookup_total_correct _ _ _ Hc). }
  destruct Hg as (G1 & G2 & G3 & G4). split; [done | ]. split; [done | ]. split; [ | done].
  intros i d Hd. cbn [vertices]. destruct (decide (i = Z.to_nat j)) as [-> | Hne].
  - rewrite list_lookup_insert_eq by done. rewrite Hc in Hd. injection Hd as ->. repeat f_equal.
    symmetry. apply bool_decide_eq_true_2. rewrite Z2Nat.id by lia. set_solver.
  - rewrite list_lookup_insert_ne by done. rewrite (G3 i d Hd). repeat f_equal. apply bool_decide_ext.
    rewrite elem_of_app, list_elem_of_singleton. split; [auto | ]. intros [? | E]; [done | ]. lia.
Qed.

(** The invariant of the loop: [V] the marked vertices in order, [W] the container. *)
Record search_inv (V W : list Z) : Prop := {
  si_nodup : NoDup V; si_root : 0 ∈ V; si_wnodup : NoDup W; si_sub : W ⊆ V;
  si_range : forall v, v ∈ V -> 0 <= v < len labels;
  si_reach : forall v, v ∈ V -> rtc edge 0 v;
  si_done : forall v j, v ∈ V -> v ∉ W -> edge v j -> j ∈ V }.
Lemma range_length V : NoDup V -> (forall v, v ∈ V -> 0 <= v < len labels) -> (length V <= length labels)%nat.
Proof.
  intros Hn Hr. rewrite <- (length_seq (length labels) 0), <- (length_map Z.of_nat (seq 0 (length labels))).
  apply submseteq_length, NoDup_submseteq; [done | ]. intros v Hv. apply Hr in Hv.
  apply list_elem_of_fmap. exists (Z.to_nat v). split; [lia | ]. apply elem_of_seq. lia.
Qed.
(** What else a search keeps about the marked vertices and its container. *)
Variable extra : list Z -> list Z -> Prop.
Hypothesis extra_start : extra [0] [0].
Hypothesis extra_visit : forall V W j, search_inv V W -> extra V W -> W <> [] -> edge (fr_pick W) j -> j ∉ V ->
  (forall k, 0 <= k < j -> edge (fr_pick W) k -> k ∈ V) -> extra (V ++ [j]) (W ++ [j]).
Hypothesis extra_drop : forall V W, search_inv V W -> extra V W -> W <> [] -> (forall j, edge (fr_pick W) j -> j ∈ V) ->
  extra V (fr_drop W).
Lemma search_loop_ok fuel : forall V W g f, graph_ok labels edge V g -> search_inv V W -> extra V W ->
  fr_repr (graph_capacity g) W f -> (2 * (length labels - length V) + length W <= fuel)%nat ->
  exists V' g', search_loop fuel g f = Ok (text V', g') /\ graph_ok labels edge (V ++ V') g' /\ search_inv (V ++ V') [] /\
    extra (V ++ V') [].
Proof.
  induction fuel as [ | fuel IH]; intros V W g f Hg Hi Hx Hf Hfuel; cbn [search_loop]; rewrite (fr_is_empty_ok _ _ _ Hf), obind_ok;
    (destruct W as [ | w0 W0] eqn:EW;
      [rewrite bool_decide_eq_true_2 by done; exists [], g; by rewrite app_nil_r | ]); [cbn in Hfuel; lia | ].
  rewrite bool_decide_eq_false_2 by done. rewrite <- EW in *. assert (W <> []) as HW by (by rewrite EW). clear EW w0 W0.
  rewrite (fr_peek_ok _ _ _ Hf HW), obind_ok. set (i := fr_pick W). pose proof (fr_pick_drop W HW) as Hp. fold i in Hp.
  assert (i ∈ W) as HiW by (rewrite Hp; left). pose proof (si_range _ _ Hi i ltac:(by apply (si_sub _ _ Hi))) as Hir.
  destruct (getAdj_ok V g i Hg Hir) as [(j & -> & Hj & Hij & HjV & Hleast) | [-> Hall]]; rewrite obind_ok.
  - rewrite (proj2 (Z.eqb_neq j (-1))) by lia. cbn [negb].
    destruct (visit_ok V g j Hg Hj) as (g1 & E1 & Hg1). rewrite E1, obind_ok.
    assert (graph_capacity g1 = graph_capacity g) as Ecap by (by eapply visit_capacity).
    assert (search_inv (V ++ [j]) (W ++ [j])) as Hi1.
    { destruct Hi as [I1 I2 I3 I4 I5 I6 I7]. split.
      - apply NoDup_app. split; [done | ]. split; [set_solver | apply NoDup_singleton].
      - set_solver.
      - apply NoDup_app. split; [done | ]. split; [set_solver | apply NoDup_singleton].
      - set_solver.
      - intros v [Hv | ->%list_elem_of_singleton]%elem_of_app; auto.
      - intros v [Hv | ->%list_elem_of_singleton]%elem_of_app; [auto | ]. eapply rtc_r; [apply I6, I4, HiW | done].
      - intros v k [Hv | ->%list_elem_of_singleton]%elem_of_app Hnw He; [ | set_solver].
        apply elem_of_app. left. eapply I7; [done | set_solver | done]. }
    pose proof (range_length _ (si_nodup _ _ Hi1) (si_range _ _ Hi1)) as HlV.
    pose proof (submseteq_length _ _ (NoDup_submseteq _ _ (si_wnodup _ _ Hi1) (si_sub _ _ Hi1))) as HlW.
    rewrite length_app in HlV. rewrite !length_app in HlW. cbn in HlV, HlW. destruct Hg as (Hg0 & Hg0' & _).
    destruct (fr_push_ok _ _ _ j Hf) as (f1 & -> & Hf1); [lia | ]. rewrite obind_ok.
    destruct (IH (V ++ [j]) (W ++ [j]) g1 f1) as (V' & g' & -> & Hg' & Hi' & Hx');
      [done | done | by apply extra_visit | by rewrite Ecap | rewrite !length_app; cbn; lia | ].
    exists (j :: V'), g'. rewrite <- app_assoc in Hg', Hi', Hx'. done.
  - rewrite Z.eqb_refl. cbn [negb]. destruct (fr_pop_ok _ _ _ Hf HW) as (f1 & -> & Hf1). rewrite obind_ok.
    destruct (IH V (fr_drop W) g f1) as (V' & g' & -> & Hg' & Hi' & Hx'); [done | | by apply extra_drop | done | | ].
    + clear Hx extra_start extra_visit extra_drop. destruct Hi as [I1 I2 I3 I4 I5 I6 I7]. rewrite Hp in I3. apply NoDup_cons in I3 as [I3a I3b].
      split; try done.
      * intros v Hv. apply I4. rewrite Hp. by right.
      * intros v k Hv Hnw He. destruct (decide (v = i)) as [-> | Hne]; [by apply Hall | ].
        eapply I7; [done | | done]. rewrite Hp. set_solver.
    + apply Permutation_length in Hp. cbn in Hp. lia.
    + by exists V', g'.
Qed.
Lemma search_ok fuel g : graph_ok labels edge [] g -> labels <> [] -> (2 * length labels <= fuel)%nat ->
  exists V g', search F fuel g = Ok (text V, g') /\ graph_ok labels edge V g' /\ NoDup V /\ head V = Some 0 /\
    (forall v, v ∈ V <-> rtc edge 0 v) /\ extra V [].
Proof.
  intros Hg Hne Hfuel. assert (0 < len labels) as Hl by (destruct labels; [done | cbn; lia]).
  unfold search. destruct Hg as (Hg1 & Hg2 & Hg3). destruct (fr_new_ok (graph_capacity g)) as (f & -> & Hf); [lia | ]. rewrite obind_ok.
  destruct (visit_ok [] g 0) as (g1 & E1 & Hg'); [done | lia | ]. rewrite E1, obind_ok.
  assert (graph_capacity g1 = graph_capacity g) as Ecap by (by eapply visit_capacity).
  destruct (fr_push_ok _ _ _ 0 Hf) as (f1 & -> & Hf1); [cbn; lia | ]. rewrite obind_ok.
  assert (search_inv [0] [0]) as Hi.
  { split; try apply NoDup_singleton; try (intros v ->%list_elem_of_singleton; first [lia | apply rtc_refl]); set_solver. }
  destruct (search_loop_ok fuel [0] [0] g1 f1) as (V' & g' & -> & Hg'' & Hi' & Hx'); [done | done | done | by rewrite Ecap | cbn; lia | ].
  rewrite obind_ok. exists (0 :: V'), g'. split; [done | ]. split; [done | ]. destruct Hi' as [I1 I2 I3 I4 I5 I6 I7].
  split; [done | ]. split; [done | ]. split; [ | done]. intros v. split; [apply I6 | ].
  intros Hr. assert (forall u, u ∈ 0 :: V' -> rtc edge u v -> v ∈ 0 :: V') as Hc; [ | by apply (Hc 0); [left | ]].
  intros u Hu Huv. induction Huv as [ | u w v Huw _ IH]; [done | ]. apply IH; [done | ]. by eapply I7; [ | apply not_elem_of_nil | ].
Qed.
End Search.

(** *** Breadth first: the container is the end of the list of marked vertices *)
Section Breadth.
Variables (labels : list Z) (edge : Z -> Z -> Prop).
(** [dep] is the number of edges to a vertex along the way it was found. *)
Record layered (dep : Z -> nat) (V W : list Z) : Prop := {
  la_split : exists D, V = D ++ W;
  la_root : dep 0 = O;
  la_order : StronglySorted (fun u w => (dep u <= dep w)%nat) V;
  la_near : forall i W' w, W = i :: W' -> w ∈ V -> (dep w <= S (dep i))%nat;
  la_from : forall v, v ∈ V -> v <> 0 -> exists u, u ∈ V /\ edge u v /\ dep v = S (dep u);
  la_done : forall u j, u ∈ V -> u ∉ W -> edge u j -> j ∈ V /\ (dep j <= S (dep u))%nat }.
Definition breadth (V W : list Z) : Prop := exists dep, layered dep V W.
Lemma breadth_start : breadth [0] [0].
Proof.
  exists (fun _ => O). split; [by exists [] | done | repeat constructor | intros; lia | set_solver | set_solver].
Qed.
Lemma breadth_visit V W j : search_inv labels edge V W -> breadth V W -> W <> [] -> edge (hd 0 W) j -> j ∉ V ->
  (forall k, 0 <= k < j -> edge (hd 0 W) k -> k ∈ V) -> breadth (V ++ [j]) (W ++ [j]).
Proof.
  intros Hi (dep & [[D HD] L2 L3 L4 L5 L6]) HW He Hj _. destruct W as [ | i W]; [done | ]. cbn in He.
  set (dep' := fun x => if decide (x = j) then S (dep i) else dep x).
  assert (forall x, x ∈ V -> dep' x = dep x) as Hd by (intros x Hx; unfold dep'; rewrite decide_False; [done | by intros ->]).
  assert (dep' j = S (dep i)) as Hdj by (unfold dep'; by rewrite decide_True).
  assert (i ∈ V) as HiV by (rewrite HD; set_solver).
  exists dep'. split.
  - exists D. by rewrite HD, <- app_assoc.
  - rewrite Hd; [done | by apply (si_root _ _ _ _ Hi)].
  - apply StronglySorted_app_2; [ | | repeat constructor].
    + intros u w Hu ->%list_elem_of_singleton. rewrite Hdj, Hd by done. by apply (L4 i W).
    + revert L3. clear -Hd. induction 1 as [ | u V HV IH Hu]; constructor.
      * apply IH. intros x Hx. apply Hd. by right.
      * rewrite Forall_forall in Hu |- *. intros w Hw. rewrite !Hd by set_solver. by apply Hu.
  - intros i' W' w [= <- _] [Hw | ->%list_elem_of_singleton]%elem_of_app; rewrite (Hd i HiV); [ | lia].
    rewrite Hd by done. by apply (L4 i W).
  - intros v [Hv | ->%list_elem_of_singleton]%elem_of_app Hv0.
    + destruct (L5 v Hv Hv0) as (u & Hu & Huv & Hdv). exists u. rewrite !Hd by done. split; [set_solver | done].
    + exists i. rewrite (Hd i HiV). split; [set_solver | done].
  - intros u k [Hu | ->%list_elem_of_singleton]%elem_of_app Hnw Huk; [ | set_solver].
    destruct (L6 u k Hu ltac:(set_solver) Huk) as [Hk Hdk]. rewrite !Hd by done. split; [set_solver | done].
Qed.
Lemma breadth_drop V W : search_inv labels edge V W -> breadth V W -> W <> [] -> (forall j, edge (hd 0 W) j -> j ∈ V) ->
  breadth V (tl W).
Proof.
  intros Hi (dep & [[D HD] L2 L3 L4 L5 L6]) HW Hall. destruct W as [ | i W]; [done | ]. cbn in Hall |- *.
  exists dep. split; [exists (D ++ [i]); by rewrite HD, <- app_assoc | done | done | | done | ].
  - intros i' W' w -> Hw. etransitivity; [by apply (L4 i (i' :: W')) | ].
    rewrite HD in L3. apply StronglySorted_app in L3 as (_ & _ & L3). apply StronglySorted_inv in L3 as [_ L3].
    apply Forall_cons in L3 as [L3 _]. lia.
  - intros u j Hu Hnw Huj. destruct (decide (u = i)) as [-> | Hne]; [ | apply (L6 u j Hu); [set_solver | done]].
    split; [by apply Hall | ]. apply (L4 i W); [done | by apply Hall].
Qed.
(** At the end the depth is the length of a shortest way. *)
Lemma breadth_ways V : breadth V [] -> 0 ∈ V ->
  forall a b u w n, (a < b)%nat -> V !! a = Some u -> V !! b = Some w -> nsteps edge n 0 w ->
    exists k, (k <= n)%nat /\ nsteps edge k 0 u.
Proof.
  intros (dep & [_ L2 L3 _ L5 L6]) H0 a b u w n Hab Hu Hw Hn.
  assert (forall n v, nsteps edge n 0 v -> v ∈ V /\ (dep v <= n)%nat) as Hle.
  { induction n0 as [ | n0 IH]; intros v Hv.
    - inversion Hv; subst. split; [done | lia].
    - apply nsteps_inv_r in Hv as (z & Hz & Hzv). destruct (IH z Hz) as [HzV Hdz].
      destruct (L6 z v HzV ltac:(apply not_elem_of_nil) Hzv). split; [done | lia]. }
  assert (forall d v, v ∈ V -> dep v = d -> nsteps edge d 0 v) as Hway.
  { induction d as [ | d IH]; intros v Hv Hdv; (destruct (decide (v = 0)) as [-> | Hv0]; [rewrite L2 in Hdv | ]).
    - constructor.
    - destruct (L5 v Hv Hv0) as (z & _ & _ & Hz). lia.
    - lia.
    - destruct (L5 v Hv Hv0) as (z & HzV & Hzv & Hz). eapply nsteps_r; [ | exact Hzv]. apply IH; [done | lia]. }
  exists (dep u). split; [ | apply Hway; [by eapply list_elem_of_lookup_2 | done]].
  destruct (Hle n w Hn) as [_ Hdw].
  assert ((dep u <= dep w)%nat) as Huw; [ | lia].
  apply list_elem_of_split_length in Hu as (P & Q & -> & ->). apply StronglySorted_app in L3 as (_ & _ & L3).
  apply StronglySorted_inv in L3 as [_ L3]. rewrite Forall_forall in L3. apply L3.
  rewrite lookup_app_r in Hw by lia. destruct (b - length P)%nat as [ | c] eqn:Eb; [lia | ]. by eapply list_elem_of_lookup_2.
Qed.
End Breadth.

(** *** Depth first: the stack is the path of the recursive search

    [explore v V V']: the search below [v] with [V] marked ends with [V'] marked; it goes
    down to the least neighbour that is not marked and comes back. *)
Section Depth.
Variables (labels : list Z) (edge : Z -> Z -> Prop).
Inductive explore (v : Z) (V : list Z) : list Z -> Prop :=
| explore_done : (forall j, edge v j -> j ∈ V) -> explore v V V
| explore_next j V1 V2 : edge v j -> j ∉ V -> (forall k, 0 <= k < j -> edge v k -> k ∈ V) ->
    explore j (V ++ [j]) V1 -> explore v V1 V2 -> explore v V V2.
(** The open calls, the innermost last. *)
Inductive unwind (V : list Z) : list Z -> list Z -> Prop :=
| unwind_nil : unwind V [] V
| unwind_snoc W v V1 V2 : explore v V V1 -> unwind V1 W V2 -> unwind V (W ++ [v]) V2.
Lemma unwind_inv V W v V2 : unwind V (W ++ [v]) V2 -> exists V1, explore v V V1 /\ unwind V1 W V2.
Proof.
  inversion 1 as [E | W' v' V1 V2' H1 H2 E]; [by destruct W | ]. apply app_inj_tail in E as [<- <-]. by exists V1.
Qed.
(** Whatever the open calls will end with is what the whole search ends with. *)
Definition depth (V W : list Z) : Prop := forall Vf, unwind V W Vf -> explore 0 [0] Vf.
Lemma depth_start : depth [0] [0].
Proof. intros Vf (V1 & H & Hn)%(unwind_inv _ []). by inversion Hn as [E | W v ? ? _ _ E]; [subst | by destruct W]. Qed.
Lemma depth_visit V W j : search_inv labels edge V W -> depth V W -> W <> [] -> edge (default 0 (last W)) j -> j ∉ V ->
  (forall k, 0 <= k < j -> edge (default 0 (last W)) k -> k ∈ V) -> depth (V ++ [j]) (W ++ [j]).
Proof.
  intros _ Hd HW He Hj Hk Vf (V1 & H1 & Hu)%unwind_inv. destruct W as [ | v W _] using rev_ind; [done | ].
  rewrite last_snoc in He, Hk. cbn in He, Hk. apply unwind_inv in Hu as (V2 & H2 & Hu).
  apply Hd, (unwind_snoc _ _ _ V2); [ | done]. by eapply explore_next.
Qed.
Lemma depth_drop V W : search_inv labels edge V W -> depth V W -> W <> [] -> (forall j, edge (default 0 (last W)) j -> j ∈ V) ->
  depth V (removelast W).
Proof.
  intros _ Hd HW Hall Vf Hu. destruct W as [ | v W _] using rev_ind; [done | ]. rewrite last_snoc in Hall. cbn in Hall.
  rewrite removelast_last in Hu. apply Hd, (unwind_snoc _ _ _ V); [by apply explore_done | done].
Qed.

(** The textbook recursion: mark, then every neighbour in turn that is not marked yet. *)
Context `{!RelDecision edge}.
Fixpoint dfs (fuel : nat) (V : list Z) (v : Z) : list Z :=
  match fuel with
  | O => V
  | S fuel => foldl (fun V j => if decide (edge v j /\ j ∉ V) then dfs fuel (V ++ [j]) j else V) V (seqZ 0 (len labels))
  end.
Lemma skip_marked fuel v l V : (forall j, j ∈ l -> edge v j -> j ∈ V) ->
  foldl (fun V j => if decide (edge v j /\ j ∉ V) then dfs fuel (V ++ [j]) j else V) V l = V.
Proof.
  induction l as [ | j l IH]; intros H; [done | ]. cbn [foldl]. rewrite decide_False; [apply IH; set_solver | ].
  intros [He Hj]. apply Hj, H; [left | done].
Qed.
Lemma explore_sub v V V' : explore v V V' -> V ⊆ V' /\ (length V <= length V')%nat.
Proof.
  induction 1 as [v V _ | v V j V1 V2 _ _ _ _ [I1 L1] _ [I2 L2]]; [done | ]. rewrite length_app in L1. split; [set_solver | lia].
Qed.
Lemma explore_dfs (edge_range : forall i j, edge i j -> 0 <= i < len labels /\ 0 <= j < len labels) v V V' :
  explore v V V' -> forall fuel, (length labels < fuel + length V)%nat -> (1 <= fuel)%nat -> (length V' <= length labels)%nat ->
  dfs fuel V v = V'.
Proof.
  induction 1 as [v V Hall | v V j V1 V2 He Hj Hk H1 IH1 H2 IH2]; intros fuel Hf Hpos Hl; (destruct fuel as [ | fuel]; [lia | ]).
  { cbn [dfs]. apply skip_marked. auto. }
  apply explore_sub in H1 as [S1 L1]. pose proof (explore_sub _ _ _ H2) as [S2 L2]. rewrite length_app in L1. cbn in L1.
  rewrite <- (IH2 (S fuel)) by lia. cbn [dfs]. pose proof (edge_range _ _ He) as [_ Hr].
  assert (exists r, seqZ 0 (len labels) = seqZ 0 j ++ j :: r) as [r ->].
  { replace (len labels) with (j + (len labels - j)) by lia. rewrite seqZ_app, (seqZ_cons (0 + j)) by lia. by eexists. }
  assert (forall k, k ∈ seqZ 0 j -> edge v k -> k ∈ V) as Hlow by (intros k Hs; apply elem_of_seqZ in Hs; apply Hk; lia).
  rewrite !foldl_app, (skip_marked fuel v (seqZ 0 j) V) by done. rewrite (skip_marked fuel v (seqZ 0 j) V1) by set_solver.
  cbn [foldl]. rewrite decide_True by done. rewrite (IH1 fuel) by (rewrite ?length_app; cbn; lia). rewrite decide_False; [done | ].
  intros [_ Hn]. apply Hn, S1. set_solver.
Qed.
End Depth.

(** ** Building a graph *)
Definition matrix_ok (n : Z) (m : list (list (option Z))) (edge : Z -> Z -> Prop) : Prop :=
  forall i j, 0 <= i < n -> 0 <= j < n ->
    exists row c, m !! Z.to_nat i = Some row /\ row !! Z.to_nat j = Some (Some c) /\ (c = 1 <-> edge i j).
Lemma set_cell_ok n m edge i j : matrix_ok n m edge -> 0 <= i < n -> 0 <= j < n ->
  exists m', set_cell m i j = Ok m' /\ matrix_ok n m' (fun a b => edge a b \/ (a = i /\ b = j)).
Proof.
  intros Hm Hi Hj. unfold set_cell. destruct (Hm i j Hi Hj) as (row & c & Hrow & Hc & _).
  rewrite (rd_ok _ _ _ (proj1 Hi) Hrow), obind_ok. pose proof (lookup_lt_Some _ _ _ Hc). rewrite wr_ok, obind_ok by lia.
  pose proof (lookup_lt_Some _ _ _ Hrow). rewrite wr_ok by lia. eexists. split; [done | ].
  intros a b Ha Hb. destruct (Hm a b Ha Hb) as (row' & c' & Hrow' & Hc' & He).
  destruct (decide (a = i)) as [-> | Hne].
  - rewrite Hrow in Hrow'. injection Hrow' as <-. rewrite list_lookup_insert_eq by lia. destruct (decide (b = j)) as [-> | Hnb].
    + exists (<[Z.to_nat j:=Some 1]> row), 1. rewrite list_lookup_insert_eq by lia. intuition.
    + exists (<[Z.to_nat j:=Some 1]> row), c'. rewrite list_lookup_insert_ne by lia. intuition.
  - rewrite list_lookup_insert_ne by lia. exists row', c'. intuition.
Qed.
Definition linked (es : list (Z * Z)) (i j : Z) : Prop := (i, j) ∈ es \/ (j, i) ∈ es.
#[export] Instance linked_dec es : RelDecision (linked es).
Proof. intros i j. unfold linked. solve_decision. Defined.
Lemma matrix_ok_iff n m e1 e2 : (forall a b, e1 a b <-> e2 a b) -> matrix_ok n m e1 -> matrix_ok n m e2.
Proof.
  intros He Hm i j Hi Hj. destruct (Hm i j Hi Hj) as (row & c & ? & ? & Hc). exists row, c.
  split; [done | ]. split; [done | ]. by rewrite Hc.
Qed.
Lemma addEdges_ok n es : forall g edge, Forall (fun e => 0 <= e.1 < n /\ 0 <= e.2 < n) es -> matrix_ok n (adjMatrix g) edge ->
  exists m, addEdges g es = Ok (MkGraph (vertices g) m (vertex_count g) (graph_capacity g)) /\
    matrix_ok n m (fun a b => edge a b \/ linked es a b).
Proof.
  induction es as [ | [s e] es IH]; intros g edge Hr Hm; cbn [addEdges].
  { exists (adjMatrix g). split; [by destruct g | ]. eapply matrix_ok_iff; [ | exact Hm].
    intros a b. unfold linked. rewrite !elem_of_nil. tauto. }
  apply Forall_cons in Hr as [[Hs He] Hr]. cbn in Hs, He. unfold addEdge.
  destruct (set_cell_ok n _ edge s e Hm Hs He) as (m1 & -> & Hm1). rewrite obind_ok.
  destruct (set_cell_ok n _ _ e s Hm1 He Hs) as (m2 & -> & Hm2). rewrite !obind_ok.
  destruct (IH (MkGraph (vertices g) m2 (vertex_count g) (graph_capacity g)) _ Hr Hm2) as (m & -> & Hm').
  exists m. split; [done | ]. eapply matrix_ok_iff; [ | exact Hm']. intros a b. unfold linked.
  rewrite !elem_of_cons, !pair_equal_spec. tauto.
Qed.
Lemma addVertices_ok k labels : forall g D, vertices g = D ++ replicate (length labels + k) (MkVertex None None) ->
  vertex_count g = len D ->
  addVertices g labels = Ok (MkGraph (D ++ map (fun c => MkVertex (Some c) (Some false)) labels ++ replicate k (MkVertex None None))
    (adjMatrix g) (len D + len labels) (graph_capacity g)).
Proof.
  induction labels as [ | c labels IH]; intros g D Hv Hc; cbn [addVertices].
  { cbn in Hv |- *. rewrite <- Hv, Z.add_0_r, <- Hc. by destruct g. }
  unfold addVertex. rewrite Hv. cbn [length Nat.add replicate]. rewrite wr_app, !obind_ok by done.
  rewrite (IH _ (D ++ [MkVertex (Some c) (Some false)])); [ | cbn; by rewrite <- app_assoc | cbn; rewrite length_app; cbn; lia].
  cbn [adjMatrix graph_capacity map length]. rewrite <- app_assoc, length_app. cbn [app length].
  by replace (Z.of_nat (length D + 1) + len labels) with (len D + Z.of_nat (S (length labels))) by lia.
Qed.
Lemma Graph_zeroed n : 0 <= n ->
  exists m, Graph (fun _ _ => Some 0) n = Ok (MkGraph (replicate (Z.to_nat n) (MkVertex None None)) m 0 n) /\
    matrix_ok n m (fun _ _ => False).
Proof.
  intros Hn. unfold Graph, new_array. rewrite (proj2 (Z.ltb_ge n 0)), obind_ok by lia. eexists. split; [done | ].
  intros i j Hi Hj. exists (map (fun _ => Some 0) (seq 0 (Z.to_nat n))), 0. split; [ | split; [ | split; [lia | done]]].
  - apply list_lookup_fmap_Some. exists (Z.to_nat i). split; [done | apply lookup_seq; lia].
  - apply list_lookup_fmap_Some. exists (Z.to_nat j). split; [done | apply lookup_seq; lia].
Qed.
Lemma build_ok n labels es : len labels <= n -> Forall (fun e => 0 <= e.1 < len labels /\ 0 <= e.2 < len labels) es ->
  exists g, build (fun _ _ => Some 0) n labels es = Ok g /\ graph_ok labels (linked es) [] g.
Proof.
  intros Hn Hes. unfold build. destruct (Graph_zeroed n) as (m & -> & Hm); [lia | ]. rewrite obind_ok.
  rewrite (addVertices_ok (Z.to_nat n - length labels) labels _ []); [ | cbn; f_equal; lia | done]. rewrite obind_ok.
  destruct (addEdges_ok n es (MkGraph (map (fun c => MkVertex (Some c) (Some false)) labels ++
    replicate (Z.to_nat n - length labels) (MkVertex None None)) m (len labels) n) (fun _ _ => False)) as (m' & E & Hm'); [ | exact Hm | ].
  { eapply Forall_impl; [exact Hes | ]. intros e. cbn. lia. }
  exists (MkGraph (map (fun c => MkVertex (Some c) (Some false)) labels ++
    replicate (Z.to_nat n - length labels) (MkVertex None None)) m' (len labels) n). split; [exact E | ].
  split; [done | ]. split; [done | ]. split.
  - intros i c Hc. cbn [vertices]. rewrite lookup_app_l by (rewrite length_map; by eapply lookup_lt_Some).
    apply list_lookup_fmap_Some. exists c. split; [ | done]. by rewrite bool_decide_eq_false_2 by apply not_elem_of_nil.
  - intros i j Hi Hj. cbn [adjMatrix]. destruct (Hm' i j ltac:(lia) ltac:(lia)) as (row & c & ? & ? & Hc).
    exists row, c. split; [done | ]. split; [done | ]. rewrite Hc. tauto.
Qed.

(** What a search prints: [V] lists the vertices that can be reached from 0, once each. *)
Definition visits (labels : list Z) (es : list (Z * Z)) (out : bytes) (V : list Z) : Prop :=
  out = text labels V /\ NoDup V /\ head V = Some 0 /\ forall v, v ∈ V <-> rtc (linked es) 0 v.

(** C18. Both searches of a graph built with addVertex and addEdge print the label of every
    vertex that can be reached from vertex 0 once, vertex 0 first, and no other, and
    end within [2 n] rounds; their stack and queue never overflow; breadthFirstSearch
    prints the vertices in the order of their distance from vertex 0, depthFirstSearch
    in the order in which the recursive search marks them.  This needs the
    allocator to return zeroed memory: addEdge sets entries to 1, and nothing sets the
    others, so with indeterminate memory the program is undefined. *)
Theorem graph_search (n : Z) (labels : list Z) (es : list (Z * Z)) (fuel : nat) :
  labels <> [] -> len labels <= n -> Forall (fun e => 0 <= e.1 < len labels /\ 0 <= e.2 < len labels) es ->
  (2 * length labels <= fuel)%nat ->
  exists g, build (fun _ _ => Some 0) n labels es = Ok g /\
    (exists out V g', depthFirstSearch fuel g = Ok (out, g') /\ visits labels es out V /\
       V = dfs labels (linked es) (length labels) [0] 0) /\
    (exists out V g', breadthFirstSearch fuel g = Ok (out, g') /\ visits labels es out V /\
       forall a b u w d, (a < b)%nat -> V !! a = Some u -> V !! b = Some w -> nsteps (linked es) d 0 w ->
         exists k, (k <= d)%nat /\ nsteps (linked es) k 0 u) /\
    graph_main (fun _ _ => None) fuel = Ub.
Proof.
  intros Hne Hn Hes Hf. destruct (build_ok n labels es Hn Hes) as (g & E & Hg). exists g. split; [done | ].
  assert (forall i j, linked es i j -> 0 <= i < len labels /\ 0 <= j < len labels) as Hr.
  { rewrite Forall_forall in Hes. intros i j [He | He]; specialize (Hes _ He); cbn in Hes; tauto. }
  split; [ | split; [ | destruct fuel; [destruct labels; cbn in *; [done | lia] | reflexivity]]].
  - destruct (search_ok (F := stack) (H0 := stack_frontier_laws) labels _ Hr (depth (linked es)) (depth_start _) (depth_visit labels _)
      (depth_drop labels _) fuel g Hg Hne Hf) as (V & g' & ? & _ & Hnd & ? & Hv & Hd).
    exists (text labels V), V, g'. split; [done | ]. split; [done | ]. symmetry. apply explore_dfs; [done | apply Hd; constructor | cbn; lia | | ].
    + destruct labels; [done | cbn; lia].
    + apply range_length; [done | ]. intros v Hin. apply Hv, rtc_inv_r in Hin as [<- | (u & _ & Hu)]; [destruct labels; [done | cbn; lia] | by apply (Hr u)].
  - destruct (search_ok (F := queue) (H0 := queue_frontier_laws) labels _ Hr (breadth (linked es)) (breadth_start _) (breadth_visit labels _)
      (breadth_drop labels _) fuel g Hg Hne Hf) as (V & g' & ? & _ & ? & Hh & ? & Hb).
    exists (text labels V), V, g'. split; [done | ]. split; [done | ]. apply breadth_ways; [done | ].
    destruct V; [done | ]. injection Hh as ->. left.
Qed.
Lemma graph_search_witness :
  exists g, build (fun _ _ => Some 0) 5 (lit "SABCD") [(0, 1); (0, 2); (0, 3); (1, 4); (2, 4); (3, 4)] = Ok g /\
    exists out V g', depthFirstSearch 10 g = Ok (out, g') /\
      visits (lit "SABCD") [(0, 1); (0, 2); (0, 3); (1, 4); (2, 4); (3, 4)] out V /\
      V = dfs (lit "SABCD") (linked [(0, 1); (0, 2); (0, 3); (1, 4); (2, 4); (3, 4)]) 5 [0] 0.
Proof.
  destruct (graph_search 5 (lit "SABCD") [(0, 1); (0, 2); (0, 3); (1, 4); (2, 4); (3, 4)] 10) as (g & E & Hs & _);
    [done | done | by repeat constructor | cbn; lia | ].
  exists g. exact (conj E Hs).
Defined.
End CppGraph.
