(* ===== verification/CppTree.v ===== *)
(** * Binary trees: [c++/src/tree.cpp], [binaryTree/TreeNode.{h,cpp}],
    [binaryTree/traversal.cpp], [binaryTree/pathSum.cpp]

    Both programs keep nodes of a number and two pointers on the heap.  A heap is a
    finite map from addresses to nodes (0 is the null pointer); [room] is the
    number of calls of [malloc] that will succeed.  [tree_in h t] says that the
    heap holds the tree [t], whose nodes carry their addresses; the theorems give the
    behaviour of the programs on it.  Recursions on pointers take fuel; the number
    of nodes is enough. *)
From stdpp Require Import sorting.
From S2P Require Import Prelude CLib.

Module CppTree.

(** ** Memory *)
Record node := MkNode { data : Z; left_ : Z; right_ : Z }.
Record mem := MkMem { heap : gmap Z node; next : Z; room : nat }.
(** The fields of a new node are written before they are read, by both programs. *)
Definition malloc (m : mem) : mem * Z :=
  match room m with
  | O => (m, 0)
  | S room => (MkMem (<[next m := MkNode 0 0 0]> (heap m)) (next m + 1) room, next m)
  end.
Definition get (h : gmap Z node) (p : Z) : outcome node :=
  if p =? 0 then Ub else match h !! p with Some n => Ok n | None => Ub end.
Definition put (m : mem) (p : Z) (n : node) : outcome mem :=
  let! _ := get (heap m) p in
  Ok (MkMem (<[p := n]> (heap m)) (next m) (room m)).
Definition free (m : mem) (p : Z) : outcome mem :=
  let! _ := get (heap m) p in
  Ok (MkMem (delete p (heap m)) (next m) (room m)).
Definition number (v : Z) : bytes := dec v ++ lit " ".

(** ** [tree.cpp] *)
(** [while (1)] of insert: [tmp_node] is linked below the last node of the path. *)
Fixpoint insert_loop (fuel : nat) (m : mem) (current tmp_node value : Z) : outcome mem :=
  match fuel with
  | O => NoFuel
  | S fuel =>
      let parent := current in
      let! n := get (heap m) parent in
      if data n <? value then
        let current := right_ n in
        if current =? 0 then put m parent (MkNode (data n) (left_ n) tmp_node)
        else insert_loop fuel m current tmp_node value
      else if data n >? value then
        let current := left_ n in
        if current =? 0 then put m parent (MkNode (data n) tmp_node (right_ n))
        else insert_loop fuel m current tmp_node value
      else Ok m
  end.
Definition insert (fuel : nat) (m : mem) (root value : Z) : outcome (mem * Z) :=
  let '(m, tmp_node) := malloc m in
  let! m := put m tmp_node (MkNode value 0 0) in
  if root =? 0 then Ok (m, tmp_node)
  else
    let! m := insert_loop fuel m root tmp_node value in
    Ok (m, root).
Fixpoint search (fuel : nat) (h : gmap Z node) (current value : Z) : outcome Z :=
  if negb (current =? 0) then
    match fuel with
    | O => NoFuel
    | S fuel =>
        let! n := get h current in
        if data n =? value then Ok current
        else if data n <? value then search fuel h (right_ n) value
        else search fuel h (left_ n) value
    end
  else Ok 0.
Fixpoint preorder (fuel : nat) (h : gmap Z node) (current : Z) : outcome bytes :=
  if current =? 0 then Ok []
  else
    match fuel with
    | O => NoFuel
    | S fuel =>
        let! n := get h current in
        let! a := preorder fuel h (left_ n) in
        let! b := preorder fuel h (right_ n) in
        Ok (number (data n) ++ a ++ b)
    end.
Fixpoint inorder (fuel : nat) (h : gmap Z node) (current : Z) : outcome bytes :=
  if current =? 0 then Ok []
  else
    match fuel with
    | O => NoFuel
    | S fuel =>
        let! n := get h current in
        let! a := inorder fuel h (left_ n) in
        let! b := inorder fuel h (right_ n) in
        Ok (a ++ number (data n) ++ b)
    end.
Fixpoint postOrder (fuel : nat) (h : gmap Z node) (current : Z) : outcome bytes :=
  if current =? 0 then Ok []
  else
    match fuel with
    | O => NoFuel
    | S fuel =>
        let! n := get h current in
        let! a := postOrder fuel h (left_ n) in
        let! b := postOrder fuel h (right_ n) in
        Ok (a ++ b ++ number (data n))
    end.
Fixpoint insert_all (fuel : nat) (m : mem) (root : Z) (xs : list Z) : outcome (mem * Z) :=
  match xs with
  | [] => Ok (m, root)
  | x :: xs => let! '(m, root) := insert fuel m root x in insert_all fuel m root xs
  end.
Definition tree_main (fuel : nat) (m : mem) : outcome bytes :=
  let! '(m, root) := insert_all fuel m 0 [5; 3; 2; 4; 8; 7; 10] in
  let! a := preorder fuel (heap m) root in
  let! b := inorder fuel (heap m) root in
  let! c := postOrder fuel (heap m) root in
  let! r := search fuel (heap m) root 4 in
  let! n := get (heap m) r in
  Ok (lit "PreOrder Traversal: " ++ a ++ [10] ++ lit "InOrder Traversal: " ++ b ++ [10] ++
      lit "Postorder Traversal: " ++ c ++ [10] ++ lit "Found r->data " ++ dec (data n) ++ [10]).

(** ** [TreeNode.h], [TreeNode.cpp]: the same node, its number is [value] *)
Definition TreeNode : Type := node.
Definition newNode (m : mem) (value : Z) : outcome (mem * Z) :=
  let '(m, p) := malloc m in
  let! m := put m p (MkNode 0 0 0) in
  let! m := put m p (MkNode value 0 0) in
  Ok (m, p).
(** [if (p) f(p);] *)
Definition if_ptr {A} (p : Z) (none : A) (some : outcome A) : outcome A := if p =? 0 then Ok none else some.
Fixpoint inOrderTraversal (fuel : nat) (h : gmap Z node) (pRoot : Z) : outcome bytes :=
  if pRoot =? 0 then Ok []
  else
    match fuel with
    | O => NoFuel
    | S fuel =>
        let! n := get h pRoot in
        let! a := if_ptr (left_ n) [] (inOrderTraversal fuel h (left_ n)) in
        let! b := if_ptr (right_ n) [] (inOrderTraversal fuel h (right_ n)) in
        Ok (a ++ number (data n) ++ b)
    end.
Fixpoint preOrderTraversal (fuel : nat) (h : gmap Z node) (pRoot : Z) : outcome bytes :=
  if pRoot =? 0 then Ok []
  else
    match fuel with
    | O => NoFuel
    | S fuel =>
        let! n := get h pRoot in
        let! a := if_ptr (left_ n) [] (preOrderTraversal fuel h (left_ n)) in
        let! b := if_ptr (right_ n) [] (preOrderTraversal fuel h (right_ n)) in
        Ok (number (data n) ++ a ++ b)
    end.
Fixpoint postOrderTraversal (fuel : nat) (h : gmap Z node) (pRoot : Z) : outcome bytes :=
  if pRoot =? 0 then Ok []
  else
    match fuel with
    | O => NoFuel
    | S fuel =>
        let! n := get h pRoot in
        let! a := if_ptr (left_ n) [] (postOrderTraversal fuel h (left_ n)) in
        let! b := if_ptr (right_ n) [] (postOrderTraversal fuel h (right_ n)) in
        Ok (a ++ b ++ number (data n))
    end.
Fixpoint freeTree (fuel : nat) (m : mem) (pRoot : Z) : outcome mem :=
  if pRoot =? 0 then Ok m
  else
    match fuel with
    | O => NoFuel
    | S fuel =>
        let! n := get (heap m) pRoot in
        let! m := if_ptr (left_ n) m (freeTree fuel m (left_ n)) in
        let! n := get (heap m) pRoot in
        let! m := if_ptr (right_ n) m (freeTree fuel m (right_ n)) in
        free m pRoot
    end.

(** ** [traversal.cpp] *)
(** [if (p) c.push(p)], with the number of pushed elements *)
Definition child (p : Z) : list Z := if p =? 0 then [] else [p].
Fixpoint bottom_loop (fuel : nat) (h : gmap Z node) (q : list Z) (toBePrinted nextLevel : Z) : outcome bytes :=
  match q with
  | [] => Ok []
  | pNode :: q =>
      match fuel with
      | O => NoFuel
      | S fuel =>
          let! n := get h pNode in
          let q := q ++ child (left_ n) in
          let nextLevel := nextLevel + len (child (left_ n)) in
          let q := q ++ child (right_ n) in
          let nextLevel := nextLevel + len (child (right_ n)) in
          let toBePrinted := toBePrinted - 1 in
          let! rest := if toBePrinted =? 0 then bottom_loop fuel h q nextLevel 0
                       else bottom_loop fuel h q toBePrinted nextLevel in
          Ok (number (data n) ++ (if toBePrinted =? 0 then [10] else []) ++ rest)
      end
  end.
Definition printTopToBottom (fuel : nat) (h : gmap Z node) (pRoot : Z) : outcome bytes :=
  if pRoot =? 0 then Ok [] else bottom_loop fuel h [pRoot] 1 0.

(** The two stacks, their tops first; [cur] is [levels[current]]. *)
Fixpoint zigzag_loop (fuel : nat) (h : gmap Z node) (cur nxt : list Z) (current : Z) : outcome bytes :=
  if bool_decide (cur = []) && bool_decide (nxt = []) then Ok []
  else
    match fuel with
    | O => NoFuel
    | S fuel =>
        match cur with
        | [] => Ub
        | p :: cur =>
            let! n := get h p in
            let nxt := if current =? 0 then child (right_ n) ++ child (left_ n) ++ nxt
                       else child (left_ n) ++ child (right_ n) ++ nxt in
            let! rest := if bool_decide (cur = []) then zigzag_loop fuel h nxt cur (1 - current)
                         else zigzag_loop fuel h cur nxt current in
            Ok (number (data n) ++ (if bool_decide (cur = []) then [10] else []) ++ rest)
        end
    end.
Definition printZigZag (fuel : nat) (h : gmap Z node) (pRoot : Z) : outcome bytes :=
  if pRoot =? 0 then Ok [] else zigzag_loop fuel h [pRoot] [] 0.

(** [p->left = newNode(v)], [p->right = newNode(v)] *)
Definition left_of (m : mem) (p : Z) : outcome Z := let! n := get (heap m) p in Ok (left_ n).
Definition right_of (m : mem) (p : Z) : outcome Z := let! n := get (heap m) p in Ok (right_ n).
Definition new_left (m : mem) (p v : Z) : outcome mem :=
  let! '(m, c) := newNode m v in
  let! n := get (heap m) p in
  put m p (MkNode (data n) c (right_ n)).
Definition new_right (m : mem) (p v : Z) : outcome mem :=
  let! '(m, c) := newNode m v in
  let! n := get (heap m) p in
  put m p (MkNode (data n) (left_ n) c).
Definition traversal_main (fuel : nat) (m : mem) : outcome (bytes * mem) :=
  let! '(m, root) := newNode m 8 in
  let! m := new_left m root 6 in
  let! l := left_of m root in let! m := new_left m l 5 in
  let! l := left_of m root in let! m := new_right m l 7 in
  let! m := new_right m root 10 in
  let! r := right_of m root in let! m := new_left m r 9 in
  let! r := right_of m root in let! m := new_right m r 11 in
  let! a := preOrderTraversal fuel (heap m) root in
  let! b := inOrderTraversal fuel (heap m) root in
  let! c := postOrderTraversal fuel (heap m) root in
  let! d := printTopToBottom fuel (heap m) root in
  let! e := printZigZag fuel (heap m) root in
  let! m := freeTree fuel m root in
  Ok (a ++ lit ": preOrder" ++ [10] ++ b ++ lit ": inOrder" ++ [10] ++ c ++ lit ": postOrder" ++ [10] ++ d ++ e, m).

(** ** [pathSum.cpp] *)
Definition path_line (expectedSum : Z) (path : list Z) : bytes :=
  lit "Found a Path with Sum " ++ dec expectedSum ++ lit " " ++ concat (map number path) ++ [10].
(** [path] is passed by value: what a leaf removes from it is its own copy. *)
Fixpoint findPath (fuel : nat) (h : gmap Z node) (pRoot expectedSum : Z) (path : list Z) (currentSum : Z) : outcome bytes :=
  if pRoot =? 0 then Ok []
  else
    match fuel with
    | O => NoFuel
    | S fuel =>
        let! n := get h pRoot in
        let! currentSum := cint (currentSum + data n) in
        let path := path ++ [data n] in
        if (left_ n =? 0) && (right_ n =? 0) then
          if currentSum =? expectedSum then Ok (path_line expectedSum path)
          else let! _ := cint (currentSum - data n) in Ok []
        else
          let! a := if_ptr (left_ n) [] (findPath fuel h (left_ n) expectedSum path currentSum) in
          let! b := if_ptr (right_ n) [] (findPath fuel h (right_ n) expectedSum path currentSum) in
          Ok (a ++ b)
    end.
Definition findPathWithSum (fuel : nat) (h : gmap Z node) (pRoot expectedSum : Z) : outcome bytes :=
  if pRoot =? 0 then Ok [] else findPath fuel h pRoot expectedSum [] 0.
Definition test_tree (m : mem) : outcome (mem * Z) :=
  let! '(m, root) := newNode m 10 in
  let! m := new_left m root 5 in
  let! l := left_of m root in let! m := new_left m l 4 in
  let! l := left_of m root in let! m := new_right m l 7 in
  let! m := new_right m root 12 in
  Ok (m, root).
Definition find_and_free (fuel : nat) (m : mem) (root sum : Z) : outcome (bytes * mem) :=
  let! out := findPathWithSum fuel (heap m) root sum in
  let! m := freeTree fuel m root in
  Ok (out, m).
Definition testOneOrMorePaths (fuel : nat) (m : mem) : outcome (bytes * mem) :=
  let! '(m, root) := test_tree m in find_and_free fuel m root 22.
Definition testNoPath (fuel : nat) (m : mem) : outcome (bytes * mem) :=
  let! '(m, root) := test_tree m in find_and_free fuel m root 23.
Definition testOneNode (fuel : nat) (m : mem) : outcome (bytes * mem) :=
  let! '(m, root) := newNode m 10 in find_and_free fuel m root 5.
Definition testOnlyLeftNodes (fuel : nat) (m : mem) : outcome (bytes * mem) :=
  let! '(m, root) := newNode m 10 in
  let! m := new_left m root 5 in
  let! l := left_of m root in let! m := new_left m l 4 in
  let! l := left_of m root in let! l := left_of m l in let! m := new_left m l 7 in
  find_and_free fuel m root 26.
Definition testNullRoot (fuel : nat) (m : mem) : outcome (bytes * mem) := find_and_free fuel m 0 23.
Definition pathSum_main (fuel : nat) (m : mem) : outcome (bytes * mem) :=
  let! '(a, m) := testOneOrMorePaths fuel m in
  let! '(b, m) := testNoPath fuel m in
  let! '(c, m) := testOneNode fuel m in
  let! '(d, m) := testOnlyLeftNodes fuel m in
  let! '(e, m) := testNullRoot fuel m in
  Ok (a ++ b ++ c ++ d ++ e, m).

Definition start (room : nat) : mem := MkMem ∅ 1 room.
Example tree_main_output : tree_main 8 (start 7) = Ok (lit "PreOrder Traversal: 5 3 2 4 8 7 10 " ++ [10] ++
  lit "InOrder Traversal: 2 3 4 5 7 8 10 " ++ [10] ++ lit "Postorder Traversal: 2 4 3 7 10 8 5 " ++ [10] ++
  lit "Found r->data 4" ++ [10]).
Proof. vm_compute. reflexivity. Qed.
Example traversal_output : (let! '(out, m) := traversal_main 8 (start 7) in Ok (out, heap m)) =
  Ok (lit "8 6 5 7 10 9 11 : preOrder" ++ [10] ++ lit "5 6 7 8 9 10 11 : inOrder" ++ [10] ++
      lit "5 7 6 9 11 10 8 : postOrder" ++ [10] ++ lit "8 " ++ [10] ++ lit "6 10 " ++ [10] ++ lit "5 7 9 11 " ++ [10] ++
      lit "8 " ++ [10] ++ lit "10 6 " ++ [10] ++ lit "5 7 9 11 " ++ [10], ∅).
Proof. vm_compute. reflexivity. Qed.
Example pathSum_output : (let! '(out, m) := pathSum_main 8 (start 15) in Ok (out, heap m)) =
  Ok (lit "Found a Path with Sum 22 10 5 7 " ++ [10] ++ lit "Found a Path with Sum 22 10 12 " ++ [10] ++
      lit "Found a Path with Sum 26 10 5 4 7 " ++ [10], ∅).
Proof. vm_compute. reflexivity. Qed.

(** ** Trees in a heap *)
Inductive atree := E | T (a : Z) (l : atree) (v : Z) (r : atree).
#[export] Instance atree_eq_dec : EqDecision atree.
Proof. solve_decision. Defined.
Definition addr (t : atree) : Z := match t with E => 0 | T a _ _ _ => a end.
Fixpoint addrs (t : atree) : list Z := match t with E => [] | T a l _ r => a :: addrs l ++ addrs r end.
Fixpoint size_t (t : atree) : nat := match t with E => O | T _ l _ r => S (size_t l + size_t r) end.
Fixpoint vals_pre (t : atree) : list Z := match t with E => [] | T _ l v r => v :: vals_pre l ++ vals_pre r end.
Fixpoint vals_in (t : atree) : list Z := match t with E => [] | T _ l v r => vals_in l ++ v :: vals_in r end.
Fixpoint vals_post (t : atree) : list Z := match t with E => [] | T _ l v r => vals_post l ++ vals_post r ++ [v] end.
Fixpoint tree_in (h : gmap Z node) (t : atree) : Prop :=
  match t with
  | E => True
  | T a l v r => a <> 0 /\ h !! a = Some (MkNode v (addr l) (addr r)) /\ tree_in h l /\ tree_in h r
  end.
Definition numbers (vs : list Z) : bytes := concat (map number vs).

Lemma numbers_app u w : numbers (u ++ w) = numbers u ++ numbers w.
Proof. unfold numbers. by rewrite map_app, concat_app. Qed.
Lemma numbers_one v : numbers [v] = number v.
Proof. apply app_nil_r. Qed.
Lemma get_ok h a l v r : tree_in h (T a l v r) -> (a =? 0) = false /\ get h a = Ok (MkNode v (addr l) (addr r)).
Proof.
  intros (Ha & Hn & _). rewrite (proj2 (Z.eqb_neq a 0)) by done. split; [done | ]. unfold get.
  rewrite (proj2 (Z.eqb_neq a 0)) by done. by rewrite Hn.
Qed.
Lemma if_ptr_eq {A} p (x : A) o : (p = 0 -> o = Ok x) -> if_ptr p x o = o.
Proof. intros H. unfold if_ptr. case_if; [by rewrite H | done]. Qed.
Lemma addr_E h t : tree_in h t -> addr t = 0 -> t = E.
Proof. destruct t as [ | a l v r]; [done | ]. intros (Ha & _) H0. done. Qed.

(** A recursion over a tree in a heap: the null pointer, then the two children. *)
Ltac traverse t f :=
  induction t as [ | a l IHl v r IHr]; intros fuel Hin Hs; [by destruct fuel | ];
  destruct fuel as [ | fuel]; [cbn in Hs; lia | ]; cbn [addr f];
  destruct (get_ok _ _ _ _ _ Hin) as [Ha Hg]; rewrite Ha, Hg, obind_ok; cbn [left_ right_ data];
  destruct Hin as (_ & _ & Hl & Hr); cbn [size_t] in Hs;
  rewrite ?if_ptr_eq by (intros ->; by destruct fuel);
  rewrite IHl, obind_ok, IHr, obind_ok by (done || lia);
  cbn [vals_pre vals_in vals_post]; f_equal.
Lemma preorder_ok h t : forall fuel, tree_in h t -> (size_t t <= fuel)%nat -> preorder fuel h (addr t) = Ok (numbers (vals_pre t)).
Proof. traverse t preorder. change (v :: vals_pre l ++ vals_pre r) with ([v] ++ vals_pre l ++ vals_pre r). by rewrite !numbers_app, numbers_one. Qed.
Lemma preOrderTraversal_ok h t : forall fuel, tree_in h t -> (size_t t <= fuel)%nat -> preOrderTraversal fuel h (addr t) = Ok (numbers (vals_pre t)).
Proof. traverse t preOrderTraversal. change (v :: vals_pre l ++ vals_pre r) with ([v] ++ vals_pre l ++ vals_pre r). by rewrite !numbers_app, numbers_one. Qed.
Lemma inorder_ok h t : forall fuel, tree_in h t -> (size_t t <= fuel)%nat -> inorder fuel h (addr t) = Ok (numbers (vals_in t)).
Proof. traverse t inorder. change (v :: vals_in r) with ([v] ++ vals_in r). by rewrite !numbers_app, numbers_one. Qed.
Lemma inOrderTraversal_ok h t : forall fuel, tree_in h t -> (size_t t <= fuel)%nat -> inOrderTraversal fuel h (addr t) = Ok (numbers (vals_in t)).
Proof. traverse t inOrderTraversal. change (v :: vals_in r) with ([v] ++ vals_in r). by rewrite !numbers_app, numbers_one. Qed.
Lemma postOrder_ok h t : forall fuel, tree_in h t -> (size_t t <= fuel)%nat -> postOrder fuel h (addr t) = Ok (numbers (vals_post t)).
Proof. traverse t postOrder. by rewrite !numbers_app, numbers_one. Qed.
Lemma postOrderTraversal_ok h t : forall fuel, tree_in h t -> (size_t t <= fuel)%nat -> postOrderTraversal fuel h (addr t) = Ok (numbers (vals_post t)).
Proof. traverse t postOrderTraversal. by rewrite !numbers_app, numbers_one. Qed.

(** Changes elsewhere leave a tree as it is. *)
Lemma tree_in_ext h h' t : (forall a, a ∈ addrs t -> h' !! a = h !! a) -> tree_in h t -> tree_in h' t.
Proof.
  induction t as [ | a l IHl v r IHr]; [done | ]. intros He (Ha & Hn & Hl & Hr). cbn [addrs] in He.
  split; [done | ]. split; [rewrite He by left; done | ].
  split; [apply IHl | apply IHr]; try done; intros b Hb; apply He; set_solver.
Qed.
Lemma addrs_in h t a : tree_in h t -> a ∈ addrs t -> a <> 0 /\ is_Some (h !! a).
Proof.
  induction t as [ | b l IHl v r IHr]; [by intros _ ?%elem_of_nil | ]. intros (Hb & Hn & Hl & Hr).
  cbn [addrs]. intros [-> | [?|?]%elem_of_app]%elem_of_cons; [by rewrite Hn | auto | auto].
Qed.

(** *** freeTree *)
Lemma freeTree_ok t : forall fuel m, tree_in (heap m) t -> NoDup (addrs t) -> (size_t t <= fuel)%nat ->
  exists m', freeTree fuel m (addr t) = Ok m' /\ next m' = next m /\ room m' = room m /\
    forall a, heap m' !! a = if decide (a ∈ addrs t) then None else heap m !! a.
Proof.
  induction t as [ | b l IHl v r IHr]; intros fuel m Hin Hnd Hs.
  { exists m. split; [by destruct fuel | ]. by repeat split. }
  destruct fuel as [ | fuel]; [cbn in Hs; lia | ]. cbn [addr freeTree]. cbn [size_t] in Hs. cbn [addrs] in Hnd |- *.
  destruct (get_ok _ _ _ _ _ Hin) as [Hb Hg]. rewrite Hb, Hg, obind_ok. cbn [left_ right_]. destruct Hin as (_ & Hn & Hl & Hr).
  apply NoDup_cons in Hnd as [Hbn (Hndl & Hdis & Hndr)%NoDup_app].
  rewrite if_ptr_eq by (intros ->; by destruct fuel).
  destruct (IHl fuel m Hl Hndl ltac:(lia)) as (m1 & -> & N1 & R1 & H1). rewrite obind_ok.
  assert (heap m1 !! b = Some (MkNode v (addr l) (addr r))) as Hn1 by (rewrite H1, decide_False by set_solver; done).
  assert (get (heap m1) b = Ok (MkNode v (addr l) (addr r))) as -> by (unfold get; rewrite Hb; by rewrite Hn1).
  rewrite obind_ok. cbn [right_]. rewrite if_ptr_eq by (intros ->; by destruct fuel).
  destruct (IHr fuel m1) as (m2 & -> & N2 & R2 & H2); [ | done | lia | ].
  { eapply tree_in_ext; [ | exact Hr]. intros a Ha. rewrite H1, decide_False; [done | ]. intros Ha'. by apply (Hdis a). }
  rewrite obind_ok. unfold free, get. rewrite Hb, H2, decide_False by set_solver. rewrite Hn1, obind_ok.
  eexists. split; [done | ]. cbn [next room heap]. split; [congruence | ]. split; [congruence | ].
  intros a. destruct (decide (a = b)) as [-> | Hne].
  - rewrite lookup_delete_eq, decide_True by left. done.
  - rewrite lookup_delete_ne, H2, H1 by done. repeat case_decide; set_solver.
Qed.

(** *** insert and search *)
Fixpoint tins (p x : Z) (t : atree) : atree :=
  match t with
  | E => T p E x E
  | T a l v r => if v <? x then T a l v (tins p x r) else if v >? x then T a (tins p x l) v r else t
  end.
Definition bst (t : atree) : Prop := StronglySorted Z.lt (vals_in t).
Lemma bst_inv a l v r : bst (T a l v r) ->
  bst l /\ bst r /\ (forall x, x ∈ vals_in l -> x < v) /\ (forall x, x ∈ vals_in r -> v < x).
Proof.
  unfold bst. cbn [vals_in]. rewrite StronglySorted_app. intros (H1 & H2 & H3).
  apply StronglySorted_inv in H3 as [H3 H4]. rewrite Forall_forall in H4. split; [done | ]. split; [done | ].
  split; [ | done]. intros x Hx. apply H1; [done | left].
Qed.
Lemma bst_node a l v r : bst l -> bst r -> (forall x, x ∈ vals_in l -> x < v) -> (forall x, x ∈ vals_in r -> v < x) ->
  bst (T a l v r).
Proof.
  intros Hl Hr H1 H2. unfold bst. cbn [vals_in]. apply StronglySorted_app_2; [ | done | ].
  - intros x y Hx [-> | Hy]%elem_of_cons; [auto | ]. specialize (H1 x Hx). specialize (H2 y Hy). lia.
  - constructor; [done | by apply Forall_forall].
Qed.
Lemma tins_vals p x t : bst t -> forall y, y ∈ vals_in (tins p x t) <-> y = x \/ y ∈ vals_in t.
Proof.
  induction t as [ | a l IHl v r IHr]; intros Hb y; cbn [tins vals_in].
  { cbn. rewrite list_elem_of_singleton, elem_of_nil. tauto. }
  apply bst_inv in Hb as (Hl & Hr & _). specialize (IHl Hl y). specialize (IHr Hr y).
  destruct (v <? x) eqn:E1; zbool; [cbn [vals_in]; set_solver | ].
  destruct (v >? x) eqn:E2; zbool; cbn [vals_in]; [set_solver | ]. assert (v = x) as -> by lia. set_solver.
Qed.
Lemma tins_bst p x t : bst t -> bst (tins p x t).
Proof.
  induction t as [ | a l IHl v r IHr]; intros Hb; cbn [tins]; [by repeat constructor | ].
  pose proof (bst_inv _ _ _ _ Hb) as (Hl & Hr & H1 & H2).
  destruct (v <? x) eqn:E1; zbool; [ | destruct (v >? x) eqn:E2; zbool; [ | done]].
  - apply bst_node; auto. intros y [-> | Hy]%tins_vals; auto.
  - apply bst_node; auto. intros y [-> | Hy]%tins_vals; auto.
Qed.
Lemma tins_addrs p x t : tins p x t = t \/ addrs (tins p x t) ≡ₚ p :: addrs t.
Proof.
  induction t as [ | a l IHl v r IHr]; cbn [tins]; [by right | ].
  destruct (v <? x); [ | destruct (v >? x); [ | by left]].
  - destruct IHr as [-> | IHr]; [by left | right]. cbn [addrs]. rewrite IHr. solve_Permutation.
  - destruct IHl as [-> | IHl]; [by left | right]. cbn [addrs]. rewrite IHl. solve_Permutation.
Qed.
Lemma addr_tins p x t : t <> E -> addr (tins p x t) = addr t.
Proof. destruct t as [ | a l v r]; [done | ]. intros _. cbn [tins]. by repeat case_if. Qed.
Lemma put_ok m p n old : p <> 0 -> heap m !! p = Some old -> put m p n = Ok (MkMem (<[p := n]> (heap m)) (next m) (room m)).
Proof. intros Hp Hm. unfold put, get. rewrite (proj2 (Z.eqb_neq p 0)) by done. by rewrite Hm. Qed.
(** Writing a node whose children are in the heap. *)
Lemma tree_in_node h b l v r : b <> 0 -> b ∉ addrs l -> b ∉ addrs r -> tree_in h l -> tree_in h r ->
  tree_in (<[b := MkNode v (addr l) (addr r)]> h) (T b l v r).
Proof.
  intros Hb Hbl Hbr Hl Hr. split; [done | ]. split; [apply lookup_insert_eq | ].
  split; (eapply tree_in_ext; [ | eassumption]); intros a Ha; rewrite lookup_insert_ne; set_solver.
Qed.
Lemma frame_put m b n old : heap m !! b = Some old ->
  dom (<[b := n]> (heap m)) = dom (heap m) /\ forall a, a <> b -> <[b := n]> (heap m) !! a = heap m !! a.
Proof.
  intros Hb. split; [ | intros a Ha; by apply lookup_insert_ne]. rewrite dom_insert_L.
  assert (b ∈ dom (heap m)) by (apply elem_of_dom; by eexists). set_solver.
Qed.
Lemma tree_insert_loop_ok p x t : forall fuel m, tree_in (heap m) t -> t <> E -> NoDup (addrs t) -> p ∉ addrs t -> p <> 0 ->
  heap m !! p = Some (MkNode x 0 0) -> (size_t t <= fuel)%nat ->
  exists m', insert_loop fuel m (addr t) p x = Ok m' /\ tree_in (heap m') (tins p x t) /\
    next m' = next m /\ room m' = room m /\ dom (heap m') = dom (heap m) /\
    forall a, a ∉ addrs t -> heap m' !! a = heap m !! a.
Proof.
  induction t as [ | b l IHl v r IHr]; intros fuel m Hin Hne Hnd Hp Hp0 Hpn Hs; [done | ].
  destruct fuel as [ | fuel]; [cbn in Hs; lia | ]. cbn [addr insert_loop tins]. cbn [size_t] in Hs. cbn [addrs] in Hnd, Hp |- *.
  destruct (get_ok _ _ _ _ _ Hin) as [Hb Hg]. rewrite Hg, obind_ok. cbn [left_ right_ data]. destruct Hin as (Hb0 & Hn & Hl & Hr).
  apply NoDup_cons in Hnd as [Hbn (Hndl & Hdis & Hndr)%NoDup_app].
  assert (tree_in (heap m) (T p E x E)) as Hnew by done.
  destruct (v <? x) eqn:E1; [ | destruct (v >? x) eqn:E2].
  - destruct (decide (addr r = 0)) as [H0 | H0].
    + rewrite H0, Z.eqb_refl, (put_ok _ _ _ _ Hb0 Hn). apply (addr_E _ _ Hr) in H0 as ->. cbn [tins].
      destruct (frame_put m b (MkNode v (addr l) p) _ Hn) as [Hd Hf]. eexists. split; [done | ]. cbn [heap next room].
      split; [apply (tree_in_node _ _ l v (T p E x E)); try done; set_solver | ].
      repeat (split; [done | ]). intros a Ha. apply Hf. set_solver.
    + rewrite (proj2 (Z.eqb_neq _ 0)) by done. assert (r <> E) as HrE by (by intros ->).
      destruct (IHr fuel m Hr HrE Hndr ltac:(set_solver) Hp0 Hpn ltac:(lia)) as (m' & -> & Ht & N & R & D & Hf).
      exists m'. split; [done | ]. split; [ | repeat (split; [done | ]); intros a Ha; apply Hf; set_solver].
      split; [done | ]. rewrite addr_tins, (Hf b) by set_solver. split; [done | ]. split; [ | done].
      eapply tree_in_ext; [ | exact Hl]. intros a Ha. apply Hf. intros Ha'. by apply (Hdis a).
  - destruct (decide (addr l = 0)) as [H0 | H0].
    + rewrite H0, Z.eqb_refl, (put_ok _ _ _ _ Hb0 Hn). apply (addr_E _ _ Hl) in H0 as ->. cbn [tins].
      destruct (frame_put m b (MkNode v p (addr r)) _ Hn) as [Hd Hf]. eexists. split; [done | ]. cbn [heap next room].
      split; [apply (tree_in_node _ _ (T p E x E) v r); try done; set_solver | ].
      repeat (split; [done | ]). intros a Ha. apply Hf. set_solver.
    + rewrite (proj2 (Z.eqb_neq _ 0)) by done. assert (l <> E) as HlE by (by intros ->).
      destruct (IHl fuel m Hl HlE Hndl ltac:(set_solver) Hp0 Hpn ltac:(lia)) as (m' & -> & Ht & N & R & D & Hf).
      exists m'. split; [done | ]. split; [ | repeat (split; [done | ]); intros a Ha; apply Hf; set_solver].
      split; [done | ]. rewrite addr_tins, (Hf b) by set_solver. split; [done | ]. split; [done | ].
      eapply tree_in_ext; [ | exact Hr]. intros a Ha. apply Hf. intros Ha'. by apply (Hdis a).
  - exists m. by repeat (split; [done | ]).
Qed.
Lemma tree_search_ok h x t : forall fuel, tree_in h t -> bst t -> (size_t t <= fuel)%nat ->
  exists q, search fuel h (addr t) x = Ok q /\
    (x ∈ vals_in t -> exists n, h !! q = Some n /\ q <> 0 /\ data n = x) /\ (x ∉ vals_in t -> q = 0).
Proof.
  induction t as [ | b l IHl v r IHr]; intros fuel Hin Hb Hs.
  { exists 0. split; [by destruct fuel | ]. by split; [intros ?%elem_of_nil | ]. }
  destruct fuel as [ | fuel]; [cbn in Hs; lia | ]. cbn [addr search vals_in]. cbn [size_t] in Hs.
  destruct (get_ok _ _ _ _ _ Hin) as [Hb0 Hg]. rewrite Hb0. cbn [negb]. rewrite Hg, obind_ok. cbn [data left_ right_].
  destruct Hin as (Hbz & Hn & Hl & Hr). apply bst_inv in Hb as (Hbl & Hbr & H1 & H2).
  destruct (v =? x) eqn:E1; [ | destruct (v <? x) eqn:E2]; zbool.
  - exists b. split; [done | ]. split; [intros _; by eexists | ]. subst v. set_solver.
  - destruct (IHr fuel Hr Hbr ltac:(lia)) as (q & Eq & Q1 & Q2). exists q. split; [done | ].
    split; [ | set_solver]. intros [Hx | [-> | Hx]%elem_of_cons]%elem_of_app; [specialize (H1 x Hx); lia | done | auto].
  - destruct (IHl fuel Hl Hbl ltac:(lia)) as (q & Eq & Q1 & Q2). exists q. split; [done | ].
    split; [ | set_solver]. intros [Hx | [-> | Hx]%elem_of_cons]%elem_of_app; [auto | done | specialize (H2 x Hx); lia].
Qed.

(** The state of the program: a search tree in a heap whose addresses are below [next]. *)
Record tree_ok (m : mem) (root : Z) (t : atree) : Prop := {
  to_root : root = addr t; to_in : tree_in (heap m) t; to_nodup : NoDup (addrs t); to_bst : bst t;
  to_next : 0 < next m; to_addrs : forall a, a ∈ dom (heap m) -> 0 < a < next m }.
Lemma tree_ok_start room : tree_ok (start room) 0 E.
Proof. split; [done | done | apply NoDup_nil_2 | apply SSorted_nil | done | intros a; cbn; set_solver]. Qed.
Lemma size_addrs t : length (addrs t) = size_t t.
Proof. induction t as [ | a l IHl v r IHr]; [done | ]. cbn [addrs length size_t]. rewrite length_app. lia. Qed.
Lemma insert_ok fuel m root t x : tree_ok m root t -> (size_t t <= fuel)%nat -> (0 < room m)%nat ->
  exists m' root', insert fuel m root x = Ok (m', root') /\ tree_ok m' root' (tins (next m) x t) /\
    room m' = pred (room m) /\ size (dom (heap m')) = S (size (dom (heap m))).
Proof.
  intros [-> Hin Hnd Hb Hn Ha] Hs Hroom. unfold insert, malloc. destruct (room m) as [ | k] eqn:Er; [lia | ].
  set (p := next m) in *. assert (p ∉ dom (heap m)) as Hp by (intros Hp%Ha; lia).
  assert (forall n, tree_in (<[p := n]> (heap m)) t) as Hin'.
  { intros n. eapply tree_in_ext; [ | exact Hin]. intros a Hat. apply lookup_insert_ne. intros ->.
    destruct (addrs_in _ _ _ Hin Hat) as [_ Hd]. by apply elem_of_dom in Hd. }
  assert (p ∉ addrs t) as Hpt.
  { intros Hat. destruct (addrs_in _ _ _ Hin Hat) as [_ Hd]. by apply elem_of_dom in Hd. }
  erewrite put_ok by (lia || apply lookup_insert_eq). rewrite obind_ok. cbn [heap next room]. rewrite insert_insert_eq.
  set (m1 := MkMem (<[p := MkNode x 0 0]> (heap m)) (p + 1) k).
  assert (dom (heap m1) = {[p]} ∪ dom (heap m)) as Hd1 by (cbn; apply dom_insert_L).
  assert (size (dom (heap m1)) = S (size (dom (heap m)))) as Hsz.
  { rewrite Hd1, size_union, size_singleton by set_solver. done. }
  assert (forall a, a ∈ dom (heap m1) -> 0 < a < p + 1) as Ha1.
  { rewrite Hd1. intros a [->%elem_of_singleton | Had%Ha]%elem_of_union; lia. }
  assert (forall m', tree_in (heap m') (tins p x t) -> next m' = p + 1 -> dom (heap m') = dom (heap m1) ->
            tree_ok m' (addr (tins p x t)) (tins p x t)) as Hfinal.
  { intros m' Ht' N' D'. split; [done | done | | by apply tins_bst | lia | rewrite D', N'; done].
    destruct (tins_addrs p x t) as [-> | ->]; [done | by apply NoDup_cons]. }
  destruct (decide (t = E)) as [-> | Hne].
  - cbn [addr]. rewrite Z.eqb_refl. exists m1, p. split; [done | ]. split; [ | done]. apply (Hfinal m1); [ | done | done].
    split; [lia | ]. split; [apply lookup_insert_eq | done].
  - assert (addr t <> 0) as H0 by (intros H0; by apply (addr_E _ _ Hin) in H0).
    rewrite (proj2 (Z.eqb_neq _ 0)) by done.
    destruct (tree_insert_loop_ok p x t fuel m1) as (m' & -> & Ht' & N' & R' & D' & _); try done; [apply Hin' | lia | apply lookup_insert_eq | ].
    rewrite obind_ok. exists m', (addr t). split; [done | ]. split; [ | split; [by rewrite R' | by rewrite D']].
    rewrite <- (addr_tins p x t) by done. by apply Hfinal.
Qed.
Lemma insert_no_memory fuel m root x : room m = O -> insert fuel m root x = Ub.
Proof. intros H. unfold insert, malloc. by rewrite H. Qed.
Lemma tins_size p x t : (size_t (tins p x t) <= S (size_t t))%nat.
Proof.
  rewrite <- !size_addrs. destruct (tins_addrs p x t) as [-> | ->]; cbn [length]; lia.
Qed.
Lemma insert_all_ok fuel xs : forall m root t, tree_ok m root t -> (size_t t + length xs <= fuel)%nat ->
  ((length xs <= room m)%nat -> exists m' t', insert_all fuel m root xs = Ok (m', addr t') /\ tree_ok m' (addr t') t' /\
    (size_t t' <= fuel)%nat /\ size (dom (heap m')) = (size (dom (heap m)) + length xs)%nat /\
    forall x, x ∈ vals_in t' <-> x ∈ xs \/ x ∈ vals_in t) /\
  ((room m < length xs)%nat -> insert_all fuel m root xs = Ub).
Proof.
  induction xs as [ | x xs IH]; intros m root t Ht Hs; cbn [insert_all length] in *.
  { split; [ | lia]. intros _. pose proof (to_root _ _ _ Ht) as ->. exists m, t.
    split; [done | ]. split; [done | ]. split; [lia | ]. split; [lia | ]. set_solver. }
  destruct (room m) as [ | k] eqn:Er.
  { split; [lia | ]. intros _. by rewrite insert_no_memory. }
  destruct (insert_ok fuel m root t x Ht) as (m1 & root1 & -> & Ht1 & R1 & S1); [lia | lia | ]. rewrite obind_ok.
  pose proof (tins_size (next m) x t). destruct (IH m1 root1 _ Ht1) as [IH1 IH2]; [lia | ]. rewrite Er in R1. cbn in R1. split.
  - intros Hk. destruct IH1 as (m' & t' & -> & Ht' & F' & S' & V'); [lia | ]. exists m', t'.
    split; [done | ]. split; [done | ]. split; [done | ]. split; [lia | ]. intros y.
    rewrite V', (tins_vals _ _ _ (to_bst _ _ _ Ht)), elem_of_cons. tauto.
  - intros Hk. apply IH2. lia.
Qed.

(** C17. The search tree of tree.cpp is a set of numbers: after inserting [xs] the three
    traversals print the nodes of one tree in their orders, the inorder one the
    numbers of [xs] in strictly increasing order; search finds a node with the
    number exactly when it is in [xs]; each insert allocates one node, so numbers
    that were present leave a node that nothing points to; and when [malloc]
    fails the insertion is undefined. *)
Theorem search_tree_set (fuel k : nat) (xs : list Z) :
  (length xs <= fuel)%nat ->
  ((length xs <= k)%nat -> exists m t, insert_all fuel (start k) 0 xs = Ok (m, addr t) /\
     StronglySorted Z.lt (vals_in t) /\ (forall x, x ∈ vals_in t <-> x ∈ xs) /\
     preorder fuel (heap m) (addr t) = Ok (numbers (vals_pre t)) /\
     inorder fuel (heap m) (addr t) = Ok (numbers (vals_in t)) /\
     postOrder fuel (heap m) (addr t) = Ok (numbers (vals_post t)) /\
     (forall x, exists q, search fuel (heap m) (addr t) x = Ok q /\
        (x ∈ xs -> exists n, heap m !! q = Some n /\ q <> 0 /\ data n = x) /\ (x ∉ xs -> q = 0)) /\
     size (dom (heap m)) = length xs) /\
  ((k < length xs)%nat -> insert_all fuel (start k) 0 xs = Ub).
Proof.
  intros Hf. destruct (insert_all_ok fuel xs (start k) 0 E (tree_ok_start k) Hf) as [H1 H2]. split; [ | exact H2].
  intros Hk. destruct (H1 Hk) as (m & t & E1 & [_ Hin _ Hb _ _] & Hs & Hsz & Hv). exists m, t. split; [done | ].
  assert (forall x, x ∈ vals_in t <-> x ∈ xs) as Hv'.
  { intros x. rewrite Hv. cbn [vals_in]. rewrite elem_of_nil. tauto. }
  split; [done | ]. split; [done | ]. split; [by apply preorder_ok | ]. split; [by apply inorder_ok | ].
  split; [by apply postOrder_ok | ]. split; [ | done].
  intros x. destruct (tree_search_ok (heap m) x t fuel Hin Hb Hs) as (q & Eq & Q1 & Q2). exists q. split; [done | ].
  by rewrite Hv' in Q1, Q2.
Qed.
Lemma search_tree_set_witness :
  exists m t, insert_all 7 (start 7) 0 [5; 3; 2; 4; 8; 7; 10] = Ok (m, addr t) /\ StronglySorted Z.lt (vals_in t).
Proof.
  destruct (proj1 (search_tree_set 7 7 [5; 3; 2; 4; 8; 7; 10] ltac:(cbn; lia)) ltac:(cbn; lia)) as (m & t & E1 & Hs & _).
  exists m, t. exact (conj E1 Hs).
Defined.

(** ** Level by level *)
Fixpoint level (k : nat) (t : atree) {struct t} : list Z :=
  match t with
  | E => []
  | T _ l v r => match k with O => [v] | S k => level k l ++ level k r end
  end.
Fixpoint height (t : atree) : nat := match t with E => O | T _ l _ r => S (Nat.max (height l) (height r)) end.
(** Forests: the trees whose roots make up one level. *)
Definition ne (t : atree) : list atree := match t with E => [] | _ => [t] end.
Definition kids (t : atree) : list atree := match t with E => [] | T _ l _ r => ne l ++ ne r end.
Definition kids_f (P : list atree) : list atree := concat (map kids P).
Definition level_f (k : nat) (P : list atree) : list Z := concat (map (level k) P).
Definition height_f (P : list atree) : nat := foldr Nat.max O (map height P).
Definition size_f (P : list atree) : nat := sum_list (map size_t P).
Definition forest (h : gmap Z node) (P : list atree) : Prop := Forall (fun t => t <> E /\ tree_in h t) P.

Lemma kids_f_app P Q : kids_f (P ++ Q) = kids_f P ++ kids_f Q.
Proof. unfold kids_f. by rewrite map_app, concat_app. Qed.
Lemma child_ne h t : tree_in h t -> child (addr t) = map addr (ne t).
Proof. destruct t as [ | a l v r]; [done | ]. intros (Ha & _). unfold child. cbn. by rewrite (proj2 (Z.eqb_neq a 0)). Qed.
Lemma level_ne k t : level_f k (ne t) = level k t.
Proof. destruct t; [done | ]. apply app_nil_r. Qed.
Lemma height_ne t : height_f (ne t) = height t.
Proof. destruct t; [done | ]. unfold height_f. cbn -[Nat.max]. lia. Qed.
Lemma size_ne t : size_f (ne t) = size_t t.
Proof. destruct t; [done | ]. unfold size_f. cbn. lia. Qed.
Lemma level_f_app k P Q : level_f k (P ++ Q) = level_f k P ++ level_f k Q.
Proof. unfold level_f. by rewrite map_app, concat_app. Qed.
Lemma height_f_app P Q : height_f (P ++ Q) = Nat.max (height_f P) (height_f Q).
Proof. induction P as [ | t P IH]; [done | ]. unfold height_f in *. cbn [app map foldr]. lia. Qed.
Lemma size_f_app P Q : size_f (P ++ Q) = (size_f P + size_f Q)%nat.
Proof. induction P as [ | t P IH]; [done | ]. unfold size_f in *. cbn. lia. Qed.
Lemma forest_ne h t : tree_in h t -> forest h (ne t).
Proof. destruct t; [constructor | ]. intros H. by apply Forall_singleton. Qed.
(** From one level to the next. *)
Lemma forest_step h P : forest h P ->
  forest h (kids_f P) /\ size_f P = (length P + size_f (kids_f P))%nat /\ height_f (kids_f P) = pred (height_f P) /\
  (forall k, level_f (S k) P = level_f k (kids_f P)) /\ level_f 0 P = map (fun t => default 0 (head (level 0 t))) P /\
  (P <> [] -> height_f P <> O).
Proof.
  induction 1 as [ | t P [Ht Hin] HP (IH1 & IH2 & IH3 & IH4 & IH5 & IH6)]; [by repeat constructor | ].
  destruct t as [ | a l v r]; [done | ]. destruct Hin as (_ & _ & Hl & Hr).
  change (kids_f (T a l v r :: P)) with ((ne l ++ ne r) ++ kids_f P).
  split; [by repeat apply Forall_app_2; [apply forest_ne | apply forest_ne | ] | ].
  split; [change (size_f (T a l v r :: P)) with (size_t (T a l v r) + size_f P)%nat; rewrite !size_f_app, !size_ne; cbn [size_t length]; lia | ].
  change (height_f (T a l v r :: P)) with (Nat.max (height (T a l v r)) (height_f P)).
  split; [ | split; [ | split; [change (level_f 0 (T a l v r :: P)) with (v :: level_f 0 P); by rewrite IH5 | cbn [height]; lia]]].
  - rewrite !height_f_app, !height_ne, IH3. cbn [height]. lia.
  - intros k. rewrite !level_f_app, !level_ne, <- IH4. done.
Qed.
Definition root_val (t : atree) : Z := default 0 (head (level 0 t)).
Definition line (vs : list Z) : bytes := numbers vs ++ [10].

(** *** printTopToBottom *)
Lemma bottom_level h P : forall K fuel, forest h P -> P <> [] ->
  bottom_loop (length P + fuel) h (map addr (P ++ K)) (len P) (len K) =
    let! rest := bottom_loop fuel h (map addr (K ++ kids_f P)) (len (K ++ kids_f P)) 0 in
    Ok (line (map root_val P) ++ rest).
Proof.
  induction P as [ | t P IH]; intros K fuel HP Hne; [done | ]. apply Forall_cons in HP as [[Ht Hin] HP].
  destruct t as [ | a l v r]; [done | ]. cbn [app map addr length Nat.add bottom_loop]. destruct (get_ok _ _ _ _ _ Hin) as [_ ->].
  rewrite obind_ok. cbn [left_ right_ data]. destruct Hin as (_ & _ & Hl & Hr). rewrite !(child_ne h) by done.
  change (kids_f (T a l v r :: P)) with ((ne l ++ ne r) ++ kids_f P).
  replace (len K + len (map addr (ne l)) + len (map addr (ne r))) with (len (K ++ ne l ++ ne r))
    by (rewrite !length_app, !length_map; lia).
  rewrite <- !map_app, <- !app_assoc. replace (Z.of_nat (S (length P)) - 1) with (len P) by lia.
  destruct P as [ | t P].
  - change (Z.of_nat (length (@nil atree)) =? 0) with true. cbv iota. change (kids_f []) with (@nil atree). cbn [app].
    rewrite app_nil_r. destruct (bottom_loop _ _ _ _ _); [ | done ..]. rewrite !obind_ok. unfold line. cbn [map].
    change (root_val (T a l v r)) with v. by rewrite numbers_one, <- app_assoc.
  - rewrite (proj2 (Z.eqb_neq _ 0)) by (cbn [length]; lia). rewrite (IH (K ++ ne l ++ ne r) fuel HP ltac:(done)), obind_assoc.
    rewrite <- !app_assoc. destruct (bottom_loop fuel _ _ _ _); [ | done ..]. rewrite !obind_ok. f_equal.
    unfold line. cbn [map]. change (root_val (T a l v r)) with v. unfold numbers. cbn [map concat]. by rewrite <- !app_assoc.
Qed.
Lemma bottom_ok h n : forall P fuel, forest h P -> height_f P = n -> (size_f P <= fuel)%nat ->
  bottom_loop fuel h (map addr P) (len P) 0 = Ok (concat (map (fun k => line (level_f k P)) (seq 0 n))).
Proof.
  induction n as [ | n IH]; intros P fuel HP Hn Hs; (destruct (decide (P = [])) as [-> | Hne]; [by destruct fuel | ]);
    destruct (forest_step h P HP) as (F1 & F2 & F3 & F4 & F5 & F6); [by apply F6 in Hne | ].
  replace fuel with (length P + (fuel - length P))%nat by lia.
  pose proof (bottom_level h P [] (fuel - length P) HP Hne) as E1. rewrite app_nil_r in E1. cbn [length app] in E1.
  change (Z.of_nat 0) with 0 in E1. rewrite E1, (IH (kids_f P)), obind_ok by (done || lia).
  cbn [seq map concat]. rewrite <- seq_shift, map_map, F5.
  by rewrite (map_ext (fun k => line (level_f (S k) P)) (fun k => line (level_f k (kids_f P)))) by (intros k; by rewrite F4).
Qed.

(** *** printZigZag *)
(** Levels of odd number are printed from right to left. *)
Definition turn {A} (back : bool) (l : list A) : list A := if back then rev l else l.
Lemma zigzag_level h (back : bool) P : forall K fuel, forest h P -> P <> [] ->
  zigzag_loop (length P + fuel) h (map addr P) (map addr K) (if back then 1 else 0) =
    let! rest := zigzag_loop fuel h (map addr (rev (concat (map (fun t => turn back (kids t)) P)) ++ K)) []
                   (if back then 0 else 1) in
    Ok (line (map root_val P) ++ rest).
Proof.
  induction P as [ | t P IH]; intros K fuel HP Hne; [done | ]. apply Forall_cons in HP as [[Ht Hin] HP].
  destruct t as [ | a l v r]; [done | ]. cbn [map addr length Nat.add zigzag_loop]. rewrite bool_decide_eq_false_2 by done.
  cbn [andb]. destruct (get_ok _ _ _ _ _ Hin) as [_ ->]. rewrite obind_ok. cbn [left_ right_ data].
  destruct Hin as (_ & _ & Hl & Hr). rewrite !(child_ne h) by done.
  assert ((if (if back then 1 else 0) =? 0 then map addr (ne r) ++ map addr (ne l) ++ map addr K
           else map addr (ne l) ++ map addr (ne r) ++ map addr K) = map addr (rev (turn back (ne l ++ ne r)) ++ K)) as ->.
  { destruct back; cbn -[ne app]; rewrite ?rev_involutive, ?rev_app_distr, !map_app, <- !app_assoc; [done | ].
    by destruct l, r. }
  cbn [concat map kids]. rewrite rev_app_distr, <- app_assoc. destruct P as [ | t P].
  - rewrite bool_decide_eq_true_2 by done. cbn [map concat rev app].
    replace (1 - (if back then 1 else 0)) with (if back then 0 else 1) by (by destruct back).
    destruct (zigzag_loop _ _ _ _ _); [ | done ..]. rewrite !obind_ok. unfold line.
    change (root_val (T a l v r)) with v. by rewrite numbers_one, <- app_assoc.
  - rewrite bool_decide_eq_false_2 by done. cbn [app]. rewrite (IH _ fuel HP ltac:(done)), obind_assoc.
    destruct (zigzag_loop fuel _ _ _ _); [ | done ..]. rewrite !obind_ok. f_equal.
    unfold line. cbn [map]. change (root_val (T a l v r)) with v. unfold numbers. cbn [map concat]. by rewrite <- !app_assoc.
Qed.
Lemma turn_kids back P : rev (concat (map (fun t => turn back (kids t)) (turn back P))) = turn (negb back) (kids_f P).
Proof.
  destruct back; cbn [turn negb]; [ | done]. unfold kids_f. induction P as [ | t P IH]; [done | ].
  cbn [rev map concat]. rewrite map_app, concat_app, rev_app_distr, IH. cbn [map concat]. by rewrite app_nil_r, rev_involutive.
Qed.
Lemma turn_map {A B} (f : A -> B) back l : map f (turn back l) = turn back (map f l).
Proof. destruct back; [apply map_rev | done]. Qed.
Lemma turn_length {A} back (l : list A) : length (turn back l) = length l.
Proof. destruct back; [apply length_rev | done]. Qed.
Lemma zigzag_ok h n : forall (back : bool) P fuel, forest h P -> height_f P = n -> (size_f P <= fuel)%nat ->
  zigzag_loop fuel h (map addr (turn back P)) [] (if back then 1 else 0) =
  Ok (concat (map (fun k => line (turn (xorb back (Nat.odd k)) (level_f k P))) (seq 0 n))).
Proof.
  induction n as [ | n IH]; intros back P fuel HP Hn Hs;
    (destruct (decide (P = [])) as [-> | Hne]; [by destruct fuel, back | ]);
    destruct (forest_step h P HP) as (F1 & F2 & F3 & F4 & F5 & F6); [by apply F6 in Hne | ].
  replace fuel with (length (turn back P) + (fuel - length P))%nat by (rewrite turn_length; lia).
  change (@nil Z) with (map addr []) at 1. rewrite (zigzag_level h back (turn back P) [] (fuel - length P)).
  2: { destruct back; [ | done]. unfold turn. rewrite rev_alt. by apply Forall_reverse. }
  2: { intros E0. apply Hne. apply length_zero_iff_nil. by rewrite <- (turn_length back), E0. }
  rewrite app_nil_r, turn_kids. specialize (IH (negb back) (kids_f P) (fuel - length P)%nat).
  replace (if negb back then 1 else 0) with (if back then 0 else 1) in IH by (by destruct back).
  rewrite IH, obind_ok by (done || lia). cbn [seq map concat]. rewrite <- seq_shift, map_map, turn_map, F5.
  rewrite (map_ext (fun k => line (turn (xorb back (Nat.odd (S k))) (level_f (S k) P)))
    (fun k => line (turn (xorb (negb back) (Nat.odd k)) (level_f k (kids_f P))))); [by destruct back | ].
  intros k. rewrite F4, Nat.odd_succ, <- Nat.negb_odd. by destruct back, (Nat.odd k).
Qed.

(** On every tree in the heap the functions of binaryTree print what their names say:
    the three recursive traversals their orders, printTopToBottom one line per level
    from left to right, printZigZag the same lines with every second level from
    right to left; freeTree frees the nodes of the tree, each once, and nothing
    else. *)
Theorem tree_functions (fuel : nat) (m : mem) (t : atree) :
  tree_in (heap m) t -> NoDup (addrs t) -> (size_t t <= fuel)%nat ->
  preOrderTraversal fuel (heap m) (addr t) = Ok (numbers (vals_pre t)) /\
  inOrderTraversal fuel (heap m) (addr t) = Ok (numbers (vals_in t)) /\
  postOrderTraversal fuel (heap m) (addr t) = Ok (numbers (vals_post t)) /\
  printTopToBottom fuel (heap m) (addr t) = Ok (concat (map (fun k => line (level k t)) (seq 0 (height t)))) /\
  printZigZag fuel (heap m) (addr t) =
    Ok (concat (map (fun k => line (if Nat.odd k then rev (level k t) else level k t)) (seq 0 (height t)))) /\
  exists m', freeTree fuel m (addr t) = Ok m' /\
    forall a, heap m' !! a = if decide (a ∈ addrs t) then None else heap m !! a.
Proof.
  intros Hin Hnd Hs. split; [by apply preOrderTraversal_ok | ]. split; [by apply inOrderTraversal_ok | ].
  split; [by apply postOrderTraversal_ok | ].
  destruct (freeTree_ok t fuel m Hin Hnd Hs) as (m' & Ef & _ & _ & Hf).
  split; [ | split; [ | by exists m']].
  - unfold printTopToBottom. destruct (decide (t = E)) as [-> | Hne]; [done | ].
    rewrite (proj2 (Z.eqb_neq _ 0)) by (intros H0; by apply (addr_E _ _ Hin) in H0).
    pose proof (bottom_ok (heap m) (height t) [t] fuel) as Hb. destruct t as [ | a l v r]; [done | ].
    cbn [map addr length] in Hb |- *. change (Z.of_nat 1) with 1 in Hb. rewrite Hb.
    + f_equal. f_equal. apply map_ext. intros k. by rewrite <- (level_ne k (T a l v r)).
    + by apply (forest_ne _ (T a l v r)).
    + by rewrite <- (height_ne (T a l v r)).
    + by rewrite <- (size_ne (T a l v r)) in Hs.
  - unfold printZigZag. destruct (decide (t = E)) as [-> | Hne]; [done | ].
    rewrite (proj2 (Z.eqb_neq _ 0)) by (intros H0; by apply (addr_E _ _ Hin) in H0).
    pose proof (zigzag_ok (heap m) (height t) false [t] fuel) as Hb. destruct t as [ | a l v r]; [done | ].
    cbn [map addr turn] in Hb |- *. rewrite Hb.
    + f_equal. f_equal. apply map_ext. intros k. rewrite <- (level_ne k (T a l v r)). by rewrite xorb_false_l.
    + by apply (forest_ne _ (T a l v r)).
    + by rewrite <- (height_ne (T a l v r)).
    + by rewrite <- (size_ne (T a l v r)) in Hs.
Qed.
Definition small_tree : atree := T 1 (T 2 E 6 E) 8 (T 3 E 10 E).
Definition small_mem : mem :=
  MkMem (<[1 := MkNode 8 2 3]> (<[2 := MkNode 6 0 0]> (<[3 := MkNode 10 0 0]> ∅))) 4 0.
Lemma tree_functions_witness : printZigZag 3 (heap small_mem) 1 = Ok (lit "8 " ++ [10] ++ lit "10 6 " ++ [10]).
Proof.
  assert (tree_in (heap small_mem) small_tree) as Hin by (by repeat split).
  assert (NoDup (addrs small_tree)) as Hn by (cbn; repeat constructor; set_solver).
  destruct (tree_functions 3 small_mem small_tree Hin Hn ltac:(cbn; lia)) as (_ & _ & _ & _ & H & _). exact H.
Defined.

(** ** pathSum.cpp *)
(** The paths from the root to the leaves, from left to right. *)
Fixpoint paths (t : atree) : list (list Z) :=
  match t with
  | E => []
  | T _ E v E => [[v]]
  | T _ l v r => map (cons v) (paths l ++ paths r)
  end.
Definition zsum (l : list Z) : Z := foldr Z.add 0 l.
(** The sums along the paths stay in the range of [int]. *)
Fixpoint sums_fit (s : Z) (t : atree) : Prop :=
  match t with
  | E => True
  | T _ l v r => INT_MIN <= s + v <= INT_MAX /\ sums_fit (s + v) l /\ sums_fit (s + v) r
  end.
Definition found_lines (expected : Z) (path : list Z) (s : Z) (ps : list (list Z)) : bytes :=
  concat (map (fun p => path_line expected (path ++ p)) (filter (fun p => s + zsum p = expected) ps)).
Lemma found_lines_app e path s ps qs : found_lines e path s (ps ++ qs) = found_lines e path s ps ++ found_lines e path s qs.
Proof. unfold found_lines. by rewrite filter_app, map_app, concat_app. Qed.
Lemma found_lines_cons e path s v ps : found_lines e path s (map (cons v) ps) = found_lines e (path ++ [v]) (s + v) ps.
Proof.
  unfold found_lines. induction ps as [ | p ps IH]; [done | ]. cbn [map]. rewrite !filter_cons. cbn [zsum foldr].
  fold (zsum p). repeat case_decide; try lia; [ | done]. cbn [map concat]. by rewrite IH, <- app_assoc.
Qed.
Lemma findPath_ok h e t : forall fuel path s, tree_in h t -> sums_fit s t -> INT_MIN <= s <= INT_MAX -> (size_t t <= fuel)%nat ->
  findPath fuel h (addr t) e path s = Ok (found_lines e path s (paths t)).
Proof.
  induction t as [ | a l IHl v r IHr]; intros fuel path s Hin Hfit Hs Hf; [by destruct fuel | ].
  destruct fuel as [ | fuel]; [cbn in Hf; lia | ]. cbn [addr findPath]. cbn [size_t] in Hf.
  destruct (get_ok _ _ _ _ _ Hin) as [-> ->]. rewrite obind_ok. cbn [data left_ right_]. destruct Hin as (_ & _ & Hl & Hr).
  destruct Hfit as (Hv & Hfl & Hfr). rewrite cint_ok, obind_ok by done.
  destruct (decide (l = E /\ r = E)) as [[-> ->] | Hne].
  - cbn [addr]. rewrite Z.eqb_refl. cbn [andb paths]. unfold found_lines. rewrite filter_cons. cbn [zsum foldr].
    rewrite Z.add_0_r. destruct (s + v =? e) eqn:Ee; zbool.
    + rewrite decide_True by done. cbn. by rewrite app_nil_r.
    + rewrite decide_False by done. by rewrite cint_ok by (replace (s + v - v) with s by lia; done).
  - assert ((addr l =? 0) && (addr r =? 0) = false) as ->.
    { apply andb_false_iff. destruct (decide (l = E)) as [-> | HlE].
      - right. apply Z.eqb_neq. intros H0. apply (addr_E _ _ Hr) in H0. by apply Hne.
      - left. apply Z.eqb_neq. intros H0. by apply (addr_E _ _ Hl) in H0. }
    rewrite !if_ptr_eq by (intros ->; by destruct fuel).
    rewrite IHl, obind_ok, IHr, obind_ok by (done || lia). f_equal.
    assert (paths (T a l v r) = map (cons v) (paths l ++ paths r)) as ->.
    { destruct l, r; try done. by destruct Hne. }
    by rewrite found_lines_cons, found_lines_app.
Qed.

(** C37. findPathWithSum prints the paths from the root to a leaf whose numbers add up to
    the expected sum, and no others, from left to right, when the sums along the
    paths do not overflow. *)
Theorem path_sum (fuel : nat) (h : gmap Z node) (t : atree) (expected : Z) :
  tree_in h t -> sums_fit 0 t -> (size_t t <= fuel)%nat ->
  findPathWithSum fuel h (addr t) expected =
    Ok (concat (map (path_line expected) (filter (fun p => zsum p = expected) (paths t)))).
Proof.
  intros Hin Hfit Hs. unfold findPathWithSum. destruct (decide (t = E)) as [-> | Hne]; [done | ].
  rewrite (proj2 (Z.eqb_neq _ 0)) by (intros H0; by apply (addr_E _ _ Hin) in H0).
  rewrite findPath_ok by (done || lia). done.
Qed.
Lemma path_sum_witness :
  findPathWithSum 3 (heap small_mem) 1 18 = Ok (lit "Found a Path with Sum 18 8 10 " ++ [10]).
Proof.
  etransitivity; [apply (path_sum 3 (heap small_mem) small_tree 18) | reflexivity].
  - by repeat split.
  - cbn. unfold INT_MIN, INT_MAX. lia.
  - cbn. lia.
Defined.
End CppTree.
