(* ===== verification/CppSmall.v ===== *)
(** * Small C++ programs: [binaryTree/Duplication.cpp], [binaryTree/SearchMatrix.cpp],
    [c++/src/inheritance.cpp], [c++/src/overload.cpp], [c++/src/poly.cpp],
    [hashmap/src/main.cc]

    findDuplication is sound and misses some duplicates; searchMatrix is the binary
    search of [CppSort] on the rows written one after the other.  The programs on
    classes are given with their output; a member that was never set is [None]. *)
From stdpp Require Import sorting.
From S2P Require Import Prelude CLib CppSort CppStack.

Module CppSmall.
Import CppStack.

(** ** [Duplication.cpp] *)
Definition swap (arr : list Z) (i j : Z) : outcome (list Z) :=
  let! temp := rd arr j in
  let! a := rd arr i in
  let! arr := wr arr j a in
  wr arr i temp.
(** [for (int i = 0; i < length; i++)]; [fuel] is [length - i]. *)
Fixpoint dup_loop (arr : list Z) (fuel : nat) (i : Z) : outcome Z :=
  match fuel with
  | O => Ok 0
  | S fuel =>
      let! x := rd arr i in
      if negb (x =? i) then
        let! y := rd arr x in
        if y =? x then Ok 1
        else let! arr := swap arr i x in dup_loop arr fuel (i + 1)
      else dup_loop arr fuel (i + 1)
  end.
Definition findDuplication (arr : list Z) (length : Z) : outcome Z := dup_loop arr (Z.to_nat length) 0.
Definition duplication_main : outcome bytes :=
  let arr := [3; 1; 2; 0; 4; 5] in
  let! res := findDuplication arr (len arr) in
  Ok (dec res ++ [10]).

(** ** [SearchMatrix.cpp] *)
Fixpoint matrix_loop (mat : list (list Z)) (cols value : Z) (fuel : nat) (start end_ : Z) : outcome Z :=
  if start <=? end_ then
    match fuel with
    | O => NoFuel
    | S fuel =>
        let! half := cdiv (end_ - start) 2 in
        let mid := start + half in
        let! row := cdiv mid cols in
        let! col := crem mid cols in
        let! r := rd mat row in
        let! v := rd r col in
        if v =? value then Ok mid
        else if v <? value then matrix_loop mat cols value fuel (mid + 1) end_
        else matrix_loop mat cols value fuel start (mid - 1)
    end
  else Ok (-1).
Definition searchMatrix (fuel : nat) (mat : list (list Z)) (rows cols value : Z) : outcome Z :=
  let! length := cint (rows * cols) in
  matrix_loop mat cols value fuel 0 (length - 1).
Definition main_matrix : list (list Z) := map (fun i => map (fun j => i * 6 + j * 2 + 1) [0; 1; 2]) [0; 1; 2].
Definition matrix_main (fuel : nat) : outcome (list bytes) :=
  let! res1 := searchMatrix fuel main_matrix 3 3 7 in
  let! res2 := searchMatrix fuel main_matrix 3 3 13 in
  Ok (map (fun r => concat (map (fun v => dec v ++ lit " ") r)) main_matrix ++ [dec res1 ++ lit " " ++ dec res2]).

(** ** [inheritance.cpp] *)
Record Rectangle := MkRectangle { width : option Z; height : option Z }.
Definition new_rectangle : Rectangle := MkRectangle None None.
Definition setWidth (r : Rectangle) (w : Z) : Rectangle := MkRectangle (Some w) (height r).
Definition setHeight (r : Rectangle) (h : Z) : Rectangle := MkRectangle (width r) (Some h).
Definition getArea (r : Rectangle) : outcome Z :=
  let! w := init (width r) in
  let! h := init (height r) in
  cint (w * h).
Definition getCost (area : Z) : outcome Z := cint (area * 70).
Definition inheritance_main : outcome (list bytes) :=
  let rect := new_rectangle in
  let rect := setWidth rect 5 in
  let rect := setHeight rect 7 in
  let! printed := getArea rect in
  let! area := getArea rect in
  let! cost := getCost area in
  Ok [lit "Total area: " ++ dec printed; lit "Paint cost: $" ++ dec cost].

(** ** [overload.cpp] *)
Record Box := MkBox { box_breadth : option Z; box_height : option Z; box_length : option Z }.
Definition new_box : Box := MkBox None None None.
Definition getVolume (b : Box) : outcome Z :=
  let! h := init (box_height b) in
  let! br := init (box_breadth b) in
  let! p := cint (h * br) in
  let! l := init (box_length b) in
  cint (p * l).
Definition setBreadth (x : Box) (b : Z) : Box := MkBox (Some b) (box_height x) (box_length x).
Definition box_setHeight (x : Box) (h : Z) : Box := MkBox (box_breadth x) (Some h) (box_length x).
Definition setLength (x : Box) (l : Z) : Box := MkBox (box_breadth x) (box_height x) (Some l).
Definition add_member (a b : option Z) : outcome (option Z) :=
  let! a := init a in
  let! b := init b in
  let! s := cint (a + b) in
  Ok (Some s).
Definition box_add (a b : Box) : outcome Box :=
  let! l := add_member (box_length a) (box_length b) in
  let! br := add_member (box_breadth a) (box_breadth b) in
  let! h := add_member (box_height a) (box_height b) in
  Ok (MkBox br h l).
(** The volume is printed as a [double]: below one million as the integer it is. *)
Definition volume_line (name : bytes) (v : Z) : bytes := lit "Volume of " ++ name ++ lit " : " ++ dec v.
Definition overload_main : outcome (list bytes) :=
  let Box1 := box_setHeight (setBreadth (setLength new_box 6) 7) 5 in
  let Box2 := box_setHeight (setBreadth (setLength new_box 12) 13) 10 in
  let! v1 := getVolume Box1 in
  let! v2 := getVolume Box2 in
  let! Box3 := box_add Box1 Box2 in
  let! v3 := getVolume Box3 in
  Ok [volume_line (lit "Box1") v1; volume_line (lit "Box2") v2; volume_line (lit "Box3") v3].

(** ** [poly.cpp]: the dynamic type of the object selects [area] *)
Inductive shape := AShape (width height : Z) | ARectangle (width height : Z) | ATriangle (width height : Z).
Definition area (o : shape) : outcome (bytes * Z) :=
  match o with
  | AShape _ _ => Ok (lit "Area Shape", 0)
  | ARectangle w h => let! a := cint (w * h) in Ok (lit "Area Rectangle", a)
  | ATriangle w h => let! a := cint (w * h) in let! a := cdiv a 2 in Ok (lit "Area Triangle", a)
  end.
Definition poly_main : outcome (list bytes) :=
  let rec := ARectangle 10 7 in
  let tri := ATriangle 10 5 in
  let p := rec in
  let! '(l1, _) := area p in
  let p := tri in
  let! '(l2, _) := area p in
  Ok [l1; l2].

(** ** [hashmap/src/main.cc] *)
Record state := MkState { state_id : Z; name : bytes }.
Definition hashmap_main : list bytes :=
  let m : gmap Z state := ∅ in
  let tmp1 := MkState 1 (lit "First state") in
  let tmp2 := MkState 2 (lit "Second state") in
  let m := <[1 := tmp1]> m in
  let m := <[2 := tmp2]> m in
  match m !! 1 with
  | Some s => [lit "Key: " ++ dec 1 ++ lit ", Value: " ++ name s]
  | None => []
  end.

(** The output of the programs on classes and of the small mains: multiple
    inheritance, operator overloading, dynamic dispatch, the hash map, the matrix
    search and findDuplication. *)
Theorem small_outputs :
  inheritance_main = Ok [lit "Total area: 35"; lit "Paint cost: $2450"] /\
  overload_main = Ok [lit "Volume of Box1 : 210"; lit "Volume of Box2 : 1560"; lit "Volume of Box3 : 5400"] /\
  poly_main = Ok [lit "Area Rectangle"; lit "Area Triangle"] /\
  hashmap_main = [lit "Key: 1, Value: First state"] /\
  matrix_main 4 = Ok [lit "1 3 5 "; lit "7 9 11 "; lit "13 15 17 "; lit "3 6"] /\
  duplication_main = Ok (lit "0" ++ [10]).
Proof. repeat split. Qed.

(** ** findDuplication *)
Lemma swap_ok arr i x y v : 0 <= i -> 0 <= x -> arr !! Z.to_nat i = Some v -> arr !! Z.to_nat x = Some y -> i <> x ->
  swap arr i x = Ok (<[Z.to_nat i := y]> (<[Z.to_nat x := v]> arr)).
Proof.
  intros Hi Hx Hv Hy Hne. unfold swap. pose proof (lookup_lt_Some _ _ _ Hv). pose proof (lookup_lt_Some _ _ _ Hy).
  rewrite (rd_ok _ _ _ Hx Hy), obind_ok, (rd_ok _ _ _ Hi Hv), obind_ok, wr_ok, obind_ok by lia.
  apply wr_ok. rewrite length_insert. lia.
Qed.
Lemma swap_nodup (arr : list Z) i j u v : i <> j -> arr !! i = Some u -> arr !! j = Some v ->
  NoDup arr -> NoDup (<[i := v]> (<[j := u]> arr)).
Proof.
  intros Hij Hu Hv Hn. rewrite NoDup_alt in Hn |- *. pose proof (lookup_lt_Some _ _ _ Hu). pose proof (lookup_lt_Some _ _ _ Hv).
  assert (forall k, <[i := v]> (<[j := u]> arr) !! k = arr !! (if decide (k = i) then j else if decide (k = j) then i else k)) as El.
  { intros k. repeat case_decide; subst.
    - rewrite list_lookup_insert_eq by (rewrite length_insert; done). done.
    - rewrite list_lookup_insert_ne, list_lookup_insert_eq by done. done.
    - by rewrite !list_lookup_insert_ne by done. }
  intros a b z. rewrite !El. intros Ha Hb. specialize (Hn _ _ _ Ha Hb). repeat case_decide; congruence.
Qed.
Lemma dup_loop_ok fuel : forall arr i, 0 <= i -> i + Z.of_nat fuel = len arr -> Forall (fun v => 0 <= v < len arr) arr ->
  (dup_loop arr fuel i = Ok 0) \/ (dup_loop arr fuel i = Ok 1 /\ ~ NoDup arr).
Proof.
  induction fuel as [ | fuel IH]; intros arr i Hi Hf Hr; cbn [dup_loop]; [by left | ].
  destruct (lookup_lt_is_Some_2 arr (Z.to_nat i)) as [x Hx]; [lia | ]. rewrite (rd_ok arr i x), obind_ok by done.
  pose proof (Forall_lookup_1 _ _ _ _ Hr Hx) as Hxr. cbn in Hxr. destruct (x =? i) eqn:Exi; cbn [negb]; zbool; [apply IH; lia || done | ].
  destruct (lookup_lt_is_Some_2 arr (Z.to_nat x)) as [y Hy]; [lia | ]. rewrite (rd_ok arr x y), obind_ok by (done || lia).
  destruct (y =? x) eqn:Eyx; zbool.
  - right. split; [done | ]. subst y. rewrite NoDup_alt. intros Hn. specialize (Hn _ _ _ Hx Hy). lia.
  - rewrite (swap_ok arr i x y x), obind_ok by (done || lia).
    destruct (IH (<[Z.to_nat i := y]> (<[Z.to_nat x := x]> arr)) (i + 1)) as [E | [E Hd]];
      [lia | rewrite !length_insert; lia | | by left | right].
    + rewrite !length_insert. pose proof (Forall_lookup_1 _ _ _ _ Hr Hy). by repeat apply Forall_insert.
    + split; [done | ]. intros Hn. apply Hd. apply swap_nodup; try done. lia.
Qed.

(** findDuplication stays inside an array of numbers below its length, and when it
    answers 1 the array does have a duplicate; it can answer 0 for an array with one,
    because a position is not looked at again after a swap. *)
Theorem find_duplication_sound (arr : list Z) :
  Forall (fun v => 0 <= v < len arr) arr ->
  (findDuplication arr (len arr) = Ok 0 \/ (findDuplication arr (len arr) = Ok 1 /\ ~ NoDup arr)) /\
  findDuplication [1; 2; 2] 3 = Ok 0.
Proof.
  intros Hr. split; [ | done]. unfold findDuplication. rewrite Nat2Z.id. by apply dup_loop_ok; [ | lia | ].
Qed.
Lemma find_duplication_sound_witness : findDuplication [0; 1; 1] 3 = Ok 0 \/ (findDuplication [0; 1; 1] 3 = Ok 1 /\ ~ NoDup [0; 1; 1]).
Proof. apply (find_duplication_sound [0; 1; 1]). repeat (apply Forall_cons_2; [cbn; lia | ]). apply Forall_nil_2. Defined.

(** ** searchMatrix is the binary search on the rows written one after the other *)
Lemma lookup_concat (mat : list (list Z)) c : (0 < c)%nat -> Forall (fun r => length r = c) mat -> forall i j row v,
  (j < c)%nat -> mat !! i = Some row -> row !! j = Some v -> concat mat !! (i * c + j)%nat = Some v.
Proof.
  intros Hc Hall. induction Hall as [ | r mat Hr _ IH]; intros i j row v Hj Hi Hv; [done | ].
  destruct i as [ | i]; cbn in Hi |- *.
  - injection Hi as ->. by rewrite lookup_app_l by lia.
  - rewrite lookup_app_r by lia. replace (c + i * c + j - length r)%nat with (i * c + j)%nat by lia. by eapply IH.
Qed.
Lemma concat_length (mat : list (list Z)) c : Forall (fun r => length r = c) mat -> length (concat mat) = (length mat * c)%nat.
Proof. induction 1 as [ | r mat Hr _ IH]; [done | ]. cbn. rewrite length_app. lia. Qed.
Lemma matrix_binary (mat : list (list Z)) c x fuel : (0 < c)%nat -> Forall (fun r => length r = c) mat ->
  len (concat mat) <= INT_MAX -> forall start end_ count, 0 <= start -> end_ < len (concat mat) ->
  0 <= count -> count + Z.of_nat fuel <= INT_MAX ->
  matrix_loop mat (Z.of_nat c) x fuel start end_ =
    let! '(_, r) := CppSort.binary_loop (concat mat) x fuel start end_ count in Ok r.
Proof.
  intros Hc Hall Hlen. induction fuel as [ | fuel IH]; intros start end_ count Hs He H0 Hn; cbn [matrix_loop CppSort.binary_loop];
    (destruct (start <=? end_) eqn:E; zbool; [ | done]); [done | ].
  rewrite (cint_ok (count + 1)), obind_ok, !(cdiv_ok _ 2), !obind_ok by int_bounds. cbv zeta.
  assert (0 <= (end_ - start) / 2 <= end_ - start) as Hh by (split; [apply Z.div_pos | apply Z.div_le_upper_bound]; lia).
  set (mid := start + (end_ - start) / 2) in *. rewrite cdiv_ok, obind_ok, crem_ok, obind_ok by int_bounds.
  pose proof (Z.div_mod mid (Z.of_nat c) ltac:(lia)) as Hdm. pose proof (Z.mod_pos_bound mid (Z.of_nat c) ltac:(lia)) as Hm.
  set (i := mid / Z.of_nat c) in *. set (j := mid mod Z.of_nat c) in *.
  assert (0 <= i) as Hi0 by (subst i; apply Z.div_pos; lia).
  rewrite (concat_length _ _ Hall) in He, Hlen.
  assert (i < len mat) as Hi by nia.
  destruct (lookup_lt_is_Some_2 mat (Z.to_nat i)) as [row Hrow]; [lia | ].
  pose proof (Forall_lookup_1 _ _ _ _ Hall Hrow) as Hrl. cbn in Hrl.
  destruct (lookup_lt_is_Some_2 row (Z.to_nat j)) as [v Hv]; [lia | ].
  rewrite (rd_ok mat i row), obind_ok, (rd_ok row j v), obind_ok by (done || lia).
  rewrite (rd_ok (concat mat) mid v), obind_ok; [ | lia | ].
  2: { replace (Z.to_nat mid) with (Z.to_nat i * c + Z.to_nat j)%nat by nia. eapply lookup_concat; (done || lia). }
  destruct (v =? x); [done | ]. rewrite (concat_length _ _ Hall) in IH.
  destruct (v <? x).
  - rewrite (IH (mid + 1) end_ (count + 1)) by lia. by destruct (CppSort.binary_loop _ _ _ _ _ _) as [[? ?] | | | ].
  - rewrite (IH start (mid - 1) (count + 1)) by lia. by destruct (CppSort.binary_loop _ _ _ _ _ _) as [[? ?] | | | ].
Qed.

(** searchMatrix finds a value in a matrix whose rows, written one after the other, are
    sorted: it returns a place of the value in that sequence, or -1 when it is
    absent, with at most [log2 (rows * cols) + 1] probes (the fuel), and without
    leaving the matrix. *)
Theorem search_matrix_ok (mat : list (list Z)) (c : nat) (x : Z) (fuel : nat) :
  (0 < c)%nat -> Forall (fun r => length r = c) mat -> StronglySorted Z.le (concat mat) ->
  len mat * Z.of_nat c <= INT_MAX -> Z.log2 (len mat * Z.of_nat c) + 1 = Z.of_nat fuel ->
  exists r, searchMatrix fuel mat (len mat) (Z.of_nat c) x = Ok r /\ CppSort.found (concat mat) x r.
Proof.
  intros Hc Hall Hs Hlen Hf. pose proof (concat_length _ _ Hall) as Hl.
  assert (len (concat mat) = len mat * Z.of_nat c) as Hl' by lia. rewrite <- Hl' in *.
  unfold searchMatrix. rewrite <- Hl', cint_ok, obind_ok by int_bounds.
  assert (Z.log2 (len (concat mat)) < 31) as H31.
  { destruct (decide (len (concat mat) = 0)) as [-> | ]; [done | ]. apply Z.log2_lt_pow2; int_bounds. }
  rewrite (matrix_binary mat c x fuel Hc Hall Hlen 0 _ 0) by int_bounds.
  destruct (CppSort.binary_loop_ok (concat mat) x Hs Hlen fuel fuel 0 (len (concat mat) - 1) 0) as (log & r & E & _ & Hr);
    try int_bounds.
  - rewrite <- Hf. destruct (decide (len (concat mat) = 0)) as [-> | ]; [done | ].
    pose proof (Z.log2_spec (len (concat mat)) ltac:(lia)). rewrite Z.add_1_r. lia.
  - intros k Hk. apply lookup_lt_Some in Hk. lia.
  - exists r. rewrite E. done.
Qed.
Lemma search_matrix_ok_witness : exists r, searchMatrix 4 main_matrix 3 3 7 = Ok r /\ CppSort.found (concat main_matrix) 7 r.
Proof.
  apply (search_matrix_ok main_matrix 3 7 4); [lia | by repeat constructor | by repeat constructor | done | done].
Defined.
End CppSmall.
