(* ===== verification/Asio.v ===== *)
(** * The latency pair over Asio: [client_server/asio/src/timer_server.cc],
    [client_server/asio/src/timer_client.cc]

    The library runs the handlers; which datagrams arrive, when timers fire and
    what the clock says are arguments.  Members that the constructors leave unset
    are part of the initial state ([None] where indeterminate): the counter and the
    receive buffer of the server, the receive buffer of the client.  The last part
    composes the two programs: the latencies are right when the server's memory
    happens to be zeroed. *)
From S2P Require Import Prelude CLib.

Module Asio.

(** The error code a receive completes with. *)
Inductive recv_error := NoError | MessageSize | OtherError.
(** [!error || error == message_size] *)
Definition usable (e : recv_error) : bool := match e with OtherError => false | _ => true end.

(** [async_receive_from]: the datagram, cut to the buffer, over its first bytes. *)
Definition store {A} (buf data : list A) : list A := let d := take (length buf) data in d ++ drop (length d) buf.

(** ** Running handlers: [io_service::run] inside the [try] block of both programs

    A handler gives its actions and either the next state or the text of an exception
    ([send_to] throws).  The run ends when nothing is pending any more ([idle]) or with
    an exception, which [main] prints; both programs then return 0. *)
Inductive run_end (S : Type) := Running (s : S) | Exited (code : Z).
Arguments Running {S} s.
Arguments Exited {S} code.
Section IoService.
Context {S E A : Type} (step : S -> E -> outcome (list A * (S + bytes))) (idle : S -> bool) (complain : bytes -> A).
Fixpoint io_run (s : S) (evs : list E) {struct evs} : outcome (list A * run_end S) :=
  if idle s then Ok ([], Exited 0) else
  match evs with
  | [] => Ok ([], Running s)
  | ev :: evs =>
      let! '(a, r) := step s ev in
      match r with
      | inl s => let! '(b, e) := io_run s evs in Ok (a ++ b, e)
      | inr what => Ok (a ++ [complain what], Exited 0)
      end
  end.
End IoService.

(** ** The server *)
Definition cells := list (option Z).
Record server := MkServer { mps : option Z; recv_buffer : cells; receiving : bool }.
Inductive action := Sent (dest : Z) (data : cells) | Printed (n : Z) | Complained (what : bytes).
(** A datagram with what [send_to] throws when the answer is sent, or the timer. *)
Inductive server_event := Received (e : recv_error) (data : cells) (from : Z) (thrown : option bytes) | Tick.

Definition read_uint (v : option Z) : outcome Z := match v with Some n => Ok n | None => Ub end.
(** [udp_server(io_service)]: the timer is armed and a receive started. *)
Definition new_server (mps0 : option Z) (buf0 : cells) : server := MkServer mps0 buf0 true.
Definition handle_receive (s : server) (e : recv_error) (data : cells) (from : Z) (thrown : option bytes)
    : outcome (list action * (server + bytes)) :=
  let buf := store (recv_buffer s) data in
  if usable e then
    let! n := read_uint (mps s) in
    match thrown with
    | None => Ok ([Sent from buf], inl (MkServer (Some (u32 (n + 1))) buf true))
    | Some what => Ok ([], inr what)
    end
  else Ok ([], inl (MkServer (mps s) buf false)).
Definition measure_throughput (s : server) : outcome (list action * (server + bytes)) :=
  let! n := read_uint (mps s) in
  Ok ([Printed n], inl (MkServer (Some 0) (recv_buffer s) (receiving s))).
(** A datagram that arrives while no receive is pending stays with the system. *)
Definition server_step (s : server) (ev : server_event) : outcome (list action * (server + bytes)) :=
  match ev with
  | Received e data from thrown => if receiving s then handle_receive s e data from thrown else Ok ([], inl s)
  | Tick => measure_throughput s
  end.
(** The timer is always armed again: there is always something pending. *)
Definition server_run : server -> list server_event -> outcome (list action * run_end server) :=
  io_run server_step (fun _ => false) Complained.
(** [main]; [bound]: what binding port 12345 throws. *)
Definition server_main (bound : option bytes) (mps0 : option Z) (buf0 : cells) (evs : list server_event)
    : outcome (list action * run_end server) :=
  match bound with
  | Some what => Ok ([Complained what], Exited 0)
  | None => server_run (new_server mps0 buf0) evs
  end.

(** ** The client *)
Definition max_length : nat := 1024.
Record client := MkClient { count : Z; client_buffer : cells; client_receiving : bool; stopped : bool }.
Inductive client_action := Say (line : bytes) | Send (data : bytes) | Latency (l : Z).
(** The reply, the clock when it is handled, and what [send_to] throws. *)
Record client_event := MkReply { reply_error : recv_error; reply_data : cells; end_time : Z; client_thrown : option bytes }.
(** [std::to_string] of a [uint64_t]: 20 digits are enough. *)
Definition to_string (n : Z) : bytes := dec_digits 20 n [].
(** [std::string(recv_buffer_.data())]: up to the first zero byte. *)
Fixpoint c_string (l : cells) : outcome bytes :=
  match l with
  | Some c :: l => if c =? 0 then Ok [] else let! s := c_string l in Ok (c :: s)
  | _ => Ub
  end.
(** [iss >> start_ns]: a number that does not fit makes the stream fail. *)
Definition parse_u64 (s : bytes) : option Z :=
  let s := skip_space s in
  let neg := match s with c :: _ => c =? 45 | [] => false end in
  let s := match s with c :: r => if (c =? 45) || (c =? 43) then r else s | [] => [] end in
  match s with
  | c :: _ =>
      if isdigit c then
        let v := digits_val 0 s in
        if v <? 2 ^ 64 then Some (u64 (if neg then - v else v)) else None
      else None
  | [] => None
  end.
Definition send_timestamp (start_ns : Z) (thrown : option bytes) : list client_action * option bytes :=
  match thrown with None => ([Send (to_string start_ns)], None) | Some what => ([], Some what) end.
Definition start_receive (c : client) : client := MkClient (count c) (client_buffer c) true (stopped c).
(** The constructor once the socket is open: [resolve] may throw, so may the first
    [send_to]; then the receive is started. *)
Definition new_client (resolved thrown : option bytes) (buf0 : cells) (port start_ns : Z)
    : list client_action * (client + bytes) :=
  match resolved with
  | Some what => ([], inr what)
  | None =>
      let say := [Say (lit "local port " ++ dec port); Say (lit "latency file name: latency-" ++ dec port ++ lit ".txt")] in
      match send_timestamp start_ns thrown with
      | (acts, Some what) => (say ++ acts, inr what)
      | (acts, None) => (say ++ acts, inl (start_receive (MkClient 0 buf0 false false)))
      end
  end.
Definition client_handle_receive (c : client) (ev : client_event) : outcome (list client_action * (client + bytes)) :=
  let buf := store (client_buffer c) (reply_data ev) in
  if usable (reply_error ev) then
    let! n := cint (count c + 1) in
    let! text := c_string buf in
    let lat := match parse_u64 text with Some start_ns => [Latency (u64 (end_time ev - start_ns))] | None => [] end in
    match client_thrown ev with
    | Some what => Ok (lat, inr what)
    | None =>
        Ok (lat ++ [Send (to_string (end_time ev))],
            inl (start_receive (MkClient n buf false (stopped c || (n >? 100000)))))
    end
  else Ok ([], inl (MkClient (count c) buf false (stopped c))).
(** The run returns after [stop()], and when no receive is pending. *)
Definition client_idle (c : client) : bool := stopped c || negb (client_receiving c).
Definition exception_line (what : bytes) : client_action := Say (lit "Exception: " ++ what).
Definition client_run : client -> list client_event -> outcome (list client_action * run_end client) :=
  io_run client_handle_receive client_idle exception_line.
(** [main]; [opened]: what opening the socket throws. *)
Definition client_main (argc : Z) (opened resolved thrown : option bytes) (buf0 : cells) (port start_ns : Z)
    (evs : list client_event) : outcome (list client_action * run_end client) :=
  if negb (argc =? 3) then Ok ([Say (lit "Usage: client <host> <port>")], Exited 1) else
  match opened with
  | Some what => Ok ([exception_line what], Exited 0)
  | None =>
      let '(a, r) := new_client resolved thrown buf0 port start_ns in
      match r with
      | inr what => Ok (a ++ [exception_line what], Exited 0)
      | inl c => let! '(b, e) := client_run c evs in Ok (a ++ b, e)
      end
  end.

(** ** One client with the server: each time is when the next reply arrives *)
Definition reply_of (acts : list action) : cells := match acts with Sent _ d :: _ => d | _ => [] end.
Definition sent_by (acts : list client_action) : bytes :=
  match last acts with Some (Send d) => d | _ => [] end.
(** What the server answers to each request, as the client's events. *)
Fixpoint pair_run (s : server) (c : client) (msg : bytes) (times : list Z) {struct times}
    : outcome (list client_action * run_end client) :=
  if client_idle c then Ok ([], Exited 0) else
  match times with
  | [] => Ok ([], Running c)
  | t :: times =>
      let! '(a, r) := server_step s (Received NoError (map Some msg) 1 None) in
      match r with
      | inl s =>
          let! '(b, r) := client_handle_receive c (MkReply NoError (reply_of a) t None) in
          match r with
          | inl c => let! '(b', e) := pair_run s c (sent_by b) times in Ok (b ++ b', e)
          | inr what => Ok (b ++ [exception_line what], Exited 0)
          end
      | inr what => Ok ([], Running c)
      end
  end.
(** ** The server *)
Lemma store_cells_length {A} (buf data : list A) : length (store buf data) = length buf.
Proof. unfold store. rewrite length_app, length_drop, length_take. lia. Qed.
Lemma store_fits {A} (buf data : list A) : (length data <= length buf)%nat -> store buf data = data ++ drop (length data) buf.
Proof. intros H. unfold store. by rewrite take_ge by lia. Qed.

(** What the server must do: answer every datagram to its sender, print at each tick the
    number of datagrams since the last one, and end with the text of the exception when
    an answer cannot be sent. *)
Inductive promise : Z -> list server_event -> list action -> Prop :=
| promise_nil n : promise n [] []
| promise_tick n evs acts : promise 0 evs acts -> promise n (Tick :: evs) (Printed n :: acts)
| promise_echo n e data from reply evs acts :
    usable e = true -> length reply = 128%nat -> take (length data) reply = data ->
    promise (u32 (n + 1)) evs acts ->
    promise n (Received e data from None :: evs) (Sent from reply :: acts)
| promise_throw n e data from what evs :
    usable e = true -> promise n (Received e data from (Some what) :: evs) [Complained what].
Definition fits (ev : server_event) : Prop :=
  match ev with Received e d _ _ => usable e = true /\ (length d <= 128)%nat | Tick => True end.
Lemma server_run_ok evs : forall n buf, length buf = 128%nat -> Forall fits evs ->
  exists acts r, server_run (MkServer (Some n) buf true) evs = Ok (acts, r) /\ promise n evs acts.
Proof.
  induction evs as [ | ev evs IH]; intros n buf Hb Hev; [by eexists _, _; split; [done | constructor] | ].
  apply Forall_cons in Hev as [Hev Hevs]. unfold server_run in *. cbn [io_run].
  destruct ev as [e d from [what | ] | ]; cbn [server_step receiving fits] in *.
  - destruct Hev as [He Hd]. unfold handle_receive. cbn [recv_buffer mps]. rewrite He. cbn [read_uint]. rewrite !obind_ok.
    eexists _, _. split; [done | ]. by apply promise_throw.
  - destruct Hev as [He Hd]. unfold handle_receive. cbn [recv_buffer mps]. rewrite He. cbn [read_uint]. rewrite !obind_ok.
    destruct (IH (u32 (n + 1)) (store buf d)) as (acts & s & -> & Hp); [by rewrite store_cells_length | done | ].
    rewrite obind_ok. eexists _, _. split; [done | ]. apply promise_echo; try done; [by rewrite store_cells_length | ].
    rewrite store_fits by lia. by rewrite take_app_length.
  - unfold measure_throughput. cbn [mps read_uint recv_buffer receiving]. rewrite !obind_ok.
    destruct (IH 0 buf Hb Hevs) as (acts & s & -> & Hp). rewrite obind_ok. eexists _, _. split; [done | ]. by apply promise_tick.
Qed.

(** The Asio server answers every datagram of at most 128 bytes to its sender with 128
    bytes that start with it, prints at each tick the number of datagrams since the
    last tick, the first time on top of what the unset counter held, and exits with 0
    when an answer cannot be sent; when that memory is indeterminate its first handler
    is undefined; after another receive error it answers no datagram any more. *)
Theorem asio_server_echoes (n : Z) (buf : cells) (evs : list server_event) :
  length buf = 128%nat -> Forall fits evs ->
  (exists acts r, server_main None (Some n) buf evs = Ok (acts, r) /\ promise n evs acts) /\
  (forall ev evs', (match ev with Received e _ _ _ => usable e = true | Tick => True end) ->
     server_main None None buf (ev :: evs') = Ub) /\
  (forall s d from th e' d' from' th' a s', server_step s (Received OtherError d from th) = Ok (a, inl s') ->
     server_step s' (Received e' d' from' th') = Ok ([], inl s')).
Proof.
  intros Hb Hev. split; [by apply server_run_ok | ]. split.
  - intros [e d from th | ] evs' He; [ | done]. unfold server_main, server_run.
    cbn [io_run server_step new_server receiving]. unfold handle_receive. by rewrite He.
  - intros s d from th e' d' from' th' a s'. cbn [server_step]. destruct (receiving s) eqn:Er.
    + unfold handle_receive. cbn. by intros [= <- <-].
    + intros [= <- <-]. by rewrite Er.
Qed.
Lemma asio_server_echoes_witness : exists acts r,
  server_main None (Some 7) (replicate 128 (Some 0)) [Received NoError [Some 65] 9 None; Tick; Tick] = Ok (acts, r) /\
  promise 7 [Received NoError [Some 65] 9 None; Tick; Tick] acts.
Proof.
  apply (asio_server_echoes 7 (replicate 128 (Some 0)) [Received NoError [Some 65] 9 None; Tick; Tick]); [done | ].
  repeat (apply Forall_cons_2; [cbn; try split; (done || lia) | ]). apply Forall_nil_2.
Defined.

(** ** How the client ends *)
Definition good_reply (ev : client_event) : Prop := usable (reply_error ev) = true /\ client_thrown ev = None.
Lemma client_run_ends evs : forall c acts e, client_receiving c = true -> stopped c = (count c >? 100000) ->
  0 <= count c <= 100001 ->
  client_run c evs = Ok (acts, e) ->
  (e = Exited 0 /\ ~ (Forall good_reply evs /\ count c + len evs <= 100000)) \/
  (exists c', e = Running c' /\ Forall good_reply evs /\ count c' = count c + len evs /\ count c' <= 100000).
Proof.
  induction evs as [ | ev evs IH]; intros c acts e Hr Hs Hc; unfold client_run; cbn [io_run];
    replace (client_idle c) with (count c >? 100000) by (unfold client_idle; by rewrite Hr, Hs, orb_false_r);
    destruct (Z.gtb_spec (count c) 100000) as [Hgt | Hle].
  - intros [= <- <-]. left. split; [done | ]. cbn [length]. lia.
  - intros [= <- <-]. right. exists c. split_and!; try done. cbn [length]. lia.
  - intros [= <- <-]. left. split; [done | ]. cbn [length]. lia.
  - unfold client_handle_receive. destruct (usable (reply_error ev)) eqn:Eu.
    + rewrite cint_ok, obind_ok by int_bounds.
      destruct (c_string _) as [text | | | ]; [ | done..]. rewrite obind_ok.
      destruct (client_thrown ev) as [what | ] eqn:Et; rewrite obind_ok.
      * intros [= <- <-]. left. split; [done | ]. intros [[[_ H] _]%Forall_cons _]. congruence.
      * intros [[b e'] [Hb [= <- <-]]]%obind_inv. apply IH in Hb; cbn [start_receive count stopped client_receiving] in *.
        -- cbn [length]. destruct Hb as [[-> Hn] | (c' & -> & Hf & Hc' & Hb)]; [left | right].
           ++ split; [done | ]. intros [[_ Hf]%Forall_cons Hl]. apply Hn. split; [done | lia].
           ++ exists c'. split_and!; [done | by apply Forall_cons_2 | lia | lia].
        -- done.
        -- rewrite Hs. by destruct (Z.gtb_spec (count c) 100000); [lia | ].
        -- lia.
    + rewrite obind_ok. intros [[b e'] [Hb [= <- <-]]]%obind_inv. left. destruct evs; cbn [io_run] in Hb;
        (unfold client_idle in Hb; cbn [stopped client_receiving negb] in Hb; rewrite orb_true_r in Hb;
         injection Hb as <- <-; split; [done | ]; intros [[[H _] _]%Forall_cons _]; congruence).
Qed.

(** How the Asio client ends, whatever arrives: a run without undefined behaviour exits
    with code 0 as soon as a receive fails, a send throws or the 100001st reply has been
    answered, and is still waiting for a reply otherwise, with one reply counted for
    each event; so no run handles more than 100001 replies. *)
Theorem asio_client_ends (buf0 : cells) (port t0 : Z) (evs : list client_event) acts e :
  client_main 3 None None None buf0 port t0 evs = Ok (acts, e) ->
  (e = Exited 0 /\ ~ (Forall good_reply evs /\ len evs <= 100000)) \/
  (exists c, e = Running c /\ Forall good_reply evs /\ count c = len evs /\ count c <= 100000).
Proof.
  unfold client_main. cbn [Z.eqb Pos.eqb negb new_client send_timestamp]. intros [[b e'] [Hb [= _ <-]]]%obind_inv.
  apply client_run_ends in Hb; cbn [start_receive count stopped client_receiving] in *; (done || lia || by rewrite ?Z.add_0_l in Hb).
Qed.
Lemma asio_client_ends_witness : exists acts e,
  client_main 3 None None None (replicate 1024 (Some 0)) 4000 5 [MkReply NoError [Some 53; Some 0] 7 None] = Ok (acts, e) /\
  ((e = Exited 0 /\ ~ (Forall good_reply [MkReply NoError [Some 53; Some 0] 7 None] /\ 1 <= 100000)) \/
   (exists c, e = Running c /\ Forall good_reply [MkReply NoError [Some 53; Some 0] 7 None] /\ count c = 1 /\ count c <= 100000)).
Proof.
  eexists _, _. split; [vm_compute; reflexivity | ].
  eapply (asio_client_ends (replicate 1024 (Some 0)) 4000 5 [MkReply NoError [Some 53; Some 0] 7 None]). vm_compute; reflexivity.
Defined.

(** ** The pair *)
Lemma to_string_ok n : 0 <= n < 2 ^ 64 ->
  Forall (fun c => isdigit c = true) (to_string n) /\ (length (to_string n) <= 20)%nat /\
  to_string n <> [] /\ digits_val 0 (to_string n) = n.
Proof.
  intros Hn. unfold to_string. split; [by apply dec_digits_digits; [lia | constructor] | ].
  split; [ | split].
  - assert (forall fl k acc, (length (dec_digits fl k acc) <= fl + length acc)%nat) as Hl.
    { induction fl as [ | fl IH]; intros k acc; cbn [dec_digits]; [cbn; lia | ]. case_if; [cbn; lia | ].
      etransitivity; [apply IH | cbn; lia]. }
    apply (Hl 20%nat n []).
  - destruct (dec_digits_cons n 19 []) as (c & s & ->). done.
  - rewrite dec_digits_val; [cbn [digits_val]; lia | | lia].
    split; [lia | ]. eapply Z.lt_trans; [apply Hn | reflexivity].
Qed.
Lemma parse_to_string n : 0 <= n < 2 ^ 64 -> parse_u64 (to_string n) = Some n.
Proof.
  intros Hn. destruct (to_string_ok n Hn) as (Hd & _ & Hne & Hv). unfold parse_u64.
  destruct (to_string n) as [ | c s]; [done | ]. apply Forall_cons in Hd as [Hc _]. pose proof (proj1 (isdigit_spec c) Hc) as Hr.
  cbn [skip_space]. unfold isspace. rewrite (proj2 (Z.eqb_neq c 32)), (proj2 (Z.leb_gt c 13)), andb_false_r by lia. cbn [orb].
  rewrite (proj2 (Z.eqb_neq c 45)), (proj2 (Z.eqb_neq c 43)) by lia. cbn [orb]. rewrite Hc, Hv.
  rewrite (proj2 (Z.ltb_lt n _)) by lia. f_equal. by apply Z.mod_small.
Qed.
Lemma c_string_digits ds rest : Forall (fun c => isdigit c = true) ds -> c_string (map Some ds ++ Some 0 :: rest) = Ok ds.
Proof.
  induction 1 as [ | c ds Hc _ IH]; [done | ]. apply isdigit_spec in Hc. cbn [map app c_string].
  rewrite (proj2 (Z.eqb_neq c 0)) by lia. by rewrite IH.
Qed.
(** The server's buffer between two exchanges: a time of [d] digits, then zeros. *)
Definition time_buffer (d : nat) (buf : cells) : Prop :=
  exists ds, length ds = d /\ buf = map Some ds ++ replicate (128 - d) (Some 0).
(** What a correct client does on replies at these times: report the latency, send again. *)
Fixpoint exchanges (t0 : Z) (times : list Z) : list client_action :=
  match times with [] => [] | t :: times => Latency (u64 (t - t0)) :: Send (to_string t) :: exchanges t times end.
Definition timed (d : nat) (t : Z) : Prop := 0 <= t < 2 ^ 64 /\ length (to_string t) = d.

(** One exchange: the server's buffer takes the request and the client parses the echo. *)
Lemma pair_step d n buf c t0 : (d <= 20)%nat -> time_buffer d buf -> length (client_buffer c) = max_length ->
  -1 <= count c <= 200000 -> timed d t0 ->
  exists buf', time_buffer d buf' /\ length buf' = 128%nat /\
  server_step (MkServer (Some n) buf true) (Received NoError (map Some (to_string t0)) 1 None) =
    Ok ([Sent 1 buf'], inl (MkServer (Some (u32 (n + 1))) buf' true)) /\
  exists cbuf, length cbuf = max_length /\
  forall t, client_handle_receive c (MkReply NoError buf' t None) =
    Ok ([Latency (u64 (t - t0)); Send (to_string t)],
        inl (MkClient (count c + 1) cbuf true (stopped c || (count c + 1 >? 100000)))).
Proof.
  intros Hd (ds & Hds & ->) Hcb Hc [Ht0 Hl0]. destruct (to_string_ok t0 Ht0) as (Hdig & _ & _ & _).
  assert (store (map Some ds ++ replicate (128 - d) (Some 0)) (map Some (to_string t0)) =
          map Some (to_string t0) ++ replicate (128 - d) (Some 0)) as Est.
  { rewrite store_fits by (rewrite length_app, !length_map, length_replicate; lia).
    by rewrite length_map, Hl0, <- Hds, <- (length_map Some ds), drop_app_length. }
  exists (map Some (to_string t0) ++ replicate (128 - d) (Some 0)).
  split; [by exists (to_string t0) | ]. split; [rewrite length_app, length_map, length_replicate; lia | ]. split.
  { cbn [server_step receiving]. unfold handle_receive. cbn [usable mps read_uint recv_buffer]. rewrite Est. done. }
  assert (exists rest, store (client_buffer c) (map Some (to_string t0) ++ replicate (128 - d) (Some 0)) =
            map Some (to_string t0) ++ Some 0 :: rest) as [rest Ebuf].
  { rewrite store_fits by (rewrite length_app, length_map, length_replicate, Hcb; unfold max_length; lia).
    rewrite <- app_assoc. replace (128 - d)%nat with (S (127 - d)) by lia. cbn [replicate app]. by eexists. }
  exists (map Some (to_string t0) ++ Some 0 :: rest). split; [by rewrite <- Ebuf, store_cells_length | ].
  intros t. unfold client_handle_receive. cbn [usable reply_data reply_error end_time client_thrown].
  rewrite Ebuf, cint_ok, obind_ok, c_string_digits, obind_ok by (done || int_bounds). by rewrite parse_to_string.
Qed.
Lemma pair_run_ok d times : (d <= 20)%nat -> forall n buf c t0, time_buffer d buf -> length (client_buffer c) = max_length ->
  client_receiving c = true -> stopped c = (count c >? 100000) -> 0 <= count c <= 100001 -> Forall (timed d) (t0 :: times) ->
  exists e, pair_run (MkServer (Some n) buf true) c (to_string t0) times =
    Ok (exchanges t0 (take (Z.to_nat (100001 - count c)) times), e) /\
  (e = Exited 0 <-> 100001 <= count c + len times).
Proof.
  intros Hd. induction times as [ | t times IH]; intros n buf c t0 Hbuf Hcb Hr Hs Hc Hall; cbn [pair_run];
    replace (client_idle c) with (count c >? 100000) by (unfold client_idle; by rewrite Hr, Hs, orb_false_r);
    destruct (Z.gtb_spec (count c) 100000) as [Hgt | Hle].
  1,3: eexists; replace (Z.to_nat (100001 - count c)) with 0%nat by lia; rewrite take_0; split; [done | ]; split; [cbn [length]; lia | done].
  - eexists. rewrite take_nil. split; [done | ]. split; [done | cbn [length]; lia].
  - apply Forall_cons in Hall as [Ht0 Hall].
    destruct (pair_step d n buf c t0) as (buf' & Hb' & _ & -> & cbuf & Hcb' & Hstep); [done.. | lia | done | ].
    rewrite obind_ok. cbn [reply_of]. rewrite Hstep, obind_ok. cbn [sent_by last].
    destruct (IH (u32 (n + 1)) buf' (MkClient (count c + 1) cbuf true (stopped c || (count c + 1 >? 100000))) t)
      as (e & -> & He); try done.
    + cbn [stopped count]. rewrite Hs. by destruct (Z.gtb_spec (count c) 100000); [lia | ].
    + cbn [count]. lia.
    + rewrite obind_ok. cbn [count] in *. exists e.
      replace (Z.to_nat (100001 - count c)) with (S (Z.to_nat (100001 - (count c + 1)))) by lia. split; [done | ].
      rewrite He. cbn [length]. lia.
Qed.

(** C38. The Asio client and server together: when the server's buffer happens to be zeroed
    and all times have the same number of digits, the client reports after each reply
    the time since it sent the request, modulo 2^64, and sends the next request; it does
    so for exactly the first 100001 replies and exits with 0 when they have arrived. *)
Theorem asio_latencies (n : Z) (cbuf : cells) (port t0 : Z) (times : list Z) :
  length cbuf = max_length -> Forall (timed (length (to_string t0))) (t0 :: times) ->
  exists c e, (new_client None None cbuf port t0).2 = inl c /\
  pair_run (new_server (Some n) (replicate 128 (Some 0))) c (to_string t0) times =
    Ok (exchanges t0 (take (Z.to_nat 100001) times), e) /\
  (e = Exited 0 <-> 100001 <= len times).
Proof.
  intros Hb Hall. pose proof Hall as [[Ht0 _] _]%Forall_cons. destruct (to_string_ok t0 Ht0) as (_ & Hl & _ & _).
  destruct (pair_run_ok (length (to_string t0)) times Hl n (replicate 128 (Some 0)) (MkClient 0 cbuf true false) t0)
    as (e & He & Hx); try done.
  - exists (replicate (length (to_string t0)) 0). split; [apply length_replicate | ].
    change (map Some (replicate (length (to_string t0)) 0)) with (Some <$> replicate (length (to_string t0)) 0).
    rewrite fmap_replicate, <- replicate_add. f_equal. lia.
  - eexists _, e. split; [reflexivity | ]. split; [exact He | exact Hx].
Qed.
Lemma asio_latencies_witness : exists c e, (new_client None None (replicate 1024 None) 4000 1000).2 = inl c /\
  pair_run (new_server (Some 3) (replicate 128 (Some 0))) c (to_string 1000) [1005; 1007] =
    Ok (exchanges 1000 (take (Z.to_nat 100001) [1005; 1007]), e) /\ (e = Exited 0 <-> 100001 <= 2).
Proof.
  apply (asio_latencies 3 (replicate 1024 None) 4000 1000 [1005; 1007]); [done | ].
  repeat (apply Forall_cons_2; [split; [lia | done] | ]). apply Forall_nil_2.
Defined.
End Asio.
