(* ===== verification/Paxos.v ===== *)
(** * Paxos messages and the drivers of the Paxos library:
    [static_library/include/paxos_types.h], [static_library/acceptor_test.c],
    [static_library/proposer_test.c], [static_library/paxos_learner.c]

    The messages are modelled in memory: the packed structures and the union of
    [paxos_message] as bytes, with the fields at their offsets.  The library is in the
    repository as a binary only, so the three drivers are written against classes of its
    operations, with its own state as a type, and their theorems hold for every
    instance.  What the source leaves indeterminate (the first contents of [out],
    [pre] and [acpt], the first value of [ret]) is an argument. *)
From S2P Require Import Prelude CLib Bytes.

Module Paxos.

(** ** The messages *)
Record paxos_value := MkValue { paxos_value_len : Z; paxos_value_val : Z }.
(** [paxos_prepare], [paxos_promise], [paxos_accept], [paxos_accepted] and
    [paxos_preempted] are declared with the same fields. *)
Record ballot_message := MkBallot { iid : Z; ballot : Z; value_ballot : Z; aid : Z; value : paxos_value }.
Inductive paxos_message :=
| PAXOS_PREPARE (prepare : ballot_message)
| PAXOS_PROMISE (promise : ballot_message)
| PAXOS_ACCEPT (accept : ballot_message)
| PAXOS_ACCEPTED (accepted : ballot_message)
| PAXOS_PREEMPTED (preempted : ballot_message)
| PAXOS_REPEAT (from to : Z)
| PAXOS_TRIM (trim_iid : Z)
| PAXOS_ACCEPTOR_STATE (state_aid state_trim_iid : Z)
| PAXOS_CLIENT_VALUE (v : paxos_value).
(** [enum paxos_message_type] *)
Definition message_type (m : paxos_message) : Z :=
  match m with
  | PAXOS_PREPARE _ => 0 | PAXOS_PROMISE _ => 1 | PAXOS_ACCEPT _ => 2 | PAXOS_ACCEPTED _ => 3
  | PAXOS_PREEMPTED _ => 4 | PAXOS_REPEAT _ _ => 5 | PAXOS_TRIM _ => 6 | PAXOS_ACCEPTOR_STATE _ _ => 7
  | PAXOS_CLIENT_VALUE _ => 8
  end.

(** The packed layouts. *)
Definition SIZEOF_BALLOT : Z := 22.
Definition SIZEOF_MESSAGE : Z := 26.
Definition value_bytes (v : paxos_value) : bytes := le_bytes 4 (paxos_value_len v) ++ le_bytes 8 (paxos_value_val v).
Definition ballot_bytes (b : ballot_message) : bytes :=
  le_bytes 4 (iid b) ++ le_bytes 2 (ballot b) ++ le_bytes 2 (value_ballot b) ++ le_bytes 2 (aid b) ++ value_bytes (value b).
Definition member_bytes (m : paxos_message) : bytes :=
  match m with
  | PAXOS_PREPARE b | PAXOS_PROMISE b | PAXOS_ACCEPT b | PAXOS_ACCEPTED b | PAXOS_PREEMPTED b => ballot_bytes b
  | PAXOS_REPEAT from to => le_bytes 4 from ++ le_bytes 4 to
  | PAXOS_TRIM i => le_bytes 4 i
  | PAXOS_ACCEPTOR_STATE a i => le_bytes 4 a ++ le_bytes 4 i
  | PAXOS_CLIENT_VALUE v => value_bytes v
  end.
(** Reading the members. *)
Definition get_value (obj : bytes) (off : Z) : outcome paxos_value :=
  let! l := get32 obj off in let! p := get64 obj (off + 4) in Ok (MkValue (i32 l) p).
Definition get_ballot (obj : bytes) (off : Z) : outcome ballot_message :=
  let! i := get32 obj off in
  let! b := get16 obj (off + 4) in
  let! vb := get16 obj (off + 6) in
  let! a := get16 obj (off + 8) in
  let! v := get_value obj (off + 10) in
  Ok (MkBallot i b vb a v).
(** ** Printing

    [%s] of a pointer: what the memory holds there; of a null pointer it is undefined,
    or the text of the C library ([null_text]). *)
Section Printing.
Context (null_text : option bytes) (strings : Z -> option bytes).
Definition str_arg (p : Z) : outcome bytes :=
  match (if p =? 0 then null_text else strings p) with Some s => Ok s | None => Ub end.
Definition dump_paxos_message (m : bytes) : outcome bytes :=
  let! t := get32 m 0 in
  let! b := get_ballot m 4 in
  let! s := str_arg (paxos_value_val (value b)) in
  Ok (lit "{ .type = " ++ dec (i32 t) ++ lit ", .iid = " ++ dec (i32 (iid b)) ++ lit ", .ballot = " ++ dec (ballot b)
      ++ lit ", .value_ballot = " ++ dec (value_ballot b) ++ lit ", .value = { .len = "
      ++ dec (paxos_value_len (value b)) ++ lit ", val = " ++ s ++ lit "}}" ++ [10]).
Definition dump_prepare_message (m : bytes) : outcome bytes :=
  let! b := get_ballot m 0 in
  let! s := str_arg (paxos_value_val (value b)) in
  Ok (lit "PREPARE: .iid = " ++ dec (i32 (iid b)) ++ lit ", .ballot = " ++ dec (ballot b)
      ++ lit ", .value_ballot = " ++ dec (value_ballot b) ++ lit ", .value = { .len = "
      ++ dec (paxos_value_len (value b)) ++ lit ", val = " ++ s ++ lit "}}" ++ [10]).
Definition dump_accept_message (m : bytes) : outcome bytes :=
  let! b := get_ballot m 0 in
  let head := lit "dump_accept_message" ++ [10] ++ lit "ACCEPT: .iid = " ++ dec (i32 (iid b)) ++ lit ", .ballot = "
      ++ dec (ballot b) ++ lit ", .value_ballot = " ++ dec (value_ballot b) ++ lit ", .value = " in
  if negb (paxos_value_val (value b) =? 0) then
    let! s := str_arg (paxos_value_val (value b)) in
    Ok (head ++ lit " {.len=" ++ dec (paxos_value_len (value b)) ++ lit ", val=" ++ s ++ lit "}" ++ [10])
  else Ok (head ++ lit "NULL }" ++ [10]).
End Printing.
Definition returns_line (who : string) (ret : Z) : bytes := lit who ++ lit " returns " ++ dec ret ++ [10].
Definition zeroed (n : Z) : bytes := replicate (Z.to_nat n) 0.

(** ** The acceptor driver *)
Class AcceptorLib (A : Type) := {
  acceptor_new : Z -> A;
  acceptor_receive_prepare : A -> ballot_message -> bytes -> outcome (Z * bytes * A);
  acceptor_receive_accept : A -> ballot_message -> bytes -> outcome (Z * bytes * A);
  acceptor_free : A -> outcome unit;
  (** the strings the pointers of a message point to *)
  acceptor_strings : A -> Z -> option bytes;
}.
Section Acceptor.
Context `{AcceptorLib A} (null_text : option bytes).
(** One request: the return value, the reply and both as printed. *)
Definition ask_acceptor (receive : A -> ballot_message -> bytes -> outcome (Z * bytes * A))
    (acc : A) (req : ballot_message) (out : bytes) : outcome (bytes * A) :=
  let! '(ret, out, acc) := receive acc req out in
  let! d := dump_paxos_message null_text (acceptor_strings acc) out in
  Ok (returns_line "acceptor" ret ++ d, acc).
(** [hello]: the address of the literal. *)
Definition acceptor_main (hello : Z) (out0 : bytes) : outcome bytes :=
  let acc := acceptor_new 2 in
  let pre := MkBallot 1 2 0 0 (MkValue 0 0) in
  let ack := MkBallot 1 2 1 0 (MkValue 6 hello) in
  let old_pre := MkBallot 1 1 0 0 (MkValue 0 0) in
  let old_ack := MkBallot 1 1 0 0 (MkValue 0 0) in
  let! '(p1, acc) := ask_acceptor acceptor_receive_prepare acc pre out0 in
  let! d := dump_paxos_message null_text (acceptor_strings acc) (zeroed SIZEOF_MESSAGE) in
  let! '(p2, acc) := ask_acceptor acceptor_receive_prepare acc old_pre (zeroed SIZEOF_MESSAGE) in
  let! '(p3, acc) := ask_acceptor acceptor_receive_accept acc ack (zeroed SIZEOF_MESSAGE) in
  let! '(p4, acc) := ask_acceptor acceptor_receive_prepare acc old_pre (zeroed SIZEOF_MESSAGE) in
  let! '(p5, acc) := ask_acceptor acceptor_receive_accept acc old_ack (zeroed SIZEOF_MESSAGE) in
  let! _ := acceptor_free acc in
  Ok (p1 ++ d ++ p2 ++ p3 ++ p4 ++ p5).
End Acceptor.

(** ** The learner driver *)
Definition NUM_ACCEPTORS : Z := 3.
Class LearnerLib (L : Type) := {
  learner_new : Z -> L;
  learner_set_instance_id : L -> Z -> L;
  learner_receive_accepted : L -> ballot_message -> L;
  learner_deliver_next : L -> bytes -> outcome (Z * bytes * L);
  learner_free : L -> outcome unit;
}.
Section Learner.
Context `{LearnerLib L}.
Definition tell_learner (l : L) (ack : ballot_message) (out : bytes) : outcome (bytes * bytes * L) :=
  let! '(ret, out, l) := learner_deliver_next (learner_receive_accepted l ack) out in
  Ok (returns_line "Learner" ret, out, l).
(** [-1] becomes an [iid_t]. *)
Definition learner_main (hello : Z) (out0 : bytes) : outcome bytes :=
  let l := learner_set_instance_id (learner_new NUM_ACCEPTORS) (u32 (-1)) in
  let ack n := MkBallot 0 1 1 n (MkValue 6 hello) in
  let! '(p0, out, l) := tell_learner l (ack 0) out0 in
  let! '(p1, out, l) := tell_learner l (ack 1) out in
  let! '(p2, out, l) := tell_learner l (ack 2) out in
  let! _ := learner_free l in
  Ok (p0 ++ p1 ++ p2).
End Learner.

(** ** The proposer driver *)
Class ProposerLib (P : Type) := {
  (** with the verbosity of [paxos_config] *)
  proposer_new : Z -> Z -> Z -> P;
  proposer_prepare : P -> bytes -> outcome (bytes * P);
  proposer_receive_promise : P -> ballot_message -> bytes -> outcome (Z * bytes * P);
  proposer_accept : P -> bytes -> outcome (Z * bytes * P);
  proposer_free : P -> outcome unit;
  proposer_strings : P -> Z -> option bytes;
}.
Definition PAXOS_LOG_DEBUG : Z := 3.
Section Proposer.
Context `{ProposerLib P} (null_text : option bytes).
(** [printf("proposer returns %d\n", ret)] with a variable that may be unset. *)
Definition print_ret (ret : option Z) : outcome bytes :=
  match ret with Some r => Ok (returns_line "proposer" r) | None => Ub end.
(** A promise and the dump of [pre] after it; [pre] keeps what it held. *)
Definition give_promise (p : P) (promise : ballot_message) (pre : bytes) : outcome (bytes * bytes * P) :=
  let! '(ret, pre, p) := proposer_receive_promise p promise pre in
  let! a := print_ret (Some ret) in
  let! b := dump_prepare_message null_text (proposer_strings p) pre in
  Ok (a ++ b, pre, p).
Definition proposer_main (ret0 : option Z) (hello : Z) (pre0 acpt0 : bytes) : outcome bytes :=
  let p := proposer_new PAXOS_LOG_DEBUG 0 3 in
  let promise n := MkBallot 1 12 1 n (MkValue 6 hello) in
  let! '(pre, p) := proposer_prepare p pre0 in
  let! o1 := print_ret ret0 in
  let! o2 := dump_prepare_message null_text (proposer_strings p) pre in
  let! '(o3, pre, p) := give_promise p (promise 0) (zeroed SIZEOF_BALLOT) in
  let! '(ret, _, p) := proposer_accept p acpt0 in
  let! o4 := print_ret (Some ret) in
  let! '(o5, _, p) := give_promise p (promise 2) pre in
  let! '(ret, acpt, p) := proposer_accept p (zeroed SIZEOF_BALLOT) in
  let! o6 := print_ret (Some ret) in
  let! o7 := dump_accept_message null_text (proposer_strings p) acpt in
  let! _ := proposer_free p in
  Ok (o1 ++ o2 ++ o3 ++ o4 ++ o5 ++ o6 ++ o7).
End Proposer.


(** ** The layout *)
Definition wf_value (v : paxos_value) : Prop :=
  INT_MIN <= paxos_value_len v <= INT_MAX /\ 0 <= paxos_value_val v < 2 ^ 64.
Definition wf_ballot (b : ballot_message) : Prop :=
  0 <= iid b < 2 ^ 32 /\ 0 <= ballot b < 2 ^ 16 /\ 0 <= value_ballot b < 2 ^ 16 /\ 0 <= aid b < 2 ^ 16 /\ wf_value (value b).
Definition wf_message (m : paxos_message) : Prop :=
  match m with
  | PAXOS_PREPARE b | PAXOS_PROMISE b | PAXOS_ACCEPT b | PAXOS_ACCEPTED b | PAXOS_PREEMPTED b => wf_ballot b
  | PAXOS_REPEAT x y | PAXOS_ACCEPTOR_STATE x y => 0 <= x < 2 ^ 32 /\ 0 <= y < 2 ^ 32
  | PAXOS_TRIM x => 0 <= x < 2 ^ 32
  | PAXOS_CLIENT_VALUE v => wf_value v
  end.

Lemma get_le_at k p v r off : off = len p -> 0 <= v < 256 ^ Z.of_nat k -> get_le k (p ++ le_bytes k v ++ r) off = Ok v.
Proof. intros -> Hv. rewrite get_le_mid by done. by rewrite Z.mod_small. Qed.
Lemma i32_mod n : INT_MIN <= n <= INT_MAX -> i32 (n mod 2 ^ 32) = n.
Proof.
  intros Hn. unfold i32, swrap. rewrite Z.add_mod_idemp_l by done. rewrite Z.mod_small; unfold INT_MIN, INT_MAX in Hn; lia.
Qed.
Lemma get_value_at p v r off : off = len p -> wf_value v -> get_value (p ++ value_bytes v ++ r) off = Ok v.
Proof.
  intros -> [Hl Hp]. unfold get_value, value_bytes, get32, get64. rewrite <- app_assoc, get_le_mid, obind_ok by done.
  rewrite (app_assoc p), get_le_at, obind_ok by (rewrite ?length_app, ?length_le_bytes; lia).
  change (256 ^ Z.of_nat 4) with (2 ^ 32). rewrite i32_mod by done. by destruct v.
Qed.
Lemma get_ballot_at p b r off : off = len p -> wf_ballot b -> get_ballot (p ++ ballot_bytes b ++ r) off = Ok b.
Proof.
  intros -> (Hi & Hb & Hvb & Ha & Hv). unfold get_ballot, ballot_bytes, get32, get16. rewrite <- !app_assoc.
  rewrite get_le_at, obind_ok by (done || lia).
  rewrite (app_assoc p), get_le_at, obind_ok by (rewrite ?length_app, ?length_le_bytes; lia).
  rewrite (app_assoc (p ++ _)), get_le_at, obind_ok by (rewrite ?length_app, ?length_le_bytes; lia).
  rewrite (app_assoc ((p ++ _) ++ _)), get_le_at, obind_ok by (rewrite ?length_app, ?length_le_bytes; lia).
  rewrite (app_assoc (((p ++ _) ++ _) ++ _)), get_value_at, obind_ok by (done || rewrite ?length_app, ?length_le_bytes; lia).
  by destruct b.
Qed.
Lemma length_member m : (4 <= length (member_bytes m) <= 22)%nat.
Proof. destruct m; cbn [member_bytes]; unfold ballot_bytes, value_bytes; rewrite ?length_app, ?length_le_bytes; lia. Qed.
(** Reading [u.accept] of a message without a ballot gives its first words and what the
    object held behind them. *)
Definition as_accept (m : paxos_message) (b : ballot_message) : Prop :=
  match m with
  | PAXOS_PREPARE b' | PAXOS_PROMISE b' | PAXOS_ACCEPT b' | PAXOS_ACCEPTED b' | PAXOS_PREEMPTED b' => b = b'
  | PAXOS_REPEAT x y | PAXOS_ACCEPTOR_STATE x y => iid b = x /\ ballot b = y mod 2 ^ 16 /\ value_ballot b = y / 2 ^ 16
  | PAXOS_TRIM x => iid b = x
  | PAXOS_CLIENT_VALUE v =>
      iid b = paxos_value_len v mod 2 ^ 32 /\ ballot b = paxos_value_val v mod 2 ^ 16 /\
      value_ballot b = paxos_value_val v / 2 ^ 16 mod 2 ^ 16
  end.
Lemma get_ballot_ok obj off : 0 <= off -> off + 22 <= len obj -> exists b, get_ballot obj off = Ok b.
Proof.
  intros H1 H2. unfold get_ballot, get_value, get16, get32, get64, get_le.
  repeat (rewrite load_ok by lia; rewrite !obind_ok). by eexists.
Qed.
(** An object that starts with these fields. *)
Lemma get_ballot_words p x b1 b2 r off b : off = len p ->
  get_ballot (p ++ le_bytes 4 x ++ le_bytes 2 b1 ++ le_bytes 2 b2 ++ r) off = Ok b ->
  iid b = x mod 2 ^ 32 /\ ballot b = b1 mod 2 ^ 16 /\ value_ballot b = b2 mod 2 ^ 16.
Proof.
  intros ->. unfold get_ballot, get32, get16. rewrite get_le_mid, obind_ok by done.
  rewrite (app_assoc p), get_le_mid, obind_ok by (rewrite ?length_app, ?length_le_bytes; lia).
  rewrite (app_assoc (p ++ _)), get_le_mid, obind_ok by (rewrite ?length_app, ?length_le_bytes; lia).
  intros (a & _ & (v & _ & [= <-])%obind_inv)%obind_inv. done.
Qed.
Lemma le_bytes_split n k v : 0 <= v -> le_bytes (n + k) v = le_bytes n v ++ le_bytes k (v / 256 ^ Z.of_nat n).
Proof.
  revert v. induction n as [ | n IH]; intros v Hv; cbn [Nat.add le_bytes app]; [by rewrite Z.div_1_r | ].
  rewrite IH by (apply Z.div_pos; lia). rewrite Nat2Z.inj_succ, Z.pow_succ_r by lia. by rewrite Z.div_div by lia.
Qed.
Lemma as_accept_read m r b : wf_message m -> length r = (22 - length (member_bytes m))%nat ->
  get_ballot (le_bytes 4 (message_type m) ++ member_bytes m ++ r) 4 = Ok b -> as_accept m b.
Proof.
  intros Hw Hr.
  assert (forall b', wf_ballot b' -> get_ballot (le_bytes 4 (message_type m) ++ ballot_bytes b' ++ r) 4 = Ok b -> b = b') as Hbal.
  { intros b' Hb'. rewrite get_ballot_at by (done || by rewrite length_le_bytes). congruence. }
  assert (forall x y, 0 <= x < 2 ^ 32 -> 0 <= y < 2 ^ 32 ->
    get_ballot (le_bytes 4 (message_type m) ++ (le_bytes 4 x ++ le_bytes 4 y) ++ r) 4 = Ok b ->
    iid b = x /\ ballot b = y mod 2 ^ 16 /\ value_ballot b = y / 2 ^ 16) as Htwo.
  { intros x y Hx Hy. change (le_bytes 4 y) with (le_bytes (2 + 2) y). rewrite le_bytes_split, <- !app_assoc by lia.
    intros (-> & -> & ->)%get_ballot_words; [ | by rewrite length_le_bytes].
    change (256 ^ Z.of_nat 2) with (2 ^ 16).
    rewrite (Z.mod_small x), (Z.mod_small (y / _)); [done | | done].
    split; [apply Z.div_pos | apply Z.div_lt_upper_bound]; lia. }
  destruct m; cbn [member_bytes as_accept wf_message] in *.
  1-5: exact (Hbal _ Hw). 1,3: exact (Htwo _ _ (proj1 Hw) (proj2 Hw)).
  - unfold get_ballot, get32. rewrite get_le_at, obind_ok by (done || by rewrite length_le_bytes).
    intros (? & _ & (? & _ & (? & _ & (? & _ & [= <-])%obind_inv)%obind_inv)%obind_inv)%obind_inv. done.
  - destruct Hw as [_ Hv]. unfold value_bytes. change (le_bytes 8 (paxos_value_val v)) with (le_bytes (2 + (2 + 4)) (paxos_value_val v)).
    rewrite !le_bytes_split, <- !app_assoc by (try apply Z.div_pos; lia).
    intros (-> & -> & ->)%get_ballot_words; [ | by rewrite length_le_bytes]. done.
Qed.
(** What [dump_paxos_message] prints of an object that holds a message: the type and,
    whatever the type is, the member [u.accept].  Of the five kinds of ballot messages
    these are exactly the fields of the message, of the other kinds their words cut into
    the fields of an accept; a pointer that is no string makes it undefined. *)
Theorem dump_prints null_text strings (m : paxos_message) (r : bytes) :
  wf_message m -> length r = (22 - length (member_bytes m))%nat ->
  exists b, as_accept m b /\
    dump_paxos_message null_text strings (le_bytes 4 (message_type m) ++ member_bytes m ++ r) =
    let! s := str_arg null_text strings (paxos_value_val (value b)) in
    Ok (lit "{ .type = " ++ dec (message_type m) ++ lit ", .iid = " ++ dec (i32 (iid b)) ++ lit ", .ballot = " ++ dec (ballot b)
        ++ lit ", .value_ballot = " ++ dec (value_ballot b) ++ lit ", .value = { .len = "
        ++ dec (paxos_value_len (value b)) ++ lit ", val = " ++ s ++ lit "}}" ++ [10]).
Proof.
  intros Hw Hr. pose proof (length_member m) as Hm.
  destruct (get_ballot_ok (le_bytes 4 (message_type m) ++ member_bytes m ++ r) 4) as [b Hb];
    [lia | rewrite !length_app, length_le_bytes; lia | ].
  exists b. split; [by apply (as_accept_read m r b) | ]. unfold dump_paxos_message, get32. rewrite get_le_prefix, obind_ok, Hb, obind_ok.
  by destruct m.
Qed.

(** ** The drivers, for every library *)
Lemma Ok_inj {X} (x y : X) : Ok x = Ok y -> x = y.
Proof. congruence. Qed.
Lemma dump_zeroed null_text strings : dump_paxos_message null_text strings (zeroed SIZEOF_MESSAGE) =
  let! s := match null_text with Some s => Ok s | None => Ub end in
  Ok (lit "{ .type = 0, .iid = 0, .ballot = 0, .value_ballot = 0, .value = { .len = 0, val = " ++ s ++ lit "}}" ++ [10]).
Proof. by destruct null_text. Qed.
Lemma ask_acceptor_inv `{AcceptorLib A} null receive acc req out o acc' :
  ask_acceptor null receive acc req out = Ok (o, acc') ->
  exists ret d, o = returns_line "acceptor" ret ++ d /\ exists out', dump_paxos_message null (acceptor_strings acc') out' = Ok d.
Proof.
  unfold ask_acceptor. intros ([[ret out'] a] & _ & (d & Hd & [= <- <-])%obind_inv)%obind_inv.
  exists ret, d. split; [done | ]. by exists out'.
Qed.
Lemma tell_learner_inv `{LearnerLib L} l ack out o out' l' :
  tell_learner l ack out = Ok (o, out', l') -> exists ret, o = returns_line "Learner" ret.
Proof. unfold tell_learner. intros ([[ret x] a] & _ & [= <- _ _])%obind_inv. by exists ret. Qed.

(** What the drivers do whatever the library does.  The acceptor test prints a null
    pointer with [%s] in its second dump, so it is undefined unless the C library gives
    null pointers a text, and then that dump is fixed; the proposer test prints [ret]
    before its first assignment, so it is undefined; the learner prints three results
    and nothing else. *)
Theorem paxos_drivers :
  (forall `{AcceptorLib A} hello out0 txt, acceptor_main None hello out0 <> Ok txt) /\
  (forall `{AcceptorLib A} t hello out0 txt, acceptor_main (Some t) hello out0 = Ok txt ->
     exists ret d rest, txt = returns_line "acceptor" ret ++ d ++
       lit "{ .type = 0, .iid = 0, .ballot = 0, .value_ballot = 0, .value = { .len = 0, val = " ++ t ++ lit "}}" ++ [10] ++ rest) /\
  (forall `{ProposerLib P} null hello pre0 acpt0 txt, proposer_main null None hello pre0 acpt0 <> Ok txt) /\
  (forall `{LearnerLib L} hello out0 txt, learner_main hello out0 = Ok txt ->
     exists r0 r1 r2, txt = returns_line "Learner" r0 ++ returns_line "Learner" r1 ++ returns_line "Learner" r2).
Proof.
  split; [ | split; [ | split]].
  - intros A ? hello out0 txt. unfold acceptor_main.
    intros ([o a] & _ & (d & Hd & _)%obind_inv)%obind_inv. by rewrite dump_zeroed in Hd.
  - intros A ? t hello out0 txt. unfold acceptor_main.
    intros ([o a] & (ret & d & -> & _)%ask_acceptor_inv & (z & Hz & ([p2 a2] & _ & ([p3 a3] & _ & ([p4 a4] & _ &
      ([p5 a5] & _ & (? & _ & <-%Ok_inj)%obind_inv)%obind_inv)%obind_inv)%obind_inv)%obind_inv)%obind_inv)%obind_inv.
    rewrite dump_zeroed, obind_ok in Hz. apply Ok_inj in Hz. subst z.
    exists ret, d, (p2 ++ p3 ++ p4 ++ p5). by rewrite <- !app_assoc.
  - intros P ? null hello pre0 acpt0 txt. unfold proposer_main.
    intros ([pre p] & _ & (o & Ho & _)%obind_inv)%obind_inv. done.
  - intros L ? hello out0 txt. unfold learner_main.
    intros ([[o0 out1] l1] & [r0 ->]%tell_learner_inv & ([[o1 out2] l2] & [r1 ->]%tell_learner_inv &
      ([[o2 out3] l3] & [r2 ->]%tell_learner_inv & (? & _ & <-%Ok_inj)%obind_inv)%obind_inv)%obind_inv)%obind_inv.
    by exists r0, r1, r2.
Qed.
End Paxos.
